(** * Flow builder: graph store, router ports, network detection and validation

    Shallow embedding of the graph/validation core of
    [python_a2a/agent_flow/server/static/js/flow-builder.js].

    The editor keeps two arrays, [nodes] and [connections], that are
    re-assigned or mutated in place by the event handlers.  Here every
    handler is a function on an explicit state.  DOM calls that only
    paint (classes, styles, SVG paths, toasts) are left out; the DOM
    facts that decide control flow (the output-port elements of a
    router, the parent of a node element) are part of the state.
    Coordinates are rendering data and are not modelled. *)

From Stdlib Require Import ZArith Lia Ascii String.
From stdpp Require Import gmap strings list fin_maps pretty.

Open Scope string_scope.
Open Scope list_scope.
Open Scope Z_scope.

(** ** JavaScript values used by the model *)

(** A property that holds a string, or is absent ([undefined]). *)
Definition truthy (v : option string) : bool :=
  match v with
  | Some s => negb (bool_decide (s = ""))
  | None => false
  end.

(** A string is the UTF-8 text of the JavaScript string.

    [String.prototype.trim] removes, at both ends, the code points that
    ECMAScript calls WhiteSpace or LineTerminator.  By the bytes of
    their UTF-8 encoding these are
    - U+0009 to U+000D and U+0020: one byte, 9 to 13 and 32;
    - U+00A0: the two bytes C2 A0;
    - U+1680: E1 9A 80;
    - U+2000 to U+200A, U+2028, U+2029 and U+202F: E2 80 followed by
      80 to 8A, A8, A9 or AF;
    - U+205F: E2 81 9F;
    - U+3000: E3 80 80;
    - U+FEFF: EF BB BF. *)
Definition is_ws (a : ascii) : bool :=
  let n := nat_of_ascii a in
  bool_decide (n = 9 ∨ n = 10 ∨ n = 11 ∨ n = 12 ∨ n = 13 ∨ n = 32)%nat.

Definition is_ws2 (a b : ascii) : bool :=
  bool_decide (nat_of_ascii a = 194 ∧ nat_of_ascii b = 160)%nat.

Definition is_ws3 (a b c : ascii) : bool :=
  let x := nat_of_ascii a in
  let y := nat_of_ascii b in
  let z := nat_of_ascii c in
  bool_decide
    ((x = 225 ∧ y = 154 ∧ z = 128)
     ∨ (x = 226 ∧ y = 128
        ∧ ((128 ≤ z ∧ z ≤ 138) ∨ z = 168 ∨ z = 169 ∨ z = 175))
     ∨ (x = 226 ∧ y = 129 ∧ z = 159)
     ∨ (x = 227 ∧ y = 128 ∧ z = 128)
     ∨ (x = 239 ∧ y = 187 ∧ z = 191))%nat.

(** [String.prototype.trimStart]: white space is dropped as long as the
    text starts with one of the encodings above. *)
Fixpoint trim_start (s : string) : string :=
  match s with
  | String a s1 =>
      if is_ws a then trim_start s1
      else
        match s1 with
        | String b s2 =>
            if is_ws2 a b then trim_start s2
            else
              match s2 with
              | String c s3 => if is_ws3 a b c then trim_start s3 else s
              | EmptyString => s
              end
        | EmptyString => s
        end
  | EmptyString => EmptyString
  end.

Definition str_rev (s : string) : string :=
  string_of_list_ascii (rev (list_ascii_of_string s)).

(** The same from the other end: the argument is the text with its
    bytes in reverse order, so that an encoding is met last byte
    first. *)
Fixpoint trim_start_rev (s : string) : string :=
  match s with
  | String a s1 =>
      if is_ws a then trim_start_rev s1
      else
        match s1 with
        | String b s2 =>
            if is_ws2 b a then trim_start_rev s2
            else
              match s2 with
              | String c s3 => if is_ws3 c b a then trim_start_rev s3 else s
              | EmptyString => s
              end
        | EmptyString => s
        end
  | EmptyString => EmptyString
  end.

(** [String.prototype.trimEnd] *)
Definition trim_end (s : string) : string :=
  str_rev (trim_start_rev (str_rev s)).

(** [String.prototype.trim] *)
Definition trim (s : string) : string := trim_end (trim_start s).

(** [!v || v.trim() === ''] *)
Definition blank (v : option string) : bool :=
  match v with
  | Some s => bool_decide (s = "") || bool_decide (trim s = "")
  | None => true
  end.

(** [s.split('-')[1]] inside a template literal. *)
Fixpoint split_on (sep : ascii) (cur : string) (s : string) : list string :=
  match s with
  | EmptyString => [str_rev cur]
  | String a s' =>
      if bool_decide (a = sep) then str_rev cur :: split_on sep "" s'
      else split_on sep (String a cur) s'
  end.

Definition split_dash_1 (s : string) : string :=
  match split_on "-"%char "" s !! 1%nat with
  | Some t => t
  | None => "undefined"
  end.

(** ** Data model *)

(** The object captured at [mousedown]/[mouseup] on a port:
    [{nodeId, port, portNumber, x, y}].  [port] is the element's
    [data-port-type], [portNumber] its [data-port-number] attribute. *)
Record PortRef := {
  nodeId : string;
  port : string;
  portNumber : option string
}.

(** [connectionData]: [{id, element, start, end}].  The last two fields
    are the properties [sourceNode] and [sourcePort] that
    [removeOutputPort] reads from a stored connection; [createConnection]
    builds the object without them, so they are absent ([None]) there. *)
Record Connection := {
  conn_id : string;
  start : PortRef;
  end_ : PortRef;
  sourceNode : option string;
  sourcePort : option Z
}.

(** One entry of [config.keywordPatterns]. *)
Record Pattern := {
  keyword : string;
  pat_port : Z;
  originalType : string;
  originalValue : string
}.

(** [node.config]: an open object; the fields the code reads. *)
Record Config := {
  name : option string;
  apiKey : option string;
  apiUrl : option string;
  model : option string;
  accessKey : option string;
  secretKey : option string;
  region : option string;
  cfg_port : option string;
  endpoint : option string;
  routingStrategy : option string;
  outputPorts : option Z;
  keywordPatterns : option (list Pattern)
}.

(** [{}] *)
Definition emptyConfig : Config :=
  {| name := None; apiKey := None; apiUrl := None; model := None;
     accessKey := None; secretKey := None; region := None;
     cfg_port := None; endpoint := None; routingStrategy := None;
     outputPorts := None; keywordPatterns := None |}.

(** The part of a node's DOM element that decides what the handlers
    do: whether the element is a child of [nodeContainer] (else
    [nodeContainer.removeChild] throws), the [.output-ports-container]
    (when there is one) and, in document order, the [data-port-number]
    of each [.output-port] in it. *)
Record NodeElement := {
  inNodeContainer : bool;
  outputPortsContainer : option (list Z)
}.

(** [nodeData]: [{id, element, type, subType, position, config}]. *)
Record NodeData := {
  node_id : string;
  element : option NodeElement;
  type : string;
  subType : option string;
  config : option Config
}.

#[global] Instance PortRef_eq_dec : EqDecision PortRef.
Proof. solve_decision. Defined.
#[global] Instance Connection_eq_dec : EqDecision Connection.
Proof. solve_decision. Defined.
#[global] Instance Pattern_eq_dec : EqDecision Pattern.
Proof. solve_decision. Defined.
#[global] Instance Config_eq_dec : EqDecision Config.
Proof. solve_decision. Defined.
#[global] Instance NodeElement_eq_dec : EqDecision NodeElement.
Proof. solve_decision. Defined.
#[global] Instance NodeData_eq_dec : EqDecision NodeData.
Proof. solve_decision. Defined.

(** [node.config || {}] *)
Definition config_or_empty (node : NodeData) : Config :=
  match config node with
  | Some c => c
  | None => emptyConfig
  end.

(** ** Network validation *)

(** The [Set] filled by
    [forEach(conn => { add(conn.start.nodeId); add(conn.end.nodeId) })]. *)
Definition connectedNodeIds (conns : list Connection) : gset string :=
  foldl (λ s conn, (s ∪ {[ nodeId (start conn) ]}) ∪ {[ nodeId (end_ conn) ]})
        ∅ conns.

Definition has_id (s : gset string) (node : NodeData) : bool :=
  bool_decide (node_id node ∈ s).

Definition is_type (t : string) (node : NodeData) : bool :=
  bool_decide (type node = t).

Definition subType_is (t : string) (node : NodeData) : bool :=
  bool_decide (subType node = Some t).

(** The body of the configuration loop of [validateNetworkSubset] for
    one node: [false] is the early [return false]. *)
Definition agentConfigured (node : NodeData) : bool :=
  if is_type "agent" node then
    let config := config_or_empty node in
    if subType_is "openai" node
       && (negb (truthy (apiKey config)) || negb (truthy (model config)))
    then false
    else if subType_is "ollama" node
       && (negb (truthy (apiUrl config)) || negb (truthy (apiKey config))
           || negb (truthy (model config)))
    then false
    else if subType_is "anthropic" node
       && (negb (truthy (apiKey config)) || negb (truthy (model config)))
    then false
    else if subType_is "bedrock" node
       && (negb (truthy (accessKey config)) || negb (truthy (secretKey config))
           || negb (truthy (region config)) || negb (truthy (model config)))
    then false
    else if subType_is "custom" node
       && (negb (truthy (cfg_port config)) && negb (truthy (endpoint config)))
    then false
    else true
  else true.

(** [for (const node of l) { if (!ok(node)) return false; }]:
    [true] when the loop runs to its end. *)
Fixpoint loop_all (ok : NodeData → bool) (l : list NodeData) : bool :=
  match l with
  | [] => true
  | node :: rest => if ok node then loop_all ok rest else false
  end.

Definition validateNetworkSubset
    (networkNodes : list NodeData) (networkConnections : list Connection) : bool :=
  let inputNodes := List.filter (is_type "input") networkNodes in
  let outputNodes := List.filter (is_type "output") networkNodes in
  if bool_decide (length inputNodes = 0%nat) || bool_decide (length outputNodes = 0%nat)
  then false
  else if bool_decide (length networkConnections = 0%nat)
  then false
  else
    let ids := connectedNodeIds networkConnections in
    let inputConnected := existsb (has_id ids) inputNodes in
    let outputConnected := existsb (has_id ids) outputNodes in
    if negb inputConnected || negb outputConnected
    then false
    else if negb (loop_all (has_id ids) networkNodes)
    then false
    else if negb (loop_all agentConfigured networkNodes)
    then false
    else true.

(** The result of [validateNetwork]: [{valid, errors}]. *)
Record ValidationResult := {
  valid : bool;
  errors : list string
}.

(** [config.name || 'Unnamed'] *)
Definition name_or_unnamed (config : Config) : string :=
  match name config with
  | Some s => if bool_decide (s = "") then "Unnamed" else s
  | None => "Unnamed"
  end.

(** The errors pushed by one iteration of the agent loop of
    [validateNetwork]. *)
Definition agentErrors (node : NodeData) : list string :=
  if is_type "agent" node then
    let config := config_or_empty node in
    let who := name_or_unnamed config in
    (if blank (name config)
     then ["Agent node #" +:+ split_dash_1 (node_id node) +:+ " needs a name"]
     else [])
    ++
    (if subType_is "openai" node then
       (if blank (apiKey config)
        then ["OpenAI agent " +:+ who +:+ " is missing API key"] else [])
       ++ (if negb (truthy (model config))
           then ["OpenAI agent " +:+ who +:+ " is missing model selection"] else [])
     else if subType_is "ollama" node then
       (if blank (apiUrl config)
        then ["Ollama agent " +:+ who +:+ " is missing API url"] else [])
       ++ (if blank (apiKey config)
           then ["Ollama agent " +:+ who +:+ " is missing API key"] else [])
       ++ (if negb (truthy (model config))
           then ["Ollama agent " +:+ who +:+ " is missing model definition"] else [])
     else if subType_is "anthropic" node then
       (if blank (apiKey config)
        then ["Claude agent " +:+ who +:+ " is missing API key"] else [])
       ++ (if negb (truthy (model config))
           then ["Claude agent " +:+ who +:+ " is missing model selection"] else [])
     else if subType_is "bedrock" node then
       (if blank (accessKey config) || blank (secretKey config)
        then ["Bedrock agent " +:+ who +:+ " is missing AWS credentials"] else [])
       ++ (if negb (truthy (region config))
           then ["Bedrock agent " +:+ who +:+ " is missing AWS region"] else [])
       ++ (if negb (truthy (model config))
           then ["Bedrock agent " +:+ who +:+ " is missing model selection"] else [])
     else if subType_is "custom" node then
       (if negb (truthy (cfg_port config)) && blank (endpoint config)
        then ["Custom agent " +:+ who +:+ " needs either a port or endpoint URL"]
        else [])
     else [])
  else [].

(** [node.config?.name || node.type] *)
Definition display_name (node : NodeData) : string :=
  match config node with
  | Some c =>
      match name c with
      | Some s => if bool_decide (s = "") then type node else s
      | None => type node
      end
  | None => type node
  end.

Definition isolatedErrors (ids : gset string) (node : NodeData) : list string :=
  if has_id ids node then []
  else ["Node " +:+ display_name node +:+ " is not connected to any other node"].

(** [validateNetwork] reads the arrays [nodes] and [connections] of the
    editor; they are its two arguments here. *)
Definition validateNetwork
    (nodes : list NodeData) (connections : list Connection) : ValidationResult :=
  let errors : list string := [] in
  let inputNodes := List.filter (is_type "input") nodes in
  let outputNodes := List.filter (is_type "output") nodes in
  let errors :=
    if bool_decide (length inputNodes = 0%nat)
    then errors ++ ["Please add an input node to your network"] else errors in
  let errors :=
    if bool_decide (length outputNodes = 0%nat)
    then errors ++ ["Please add an output node to your network"] else errors in
  let errors :=
    if bool_decide (length connections = 0%nat)
    then errors ++ ["Please connect nodes in your network"] else errors in
  let errors := foldl (λ errs node, errs ++ agentErrors node) errors nodes in
  let ids := connectedNodeIds connections in
  let errors := foldl (λ errs node, errs ++ isolatedErrors ids node) errors nodes in
  let inputNodeIds := map node_id inputNodes in
  let outputNodeIds := map node_id outputNodes in
  let inputConnected := existsb (λ i, bool_decide (i ∈ ids)) inputNodeIds in
  let errors :=
    if negb inputConnected && bool_decide (0 < length inputNodeIds)%nat
    then errors ++ ["Input node is not connected to the network"] else errors in
  let outputConnected := existsb (λ i, bool_decide (i ∈ ids)) outputNodeIds in
  let errors :=
    if negb outputConnected && bool_decide (0 < length outputNodeIds)%nat
    then errors ++ ["Output node is not connected to the network"] else errors in
  {| valid := bool_decide (length errors = 0%nat); errors := errors |}.

(** ** Editor state *)

(** The variables of the editor closure that the modelled handlers
    read or write.  [selectedNode] is a reference to a node object; the
    router operations below mutate that object, and [write_back] makes
    the mutation visible through the array [nodes], which holds the
    same object. *)
Record Editor := {
  nodes : list NodeData;
  connections : list Connection;
  selectedNode : option NodeData;
  connectionStart : option PortRef;
  nodeCounter : nat
}.

Definition set_connections (cs : list Connection) (s : Editor) : Editor :=
  {| nodes := nodes s; connections := cs; selectedNode := selectedNode s;
     connectionStart := connectionStart s; nodeCounter := nodeCounter s |}.

Definition set_nodes (ns : list NodeData) (s : Editor) : Editor :=
  {| nodes := ns; connections := connections s; selectedNode := selectedNode s;
     connectionStart := connectionStart s; nodeCounter := nodeCounter s |}.

Definition set_connectionStart (p : option PortRef) (s : Editor) : Editor :=
  {| nodes := nodes s; connections := connections s; selectedNode := selectedNode s;
     connectionStart := p; nodeCounter := nodeCounter s |}.

Definition write_back (node : NodeData) (ns : list NodeData) : list NodeData :=
  map (λ n, if bool_decide (node_id n = node_id node) then node else n) ns.

(** The selected node object after a mutation. *)
Definition set_selected (node : NodeData) (s : Editor) : Editor :=
  {| nodes := write_back node (nodes s); connections := connections s;
     selectedNode := Some node; connectionStart := connectionStart s;
     nodeCounter := nodeCounter s |}.

Definition clear_selected (s : Editor) : Editor :=
  {| nodes := nodes s; connections := connections s; selectedNode := None;
     connectionStart := connectionStart s; nodeCounter := nodeCounter s |}.

(** The click handler of a node: [selectedNode = nodeData]. *)
Definition selectNode (nodeData : NodeData) (s : Editor) : Editor :=
  {| nodes := nodes s; connections := connections s; selectedNode := Some nodeData;
     connectionStart := connectionStart s; nodeCounter := nodeCounter s |}.

(** ** Creating connections *)

(** The predicate of [connections.find] in [createConnection]: an
    existing connection between the same nodes and port types, in
    either orientation. *)
Definition same_link (start0 end0 : PortRef) (conn : Connection) : bool :=
  (bool_decide (nodeId (start conn) = nodeId start0)
   && bool_decide (nodeId (end_ conn) = nodeId end0)
   && bool_decide (port (start conn) = port start0)
   && bool_decide (port (end_ conn) = port end0))
  || (bool_decide (nodeId (start conn) = nodeId end0)
      && bool_decide (nodeId (end_ conn) = nodeId start0)
      && bool_decide (port (start conn) = port end0)
      && bool_decide (port (end_ conn) = port start0)).

(** [createConnection(start, end)].  [uniqueId] stands for
    [Date.now().toString(36) + Math.random().toString(36).substr(2, 5)]. *)
Definition createConnection (uniqueId : string) (start0 end0 : PortRef)
    (s : Editor) : Editor :=
  let connectionId :=
    "connection-" +:+ nodeId start0 +:+ "-" +:+ nodeId end0 +:+ "-" +:+ uniqueId in
  match List.find (same_link start0 end0) (connections s) with
  | Some _ => s
  | None =>
      let connectionData :=
        {| conn_id := connectionId;
           start := {| nodeId := nodeId start0; port := port start0;
                       portNumber := portNumber start0 |};
           end_ := {| nodeId := nodeId end0; port := port end0;
                      portNumber := portNumber end0 |};
           sourceNode := None; sourcePort := None |} in
      set_connections (connections s ++ [connectionData]) s
  end.

(** The [mousedown] handler of a port: the gesture starts. *)
Definition portMouseDown (p : PortRef) (s : Editor) : Editor :=
  set_connectionStart (Some p) s.

(** The [mouseup] handler of a port: the gesture ends on port [p]. *)
Definition portMouseUp (uniqueId : string) (p : PortRef) (s : Editor) : Editor :=
  match connectionStart s with
  | Some connectionStart0 =>
      let connectionEnd0 := p in
      let s1 :=
        if bool_decide (nodeId connectionStart0 ≠ nodeId connectionEnd0)
           && ((bool_decide (port connectionStart0 = "output")
                && bool_decide (port connectionEnd0 = "input"))
               || (bool_decide (port connectionStart0 = "input")
                   && bool_decide (port connectionEnd0 = "output")))
        then
          if bool_decide (port connectionStart0 = "input")
          then createConnection uniqueId connectionEnd0 connectionStart0 s
          else createConnection uniqueId connectionStart0 connectionEnd0 s
        else s in
      set_connectionStart None s1
  | None => s
  end.

(** The whole gesture: press on port [a], release on port [b]. *)
Definition connectGesture (uniqueId : string) (a b : PortRef) (s : Editor) : Editor :=
  portMouseUp uniqueId b (portMouseDown a s).

(** ** Deleting nodes and connections *)

(** [relatedConnections.forEach(conn => {
       svgContainer.removeChild(conn.element);
       connections = connections.filter(c => c.id !== conn.id) })].
    The path of a stored connection is a child of [svgContainer]
    ([createConnection] appends it, and whatever removes the path
    removes the connection with it), so [removeChild] returns. *)
Definition remove_related (related : list Connection) (cs : list Connection)
    : list Connection :=
  foldl (λ acc conn, List.filter (λ c, negb (bool_decide (conn_id c = conn_id conn))) acc)
        cs related.

Definition touches (i : string) (conn : Connection) : bool :=
  bool_decide (nodeId (start conn) = i) || bool_decide (nodeId (end_ conn) = i).

(** [nodeContainer.removeChild(node.element)] returns when the
    element is a child of [nodeContainer], and throws otherwise. *)
Definition removable (node : NodeData) : bool :=
  match element node with
  | Some el => inNodeContainer el
  | None => false
  end.

(** The node object once its element was taken out of [nodeContainer]. *)
Definition detached (node : NodeData) : NodeData :=
  {| node_id := node_id node; type := type node; subType := subType node;
     config := config node;
     element :=
       match element node with
       | Some el => Some {| inNodeContainer := false;
                            outputPortsContainer := outputPortsContainer el |}
       | None => None
       end |}.

(** [selectedNode] is a reference: when it refers to the node whose
    element was taken out, it shows that node without its place in
    [nodeContainer]. *)
Definition detach_selected (nodeData : NodeData) (s : Editor) : Editor :=
  match selectedNode s with
  | Some sel =>
      if bool_decide (node_id sel = node_id nodeData)
      then {| nodes := nodes s; connections := connections s;
              selectedNode := Some (detached sel);
              connectionStart := connectionStart s;
              nodeCounter := nodeCounter s |}
      else s
  | None => s
  end.

(** The click handler of a node's delete button: the state it leaves.
    When [removeChild] throws, the handler stops after the connections
    were removed.  The handler does not assign [selectedNode]: when the
    deleted node is the selected one, [selectedNode] still refers to the
    object, whose element is no longer a child of [nodeContainer]. *)
Definition deleteNodeClick (nodeData : NodeData) (s : Editor) : Editor :=
  let relatedConnections := List.filter (touches (node_id nodeData)) (connections s) in
  let s1 := set_connections (remove_related relatedConnections (connections s)) s in
  if removable nodeData then
    detach_selected nodeData
      (set_nodes (List.filter (λ n, negb (bool_decide (node_id n = node_id nodeData)))
                              (nodes s1)) s1)
  else s1.

(** [deleteSelected()]: the state it leaves.  [isSelected conn] is
    [conn.element.classList.contains('selected')]. *)
Definition deleteSelected (isSelected : Connection → bool) (s : Editor) : Editor :=
  match selectedNode s with
  | Some sel =>
      let relatedConnections := List.filter (touches (node_id sel)) (connections s) in
      let s1 := set_connections (remove_related relatedConnections (connections s)) s in
      if removable sel then
        let s2 := set_nodes (List.filter (λ n, negb (bool_decide (node_id n = node_id sel)))
                                         (nodes s1)) s1 in
        clear_selected s2
      else s1
  | None =>
      match List.find isSelected (connections s) with
      | Some selectedConn =>
          set_connections
            (List.filter (λ c, negb (bool_decide (conn_id c = conn_id selectedConn)))
                         (connections s)) s
      | None => s
      end
  end.

(** The delete button of a connection. *)
Definition deleteConnectionClick (connectionId : string) (s : Editor) : Editor :=
  set_connections
    (List.filter (λ c, negb (bool_decide (conn_id c = connectionId))) (connections s)) s.

(** ** Router output ports *)

Definition with_outputPorts (n : Z) (c : Config) : Config :=
  {| name := name c; apiKey := apiKey c; apiUrl := apiUrl c; model := model c;
     accessKey := accessKey c; secretKey := secretKey c; region := region c;
     cfg_port := cfg_port c; endpoint := endpoint c;
     routingStrategy := routingStrategy c;
     outputPorts := Some n; keywordPatterns := keywordPatterns c |}.

Definition with_keywordPatterns (ps : list Pattern) (c : Config) : Config :=
  {| name := name c; apiKey := apiKey c; apiUrl := apiUrl c; model := model c;
     accessKey := accessKey c; secretKey := secretKey c; region := region c;
     cfg_port := cfg_port c; endpoint := endpoint c;
     routingStrategy := routingStrategy c;
     outputPorts := outputPorts c; keywordPatterns := Some ps |}.

Definition with_config (c : Config) (node : NodeData) : NodeData :=
  {| node_id := node_id node; element := element node; type := type node;
     subType := subType node; config := Some c |}.

(** The node object after the children of its
    [.output-ports-container] were changed. *)
Definition with_container (ports : list Z) (node : NodeData) : NodeData :=
  match element node with
  | Some el =>
      {| node_id := node_id node;
         element := Some {| inNodeContainer := inNodeContainer el;
                            outputPortsContainer := Some ports |};
         type := type node; subType := subType node; config := config node |}
  | None => node
  end.

(** [nodeElement.querySelector('.output-ports-container')] when
    [nodeElement] is set. *)
Definition container_of (node : NodeData) : option (list Z) :=
  match element node with
  | Some el => outputPortsContainer el
  | None => None
  end.

(** [config.outputPorts] when it is truthy (a number other than 0). *)
Definition truthy_outputPorts (c : option Config) : option Z :=
  match c with
  | Some c =>
      match outputPorts c with
      | Some n => if bool_decide (n = 0) then None else Some n
      | None => None
      end
  | None => None
  end.

(** [addNewOutputPort()]: the new state and the returned port number;
    [None] is the [TypeError] of
    [selectedNode.config.outputPorts = ...] on a node without [config]. *)
Definition addNewOutputPort (s : Editor) : option (Editor * Z) :=
  match selectedNode s with
  | None => Some (s, 0)
  | Some sel =>
      if negb (bool_decide (type sel = "router")) then Some (s, 0)
      else
        let outputPorts0 :=
          match truthy_outputPorts (config sel) with
          | Some n => n
          | None => 2
          end in
        match config sel with
        | None => None
        | Some c =>
            let sel1 := with_config (with_outputPorts (outputPorts0 + 1) c) sel in
            let sel2 :=
              match container_of sel1 with
              | Some ports => with_container (ports ++ [outputPorts0]) sel1
              | None => sel1
              end in
            Some (set_selected sel2 s, outputPorts0)
        end
  end.

(** [container.removeChild(portElement)] for the first element whose
    [data-port-number] is [n]. *)
Fixpoint remove_first_port (n : Z) (ports : list Z) : list Z :=
  match ports with
  | [] => []
  | p :: rest => if bool_decide (p = n) then rest else p :: remove_first_port n rest
  end.

(** [patterns.splice(patterns.findIndex(p => p.port === n), 1)] when
    the index is not [-1]. *)
Fixpoint remove_first_pattern (n : Z) (ps : list Pattern) : list Pattern :=
  match ps with
  | [] => []
  | p :: rest =>
      if bool_decide (pat_port p = n) then rest
      else p :: remove_first_pattern n rest
  end.

Definition lower_pattern (n : Z) (p : Pattern) : Pattern :=
  if bool_decide (n < pat_port p)
  then {| keyword := keyword p; pat_port := pat_port p - 1;
          originalType := originalType p; originalValue := originalValue p |}
  else p.

(** [connections.splice(connections.indexOf(connection), 1)] when the
    index is not [-1]. *)
Fixpoint remove_first_conn (x : Connection) (cs : list Connection) : list Connection :=
  match cs with
  | [] => []
  | c :: rest => if bool_decide (c = x) then rest else c :: remove_first_conn x rest
  end.

(** [connection.sourceNode === selectedNode.id &&
     connection.sourcePort === portNumber] *)
Definition leaves_port (sel : NodeData) (portNumber0 : Z) (c : Connection) : bool :=
  bool_decide (sourceNode c = Some (node_id sel))
  && bool_decide (sourcePort c = Some portNumber0).

(** [if (connection.sourceNode === selectedNode.id &&
         connection.sourcePort > portNumber) connection.sourcePort--] *)
Definition lower_sourcePort (sel : NodeData) (portNumber0 : Z) (c : Connection)
    : Connection :=
  match sourcePort c with
  | Some p =>
      if bool_decide (sourceNode c = Some (node_id sel)) && bool_decide (portNumber0 < p)
      then {| conn_id := conn_id c; start := start c; end_ := end_ c;
              sourceNode := sourceNode c; sourcePort := Some (p - 1) |}
      else c
  | None => c
  end.

(** The renumbering of what lies above the removed port [n]:
    [if (p > n) p - 1]. *)
Definition lower_port (n p : Z) : Z :=
  if bool_decide (n < p) then p - 1 else p.

(** [removeOutputPort(portNumber)]: the new state and the returned
    boolean. *)
Definition removeOutputPort (portNumber0 : Z) (s : Editor) : Editor * bool :=
  match selectedNode s with
  | None => (s, false)
  | Some sel =>
      if negb (bool_decide (type sel = "router")) then (s, false)
      else
        match config sel with
        | None => (s, false)
        | Some c =>
            let outputPorts0 :=
              match truthy_outputPorts (config sel) with
              | Some n => n
              | None => 2
              end in
            if bool_decide (outputPorts0 ≤ 2) then (s, false)
            else
              match container_of sel with
              | None => (s, false)
              | Some ports =>
                  if negb (bool_decide (portNumber0 ∈ ports)) then (s, false)
                  else
                    let ports1 := remove_first_port portNumber0 ports in
                    let ports2 := map (lower_port portNumber0) ports1 in
                    let c1 := with_outputPorts (outputPorts0 - 1) c in
                    let c2 :=
                      match keywordPatterns c1 with
                      | Some ps =>
                          with_keywordPatterns
                            (map (lower_pattern portNumber0)
                                 (remove_first_pattern portNumber0 ps)) c1
                      | None => c1
                      end in
                    let sel' := with_container ports2 (with_config c2 sel) in
                    let connectionsToRemove :=
                      List.filter (leaves_port sel portNumber0) (connections s) in
                    let cs1 :=
                      foldl (λ acc x, remove_first_conn x acc)
                            (connections s) connectionsToRemove in
                    let cs2 := map (lower_sourcePort sel portNumber0) cs1 in
                    (set_connections cs2 (set_selected sel' s), true)
              end
        end
  end.

(** The placeholder rule that [ensurePatternsMatchOutputPorts] creates
    for port [i]. *)
Definition placeholderType (i : Z) : string :=
  if bool_decide (i mod 5 = 0) then "regex"
  else if bool_decide (i mod 5 = 1) then "contains"
  else if bool_decide (i mod 5 = 2) then "startsWith"
  else if bool_decide (i mod 5 = 3) then "endsWith"
  else "exactMatch".

Definition placeholderText (i : Z) : string :=
  let patternType := placeholderType i in
  if bool_decide (i = 0) then ".*"
  else if bool_decide (patternType = "regex") then ".*pattern" +:+ pretty i +:+ ".*"
  else if bool_decide (patternType = "contains") then "keyword" +:+ pretty i
  else if bool_decide (patternType = "startsWith") then "start" +:+ pretty i
  else if bool_decide (patternType = "endsWith") then "end" +:+ pretty i
  else "exact" +:+ pretty i.

Definition placeholder (i : Z) : Pattern :=
  {| keyword := placeholderText i; pat_port := i;
     originalType := placeholderType i; originalValue := placeholderText i |}.

(** [ensurePatternsMatchOutputPorts(node)], the reconciliation
    routine: the node object after the call. *)
Definition ensurePatternsMatchOutputPorts (node : NodeData) : NodeData :=
  if negb (bool_decide (type node = "router")) then node
  else
    match config node with
    | None => node
    | Some c =>
        let outputPorts0 :=
          Z.max 2 (match truthy_outputPorts (Some c) with
                   | Some n => n
                   | None => 2
                   end) in
        let '(c1, ps) :=
          match keywordPatterns c with
          | Some ps => (c, ps)
          | None => (with_keywordPatterns [] c, [])
          end in
        let len := Z.of_nat (length ps) in
        if bool_decide (len ≠ outputPorts0) then
          let c2 :=
            if bool_decide (len < outputPorts0)
            then with_keywordPatterns
                   (ps ++ map placeholder (seqZ len (outputPorts0 - len))) c1
            else if bool_decide (outputPorts0 < len)
            then with_keywordPatterns (take (Z.to_nat outputPorts0) ps) c1
            else c1 in
          with_config (with_outputPorts outputPorts0 c2) node
        else with_config c1 node
    end.

(** The reconciliation applied to the selected node, as its callers do. *)
Definition reconcile (s : Editor) : Editor :=
  match selectedNode s with
  | Some sel => set_selected (ensurePatternsMatchOutputPorts sel) s
  | None => s
  end.

(** The default configuration that [createNode] gives a router. *)
Definition defaultRouterConfig : Config :=
  {| name := Some "Router"; apiKey := None; apiUrl := None; model := None;
     accessKey := None; secretKey := None; region := None;
     cfg_port := None; endpoint := None;
     routingStrategy := Some "keyword";
     outputPorts := Some 2;
     keywordPatterns :=
       Some [ {| keyword := ".*"; pat_port := 0;
                 originalType := "regex"; originalValue := ".*" |};
              {| keyword := ".*question.*"; pat_port := 1;
                 originalType := "regex"; originalValue := ".*question.*" |} ] |}.

(** What [createNode] reads of the dragged card. *)
Record CardData := {
  card_type : string;
  agentType : option string;
  toolType : option string
}.

Definition with_node (nodeData : NodeData) (s : Editor) : Editor :=
  {| nodes := nodes s ++ [nodeData]; connections := connections s;
     selectedNode := selectedNode s; connectionStart := connectionStart s;
     nodeCounter := S (nodeCounter s) |}.

(** [createNode(x, y, cardData)]: the new state and the returned node.
    The element goes into [nodeContainer]; a router gets two output
    ports and its default configuration. *)
Definition createNode (cardData : CardData) (s : Editor) : Editor * NodeData :=
  let nodeId0 := "node-" +:+ pretty (S (nodeCounter s)) in
  let router := bool_decide (card_type cardData = "router") in
  let nodeData :=
    {| node_id := nodeId0;
       element := Some {| inNodeContainer := true;
                          outputPortsContainer := if router then Some [0; 1] else None |};
       type := card_type cardData;
       subType := if bool_decide (card_type cardData = "agent") then agentType cardData
                  else if bool_decide (card_type cardData = "tool") then toolType cardData
                  else None;
       config := Some (if router then defaultRouterConfig else emptyConfig) |} in
  (with_node nodeData s, nodeData).

Definition named (n : string) : Config :=
  {| name := Some n; apiKey := None; apiUrl := None; model := None;
     accessKey := None; secretKey := None; region := None;
     cfg_port := None; endpoint := None; routingStrategy := None;
     outputPorts := None; keywordPatterns := None |}.

(** [addInputNode()] and [addOutputNode()]: the element goes into
    [canvas], not into [nodeContainer]. *)
Definition addInputNode (s : Editor) : Editor * NodeData :=
  let nodeData :=
    {| node_id := "node-" +:+ pretty (S (nodeCounter s));
       element := Some {| inNodeContainer := false; outputPortsContainer := None |};
       type := "input"; subType := None; config := Some (named "Input") |} in
  (with_node nodeData s, nodeData).

Definition addOutputNode (s : Editor) : Editor * NodeData :=
  let nodeData :=
    {| node_id := "node-" +:+ pretty (S (nodeCounter s));
       element := Some {| inNodeContainer := false; outputPortsContainer := None |};
       type := "output"; subType := None; config := Some (named "Output") |} in
  (with_node nodeData s, nodeData).

(** The editor when the page has loaded. *)
Definition emptyEditor : Editor :=
  {| nodes := []; connections := []; selectedNode := None;
     connectionStart := None; nodeCounter := 0 |}.

(** Calls made on the selected router, one after the other. *)
Inductive RouterOp :=
  | OpAdd
  | OpRemove (portNumber0 : Z)
  | OpReconcile.

Definition runRouterOp (op : RouterOp) (s : Editor) : option Editor :=
  match op with
  | OpAdd => fst <$> addNewOutputPort s
  | OpRemove n => Some (fst (removeOutputPort n s))
  | OpReconcile => Some (reconcile s)
  end.

Fixpoint runRouterOps (ops : list RouterOp) (s : Editor) : option Editor :=
  match ops with
  | [] => Some s
  | op :: rest =>
      match runRouterOp op s with
      | Some s' => runRouterOps rest s'
      | None => None
      end
  end.

(** ** Polling the execution status *)

(** What one status request comes back with: a JSON body with its
    [status] field, or a failure (rejected [fetch], response that is not
    [ok]) with the message of the error. *)
Inductive FetchOutcome :=
  | Status (status : string)
  | FetchError (message : string).

(** What the poll loop does, in order. *)
Inductive PollEvent :=
  | EvFetchStatus (pollCount : nat)
  | EvSetTimeout (delay : Z)
  | EvBadge (className text : string)
  | EvLog (message kind : string)
  | EvFetchResult
  | EvRunAgain.

Definition maxPolls : nat := 60.

(** One call of [checkStatus]: [pollCount] after the increment, what
    happened, and whether [setTimeout(checkStatus, interval)] was
    called.  [endpoint k] is the outcome of the [k]-th status request. *)
Definition checkStatus (interval : Z) (endpoint : nat → FetchOutcome)
    (pollCount : nat) : nat * list PollEvent * bool :=
  let pollCount := S pollCount in
  match endpoint pollCount with
  | Status status =>
      if bool_decide (status = "COMPLETED") then
        (pollCount,
         [EvFetchStatus pollCount;
          EvBadge "status-badge completed" "Completed";
          EvLog "Network execution completed successfully" "info";
          EvFetchResult], false)
      else if bool_decide (status = "FAILED") then
        (pollCount,
         [EvFetchStatus pollCount;
          EvBadge "status-badge error" "Failed";
          EvLog "Network execution failed" "error";
          EvFetchResult], false)
      else if bool_decide (maxPolls ≤ pollCount)%nat then
        (pollCount,
         [EvFetchStatus pollCount;
          EvBadge "status-badge warning" "Timeout";
          EvLog "Execution polling timed out" "warning";
          EvLog "The execution may still be running in the background" "info";
          EvRunAgain], false)
      else
        (pollCount, [EvFetchStatus pollCount; EvSetTimeout interval], true)
  | FetchError message =>
      if bool_decide (pollCount < maxPolls)%nat then
        (pollCount,
         [EvFetchStatus pollCount;
          EvLog ("Status polling error: " +:+ message) "error";
          EvSetTimeout interval], true)
      else
        (pollCount,
         [EvFetchStatus pollCount;
          EvLog ("Status polling error: " +:+ message) "error";
          EvRunAgain], false)
  end.

(** The chain of [checkStatus] calls that the timer keeps alive;
    [None] when [fuel] calls were not enough to see it end. *)
Fixpoint pollChain (fuel : nat) (interval : Z) (endpoint : nat → FetchOutcome)
    (pollCount : nat) : option (list PollEvent) :=
  match fuel with
  | O => None
  | S fuel' =>
      let '(pollCount', events, again) := checkStatus interval endpoint pollCount in
      if again
      then (λ rest, events ++ rest) <$> pollChain fuel' interval endpoint pollCount'
      else Some events
  end.

(** [pollExecutionStatus(executionId, interval = 1000)]: [pollCount]
    starts at 0 and [checkStatus] is called once. *)
Definition pollExecutionStatus (fuel : nat) (interval : Z)
    (endpoint : nat → FetchOutcome) : option (list PollEvent) :=
  pollChain fuel interval endpoint 0.

Definition defaultInterval : Z := 1000.

Definition is_fetch (e : PollEvent) : bool :=
  match e with
  | EvFetchStatus _ | EvFetchResult => true
  | _ => false
  end.

Definition requests (events : list PollEvent) : nat :=
  length (List.filter is_fetch events).

(** ** Detecting networks *)

(** How a call ends: with a value, with a [TypeError], or cut off by
    the recursion bound of the model. *)
Inductive Result (A : Type) :=
  | Ok (a : A)
  | Throw
  | OutOfFuel.
Arguments Ok {A} a.
Arguments Throw {A}.
Arguments OutOfFuel {A}.

Definition bind {A B : Type} (r : Result A) (f : A → Result B) : Result B :=
  match r with
  | Ok a => f a
  | Throw => Throw
  | OutOfFuel => OutOfFuel
  end.

Notation "'do!' x := r 'in' k" := (bind r (λ x, k))
  (at level 10, x name, r at level 100, k at level 200, only parsing).

(** [o] when defined; a [TypeError] when it is [undefined] and a
    property of it is read. *)
Definition defined {A : Type} (o : option A) : Result A :=
  match o with
  | Some a => Ok a
  | None => Throw
  end.

(** The serialised node and connection of a detected network. *)
Record NetworkNode := {
  nn_id : string;
  nn_type : string;
  nn_subType : option string;
  nn_config : option Config
}.

Record NetworkConnection := {
  nc_sourceNode : string;
  nc_sourcePort : string;
  nc_targetNode : string;
  nc_targetPort : string
}.

Record Network := {
  net_name : string;
  net_nodes : list NetworkNode;
  net_connections : list NetworkConnection;
  nodeCount : nat;
  connectionCount : nat
}.

(** Truthiness of [visitedNodes.get(k)]. *)
Definition visited_get (visitedNodes : gmap string bool) (k : string) : bool :=
  match visitedNodes !! k with
  | Some b => b
  | None => false
  end.

(** [adjacencyList.get(k).push(v)] *)
Definition adjacency_push (adjacencyList : gmap string (list string))
    (k v : string) : Result (gmap string (list string)) :=
  do! l := defined (adjacencyList !! k) in
  Ok (<[k := l ++ [v]]> adjacencyList).

Definition buildAdjacency (ns : list NodeData) (cs : list Connection)
    : Result (gmap string (list string)) :=
  let adjacencyList : gmap string (list string) :=
    foldl (λ m node, <[node_id node := []]> m) ∅ ns in
  foldl (λ acc conn,
           do! m := acc in
           let sourceId := nodeId (start conn) in
           let targetId := nodeId (end_ conn) in
           do! m1 := adjacency_push m sourceId targetId in
           adjacency_push m1 targetId sourceId)
        (Ok adjacencyList) cs.

(** The inner function [dfs(nodeId, networkNodes)]; the state is the
    map [visitedNodes] and the array [networkNodes].  [fuel] bounds the
    depth of the recursion. *)
Fixpoint dfs (fuel : nat) (adjacencyList : gmap string (list string))
    (nodeId0 : string) (st : gmap string bool * list string)
    : Result (gmap string bool * list string) :=
  match fuel with
  | O => OutOfFuel
  | S fuel' =>
      let st1 := (<[nodeId0 := true]> (fst st), snd st ++ [nodeId0]) in
      do! adjacent := defined (adjacencyList !! nodeId0) in
      foldl (λ acc adjacentId,
               do! st' := acc in
               if negb (visited_get (fst st') adjacentId)
               then dfs fuel' adjacencyList adjacentId st'
               else Ok st')
            (Ok st1) adjacent
  end.

Definition includes (l : list string) (x : string) : bool := bool_decide (x ∈ l).

(** The connections of the store with both ends in [networkNodes]. *)
Definition inducedConnections (cs : list Connection) (networkNodes : list string)
    : list Connection :=
  List.filter (λ conn, includes networkNodes (nodeId (start conn))
                       && includes networkNodes (nodeId (end_ conn))) cs.

(** [networkNodes.map(nodeId => nodes.find(n => n.id === nodeId))];
    reading [.type] of a node that was not found throws. *)
Definition nodeObjects (ns : list NodeData) (networkNodes : list string)
    : Result (list NodeData) :=
  foldr (λ i acc,
           do! o := defined (List.find (λ n, bool_decide (node_id n = i)) ns) in
           do! rest := acc in
           Ok (o :: rest))
        (Ok []) networkNodes.

Definition networkNodeOf (node : NodeData) : NetworkNode :=
  {| nn_id := node_id node; nn_type := type node;
     nn_subType := subType node; nn_config := config node |}.

Definition networkConnectionOf (conn : Connection) : NetworkConnection :=
  {| nc_sourceNode := nodeId (start conn); nc_sourcePort := port (start conn);
     nc_targetNode := nodeId (end_ conn); nc_targetPort := port (end_ conn) |}.

(** The object pushed onto [networks] for one component. *)
Definition networkOf (index : nat) (networkNodes : list string)
    (networkNodeObjects : list NodeData) (networkConnections : list Connection)
    : Network :=
  {| net_name := "Network " +:+ pretty (index + 1)%nat;
     net_nodes := map networkNodeOf networkNodeObjects;
     net_connections := map networkConnectionOf networkConnections;
     nodeCount := length networkNodes;
     connectionCount := length networkConnections |}.

(** The test that decides whether a component is pushed. *)
Definition surfaced (networkNodes : list string) (networkNodeObjects : list NodeData)
    (networkConnections : list Connection) : bool :=
  existsb (is_type "input") networkNodeObjects
  && existsb (is_type "output") networkNodeObjects
  && bool_decide (3 ≤ length networkNodes)%nat
  && validateNetworkSubset networkNodeObjects networkConnections.

(** The loop [for (const node of nodes)] of [detectMultipleNetworks]. *)
Fixpoint detectLoop (fuel : nat) (ns : list NodeData) (cs : list Connection)
    (adjacencyList : gmap string (list string)) (todo : list NodeData)
    (visitedNodes : gmap string bool) (networks : list Network)
    : Result (list Network) :=
  match todo with
  | [] => Ok networks
  | node :: rest =>
      if negb (visited_get visitedNodes (node_id node)) then
        do! st := dfs fuel adjacencyList (node_id node) (visitedNodes, []) in
        let networkNodes := snd st in
        do! networkNodeObjects := nodeObjects ns networkNodes in
        let networkConnections := inducedConnections cs networkNodes in
        if surfaced networkNodes networkNodeObjects networkConnections
        then detectLoop fuel ns cs adjacencyList rest (fst st)
               (networks ++ [networkOf (length networks) networkNodes
                                        networkNodeObjects networkConnections])
        else detectLoop fuel ns cs adjacencyList rest (fst st) networks
      else detectLoop fuel ns cs adjacencyList rest visitedNodes networks
  end.

(** [detectMultipleNetworks()] on the arrays [nodes] and [connections]. *)
Definition detectMultipleNetworks (s : Editor) : Result (list Network) :=
  let networks : list Network := [] in
  if bool_decide (length (nodes s) = 0%nat) || bool_decide (length (connections s) = 0%nat)
  then Ok networks
  else
    let visitedNodes : gmap string bool :=
      foldl (λ m node, <[node_id node := false]> m) ∅ (nodes s) in
    do! adjacencyList := buildAdjacency (nodes s) (connections s) in
    detectLoop (length (nodes s)) (nodes s) (connections s) adjacencyList
               (nodes s) visitedNodes networks.

(** ** Properties used in the statements *)

(** A stored connection that leaves an output port of one node and
    enters an input port of another node. *)
Definition wellDirected (c : Connection) : Prop :=
  nodeId (start c) ≠ nodeId (end_ c)
  ∧ port (start c) = "output"
  ∧ port (end_ c) = "input".

(** A node object with another configuration. *)
Definition replace_config (c : option Config) (node : NodeData) : NodeData :=
  {| node_id := node_id node; element := element node; type := type node;
     subType := subType node; config := c |}.

(** The agent sub-types for which the validators have a rule. *)
Definition knownAgentTypes : list string :=
  ["openai"; "ollama"; "anthropic"; "bedrock"; "custom"].

Definition unknownAgent (node : NodeData) : Prop :=
  type node = "agent" ∧ ∀ t, t ∈ knownAgentTypes → subType node ≠ Some t.

(** Two node lists that the sub-network validator cannot tell apart:
    position by position the same id, the same type and the same
    verdict of the configuration check. *)
Definition alike (n n' : NodeData) : Prop :=
  node_id n = node_id n' ∧ type n = type n'
  ∧ agentConfigured n = agentConfigured n'.

(** A candidate sub-network: input, OpenAI agent, output, wired in a
    chain.  The agent has a name and a model, and an API key that is a
    single space. *)
Definition blankKeyConfig : Config :=
  {| name := Some "helper"; apiKey := Some " "; apiUrl := None;
     model := Some "gpt-4o"; accessKey := None; secretKey := None;
     region := None; cfg_port := None; endpoint := None;
     routingStrategy := None; outputPorts := None; keywordPatterns := None |}.

Definition blankKeyNodes : list NodeData :=
  [ {| node_id := "node-1"; element := None; type := "input"; subType := None;
       config := Some emptyConfig |};
    {| node_id := "node-2"; element := None; type := "agent";
       subType := Some "openai"; config := Some blankKeyConfig |};
    {| node_id := "node-3"; element := None; type := "output"; subType := None;
       config := Some emptyConfig |} ].

Definition link (u : string) (a b : string) : Connection :=
  {| conn_id := "connection-" +:+ a +:+ "-" +:+ b +:+ "-" +:+ u;
     start := {| nodeId := a; port := "output"; portNumber := None |};
     end_ := {| nodeId := b; port := "input"; portNumber := None |};
     sourceNode := None; sourcePort := None |}.

Definition blankKeyConnections : list Connection :=
  [ link "u1" "node-1" "node-2"; link "u2" "node-2" "node-3" ].

(** An agent of a sub-type the validators have no rule for, without
    configuration. *)
Definition geminiAgent : NodeData :=
  {| node_id := "node-2"; element := None; type := "agent";
     subType := Some "gemini"; config := None |}.

(** What the two validators check, as propositions. *)
Definition hasInput (ns : list NodeData) : Prop :=
  ∃ node, node ∈ ns ∧ type node = "input".

Definition hasOutput (ns : list NodeData) : Prop :=
  ∃ node, node ∈ ns ∧ type node = "output".

Definition noneIsolated (ns : list NodeData) (cs : list Connection) : Prop :=
  ∀ node, node ∈ ns → node_id node ∈ connectedNodeIds cs.

(** A connection touches the node id [i]. *)
Definition incident (cs : list Connection) (i : string) : Prop :=
  Exists (λ conn, nodeId (start conn) = i ∨ nodeId (end_ conn) = i) cs.

(** A field of [node.config || {}] holds a non-empty string. *)
Definition has (field : Config → option string) (node : NodeData) : Prop :=
  truthy (field (config_or_empty node)) = true.

(** A field of [node.config || {}] is absent, empty or white space
    only. *)
Definition lacks (field : Config → option string) (node : NodeData) : Prop :=
  blank (field (config_or_empty node)) = true.

(** The per-agent checks of [validateNetwork], one constructor for each:
    [failingCheck node e] when that check fails for [node], [e] being
    the message of the check.  The checks of the name, of the keys, of
    the URL and of the credentials fail on white space as well; those of
    the model, of the region and of the port fail on an absent or empty
    value only. *)
Inductive failingCheck (node : NodeData) : string → Prop :=
  | agent_needs_name :
      type node = "agent" → lacks name node →
      failingCheck node
        ("Agent node #" +:+ split_dash_1 (node_id node) +:+ " needs a name")
  | openai_missing_key :
      type node = "agent" → subType node = Some "openai" → lacks apiKey node →
      failingCheck node
        ("OpenAI agent " +:+ name_or_unnamed (config_or_empty node)
         +:+ " is missing API key")
  | openai_missing_model :
      type node = "agent" → subType node = Some "openai" → ¬ has model node →
      failingCheck node
        ("OpenAI agent " +:+ name_or_unnamed (config_or_empty node)
         +:+ " is missing model selection")
  | ollama_missing_url :
      type node = "agent" → subType node = Some "ollama" → lacks apiUrl node →
      failingCheck node
        ("Ollama agent " +:+ name_or_unnamed (config_or_empty node)
         +:+ " is missing API url")
  | ollama_missing_key :
      type node = "agent" → subType node = Some "ollama" → lacks apiKey node →
      failingCheck node
        ("Ollama agent " +:+ name_or_unnamed (config_or_empty node)
         +:+ " is missing API key")
  | ollama_missing_model :
      type node = "agent" → subType node = Some "ollama" → ¬ has model node →
      failingCheck node
        ("Ollama agent " +:+ name_or_unnamed (config_or_empty node)
         +:+ " is missing model definition")
  | claude_missing_key :
      type node = "agent" → subType node = Some "anthropic" → lacks apiKey node →
      failingCheck node
        ("Claude agent " +:+ name_or_unnamed (config_or_empty node)
         +:+ " is missing API key")
  | claude_missing_model :
      type node = "agent" → subType node = Some "anthropic" → ¬ has model node →
      failingCheck node
        ("Claude agent " +:+ name_or_unnamed (config_or_empty node)
         +:+ " is missing model selection")
  | bedrock_missing_credentials :
      type node = "agent" → subType node = Some "bedrock" →
      lacks accessKey node ∨ lacks secretKey node →
      failingCheck node
        ("Bedrock agent " +:+ name_or_unnamed (config_or_empty node)
         +:+ " is missing AWS credentials")
  | bedrock_missing_region :
      type node = "agent" → subType node = Some "bedrock" → ¬ has region node →
      failingCheck node
        ("Bedrock agent " +:+ name_or_unnamed (config_or_empty node)
         +:+ " is missing AWS region")
  | bedrock_missing_model :
      type node = "agent" → subType node = Some "bedrock" → ¬ has model node →
      failingCheck node
        ("Bedrock agent " +:+ name_or_unnamed (config_or_empty node)
         +:+ " is missing model selection")
  | custom_missing_address :
      type node = "agent" → subType node = Some "custom" →
      ¬ has cfg_port node → lacks endpoint node →
      failingCheck node
        ("Custom agent " +:+ name_or_unnamed (config_or_empty node)
         +:+ " needs either a port or endpoint URL").

(** The configuration check of [validateNetworkSubset] for one node: an
    agent of a known sub-type holds a non-empty value in each field of
    that sub-type (a port or an endpoint for a custom agent).  The name
    is not looked at, and white space counts as a value. *)
Definition completeFor (node : NodeData) : Prop :=
  type node = "agent" →
  (subType node = Some "openai" → has apiKey node ∧ has model node)
  ∧ (subType node = Some "ollama" →
     has apiUrl node ∧ has apiKey node ∧ has model node)
  ∧ (subType node = Some "anthropic" → has apiKey node ∧ has model node)
  ∧ (subType node = Some "bedrock" →
     has accessKey node ∧ has secretKey node ∧ has region node ∧ has model node)
  ∧ (subType node = Some "custom" → has cfg_port node ∨ has endpoint node).

#[global] Instance completeFor_dec (node : NodeData) : Decision (completeFor node).
Proof. unfold completeFor, has. apply _. Defined.

(** An OpenAI agent without a name, a key or a model. *)
Definition bareAgent : NodeData :=
  {| node_id := "node-7"; element := None; type := "agent";
     subType := Some "openai"; config := None |}.

(** The string of the given bytes. *)
Definition utf8 (bytes : list nat) : string :=
  string_of_list_ascii (map ascii_of_nat bytes).

(** The no-break space U+00A0 and the em space U+2003, in UTF-8. *)
Definition nbsp : string := utf8 [194; 160]%nat.

Definition emsp : string := utf8 [226; 128; 131]%nat.

(** The 25 code points that [String.prototype.trim] removes: tab, line
    feed, vertical tab, form feed, carriage return, space, U+00A0,
    U+1680, U+2000 to U+200A, U+2028, U+2029, U+202F, U+205F, U+3000
    and U+FEFF. *)
Definition whiteSpace : list string :=
  map utf8
    [ [9]; [10]; [11]; [12]; [13]; [32]; [194; 160]; [225; 154; 128];
      [226; 128; 128]; [226; 128; 129]; [226; 128; 130]; [226; 128; 131];
      [226; 128; 132]; [226; 128; 133]; [226; 128; 134]; [226; 128; 135];
      [226; 128; 136]; [226; 128; 137]; [226; 128; 138];
      [226; 128; 168]; [226; 128; 169]; [226; 128; 175]; [226; 129; 159];
      [227; 128; 128]; [239; 187; 191] ]%nat.

(** A text made of white-space code points only (the empty text is
    one). *)
Definition joined (ws : list string) : string := foldr String.append "" ws.

Definition whiteOnly (s : string) : Prop :=
  ∃ ws, Forall (λ w, w ∈ whiteSpace) ws ∧ s = joined ws.

Definition startsWithWhiteSpace (s : string) : Prop :=
  ∃ w t, w ∈ whiteSpace ∧ s = w +:+ t.

Definition endsWithWhiteSpace (s : string) : Prop :=
  ∃ w t, w ∈ whiteSpace ∧ s = t +:+ w.

(** [t] is [s] without the white space at its two ends. *)
Definition trimmedOf (s t : string) : Prop :=
  ∃ before after,
    whiteOnly before ∧ whiteOnly after
    ∧ s = before +:+ t +:+ after
    ∧ ¬ startsWithWhiteSpace t
    ∧ ¬ endsWithWhiteSpace t.

(** Code points next to them that [trim] keeps: U+0008, U+000E, U+001F,
    U+0021, U+0085, U+009F, U+00A1, U+167F, U+1681, U+180E, U+1FFF,
    U+200B, U+2027, U+202A, U+202E, U+2030, U+205E, U+2060, U+2FFF,
    U+3001, U+FEFE and U+FF00. *)
Definition keptByTrim : list string :=
  map utf8
    [ [8]; [14]; [31]; [33]; [194; 133]; [194; 159]; [194; 161];
      [225; 153; 191]; [225; 154; 129]; [225; 160; 142]; [225; 191; 191];
      [226; 128; 139]; [226; 128; 167]; [226; 128; 170]; [226; 128; 174];
      [226; 128; 176]; [226; 129; 158]; [226; 129; 160]; [226; 191; 191];
      [227; 128; 129]; [239; 187; 190]; [239; 188; 128] ]%nat.

(** An OpenAI agent whose API key is a no-break space. *)
Definition nbspKeyAgent : NodeData :=
  {| node_id := "node-2"; element := None; type := "agent";
     subType := Some "openai";
     config :=
       Some {| name := Some "helper"; apiKey := Some nbsp; apiUrl := None;
               model := Some "gpt-4o"; accessKey := None; secretKey := None;
               region := None; cfg_port := None; endpoint := None;
               routingStrategy := None; outputPorts := None;
               keywordPatterns := None |} |}.

(** [config.outputPorts] and [config.keywordPatterns] of a node. *)
Definition outputPorts_of (node : NodeData) : option Z :=
  match config node with
  | Some c => outputPorts c
  | None => None
  end.

Definition keywordPatterns_of (node : NodeData) : option (list Pattern) :=
  match config node with
  | Some c => keywordPatterns c
  | None => None
  end.

Definition selectedOutputPorts (s : Editor) : option Z :=
  match selectedNode s with
  | Some sel => outputPorts_of sel
  | None => None
  end.

Definition selectedPatterns (s : Editor) : option (list Pattern) :=
  match selectedNode s with
  | Some sel => keywordPatterns_of sel
  | None => None
  end.

(** The rule at list position [i] targets port [i]. *)
Definition rules_in_order (ps : list Pattern) : Prop :=
  map pat_port ps = seqZ 0 (Z.of_nat (length ps)).

(** What holds of the selected router between any two of the calls
    [addNewOutputPort], [removeOutputPort],
    [ensurePatternsMatchOutputPorts]: at least two output ports, no more
    rules than ports, rules numbered by position, and port elements
    numbered [0 .. outputPorts - 1]. *)
Definition RouterInv (s : Editor) : Prop :=
  match selectedNode s with
  | Some sel =>
      type sel = "router"
      ∧ match outputPorts_of sel, keywordPatterns_of sel with
        | Some n, Some ps =>
            2 ≤ n
            ∧ Z.of_nat (length ps) ≤ n
            ∧ rules_in_order ps
            ∧ match container_of sel with
              | Some ports => ports = seqZ 0 n
              | None => True
              end
        | _, _ => False
        end
  | None => False
  end.

(** The invariant of the specification: as [RouterInv], with exactly
    one rule per port. *)
Definition RouterSynced (s : Editor) : Prop :=
  match selectedNode s with
  | Some sel =>
      match outputPorts_of sel, keywordPatterns_of sel with
      | Some n, Some ps =>
          2 ≤ n ∧ Z.of_nat (length ps) = n ∧ rules_in_order ps
      | _, _ => False
      end
  | None => False
  end.

(** An editor with a router dropped on the canvas, an output node
    added, and the router selected. *)
Definition routerCard : CardData :=
  {| card_type := "router"; agentType := None; toolType := None |}.

Definition routerEditor : Editor :=
  let '(s1, router) := createNode routerCard emptyEditor in
  let '(s2, _) := addOutputNode s1 in
  selectNode router s2.

(** The same editor after a third output port was added to the router
    and its rules were reconciled. *)
Definition threePortEditor : Editor :=
  match addNewOutputPort routerEditor with
  | Some (s, _) => reconcile s
  | None => routerEditor
  end.

(** The third output port of the router (port number 2), and the input
    port of the output node. *)
Definition thirdPort : PortRef :=
  {| nodeId := "node-1"; port := "output"; portNumber := Some "2" |}.

Definition sinkPort : PortRef :=
  {| nodeId := "node-2"; port := "input"; portNumber := None |}.

(** The three-port router wired from its third port to the output node. *)
Definition wiredEditor : Editor :=
  connectGesture "m2k9q7x1" thirdPort sinkPort threePortEditor.

(** A status endpoint that never answers [COMPLETED] or [FAILED]. *)
Definition neverTerminal (endpoint : nat → FetchOutcome) : Prop :=
  ∀ k, endpoint k ≠ Status "COMPLETED" ∧ endpoint k ≠ Status "FAILED".

Definition alwaysRunning : nat → FetchOutcome := λ _, Status "RUNNING".

(** The trace of a poll chain that sees [RUNNING] sixty times. *)
Definition runningTrace (interval : Z) : list PollEvent :=
  flat_map (λ k, [EvFetchStatus k; EvSetTimeout interval]) (seq 1 59)
  ++ [EvFetchStatus 60;
      EvBadge "status-badge warning" "Timeout";
      EvLog "Execution polling timed out" "warning";
      EvLog "The execution may still be running in the background" "info";
      EvRunAgain].

Definition is_failed_badge (e : PollEvent) : bool :=
  match e with
  | EvBadge _ text => bool_decide (text = "Failed")
  | _ => false
  end.

Definition is_timer (e : PollEvent) : bool :=
  match e with
  | EvSetTimeout _ => true
  | _ => false
  end.

(** The undirected graph of the store: two node ids are adjacent when a
    connection joins them, in either direction. *)
Definition adjacent (cs : list Connection) (u v : string) : Prop :=
  ∃ c, c ∈ cs ∧ ((nodeId (start c) = u ∧ nodeId (end_ c) = v)
                 ∨ (nodeId (start c) = v ∧ nodeId (end_ c) = u)).

Definition connected (cs : list Connection) : string → string → Prop :=
  rtc (adjacent cs).

(** Adjacency as the map [adjacencyList] records it. *)
Definition listed (adjacencyList : gmap string (list string)) (u v : string) : Prop :=
  ∃ l, adjacencyList !! u = Some l ∧ v ∈ l.

(** The keys of [adjacencyList] that are not marked as visited. *)
Definition unvisited (adjacencyList : gmap string (list string))
    (visitedNodes : gmap string bool) : gset string :=
  filter (λ k, visited_get visitedNodes k = false) (dom adjacencyList).

(** What [adjacencyList] holds after the connections [seen] were
    entered: a list for every node id, with the neighbours of the node
    in [seen]. *)
Definition records (ids : list string) (seen : list Connection)
    (m : gmap string (list string)) : Prop :=
  (∀ k, is_Some (m !! k) ↔ k ∈ ids)
  ∧ ∀ u l, m !! u = Some l → ∀ v, v ∈ l ↔ adjacent seen u v.

(** How a traversal started from [roots] changes the pair
    [(visitedNodes, networkNodes)]: it appends fresh node ids, marks
    exactly those, reaches each of them from a root, and leaves no
    neighbour of a new node unmarked. *)
Definition extends (adjacencyList : gmap string (list string)) (roots : list string)
    (st st' : gmap string bool * list string) : Prop :=
  ∃ new,
    snd st' = snd st ++ new
    ∧ NoDup new
    ∧ (∀ k, visited_get (fst st') k = true ↔ visited_get (fst st) k = true ∨ k ∈ new)
    ∧ (∀ k, k ∈ new → visited_get (fst st) k = false)
    ∧ (∀ k, k ∈ new → ∃ r, r ∈ roots ∧ rtc (listed adjacencyList) r k)
    ∧ (∀ k v, k ∈ new → listed adjacencyList k v → visited_get (fst st') v = true).

(** A store in which node ids are distinct and every connection joins
    two nodes of the store. *)
Definition wellFormed (s : Editor) : Prop :=
  NoDup (map node_id (nodes s))
  ∧ ∀ c, c ∈ connections s →
         nodeId (start c) ∈ map node_id (nodes s)
         ∧ nodeId (end_ c) ∈ map node_id (nodes s).

(** A maximal connected set of node ids: not empty, and from each of
    its members exactly the connected node ids. *)
Definition isComponent (cs : list Connection) (c : list string) : Prop :=
  c ≠ [] ∧ ∀ u v, u ∈ c → (v ∈ c ↔ connected cs u v).

(** The first node id, in insertion order, that is not in [seen]. *)
Definition firstUnvisited (ids seen : list string) : option string :=
  List.find (λ i, negb (includes seen i)) ids.

(** The node objects of a list of ids. *)
Definition objectsOf (ns : list NodeData) (c : list string) : list NodeData :=
  omap (λ i, List.find (λ n, bool_decide (node_id n = i)) ns) c.

(** The test of the loop on a component, on the objects of its nodes
    and on its connections as the code selects them. *)
Definition qualifies (ns : list NodeData) (cs : list Connection) (c : list string) : bool :=
  bool_decide (3 ≤ length c)%nat
  && existsb (is_type "input") (objectsOf ns c)
  && existsb (is_type "output") (objectsOf ns c)
  && validateNetworkSubset (objectsOf ns c) (inducedConnections cs c).

(** What the loop has pushed after the components [comps]. *)
Definition networksOf (ns : list NodeData) (cs : list Connection)
    (comps : list (list string)) : list Network :=
  imap (λ k c, networkOf k c (objectsOf ns c) (inducedConnections cs c))
       (List.filter (qualifies ns cs) comps).

(** *** The networks that the detector is to return

    The definitions below do not use the code of the detector; the
    result of [detectMultipleNetworks] is compared with them. *)

(** The connections whose two ends lie in the component [c], in the
    order of the store. *)
Definition inducedSubset (cs : list Connection) (c : list string) : list Connection :=
  filter (λ conn, nodeId (start conn) ∈ c ∧ nodeId (end_ conn) ∈ c) cs.

(** Passing the validation of a sub-network: an input and an output
    node, at least one connection, no node without a connection, and
    every agent complete. *)
Definition passesSubgraphValidation (ns : list NodeData) (cs : list Connection) : Prop :=
  Exists (λ node, type node = "input") ns
  ∧ Exists (λ node, type node = "output") ns
  ∧ cs ≠ []
  ∧ Forall (λ node, incident cs (node_id node)) ns
  ∧ Forall completeFor ns.

(** A component that is returned: at least 3 nodes, an input and an
    output node among them, and its nodes with its induced connections
    pass the validation. *)
Definition surfacedComponent (ns : list NodeData) (cs : list Connection)
    (c : list string) : Prop :=
  (3 ≤ length c)%nat
  ∧ Exists (λ node, type node = "input") (objectsOf ns c)
  ∧ Exists (λ node, type node = "output") (objectsOf ns c)
  ∧ passesSubgraphValidation (objectsOf ns c) (inducedSubset cs c).

#[global] Instance surfacedComponent_dec ns cs c : Decision (surfacedComponent ns cs c).
Proof. unfold surfacedComponent, passesSubgraphValidation, incident. apply _. Defined.

(** The network of the component [c], the [k]-th that is returned
    (counting from 0): its nodes in the order of the traversal, and the
    connections of the store whose two ends lie in it. *)
Definition expectedNetwork (k : nat) (ns : list NodeData) (cs : list Connection)
    (c : list string) : Network :=
  {| net_name := "Network " +:+ pretty (k + 1)%nat;
     net_nodes :=
       map (λ node, {| nn_id := node_id node; nn_type := type node;
                       nn_subType := subType node; nn_config := config node |})
           (objectsOf ns c);
     net_connections :=
       map (λ conn, {| nc_sourceNode := nodeId (start conn);
                       nc_sourcePort := port (start conn);
                       nc_targetNode := nodeId (end_ conn);
                       nc_targetPort := port (end_ conn) |})
           (inducedSubset cs c);
     nodeCount := length c;
     connectionCount := length (inducedSubset cs c) |}.

Definition expectedNetworks (ns : list NodeData) (cs : list Connection)
    (comps : list (list string)) : list Network :=
  imap (λ k c, expectedNetwork k ns cs c) (filter (surfacedComponent ns cs) comps).

(** The state of the loop of [detectMultipleNetworks] after the nodes
    [processed]: the marked ids are those of the components found so
    far, every processed node is in one of them, and each component
    starts at the first node, in insertion order, that the earlier
    components had left out. *)
Definition explored (cs : list Connection) (ids processed : list string)
    (visitedNodes : gmap string bool) (comps : list (list string)) : Prop :=
  (∀ k, visited_get visitedNodes k = true ↔ k ∈ concat comps)
  ∧ NoDup (concat comps)
  ∧ Forall (isComponent cs) comps
  ∧ (∀ k, k ∈ concat comps → k ∈ ids)
  ∧ (∀ k, k ∈ processed → k ∈ concat comps)
  ∧ (∀ j c, comps !! j = Some c →
            head c = firstUnvisited ids (concat (take j comps))).

(** Two separate chains input - agent - output, with configured OpenAI
    agents. *)
Definition readyConfig (n : string) : Config :=
  {| name := Some n; apiKey := Some "sk-test"; apiUrl := None;
     model := Some "gpt-4o"; accessKey := None; secretKey := None;
     region := None; cfg_port := None; endpoint := None;
     routingStrategy := None; outputPorts := None; keywordPatterns := None |}.

Definition plainNode (i t : string) : NodeData :=
  {| node_id := i; element := None; type := t; subType := None;
     config := Some emptyConfig |}.

Definition agentNode (i n : string) : NodeData :=
  {| node_id := i; element := None; type := "agent"; subType := Some "openai";
     config := Some (readyConfig n) |}.

Definition twoChainsEditor : Editor :=
  {| nodes := [ plainNode "node-1" "input"; plainNode "node-2" "input";
                agentNode "node-3" "first"; agentNode "node-4" "second";
                plainNode "node-5" "output"; plainNode "node-6" "output" ];
     connections := [ link "u1" "node-1" "node-3"; link "u2" "node-2" "node-4";
                      link "u3" "node-4" "node-6"; link "u4" "node-3" "node-5" ];
     selectedNode := None; connectionStart := None; nodeCounter := 6 |}.

(** ** Sequences of operations on the store *)

(** What the user can do to the store.  A node is named by its id: the
    handlers of a node are attached to its element, which is on the
    page as long as the node is in [nodes].  For the same reason the
    two ports of a gesture belong to nodes of the store; between the
    press and the release no other handler runs (a release anywhere
    else clears [connectionStart]). *)
Inductive StoreOp :=
  | OpCreateNode (cardData : CardData)
  | OpAddInputNode
  | OpAddOutputNode
  | OpSelectNode (i : string)
  | OpConnect (uniqueId : string) (a b : PortRef)
  | OpDeleteNode (i : string)
  | OpDeleteSelected (isSelected : Connection → bool)
  | OpDeleteConnection (connectionId : string)
  | OpRouter (op : RouterOp).

Definition nodeOnCanvas (i : string) (s : Editor) : option NodeData :=
  List.find (λ n, bool_decide (node_id n = i)) (nodes s).

Definition runStoreOp (op : StoreOp) (s : Editor) : Editor :=
  match op with
  | OpCreateNode cardData => fst (createNode cardData s)
  | OpAddInputNode => fst (addInputNode s)
  | OpAddOutputNode => fst (addOutputNode s)
  | OpSelectNode i =>
      match nodeOnCanvas i s with
      | Some nodeData => selectNode nodeData s
      | None => s
      end
  | OpConnect uniqueId a b =>
      match nodeOnCanvas (nodeId a) s, nodeOnCanvas (nodeId b) s with
      | Some _, Some _ => connectGesture uniqueId a b s
      | _, _ => s
      end
  | OpDeleteNode i =>
      match nodeOnCanvas i s with
      | Some nodeData => deleteNodeClick nodeData s
      | None => s
      end
  | OpDeleteSelected isSelected => deleteSelected isSelected s
  | OpDeleteConnection connectionId => deleteConnectionClick connectionId s
  | OpRouter op =>
      match runRouterOp op s with
      | Some s' => s'
      | None => s
      end
  end.

Definition runStoreOps (ops : list StoreOp) (s : Editor) : Editor :=
  foldl (λ s op, runStoreOp op s) s ops.

(** Node ids are distinct and come from the counter, and connections
    join nodes of the store. *)
Definition counted (s : Editor) : Prop :=
  wellFormed s
  ∧ ∀ i, i ∈ map node_id (nodes s) →
         ∃ k, (k ≤ nodeCounter s)%nat ∧ i = "node-" +:+ pretty k.
(** ** Further properties: definitions *)

(** An editor with an input node that is selected and wired to an
    output node. *)
Definition inputSelectedEditor : Editor :=
  let '(s1, input) := addInputNode emptyEditor in
  let '(s2, _) := addOutputNode s1 in
  selectNode input
    (connectGesture "k3x8a1b2"
       {| nodeId := "node-1"; port := "output"; portNumber := None |}
       {| nodeId := "node-2"; port := "input"; portNumber := None |} s2).

(** A connection with an end that is not a node of the list. *)
Definition dangling (ns : list NodeData) (c : Connection) : Prop :=
  nodeId (start c) ∉ map node_id ns ∨ nodeId (end_ c) ∉ map node_id ns.

(** The node ids of a detected network. *)
Definition networkNodeIds (n : Network) : list string := map nn_id (net_nodes n).

(** A store with a connection to a node that is not there. *)
Definition danglingEditor : Editor :=
  {| nodes := [ plainNode "node-1" "input" ];
     connections := [ link "u1" "node-1" "node-9" ];
     selectedNode := None; connectionStart := None; nodeCounter := 1 |}.

(** The answers of the status endpoint that end the polling. *)
Definition terminal (o : FetchOutcome) : Prop :=
  o = Status "COMPLETED" ∨ o = Status "FAILED".

Definition is_status_request (e : PollEvent) : bool :=
  match e with
  | EvFetchStatus _ => true
  | _ => false
  end.

Definition is_timeout_badge (e : PollEvent) : bool :=
  match e with
  | EvBadge _ text => bool_decide (text = "Timeout")
  | _ => false
  end.

(** The badge shown for a terminal status. *)
Definition terminalBadge (status : string) : PollEvent :=
  if bool_decide (status = "COMPLETED")
  then EvBadge "status-badge completed" "Completed"
  else EvBadge "status-badge error" "Failed".

(** An endpoint that fails twice, answers [RUNNING] once and then
    [COMPLETED]. *)
Definition completesAtFour (k : nat) : FetchOutcome :=
  match k with
  | 1%nat | 2%nat => FetchError "Failed to fetch"
  | 3%nat => Status "RUNNING"
  | _ => Status "COMPLETED"
  end.

(** ** Running the network *)

(** The body of the loop of [runNetwork] over the agent nodes: [Ok true]
    when the agent is pushed onto [unconfiguredAgents].  Only [openai]
    and [ollama] agents are looked at.  The inner test on [apiUrl]
    pushes the agent in both of its branches, but it reads
    [agent.config.apiUrl]: a [TypeError] for an [ollama] agent without
    [config]. *)
Definition unconfigured (agent : NodeData) : Result bool :=
  if subType_is "openai" agent || subType_is "ollama" agent then
    match config agent with
    | None => if subType_is "ollama" agent then Throw else Ok true
    | Some c =>
        if negb (truthy (apiKey c)) || negb (truthy (model c))
        then Ok true
        else Ok false
    end
  else Ok false.

(** [agentNodes.forEach(agent => { ... unconfiguredAgents.push(agent) })] *)
Definition unconfiguredAgents (agentNodes : list NodeData) : Result (list NodeData) :=
  foldl (λ acc agent,
           do! pushed := acc in
           do! u := unconfigured agent in
           Ok (if u then pushed ++ [agent] else pushed))
        (Ok []) agentNodes.

(** [currentNetworkData]: [{name, nodes, connections}].  A node is
    serialised as for a detected network, with its [position] in
    addition, which the model of a node does not carry. *)
Record NetworkData := {
  nd_name : string;
  nd_nodes : list NetworkNode;
  nd_connections : list NetworkConnection
}.

Definition currentNetworkDataOf (networkName : string) (s : Editor) : NetworkData :=
  {| nd_name := networkName;
     nd_nodes := map networkNodeOf (nodes s);
     nd_connections := map networkConnectionOf (connections s) |}.

(** How [runNetwork] ends: with an error notification, with the
    unconfigured agents highlighted, or with the execution dialog opened
    on the current network and the detected networks. *)
Inductive RunOutcome :=
  | RunRefused (notification : string)
  | RunNeedsConfiguration (agents : list NodeData)
  | RunDialog (currentNetworkData : NetworkData) (detectedNetworks : list Network).

(** [runNetwork()]; [networkName] is the text of the [network-name]
    element. *)
Definition runNetwork (networkName : string) (s : Editor) : Result RunOutcome :=
  if bool_decide (length (nodes s) = 0%nat)
  then Ok (RunRefused
             "Cannot run an empty network. Please add at least one agent node.")
  else
    let agentNodes := List.filter (is_type "agent") (nodes s) in
    if bool_decide (length agentNodes = 0%nat)
    then Ok (RunRefused
               "No agent nodes found. Please add at least one agent to your network.")
    else
      do! unconfiguredAgents0 := unconfiguredAgents agentNodes in
      if bool_decide (0 < length unconfiguredAgents0)%nat
      then Ok (RunNeedsConfiguration unconfiguredAgents0)
      else
        do! detectedNetworks := detectMultipleNetworks s in
        Ok (RunDialog (currentNetworkDataOf networkName s) detectedNetworks).

(** ** Creating an agent from the modal *)

Definition with_name (v : string) (c : Config) : Config :=
  {| name := Some v; apiKey := apiKey c; apiUrl := apiUrl c; model := model c;
     accessKey := accessKey c; secretKey := secretKey c; region := region c;
     cfg_port := cfg_port c; endpoint := endpoint c;
     routingStrategy := routingStrategy c;
     outputPorts := outputPorts c; keywordPatterns := keywordPatterns c |}.

Definition with_apiKey (v : string) (c : Config) : Config :=
  {| name := name c; apiKey := Some v; apiUrl := apiUrl c; model := model c;
     accessKey := accessKey c; secretKey := secretKey c; region := region c;
     cfg_port := cfg_port c; endpoint := endpoint c;
     routingStrategy := routingStrategy c;
     outputPorts := outputPorts c; keywordPatterns := keywordPatterns c |}.

Definition with_apiUrl (v : string) (c : Config) : Config :=
  {| name := name c; apiKey := apiKey c; apiUrl := Some v; model := model c;
     accessKey := accessKey c; secretKey := secretKey c; region := region c;
     cfg_port := cfg_port c; endpoint := endpoint c;
     routingStrategy := routingStrategy c;
     outputPorts := outputPorts c; keywordPatterns := keywordPatterns c |}.

Definition with_model (v : string) (c : Config) : Config :=
  {| name := name c; apiKey := apiKey c; apiUrl := apiUrl c; model := Some v;
     accessKey := accessKey c; secretKey := secretKey c; region := region c;
     cfg_port := cfg_port c; endpoint := endpoint c;
     routingStrategy := routingStrategy c;
     outputPorts := outputPorts c; keywordPatterns := keywordPatterns c |}.

Definition with_accessKey (v : string) (c : Config) : Config :=
  {| name := name c; apiKey := apiKey c; apiUrl := apiUrl c; model := model c;
     accessKey := Some v; secretKey := secretKey c; region := region c;
     cfg_port := cfg_port c; endpoint := endpoint c;
     routingStrategy := routingStrategy c;
     outputPorts := outputPorts c; keywordPatterns := keywordPatterns c |}.

Definition with_secretKey (v : string) (c : Config) : Config :=
  {| name := name c; apiKey := apiKey c; apiUrl := apiUrl c; model := model c;
     accessKey := accessKey c; secretKey := Some v; region := region c;
     cfg_port := cfg_port c; endpoint := endpoint c;
     routingStrategy := routingStrategy c;
     outputPorts := outputPorts c; keywordPatterns := keywordPatterns c |}.

Definition with_region (v : string) (c : Config) : Config :=
  {| name := name c; apiKey := apiKey c; apiUrl := apiUrl c; model := model c;
     accessKey := accessKey c; secretKey := secretKey c; region := Some v;
     cfg_port := cfg_port c; endpoint := endpoint c;
     routingStrategy := routingStrategy c;
     outputPorts := outputPorts c; keywordPatterns := keywordPatterns c |}.

Definition with_cfg_port (v : string) (c : Config) : Config :=
  {| name := name c; apiKey := apiKey c; apiUrl := apiUrl c; model := model c;
     accessKey := accessKey c; secretKey := secretKey c; region := region c;
     cfg_port := Some v; endpoint := endpoint c;
     routingStrategy := routingStrategy c;
     outputPorts := outputPorts c; keywordPatterns := keywordPatterns c |}.

Definition with_endpoint (v : string) (c : Config) : Config :=
  {| name := name c; apiKey := apiKey c; apiUrl := apiUrl c; model := model c;
     accessKey := accessKey c; secretKey := secretKey c; region := region c;
     cfg_port := cfg_port c; endpoint := Some v;
     routingStrategy := routingStrategy c;
     outputPorts := outputPorts c; keywordPatterns := keywordPatterns c |}.

Definition with_routingStrategy (v : string) (c : Config) : Config :=
  {| name := name c; apiKey := apiKey c; apiUrl := apiUrl c; model := model c;
     accessKey := accessKey c; secretKey := secretKey c; region := region c;
     cfg_port := cfg_port c; endpoint := endpoint c;
     routingStrategy := Some v;
     outputPorts := outputPorts c; keywordPatterns := keywordPatterns c |}.

(** [document.getElementById(...)?.value || d] *)
Definition value_or (v : option string) (d : string) : string :=
  match v with
  | Some s => if bool_decide (s = "") then d else s
  | None => d
  end.

(** The fields of the new-agent modal: the name and the type, and for
    each other field its value when the element is on the page. *)
Record NewAgentForm := {
  new_agent_name : string;
  new_agent_type : string;
  new_openai_api_key : option string;
  new_openai_model : option string;
  new_ollama_api_url : option string;
  new_ollama_api_key : option string;
  new_ollama_model : option string;
  new_anthropic_api_key : option string;
  new_anthropic_model : option string;
  new_aws_access_key : option string;
  new_aws_secret_key : option string;
  new_aws_region : option string;
  new_bedrock_model : option string;
  new_agent_port : option string;
  new_agent_endpoint : option string
}.

(** The configuration that [createNewAgent] writes into the new node
    ([config.script] of a custom agent is read by no function here). *)
Definition newAgentConfig (form : NewAgentForm) (c : Config) : Config :=
  let agentType0 := new_agent_type form in
  let c := with_name (new_agent_name form) c in
  if bool_decide (agentType0 = "openai") then
    with_model (value_or (new_openai_model form) "gpt-4o")
      (with_apiKey (value_or (new_openai_api_key form) "") c)
  else if bool_decide (agentType0 = "ollama") then
    with_model (value_or (new_ollama_model form) "deepseek-r1:latest")
      (with_apiKey (value_or (new_ollama_api_key form) "")
         (with_apiUrl (value_or (new_ollama_api_url form) "") c))
  else if bool_decide (agentType0 = "anthropic") then
    with_model (value_or (new_anthropic_model form) "claude-3-opus")
      (with_apiKey (value_or (new_anthropic_api_key form) "") c)
  else if bool_decide (agentType0 = "bedrock") then
    with_model (value_or (new_bedrock_model form)
                         "anthropic.claude-3-sonnet-20240229-v1:0")
      (with_region (value_or (new_aws_region form) "us-east-1")
         (with_secretKey (value_or (new_aws_secret_key form) "")
            (with_accessKey (value_or (new_aws_access_key form) "") c)))
  else if bool_decide (agentType0 = "custom") then
    with_endpoint (value_or (new_agent_endpoint form) "")
      (with_cfg_port (value_or (new_agent_port form) "") c)
  else c.

(** [createNewAgent()]: the new state.  The node object that
    [createNode] pushed onto [nodes] is the one whose [config] is
    written afterwards. *)
Definition createNewAgent (form : NewAgentForm) (s : Editor) : Editor :=
  if bool_decide (new_agent_name form = "") then s
  else
    let '(s1, nodeData) :=
      createNode {| card_type := "agent";
                    agentType := Some (new_agent_type form);
                    toolType := None |} s in
    let nodeData' :=
      with_config (newAgentConfig form (config_or_empty nodeData)) nodeData in
    set_nodes (nodes s ++ [nodeData']) s1.

(** The agents that [runNetwork] looks at, and what it wants of them. *)
Definition gated (node : NodeData) : Prop :=
  type node = "agent"
  ∧ (subType node = Some "openai" ∨ subType node = Some "ollama").

Definition keyAndModel (node : NodeData) : Prop :=
  ∃ c, config node = Some c ∧ truthy (apiKey c) = true ∧ truthy (model c) = true.

(** An Ollama agent with a key and a model, and no API url. *)
Definition ollamaWithoutUrl : NodeData :=
  {| node_id := "node-2"; element := None; type := "agent";
     subType := Some "ollama"; config := Some (readyConfig "local") |}.

Definition ollamaEditor : Editor :=
  {| nodes := [ plainNode "node-1" "input"; ollamaWithoutUrl;
                plainNode "node-3" "output" ];
     connections := [ link "u1" "node-1" "node-2"; link "u2" "node-2" "node-3" ];
     selectedNode := None; connectionStart := None; nodeCounter := 3 |}.

(** Whether the credentials of the agent type were typed into the
    modal. *)
Definition credentialsGiven (form : NewAgentForm) : bool :=
  let t := new_agent_type form in
  if bool_decide (t = "openai") then truthy (new_openai_api_key form)
  else if bool_decide (t = "ollama")
  then truthy (new_ollama_api_url form) && truthy (new_ollama_api_key form)
  else if bool_decide (t = "anthropic") then truthy (new_anthropic_api_key form)
  else if bool_decide (t = "bedrock")
  then truthy (new_aws_access_key form) && truthy (new_aws_secret_key form)
  else if bool_decide (t = "custom")
  then truthy (new_agent_port form) || truthy (new_agent_endpoint form)
  else true.

(** The modal filled in for an OpenAI agent, with the model left at its
    default. *)
Definition openaiForm : NewAgentForm :=
  {| new_agent_name := "helper"; new_agent_type := "openai";
     new_openai_api_key := Some "sk-test"; new_openai_model := Some "";
     new_ollama_api_url := None; new_ollama_api_key := None;
     new_ollama_model := None; new_anthropic_api_key := None;
     new_anthropic_model := None; new_aws_access_key := None;
     new_aws_secret_key := None; new_aws_region := None;
     new_bedrock_model := None; new_agent_port := None;
     new_agent_endpoint := None |}.

(** ** Selecting and posting networks *)

(** The [data] of a selected network: the serialised store, or one of
    the detected networks. *)
Inductive SelectedData :=
  | CurrentData (d : NetworkData)
  | DetectedData (n : Network).

(** [{id, data, mode}] *)
Record SelectedNetwork := {
  selected_id : string;
  selected_data : SelectedData;
  selected_mode : string
}.

(** The check boxes [network-current] and [network-<index>] of the
    dialog: [None] when the element is not on the page. *)
Record NetworkBoxes := {
  network_current : option bool;
  network_index : nat → option bool
}.

(** [box && box.checked] *)
Definition checked (box : option bool) : bool :=
  match box with
  | Some b => b
  | None => false
  end.

(** [detectedNetworks.forEach((network, index) => { ... })], from
    [index] on. *)
Fixpoint selectDetected (executionMode0 : string) (boxes : NetworkBoxes)
    (index : nat) (detectedNetworks : list Network) : list SelectedNetwork :=
  match detectedNetworks with
  | [] => []
  | network :: rest =>
      (if checked (network_index boxes index)
       then [ {| selected_id := "detected-" +:+ pretty index;
                 selected_data := DetectedData network;
                 selected_mode := executionMode0 |} ]
       else [])
      ++ selectDetected executionMode0 boxes (S index) rest
  end.

(** [getSelectedNetworks(currentNetworkData, detectedNetworks)].
    [executionMode] is the value of the checked [execution-mode] radio
    button; reading it when none is checked is a [TypeError]. *)
Definition getSelectedNetworks (executionMode : option string) (boxes : NetworkBoxes)
    (s : Editor) (currentNetworkData : NetworkData) (detectedNetworks : list Network)
    : Result (list SelectedNetwork) :=
  do! executionMode0 := defined executionMode in
  let networks :=
    if checked (network_current boxes) then
      if valid (validateNetwork (nodes s) (connections s))
      then [ {| selected_id := "current";
                selected_data := CurrentData currentNetworkData;
                selected_mode := executionMode0 |} ]
      else []
    else [] in
  Ok (networks ++ selectDetected executionMode0 boxes 0 detectedNetworks).

(** The body of the request to [/api/workflows/run-network]. *)
Inductive ExecutionData :=
  | SingleNetwork (data : SelectedData) (input : string)
  | MultiNetwork (networks : list SelectedNetwork) (execution_mode : string)
                 (input : string).

(** How [executeNetworkWithInput] ends: with a warning about the empty
    input; with the [Error] badge because no network is selected; or
    with the request sent.  The tab switch, the badges and the log
    entries only paint and are left out. *)
Inductive ExecuteOutcome :=
  | ExecNoInput
  | ExecNothingSelected
  | ExecPosted (body : ExecutionData).

(** [executeNetworkWithInput(networkData, detectedNetworks)];
    [userInput] is the value of the [user-input] field. *)
Definition executeNetworkWithInput (userInput : string) (executionMode : option string)
    (boxes : NetworkBoxes) (s : Editor) (networkData : NetworkData)
    (detectedNetworks : list Network) : Result ExecuteOutcome :=
  if bool_decide (trim userInput = "") then Ok ExecNoInput
  else
    do! networks :=
      getSelectedNetworks executionMode boxes s networkData detectedNetworks in
    do! executionMode0 := defined executionMode in
    if bool_decide (length networks = 0%nat) then Ok ExecNothingSelected
    else
      match networks with
      | [only] => Ok (ExecPosted (SingleNetwork (selected_data only) userInput))
      | _ => Ok (ExecPosted (MultiNetwork networks executionMode0 userInput))
      end.

(** The networks that a request body carries, and its input. *)
Definition carried (body : ExecutionData) : list SelectedData :=
  match body with
  | SingleNetwork data _ => [data]
  | MultiNetwork networks _ _ => map selected_data networks
  end.

Definition inputOf (body : ExecutionData) : string :=
  match body with
  | SingleNetwork _ input => input
  | MultiNetwork _ _ input => input
  end.

(** ** The configuration panel *)

(** The fields of the panel that [applyNodeConfig] reads for a node
    that is not a router. *)
Record ConfigPanel := {
  node_name : string;
  openai_api_key : string;
  openai_model : string;
  ollama_api_url : string;
  ollama_api_key : string;
  ollama_model : string;
  anthropic_api_key : string;
  anthropic_model : string;
  aws_access_key : string;
  aws_secret_key : string;
  aws_region : string;
  bedrock_model : string;
  agent_port : string;
  agent_endpoint : string
}.

(** The branch of [applyNodeConfig] for the sub-type of an agent: the
    validation errors after it, and the writes to [config] it makes when
    no error was found so far ([config.systemMessage] and
    [config.script] are read by no function here). *)
Definition agentBranch (panel : ConfigPanel) (node : NodeData)
    (validationErrors : list string) : list string * option (Config → Config) :=
  let stored (errors : list string) (writes : Config → Config) :=
    (errors, if bool_decide (length errors = 0%nat) then Some writes else None) in
  if subType_is "openai" node then
    let apiKey0 := openai_api_key panel in
    let model0 := openai_model panel in
    let errors :=
      validationErrors
      ++ (if blank (Some apiKey0) then ["OpenAI API Key is required"] else [])
      ++ (if bool_decide (model0 = "") then ["Please select a model"] else []) in
    stored errors (λ c, with_model model0 (with_apiKey apiKey0 c))
  else if subType_is "ollama" node then
    let apiUrl0 := ollama_api_url panel in
    let apiKey0 := ollama_api_key panel in
    let model0 := ollama_model panel in
    let errors :=
      validationErrors
      ++ (if blank (Some apiUrl0) then ["Ollama API url is required"] else [])
      ++ (if blank (Some apiKey0) then ["Ollama API Key is required"] else [])
      ++ (if bool_decide (model0 = "") then ["Please define a model"] else []) in
    stored errors (λ c, with_model model0 (with_apiKey apiKey0 (with_apiUrl apiUrl0 c)))
  else if subType_is "anthropic" node then
    let apiKey0 := anthropic_api_key panel in
    let model0 := anthropic_model panel in
    let errors :=
      validationErrors
      ++ (if blank (Some apiKey0) then ["Anthropic API Key is required"] else [])
      ++ (if bool_decide (model0 = "") then ["Please select a model"] else []) in
    stored errors (λ c, with_model model0 (with_apiKey apiKey0 c))
  else if subType_is "bedrock" node then
    let accessKey0 := aws_access_key panel in
    let secretKey0 := aws_secret_key panel in
    let region0 := aws_region panel in
    let model0 := bedrock_model panel in
    let errors :=
      validationErrors
      ++ (if blank (Some accessKey0) then ["AWS Access Key is required"] else [])
      ++ (if blank (Some secretKey0) then ["AWS Secret Key is required"] else [])
      ++ (if bool_decide (region0 = "") then ["Please select an AWS region"] else [])
      ++ (if bool_decide (model0 = "") then ["Please select a model"] else []) in
    stored errors
      (λ c, with_model model0
              (with_region region0 (with_secretKey secretKey0 (with_accessKey accessKey0 c))))
  else if subType_is "custom" node then
    let port0 := agent_port panel in
    let endpoint0 := agent_endpoint panel in
    let errors :=
      validationErrors
      ++ (if bool_decide (port0 = "") && blank (Some endpoint0)
          then ["Either Port or Endpoint URL is required"] else []) in
    stored errors (λ c, with_endpoint endpoint0 (with_cfg_port port0 c))
  else (validationErrors, None).

(** How [applyNodeConfig] ends: at once, without a selected node; with
    the validation errors shown, in the given state; with the
    configuration stored and the panel closed; or with a [TypeError]
    ([config] or [element] of the node is missing), in the state reached
    so far. *)
Inductive ApplyOutcome :=
  | ApplyNoSelection
  | ApplyRejected (s' : Editor) (validationErrors : list string)
  | ApplyStored (s' : Editor)
  | ApplyTypeError (s' : Editor).

(** [applyNodeConfig()].  [routerBlock] is the block
    [if (selectedNode.type === 'router') { ... }]: the node after the
    writes of the block and the validation errors it pushes, or [None]
    for a [TypeError]. *)
Definition applyNodeConfig (panel : ConfigPanel)
    (routerBlock : NodeData → option (NodeData * list string))
    (s : Editor) : ApplyOutcome :=
  match selectedNode s with
  | None => ApplyNoSelection
  | Some sel =>
      let nodeName := node_name panel in
      let validationErrors :=
        if blank (Some nodeName) then ["Node name is required"] else [] in
      let '(validationErrors, writes) :=
        if bool_decide (type sel = "agent")
        then agentBranch panel sel validationErrors
        else (validationErrors, None) in
      let afterAgent :=
        match writes with
        | Some w =>
            match config sel with
            | Some c => Some (set_selected (with_config (w c) sel) s, with_config (w c) sel)
            | None => None
            end
        | None => Some (s, sel)
        end in
      match afterAgent with
      | None => ApplyTypeError s
      | Some (s1, sel1) =>
          let afterRouter :=
            if bool_decide (type sel1 = "router")
            then match routerBlock sel1 with
                 | Some (sel2, errors) =>
                     Some (set_selected sel2 s1, sel2, validationErrors ++ errors)
                 | None => None
                 end
            else Some (s1, sel1, validationErrors) in
          match afterRouter with
          | None => ApplyTypeError s1
          | Some (s2, sel2, validationErrors) =>
              if bool_decide (0 < length validationErrors)%nat
              then ApplyRejected s2 validationErrors
              else
                match config sel2 with
                | None => ApplyTypeError s2
                | Some c =>
                    let sel3 := with_config (with_name nodeName c) sel2 in
                    let s3 := set_selected sel3 s2 in
                    if bool_decide (type sel3 = "agent") && negb (bool_decide (is_Some (element sel3)))
                    then ApplyTypeError s3
                    else ApplyStored s3
                end
          end
      end
  end.

(** The panel filled in for an OpenAI agent. *)
Definition openaiPanel : ConfigPanel :=
  {| node_name := "helper"; openai_api_key := "sk-test"; openai_model := "gpt-4o";
     ollama_api_url := ""; ollama_api_key := ""; ollama_model := "";
     anthropic_api_key := ""; anthropic_model := "";
     aws_access_key := ""; aws_secret_key := ""; aws_region := "";
     bedrock_model := ""; agent_port := ""; agent_endpoint := "" |}.

(** The same panel with a name of Unicode white space only. *)
Definition unicodeBlankNamePanel : ConfigPanel :=
  {| node_name := nbsp +:+ emsp; openai_api_key := "sk-test";
     openai_model := "gpt-4o";
     ollama_api_url := ""; ollama_api_key := ""; ollama_model := "";
     anthropic_api_key := ""; anthropic_model := "";
     aws_access_key := ""; aws_secret_key := ""; aws_region := "";
     bedrock_model := ""; agent_port := ""; agent_endpoint := "" |}.

(** An editor with an OpenAI agent dropped on the canvas and selected. *)
Definition agentEditor : Editor :=
  let '(s1, agent) :=
    createNode {| card_type := "agent"; agentType := Some "openai";
                  toolType := None |} emptyEditor in
  selectNode agent s1.

(** ** The router block of the panel *)

(** [updateRouterOutputPorts(node, count)]: the node after the call;
    [None] is the [TypeError] of [node.config.outputPorts = count] on a
    node without [config].  Port elements are appended with the numbers
    [currentPorts .. count - 1]; excess ports are looked up by number,
    from [currentPorts - 1] down to [count], and removed when found. *)
Definition updateRouterOutputPorts (node : NodeData) (count : Z) : option NodeData :=
  if negb (bool_decide (type node = "router")) then Some node
  else
    match container_of node with
    | None => Some node
    | Some ports =>
        let currentPorts := Z.of_nat (length ports) in
        let count := Z.max 2 count in
        if bool_decide (currentPorts = count) then Some node
        else
          let ports' :=
            if bool_decide (currentPorts < count)
            then ports ++ seqZ currentPorts (count - currentPorts)
            else foldl (λ acc i, remove_first_port i acc) ports
                       (reverse (seqZ count (currentPorts - count))) in
          match config node with
          | None => None
          | Some c =>
              Some (with_config (with_outputPorts count c) (with_container ports' node))
          end
    end.

Definition backslash : ascii := ascii_of_nat 92.

(** The characters of the class in the regular expression of
    [escapeRegex]: the dot, the star, the plus, the question mark, the
    caret, the dollar, the braces, the parentheses, the bar, the
    brackets and the backslash. *)
Definition regexSpecial : list ascii :=
  [ "."; "*"; "+"; "?"; "^"; "$"; "{"; "}"; "("; ")"; "|"; "["; "]" ]%char
  ++ [ backslash ].

Definition is_special (a : ascii) : bool := bool_decide (a ∈ regexSpecial).

(** The inner function [escapeRegex] of [applyNodeConfig]: a backslash
    is put before every character of the class. *)
Fixpoint escapeRegex (s : string) : string :=
  match s with
  | EmptyString => EmptyString
  | String a s' =>
      if is_special a
      then String backslash (String a (escapeRegex s'))
      else String a (escapeRegex s')
  end.

(** The regular expression that [applyNodeConfig] stores for a keyword
    of a pattern type. *)
Definition patternFor (patternType keywordValue : string) : string :=
  if bool_decide (patternType ≠ "regex") then
    if bool_decide (patternType = "contains") then escapeRegex keywordValue
    else if bool_decide (patternType = "startsWith") then "^" +:+ escapeRegex keywordValue
    else if bool_decide (patternType = "endsWith") then escapeRegex keywordValue +:+ "$"
    else if bool_decide (patternType = "exactMatch")
    then "^" +:+ escapeRegex keywordValue +:+ "$"
    else keywordValue
  else keywordValue.

(** [s.startsWith(c)], [s.endsWith(c)] and [s.includes(c)] for a
    character [c]. *)
Definition startsWith (c : ascii) (s : string) : bool :=
  match s with
  | String a _ => bool_decide (a = c)
  | EmptyString => false
  end.

Fixpoint endsWith (c : ascii) (s : string) : bool :=
  match s with
  | EmptyString => false
  | String a EmptyString => bool_decide (a = c)
  | String _ s' => endsWith c s'
  end.

Fixpoint includesChar (c : ascii) (s : string) : bool :=
  match s with
  | EmptyString => false
  | String a s' => bool_decide (a = c) || includesChar c s'
  end.

(** The pattern type that [showRoutingStrategyConfig] guesses for a
    stored pattern without [originalType]. *)
Definition guessPatternType (keyword0 : string) : string :=
  if startsWith "^" keyword0 && endsWith "$" keyword0 then "exactMatch"
  else if startsWith "^" keyword0 then "startsWith"
  else if endsWith "$" keyword0 then "endsWith"
  else if includesChar "*" keyword0 || includesChar "?" keyword0
          || includesChar "[" keyword0
  then "regex"
  else "contains".

(** A [.keyword-pattern-row] of the panel: the value of its
    [.pattern-input] and the number in the value of its [.port-select]
    (the options of the select are numbered from 0), each when the row
    has the element, and its [data-pattern-type] attribute. *)
Record KeywordRow := {
  pattern_input : option string;
  port_select : option Z;
  data_pattern_type : option string
}.

(** A [.mapping-row] of the panel. *)
Record MappingRow := {
  content_type_input : option string;
  mapping_port_select : option Z
}.

(** The fields of the panel that the router block reads. *)
Record RouterPanel := {
  router_strategy : string;
  ai_router_prompt : string;
  keyword_rows : list KeywordRow;
  mapping_rows : list MappingRow
}.

(** The pattern pushed for a row, when one is. *)
Definition rowPattern (row : KeywordRow) : option Pattern :=
  match pattern_input row, port_select row with
  | Some value, Some port0 =>
      if bool_decide (trim value ≠ "") then
        let patternType := value_or (data_pattern_type row) "contains" in
        let keywordValue := trim value in
        Some {| keyword := patternFor patternType keywordValue;
                pat_port := port0;
                originalType := patternType;
                originalValue := keywordValue |}
      else None
  | _, _ => None
  end.

Definition rowMapping (row : MappingRow) : option (string * Z) :=
  match content_type_input row, mapping_port_select row with
  | Some value, Some port0 =>
      if bool_decide (trim value ≠ "") then Some (value, port0) else None
  | _, _ => None
  end.

(** The block [if (selectedNode.type === 'router') { ... }] of
    [applyNodeConfig]: the node after its writes and the validation
    errors it pushes; [None] is the [TypeError] of a node without
    [config].  ([config.aiRouterPrompt], [config.portWeights] and
    [config.contentTypeMappings] are read by no function here.) *)
Definition routerBlock (panel : RouterPanel) (node : NodeData)
    : option (NodeData * list string) :=
  match config node with
  | None => None
  | Some c =>
      let routerStrategy := router_strategy panel in
      let c1 := with_routingStrategy routerStrategy c in
      let node1 := with_config c1 node in
      if bool_decide (routerStrategy = "ai") then
        Some (node1, if blank (Some (ai_router_prompt panel))
                     then ["AI Router prompt is required"] else [])
      else if bool_decide (routerStrategy = "keyword") then
        let patterns := omap rowPattern (keyword_rows panel) in
        if bool_decide (length patterns = 0%nat)
        then Some (node1, ["At least one keyword pattern is required"])
        else
          let patternCount := Z.of_nat (length patterns) in
          let c2 := with_outputPorts (Z.max 2 patternCount)
                                     (with_keywordPatterns patterns c1) in
          match updateRouterOutputPorts (with_config c2 node) patternCount with
          | Some node3 => Some (node3, [])
          | None => None
          end
      else if bool_decide (routerStrategy = "content-type") then
        let mappings := omap rowMapping (mapping_rows panel) in
        Some (node1, if bool_decide (length mappings = 0%nat)
                     then ["At least one content type mapping is required"] else [])
      else Some (node1, [])
  end.

(** A panel with three keyword rows, the second left empty. *)
Definition keywordPanel : RouterPanel :=
  {| router_strategy := "keyword"; ai_router_prompt := "";
     keyword_rows :=
       [ {| pattern_input := Some "weather"; port_select := Some 0;
            data_pattern_type := Some "contains" |};
         {| pattern_input := Some "  "; port_select := Some 1;
            data_pattern_type := Some "startsWith" |};
         {| pattern_input := Some " help me "; port_select := Some 1;
            data_pattern_type := Some "exactMatch" |} ];
     mapping_rows := [] |}.

Definition routerNamePanel (n : string) : ConfigPanel :=
  {| node_name := n; openai_api_key := ""; openai_model := "";
     ollama_api_url := ""; ollama_api_key := ""; ollama_model := "";
     anthropic_api_key := ""; anthropic_model := "";
     aws_access_key := ""; aws_secret_key := ""; aws_region := "";
     bedrock_model := ""; agent_port := ""; agent_endpoint := "" |}.

(** The same rows, typed with Unicode white space: a no-break space
    after the first keyword, an em space and a no-break space in the
    second row, an em space before the third keyword. *)
Definition unicodeKeywordPanel : RouterPanel :=
  {| router_strategy := "keyword"; ai_router_prompt := "";
     keyword_rows :=
       [ {| pattern_input := Some ("weather" +:+ nbsp); port_select := Some 0;
            data_pattern_type := Some "contains" |};
         {| pattern_input := Some (emsp +:+ nbsp); port_select := Some 1;
            data_pattern_type := Some "startsWith" |};
         {| pattern_input := Some (emsp +:+ "help me "); port_select := Some 1;
            data_pattern_type := Some "exactMatch" |} ];
     mapping_rows := [] |}.

(** A keyword panel whose only row is a no-break space. *)
Definition blankRowsPanel : RouterPanel :=
  {| router_strategy := "keyword"; ai_router_prompt := "";
     keyword_rows :=
       [ {| pattern_input := Some nbsp; port_select := Some 0;
            data_pattern_type := Some "contains" |} ];
     mapping_rows := [] |}.

(** A keyword without a character of the class of [escapeRegex]. *)
Fixpoint plain (s : string) : bool :=
  match s with
  | EmptyString => true
  | String a s' => negb (is_special a) && plain s'
  end.

(** The text that an escaped keyword stands for: the backslashes put
    in by [escapeRegex] are taken out again. *)
Fixpoint unescape (s : string) : string :=
  match s with
  | EmptyString => EmptyString
  | String a s' =>
      if bool_decide (a = backslash) then
        match s' with
        | String b s'' => String b (unescape s'')
        | EmptyString => String a EmptyString
        end
      else String a (unescape s')
  end.

(** The pattern types that [applyNodeConfig] converts. *)
Definition convertedTypes : list string :=
  ["contains"; "startsWith"; "endsWith"; "exactMatch"].

(** ** Sequences of operations on the editor *)

(** What the user can do to the editor: the operations on the store,
    the new-agent modal, and the configuration panel. *)
Inductive EditorOp :=
  | OpStore (op : StoreOp)
  | OpCreateNewAgent (form : NewAgentForm)
  | OpApplyNodeConfig (panel : ConfigPanel) (routerPanel : RouterPanel).

(** The editor that [applyNodeConfig] leaves behind. *)
Definition stateAfter (outcome : ApplyOutcome) (s : Editor) : Editor :=
  match outcome with
  | ApplyNoSelection => s
  | ApplyRejected s' _ => s'
  | ApplyStored s' => s'
  | ApplyTypeError s' => s'
  end.

Definition runEditorOp (op : EditorOp) (s : Editor) : Editor :=
  match op with
  | OpStore op => runStoreOp op s
  | OpCreateNewAgent form => createNewAgent form s
  | OpApplyNodeConfig panel routerPanel =>
      stateAfter (applyNodeConfig panel (routerBlock routerPanel) s) s
  end.

Definition runEditorOps (ops : list EditorOp) (s : Editor) : Editor :=
  foldl (λ s op, runEditorOp op s) s ops.

(** * Theorems *)

(** ** White space *)

(** [trim] removes each of the 25 white-space code points at both ends,
    and only there; a text of white space only is blank. *)
Example trim_removes_white_space :
  Forall (λ w, trim (w +:+ "a" +:+ w +:+ "b" +:+ w) = "a" +:+ w +:+ "b"
               ∧ trim (w +:+ w) = ""
               ∧ blank (Some w) = true) whiteSpace.
Proof. apply (bool_decide_unpack _). vm_compute. reflexivity. Qed.

(** The neighbouring code points stay. *)
Example trim_keeps_other_characters :
  Forall (λ w, trim w = w ∧ trim (w +:+ "a" +:+ w) = w +:+ "a" +:+ w
               ∧ blank (Some w) = false) keptByTrim.
Proof. apply (bool_decide_unpack _). vm_compute. reflexivity. Qed.

(** [trim] against the list [whiteSpace]: what it removes is white
    space, and it removes all of it at both ends. *)
Section WhiteSpace.

Implicit Types (s t : string) (a b c : ascii).

Lemma string_app_cons a s t : String a s +:+ t = String a (s +:+ t).
Proof. reflexivity. Qed.

Lemma string_app_nil_l s : "" +:+ s = s.
Proof. reflexivity. Qed.

Lemma string_app_assoc s t u : (s +:+ t) +:+ u = s +:+ (t +:+ u).
Proof.
  induction s as [|a s IH]; [done|]. rewrite !string_app_cons. by rewrite IH.
Qed.

Lemma string_app_nil_r s : s +:+ "" = s.
Proof. induction s as [|a s IH]; [done|]. rewrite string_app_cons. by rewrite IH. Qed.

Lemma list_ascii_app s t :
  list_ascii_of_string (s +:+ t) = list_ascii_of_string s ++ list_ascii_of_string t.
Proof.
  induction s as [|a s IH]; [done|].
  rewrite string_app_cons. cbn [list_ascii_of_string app]. by rewrite IH.
Qed.

Lemma string_of_list_app (l k : list ascii) :
  string_of_list_ascii (l ++ k) = string_of_list_ascii l +:+ string_of_list_ascii k.
Proof.
  induction l as [|a l IH]; [done|].
  cbn [app string_of_list_ascii]. rewrite string_app_cons. by rewrite IH.
Qed.

Lemma str_rev_app s t : str_rev (s +:+ t) = str_rev t +:+ str_rev s.
Proof.
  unfold str_rev. by rewrite list_ascii_app, rev_app_distr, string_of_list_app.
Qed.

Lemma str_rev_cons a s : str_rev (String a s) = str_rev s +:+ String a "".
Proof. apply (str_rev_app (String a "") s). Qed.

Lemma str_rev_involutive s : str_rev (str_rev s) = s.
Proof.
  unfold str_rev.
  by rewrite list_ascii_of_string_of_list_ascii, rev_involutive,
    string_of_list_ascii_of_string.
Qed.

Lemma joined_app (ws ws' : list string) : joined (ws ++ ws') = joined ws +:+ joined ws'.
Proof.
  induction ws as [|w ws IH]; [done|].
  unfold joined in *. cbn [foldr app]. by rewrite IH, string_app_assoc.
Qed.

Lemma whiteOnly_nil : whiteOnly "".
Proof. exists []. split; [constructor | done]. Qed.

Lemma whiteOnly_app s t : whiteOnly s → whiteOnly t → whiteOnly (s +:+ t).
Proof.
  intros (ws & Hws & ->) (ws' & Hws' & ->). exists (ws ++ ws').
  split; [by apply Forall_app | by rewrite joined_app].
Qed.

Lemma whiteOnly_one w : w ∈ whiteSpace → whiteOnly w.
Proof.
  intros Hw. exists [w]. split; [by constructor|].
  unfold joined. cbn [foldr]. by rewrite string_app_nil_r.
Qed.

Ltac byte_of H a :=
  let E := fresh in
  assert (E : a = ascii_of_nat (nat_of_ascii a)) by (by rewrite ascii_nat_embedding);
  rewrite H in E; subst a.

Ltac in_list := apply (bool_decide_unpack _); vm_compute; reflexivity.

Ltac from_list H :=
  vm_compute in H;
  repeat (apply elem_of_cons in H as [H|H]; [by simplify_eq|]);
  by apply elem_of_nil in H.

(** The tests of [trim_start] are the membership in [whiteSpace]. *)
Lemma is_ws_spec a : is_ws a = true ↔ String a "" ∈ whiteSpace.
Proof.
  split.
  - intros H. unfold is_ws in H. apply bool_decide_eq_true in H.
    destruct H as [H|[H|[H|[H|[H|H]]]]]; byte_of H a; in_list.
  - intros H. from_list H.
Qed.

Lemma is_ws2_spec a b : is_ws2 a b = true ↔ String a (String b "") ∈ whiteSpace.
Proof.
  split.
  - intros H. unfold is_ws2 in H. apply bool_decide_eq_true in H.
    destruct H as [H1 H2]. byte_of H1 a. byte_of H2 b. in_list.
  - intros H. from_list H.
Qed.

Lemma is_ws3_spec a b c :
  is_ws3 a b c = true ↔ String a (String b (String c "")) ∈ whiteSpace.
Proof.
  split.
  - intros H. unfold is_ws3 in H. apply bool_decide_eq_true in H. cbv zeta in H.
    destruct H as [(H1 & H2 & H3)|[(H1 & H2 & H3)|[(H1 & H2 & H3)|
                   [(H1 & H2 & H3)|(H1 & H2 & H3)]]]];
      byte_of H1 a; byte_of H2 b; try (byte_of H3 c; in_list).
    assert (H : (nat_of_ascii c = 128 ∨ nat_of_ascii c = 129 ∨ nat_of_ascii c = 130
                 ∨ nat_of_ascii c = 131 ∨ nat_of_ascii c = 132 ∨ nat_of_ascii c = 133
                 ∨ nat_of_ascii c = 134 ∨ nat_of_ascii c = 135 ∨ nat_of_ascii c = 136
                 ∨ nat_of_ascii c = 137 ∨ nat_of_ascii c = 138 ∨ nat_of_ascii c = 168
                 ∨ nat_of_ascii c = 169 ∨ nat_of_ascii c = 175)%nat) by lia.
    clear H3.
    repeat (destruct H as [H|H]; [byte_of H c; in_list|]).
    byte_of H c. in_list.
  - intros H. from_list H.
Qed.

(** What it is to start, or to end, with a white-space code point, on
    the leading bytes of the text and of the reversed text. *)
Lemma startsWithWhiteSpace_bytes s :
  startsWithWhiteSpace s ↔
  match s with
  | String a s1 =>
      is_ws a = true
      ∨ match s1 with
        | String b s2 =>
            is_ws2 a b = true
            ∨ match s2 with
              | String c s3 => is_ws3 a b c = true
              | EmptyString => False
              end
        | EmptyString => False
        end
  | EmptyString => False
  end.
Proof.
  split.
  - intros (w & t & Hw & ->). vm_compute in Hw.
    repeat (apply elem_of_cons in Hw as [->|Hw];
            [first [left; reflexivity | right; left; reflexivity
                   | right; right; reflexivity]|]).
    by apply elem_of_nil in Hw.
  - destruct s as [|a s1]; [done|]. intros [H|H].
    { exists (String a ""), s1. split; [by apply is_ws_spec | done]. }
    destruct s1 as [|b s2]; [done|]. destruct H as [H|H].
    { exists (String a (String b "")), s2. split; [by apply is_ws2_spec | done]. }
    destruct s2 as [|c s3]; [done|].
    exists (String a (String b (String c ""))), s3.
    split; [by apply is_ws3_spec | done].
Qed.

Lemma endsWithWhiteSpace_bytes s :
  endsWithWhiteSpace (str_rev s) ↔
  match s with
  | String a s1 =>
      is_ws a = true
      ∨ match s1 with
        | String b s2 =>
            is_ws2 b a = true
            ∨ match s2 with
              | String c s3 => is_ws3 c b a = true
              | EmptyString => False
              end
        | EmptyString => False
        end
  | EmptyString => False
  end.
Proof.
  split.
  - intros (w & t & Hw & E).
    assert (Hs : s = str_rev w +:+ str_rev t)
      by (by rewrite <- str_rev_app, <- E, str_rev_involutive).
    rewrite Hs. clear E Hs. vm_compute in Hw.
    repeat (apply elem_of_cons in Hw as [->|Hw];
            [first [left; reflexivity | right; left; reflexivity
                   | right; right; reflexivity]|]).
    by apply elem_of_nil in Hw.
  - destruct s as [|a s1]; [done|]. intros [H|H].
    { exists (String a ""), (str_rev s1).
      split; [by apply is_ws_spec | by rewrite str_rev_cons]. }
    destruct s1 as [|b s2]; [done|]. destruct H as [H|H].
    { exists (String b (String a "")), (str_rev s2).
      split; [by apply is_ws2_spec|].
      by rewrite !str_rev_cons, string_app_assoc. }
    destruct s2 as [|c s3]; [done|].
    exists (String c (String b (String a ""))), (str_rev s3).
    split; [by apply is_ws3_spec|].
    by rewrite !str_rev_cons, !string_app_assoc.
Qed.

(** [trim_start] takes white space off the start, as much as there is. *)
Lemma trim_start_spec s :
  ∃ before,
    whiteOnly before ∧ s = before +:+ trim_start s
    ∧ ¬ startsWithWhiteSpace (trim_start s).
Proof.
  remember (String.length s) as n eqn:Hn. revert s Hn.
  induction n as [n IH] using lt_wf_ind. intros s ->.
  assert (Hstop : ∀ t, ¬ startsWithWhiteSpace t →
            ∃ before, whiteOnly before ∧ t = before +:+ t ∧ ¬ startsWithWhiteSpace t).
  { intros t Ht. exists "". split; [apply whiteOnly_nil | done]. }
  assert (Hstep : ∀ w t, w ∈ whiteSpace → (String.length t < String.length s)%nat →
            s = w +:+ t →
            ∃ before, whiteOnly before ∧ s = before +:+ trim_start t
                      ∧ ¬ startsWithWhiteSpace (trim_start t)).
  { intros w t Hw Hlen ->.
    destruct (IH _ Hlen t eq_refl) as (before & Hb & Ht & Hnot).
    exists (w +:+ before). split; [apply whiteOnly_app; [by apply whiteOnly_one | done]|].
    split; [|done]. by rewrite string_app_assoc, <- Ht. }
  destruct s as [|a s1]; cbn [trim_start].
  { apply Hstop. by intros H%startsWithWhiteSpace_bytes. }
  destruct (is_ws a) eqn:E1.
  { apply (Hstep (String a "")); [by apply is_ws_spec | simpl; lia | done]. }
  destruct s1 as [|b s2].
  { apply Hstop. intros H%startsWithWhiteSpace_bytes. rewrite E1 in H. naive_solver. }
  destruct (is_ws2 a b) eqn:E2.
  { apply (Hstep (String a (String b ""))); [by apply is_ws2_spec | simpl; lia | done]. }
  destruct s2 as [|c s3].
  { apply Hstop. intros H%startsWithWhiteSpace_bytes. rewrite E1, E2 in H. naive_solver. }
  destruct (is_ws3 a b c) eqn:E3.
  { apply (Hstep (String a (String b (String c ""))));
      [by apply is_ws3_spec | simpl; lia | done]. }
  apply Hstop. intros H%startsWithWhiteSpace_bytes. rewrite E1, E2, E3 in H. naive_solver.
Qed.

Lemma trim_start_rev_spec s :
  ∃ after,
    whiteOnly after ∧ str_rev s = str_rev (trim_start_rev s) +:+ after
    ∧ ¬ endsWithWhiteSpace (str_rev (trim_start_rev s)).
Proof.
  remember (String.length s) as n eqn:Hn. revert s Hn.
  induction n as [n IH] using lt_wf_ind. intros s ->.
  assert (Hstop : ∀ t, ¬ endsWithWhiteSpace (str_rev t) →
            ∃ after, whiteOnly after ∧ str_rev t = str_rev t +:+ after
                     ∧ ¬ endsWithWhiteSpace (str_rev t)).
  { intros t Ht. exists "". split; [apply whiteOnly_nil|].
    split; [by rewrite string_app_nil_r | done]. }
  assert (Hstep : ∀ w t, w ∈ whiteSpace → (String.length t < String.length s)%nat →
            str_rev s = str_rev t +:+ w →
            ∃ after, whiteOnly after ∧ str_rev s = str_rev (trim_start_rev t) +:+ after
                     ∧ ¬ endsWithWhiteSpace (str_rev (trim_start_rev t))).
  { intros w t Hw Hlen E.
    destruct (IH _ Hlen t eq_refl) as (after & Ha & Ht & Hnot).
    exists (after +:+ w). split; [apply whiteOnly_app; [done | by apply whiteOnly_one]|].
    split; [|done]. by rewrite E, Ht, string_app_assoc. }
  destruct s as [|a s1]; cbn [trim_start_rev].
  { apply Hstop. by intros H%endsWithWhiteSpace_bytes. }
  destruct (is_ws a) eqn:E1.
  { apply (Hstep (String a "")); [by apply is_ws_spec | simpl; lia|].
    by rewrite str_rev_cons. }
  destruct s1 as [|b s2].
  { apply Hstop. intros H%endsWithWhiteSpace_bytes. rewrite E1 in H. naive_solver. }
  destruct (is_ws2 b a) eqn:E2.
  { apply (Hstep (String b (String a ""))); [by apply is_ws2_spec | simpl; lia|].
    by rewrite !str_rev_cons, string_app_assoc. }
  destruct s2 as [|c s3].
  { apply Hstop. intros H%endsWithWhiteSpace_bytes. rewrite E1, E2 in H. naive_solver. }
  destruct (is_ws3 c b a) eqn:E3.
  { apply (Hstep (String c (String b (String a ""))));
      [by apply is_ws3_spec | simpl; lia|].
    by rewrite !str_rev_cons, !string_app_assoc. }
  apply Hstop. intros H%endsWithWhiteSpace_bytes. rewrite E1, E2, E3 in H. naive_solver.
Qed.

(** [trim_end] takes white space off the end, as much as there is. *)
Lemma trim_end_spec s :
  ∃ after,
    whiteOnly after ∧ s = trim_end s +:+ after ∧ ¬ endsWithWhiteSpace (trim_end s).
Proof.
  destruct (trim_start_rev_spec (str_rev s)) as (after & Ha & E & Hnot).
  rewrite str_rev_involutive in E. exists after. done.
Qed.

(** [trim s] is [s] without the white space at its two ends. *)
Lemma trim_spec s : trimmedOf s (trim s).
Proof.
  unfold trim.
  destruct (trim_start_spec s) as (before & Hb & Es & Hstart).
  destruct (trim_end_spec (trim_start s)) as (after & Ha & Et & Hend).
  exists before, after. split; [done|]. split; [done|].
  split; [by rewrite <- Et|]. split; [|done].
  intros (w & t & Hw & E). apply Hstart. exists w, (t +:+ after).
  split; [done|]. by rewrite Et, E, string_app_assoc at 1.
Qed.

Lemma trim_start_white_space w t : w ∈ whiteSpace → trim_start (w +:+ t) = trim_start t.
Proof.
  intros Hw. vm_compute in Hw.
  repeat (apply elem_of_cons in Hw as [->|Hw]; [reflexivity|]).
  by apply elem_of_nil in Hw.
Qed.

(** A text is blank for [trim] exactly when it is made of white-space
    code points only. *)
Lemma trim_blank s : trim s = "" ↔ whiteOnly s.
Proof.
  split.
  - intros E. destruct (trim_spec s) as (before & after & Hb & Ha & Es & _).
    rewrite E in Es. rewrite Es. apply whiteOnly_app; [done|].
    by apply whiteOnly_app; [apply whiteOnly_nil|].
  - intros (ws & Hws & ->).
    assert (E : trim_start (joined ws) = "").
    { induction Hws as [|w ws Hw Hws IH]; [done|].
      unfold joined in *. cbn [foldr]. by rewrite trim_start_white_space. }
    unfold trim. by rewrite E.
Qed.

Lemma blank_spec (v : option string) :
  blank v = true ↔ match v with Some s => whiteOnly s | None => True end.
Proof.
  destruct v as [s|]; [|done]. cbn [blank].
  rewrite orb_true_iff, !bool_decide_eq_true, trim_blank.
  split; [|by right]. intros [->|H]; [apply whiteOnly_nil | done].
Qed.

End WhiteSpace.

(** ** Connections *)

Lemma elem_of_List_filter {A} (f : A → bool) (l : list A) (x : A) :
  x ∈ List.filter f l ↔ f x = true ∧ x ∈ l.
Proof. rewrite !list_elem_of_In, filter_In. tauto. Qed.

Section Connections.

Implicit Types (s : Editor) (a b : PortRef) (c : Connection).

Lemma portref_eta a :
  {| nodeId := nodeId a; port := port a; portNumber := portNumber a |} = a.
Proof. by destruct a. Qed.

Lemma same_link_swap a b c : same_link b a c = same_link a b c.
Proof. unfold same_link. apply orb_comm. Qed.

Lemma find_is_Some {A} (f : A → bool) (l : list A) :
  is_Some (List.find f l) ↔ ∃ x, x ∈ l ∧ f x = true.
Proof.
  induction l as [|y l IH]; simpl.
  - split; [intros [? [=]] | intros (x & Hx & _); by apply elem_of_nil in Hx].
  - destruct (f y) eqn:E.
    + split; [intros _; exists y; split; [left | done] | eauto].
    + rewrite IH. split; intros (x & Hx & Hf).
      * exists x; split; [by right | done].
      * apply elem_of_cons in Hx as [-> | Hx]; [congruence | eauto].
Qed.

Lemma createConnection_existing u a b s :
  is_Some (List.find (same_link a b) (connections s)) →
  createConnection u a b s = s.
Proof. intros [x Hx]. unfold createConnection. by rewrite Hx. Qed.

Lemma createConnection_links u a b s :
  is_Some (List.find (same_link a b) (connections (createConnection u a b s))).
Proof.
  unfold createConnection.
  destruct (List.find (same_link a b) (connections s)) as [x|] eqn:E.
  - rewrite E. eauto.
  - apply find_is_Some. eexists. split.
    + simpl. apply elem_of_app. right. apply list_elem_of_singleton. reflexivity.
    + unfold same_link; simpl. rewrite !bool_decide_eq_true_2 by done. done.
Qed.

Lemma createConnection_twice u1 u2 a b s :
  createConnection u2 a b (createConnection u1 a b s) = createConnection u1 a b s.
Proof. apply createConnection_existing, createConnection_links. Qed.

Lemma createConnection_reversed u1 u2 a b s :
  createConnection u2 b a (createConnection u1 a b s) = createConnection u1 a b s.
Proof.
  apply createConnection_existing.
  destruct (createConnection_links u1 a b s) as [x Hx].
  apply find_is_Some. apply mk_is_Some, find_is_Some in Hx as (y & Hy & Hf).
  exists y. by rewrite same_link_swap.
Qed.

(** The connections after a gesture, without the bookkeeping of
    [connectionStart]. *)
Lemma connectGesture_connections u a b s :
  connections (connectGesture u a b s) =
  if bool_decide (nodeId a ≠ nodeId b)
     && ((bool_decide (port a = "output") && bool_decide (port b = "input"))
         || (bool_decide (port a = "input") && bool_decide (port b = "output")))
  then if bool_decide (port a = "input")
       then connections (createConnection u b a s)
       else connections (createConnection u a b s)
  else connections s.
Proof.
  unfold connectGesture, portMouseUp, portMouseDown. simpl.
  repeat case_match; simpl; try done; unfold createConnection; simpl;
    repeat case_match; done.
Qed.

Lemma createConnection_frame u a b s :
  createConnection u a b s = set_connections (connections (createConnection u a b s)) s.
Proof. unfold createConnection. case_match; by destruct s. Qed.

Lemma createConnection_connections_only u a b s s' :
  connections s = connections s' →
  connections (createConnection u a b s) = connections (createConnection u a b s').
Proof. intros H. unfold createConnection. rewrite H. by case_match; simpl; rewrite ?H. Qed.

Lemma createConnection_settled u x y g s' :
  connections g = connections s' →
  createConnection u x y s' = s' →
  connections (createConnection u x y g) = connections g.
Proof.
  intros Hc Hs.
  rewrite (createConnection_connections_only u x y g s' Hc), Hs. done.
Qed.

End Connections.

(** C5. A second request to connect the same two ports, in the same or
    in the reverse orientation, stores nothing: the connection array
    (hence the connection count) is what it was after the first
    request.  This holds for [createConnection] and for the whole
    press-and-release gesture. *)
Theorem duplicate_connection_suppressed (u1 u2 : string) (a b : PortRef) (s : Editor) :
  let s1 := createConnection u1 a b s in
  let g1 := connectGesture u1 a b s in
  connections (createConnection u2 a b s1) = connections s1
  ∧ connections (createConnection u2 b a s1) = connections s1
  ∧ connections (connectGesture u2 a b g1) = connections g1
  ∧ connections (connectGesture u2 b a g1) = connections g1
  ∧ length (connections (connectGesture u2 a b g1)) = length (connections g1)
  ∧ length (connections (connectGesture u2 b a g1)) = length (connections g1).
Proof.
  cbv zeta.
  assert (Hg : ∀ x y, connections (connectGesture u1 a b s)
                      = connections (createConnection u1 x y s) →
               ∀ x' y', (x' = x ∧ y' = y) ∨ (x' = y ∧ y' = x) →
               connections (createConnection u2 x' y' (connectGesture u1 a b s))
               = connections (connectGesture u1 a b s)).
  { intros x y Hxy x' y' [[-> ->] | [-> ->]];
      apply (createConnection_settled _ _ _ _ (createConnection u1 x y s) Hxy);
      [apply createConnection_twice | apply createConnection_reversed]. }
  assert (G1 : connections (connectGesture u2 a b (connectGesture u1 a b s))
               = connections (connectGesture u1 a b s)).
  { rewrite (connectGesture_connections u2).
    repeat case_bool_decide; cbn [andb orb]; try done; try congruence.
    - apply (Hg a b); [| by left].
      rewrite connectGesture_connections.
      repeat case_bool_decide; cbn [andb orb]; done || congruence.
    - apply (Hg b a); [| by left].
      rewrite connectGesture_connections.
      repeat case_bool_decide; cbn [andb orb]; done || congruence. }
  assert (G2 : connections (connectGesture u2 b a (connectGesture u1 a b s))
               = connections (connectGesture u1 a b s)).
  { rewrite (connectGesture_connections u2).
    repeat case_bool_decide; cbn [andb orb]; try done; try congruence.
    - apply (Hg b a); [| by left].
      rewrite connectGesture_connections.
      repeat case_bool_decide; cbn [andb orb]; done || congruence.
    - apply (Hg a b); [| by left].
      rewrite connectGesture_connections.
      repeat case_bool_decide; cbn [andb orb]; done || congruence. }
  rewrite createConnection_twice, createConnection_reversed, G1, G2. done.
Qed.

(** What a gesture does to the connection array. *)
Lemma connectGesture_stores u a b s :
  connections (connectGesture u a b s) = connections s
  ∨ ∃ c, connections (connectGesture u a b s) = connections s ++ [c]
         ∧ wellDirected c
         ∧ ((port a = "output" ∧ start c = a ∧ end_ c = b)
            ∨ (port a = "input" ∧ start c = b ∧ end_ c = a)).
Proof.
  rewrite connectGesture_connections.
  repeat case_bool_decide; cbn [andb orb]; try (by left); try congruence.
  - unfold createConnection.
    destruct (List.find _ _); [by left|]. right. eexists. split; [reflexivity|].
    unfold wellDirected; simpl. rewrite !portref_eta. auto.
  - unfold createConnection.
    destruct (List.find _ _); [by left|]. right. eexists. split; [reflexivity|].
    unfold wellDirected; simpl. rewrite !portref_eta. split; [|auto].
    split; [congruence | auto].
Qed.

Lemma connectGesture_keeps_well_directed u a b s :
  Forall wellDirected (connections s) →
  Forall wellDirected (connections (connectGesture u a b s)).
Proof.
  intros Hall. destruct (connectGesture_stores u a b s) as [-> | (c & -> & Hc & _)]; [done|].
  apply Forall_app. split; [done|]. by apply Forall_singleton.
Qed.

(** C6. A gesture stores at most one connection, at the end of the
    array.  The stored connection joins two different nodes, leaves an
    output port and enters an input port; when the gesture started on
    an input port its two ends are swapped, so that the stored start is
    the output port.  Hence a store whose connections are all well
    directed stays so. *)
Theorem gesture_stores_well_directed (u : string) (a b : PortRef) (s : Editor) :
  (connections (connectGesture u a b s) = connections s
   ∨ ∃ c, connections (connectGesture u a b s) = connections s ++ [c]
          ∧ wellDirected c
          ∧ ((port a = "output" ∧ start c = a ∧ end_ c = b)
             ∨ (port a = "input" ∧ start c = b ∧ end_ c = a)))
  ∧ (Forall wellDirected (connections s) →
     Forall wellDirected (connections (connectGesture u a b s))).
Proof.
  split; [apply connectGesture_stores | apply connectGesture_keeps_well_directed].
Qed.

Section Deletion.

Implicit Types (s : Editor) (c : Connection) (nd : NodeData).

Lemma elem_of_remove_related c related cs :
  c ∈ remove_related related cs ↔
  c ∈ cs ∧ ∀ r, r ∈ related → conn_id c ≠ conn_id r.
Proof.
  unfold remove_related. revert cs.
  induction related as [|r related IH]; intros cs; simpl.
  - split; [intros H; split; [done|] | by intros [H _]].
    intros r Hr. by apply elem_of_nil in Hr.
  - rewrite IH, elem_of_List_filter, negb_true_iff, bool_decide_eq_false.
    split.
    + intros [[Hne Hc] Hall]. split; [done|].
      intros r' [-> | Hr']%elem_of_cons; auto.
    + intros [Hc Hall]. split; [split; [|done] |].
      * apply Hall. left.
      * intros r' Hr'. apply Hall. by right.
Qed.

Lemma cascade_leaves_none i c cs :
  c ∈ remove_related (List.filter (touches i) cs) cs →
  nodeId (start c) ≠ i ∧ nodeId (end_ c) ≠ i.
Proof.
  intros [Hc Hall]%elem_of_remove_related.
  destruct (touches i c) eqn:E.
  - exfalso. apply (Hall c); [|done]. apply elem_of_List_filter. by rewrite E.
  - unfold touches in E. apply orb_false_iff in E as [E1 E2].
    by apply bool_decide_eq_false in E1, E2.
Qed.

Lemma detach_selected_store nd s :
  nodes (detach_selected nd s) = nodes s
  ∧ connections (detach_selected nd s) = connections s
  ∧ nodeCounter (detach_selected nd s) = nodeCounter s.
Proof.
  unfold detach_selected. destruct (selectedNode s) as [sel|]; [|done].
  by case_bool_decide.
Qed.

Lemma deleteNodeClick_store nd s :
  connections (deleteNodeClick nd s)
  = remove_related (List.filter (touches (node_id nd)) (connections s)) (connections s)
  ∧ nodes (deleteNodeClick nd s)
    = (if removable nd
       then List.filter (λ n, negb (bool_decide (node_id n = node_id nd))) (nodes s)
       else nodes s)
  ∧ nodeCounter (deleteNodeClick nd s) = nodeCounter s.
Proof.
  unfold deleteNodeClick. destruct (removable nd); [|done].
  match goal with
  | |- context [detach_selected nd ?t] =>
      destruct (detach_selected_store nd t) as (-> & -> & ->)
  end.
  done.
Qed.

End Deletion.

(** C7. After the delete handler of a node has run, whether it is the
    node's delete button or [deleteSelected] on the selected node, no
    connection of the store starts or ends at that node: the handler
    removes them all before it touches the node.  When the node's
    element is a child of [nodeContainer] (a node made by [createNode]),
    the handler runs to its end and the node is gone as well.  The
    state before the handler is arbitrary, so this holds after every
    sequence of earlier operations. *)
Theorem delete_node_cascades (nd : NodeData) (isSelected : Connection → bool)
    (s : Editor) :
  let after_button := deleteNodeClick nd s in
  let after_selected := deleteSelected isSelected (selectNode nd s) in
  Forall (λ c, nodeId (start c) ≠ node_id nd ∧ nodeId (end_ c) ≠ node_id nd)
         (connections after_button)
  ∧ Forall (λ c, nodeId (start c) ≠ node_id nd ∧ nodeId (end_ c) ≠ node_id nd)
           (connections after_selected)
  ∧ (removable nd = true →
     Forall (λ n, node_id n ≠ node_id nd) (nodes after_button)
     ∧ Forall (λ n, node_id n ≠ node_id nd) (nodes after_selected)).
Proof.
  cbv zeta. destruct (deleteNodeClick_store nd s) as (-> & -> & _).
  unfold deleteSelected, selectNode. simpl.
  split; [|split].
  - apply Forall_forall. intros c Hc. by apply cascade_leaves_none in Hc.
  - apply Forall_forall. intros c Hc.
    destruct (removable nd); by apply cascade_leaves_none in Hc.
  - intros ->. simpl. split; apply Forall_forall;
      intros n [Hn _]%elem_of_List_filter;
      by apply negb_true_iff, bool_decide_eq_false in Hn.
Qed.

(** The delete button of the selected node leaves [selectedNode] on the
    deleted object.  Its element is out of [nodeContainer], so that a
    later [deleteSelected] stops at [removeChild]: the node stays
    selected. *)
Lemma deleteSelected_after_delete_button (nd : NodeData)
    (isSelected : Connection → bool) (s : Editor) :
  removable nd = true →
  selectedNode (deleteNodeClick nd (selectNode nd s)) = Some (detached nd)
  ∧ removable (detached nd) = false
  ∧ selectedNode (deleteSelected isSelected (deleteNodeClick nd (selectNode nd s)))
    = Some (detached nd).
Proof.
  intros Hr.
  assert (Hd : removable (detached nd) = false).
  { unfold removable, detached. cbn [element]. by destruct (element nd). }
  assert (Hs : selectedNode (deleteNodeClick nd (selectNode nd s)) = Some (detached nd)).
  { unfold deleteNodeClick. rewrite Hr. unfold detach_selected.
    cbn [selectedNode set_nodes set_connections selectNode].
    by rewrite bool_decide_eq_true_2. }
  split; [done|]. split; [done|].
  unfold deleteSelected. rewrite Hs, Hd. done.
Qed.

(** ** Router output ports *)

Section Router.

Implicit Types (s : Editor) (sel : NodeData) (c : Config) (ps : list Pattern).

Lemma lower_above n l :
  Forall (λ p, n < p) l → map (lower_port n) l = map (Z.add (-1)) l.
Proof.
  induction 1 as [|p l Hp _ IH]; simpl; [done|].
  rewrite IH. unfold lower_port. rewrite bool_decide_eq_true_2 by done.
  f_equal. lia.
Qed.

Lemma lower_below n l :
  Forall (λ p, p < n) l → map (lower_port n) (remove_first_port n l) = l.
Proof.
  induction 1 as [|p l Hp _ IH]; simpl; [done|].
  rewrite bool_decide_eq_false_2 by lia. simpl. rewrite IH.
  unfold lower_port. rewrite bool_decide_eq_false_2 by lia. done.
Qed.

Lemma lower_remove_seqZ (k : nat) : ∀ a m n,
  Z.to_nat m = k → a ≤ n < a + m →
  map (lower_port n) (remove_first_port n (seqZ a m)) = seqZ a (m - 1).
Proof.
  induction k as [|k IH]; intros a m n Hk Hn; [lia|].
  rewrite (seqZ_cons a m) by lia. simpl.
  case_bool_decide as Ha.
  - subst a. rewrite lower_above.
    + change (map (Z.add (-1))) with (fmap (M:=list) (Z.add (-1))).
      rewrite fmap_add_seqZ. f_equal; lia.
    + apply Forall_seqZ. intros; lia.
  - simpl. rewrite (IH (Z.succ a) (Z.pred m) n) by lia.
    unfold lower_port. rewrite bool_decide_eq_false_2 by lia.
    rewrite (seqZ_cons a (m - 1)) by lia. do 2 f_equal; lia.
Qed.

Lemma pattern_ports_lowered n ps :
  map pat_port (map (lower_pattern n) (remove_first_pattern n ps))
  = map (lower_port n) (remove_first_port n (map pat_port ps)).
Proof.
  assert (Hl : ∀ l, map pat_port (map (lower_pattern n) l) = map (lower_port n) (map pat_port l)).
  { induction l as [|p l IH]; simpl; [done|]. rewrite IH. f_equal.
    unfold lower_pattern, lower_port. by case_bool_decide. }
  induction ps as [|p ps IH]; simpl; [done|].
  case_bool_decide; simpl.
  - apply Hl.
  - rewrite IH. f_equal. unfold lower_pattern, lower_port. by case_bool_decide.
Qed.

(** Removing the rule of port [n] from rules numbered by position
    leaves rules numbered by position. *)
Lemma rules_in_order_remove n ps :
  0 ≤ n → rules_in_order ps →
  let ps' := map (lower_pattern n) (remove_first_pattern n ps) in
  rules_in_order ps'
  ∧ length ps' = (if bool_decide (n < Z.of_nat (length ps))
                  then pred (length ps) else length ps).
Proof.
  unfold rules_in_order. intros Hn Hps. cbv zeta.
  assert (Hports :
    map pat_port (map (lower_pattern n) (remove_first_pattern n ps))
    = if bool_decide (n < Z.of_nat (length ps))
      then seqZ 0 (Z.of_nat (pred (length ps)))
      else seqZ 0 (Z.of_nat (length ps))).
  { rewrite pattern_ports_lowered, Hps. case_bool_decide as Hlt.
    - rewrite (lower_remove_seqZ (length ps)) by lia. f_equal. lia.
    - rewrite lower_below; [done|]. apply Forall_seqZ. intros; lia. }
  assert (Hlen : length (map (lower_pattern n) (remove_first_pattern n ps))
                 = if bool_decide (n < Z.of_nat (length ps))
                   then pred (length ps) else length ps).
  { apply (f_equal length) in Hports. rewrite length_map in Hports.
    rewrite Hports. case_bool_decide; rewrite length_seqZ; lia. }
  split; [|exact Hlen].
  rewrite Hports, Hlen. by case_bool_decide.
Qed.

Lemma RouterInv_elim s :
  RouterInv s →
  ∃ sel c n ps,
    selectedNode s = Some sel ∧ type sel = "router" ∧ config sel = Some c
    ∧ outputPorts c = Some n ∧ keywordPatterns c = Some ps
    ∧ 2 ≤ n ∧ Z.of_nat (length ps) ≤ n ∧ rules_in_order ps
    ∧ match container_of sel with
      | Some ports => ports = seqZ 0 n
      | None => True
      end.
Proof.
  unfold RouterInv, outputPorts_of, keywordPatterns_of.
  destruct (selectedNode s) as [sel|]; [|done].
  intros [Ht H]. destruct (config sel) as [c|] eqn:Ec; [|done].
  destruct (outputPorts c) as [n|] eqn:En; [|done].
  destruct (keywordPatterns c) as [ps|] eqn:Ep; [|done].
  destruct H as (? & ? & ? & ?).
  exists sel, c, n, ps. repeat split; done.
Qed.

Lemma RouterInv_intro s sel c n ps :
  selectedNode s = Some sel → type sel = "router" → config sel = Some c →
  outputPorts c = Some n → keywordPatterns c = Some ps →
  2 ≤ n → Z.of_nat (length ps) ≤ n → rules_in_order ps →
  match container_of sel with
  | Some ports => ports = seqZ 0 n
  | None => True
  end →
  RouterInv s.
Proof.
  intros Hs Ht Hc Hn Hp ? ? ? ?.
  unfold RouterInv, outputPorts_of, keywordPatterns_of.
  rewrite Hs, Hc, Hn, Hp. done.
Qed.

Lemma truthy_outputPorts_ge2 c n :
  outputPorts c = Some n → 2 ≤ n → truthy_outputPorts (Some c) = Some n.
Proof.
  intros Hn Hge. unfold truthy_outputPorts. rewrite Hn.
  by rewrite bool_decide_eq_false_2 by lia.
Qed.

Lemma with_container_spec node ports ports' :
  container_of node = Some ports →
  node_id (with_container ports' node) = node_id node
  ∧ type (with_container ports' node) = type node
  ∧ config (with_container ports' node) = config node
  ∧ container_of (with_container ports' node) = Some ports'.
Proof.
  unfold container_of, with_container.
  destruct (element node) as [el|]; [|done]. done.
Qed.

Lemma addNewOutputPort_inv s :
  RouterInv s →
  ∃ s' n, addNewOutputPort s = Some (s', n)
          ∧ selectedOutputPorts s = Some n
          ∧ selectedOutputPorts s' = Some (n + 1)
          ∧ selectedPatterns s' = selectedPatterns s
          ∧ RouterInv s'.
Proof.
  intros (sel & c & n & ps & Hs & Ht & Hc & Hn & Hp & Hge & Hlen & Hord & Hdom)%RouterInv_elim.
  unfold addNewOutputPort. rewrite Hs, Hc.
  rewrite (truthy_outputPorts_ge2 c n Hn Hge).
  rewrite bool_decide_eq_true_2 by done. cbn [negb].
  eexists _, n. split; [reflexivity|].
  unfold selectedOutputPorts, selectedPatterns, outputPorts_of, keywordPatterns_of.
  rewrite Hs, Hc. cbn [set_selected selectedNode].
  set (sel1 := with_config (with_outputPorts (n + 1) c) sel).
  assert (Hcont : container_of sel1 = container_of sel) by done.
  rewrite Hcont.
  destruct (container_of sel) as [ports|] eqn:Ec.
  - destruct (with_container_spec sel1 ports (ports ++ [n]) Hcont)
      as (_ & Ht' & Hc' & Hk').
    rewrite Hc'. simpl. do 3 (split; [done|]).
    apply (RouterInv_intro _ (with_container (ports ++ [n]) sel1)
             (with_outputPorts (n + 1) c) (n + 1) ps); try done; try lia.
    + by rewrite Ht'.
    + rewrite Hk'. subst ports. rewrite (seqZ_app 0 n 1) by lia. done.
  - simpl. do 3 (split; [done|]).
    apply (RouterInv_intro _ sel1 (with_outputPorts (n + 1) c) (n + 1) ps);
      try done; try lia.
    by rewrite Hcont.
Qed.

Lemma removeOutputPort_inv k s :
  RouterInv s → RouterInv (fst (removeOutputPort k s)).
Proof.
  intros Hinv.
  pose proof Hinv as (sel & c & n & ps & Hs & Ht & Hc & Hn & Hp & Hge & Hlen & Hord & Hdom)%RouterInv_elim.
  unfold removeOutputPort. rewrite Hs, Hc.
  rewrite (truthy_outputPorts_ge2 c n Hn Hge).
  rewrite bool_decide_eq_true_2 by done. cbn [negb].
  case_bool_decide as H2; [done|].
  destruct (container_of sel) as [ports|] eqn:Ec; [|done].
  subst ports.
  case_bool_decide as Hk; [|done]. cbn [negb fst].
  apply elem_of_seqZ in Hk.
  cbn [keywordPatterns with_outputPorts]. rewrite Hp.
  destruct (rules_in_order_remove k ps) as [Hord' Hlen']; [lia|done|].
  set (c2 := with_keywordPatterns _ _).
  set (ports2 := map (lower_port k) _).
  assert (Hcont : container_of (with_config c2 sel) = Some (seqZ 0 n)) by done.
  destruct (with_container_spec (with_config c2 sel) (seqZ 0 n) ports2 Hcont)
    as (_ & Ht' & Hc' & Hk').
  apply (RouterInv_intro _ (with_container ports2 (with_config c2 sel)) c2 (n - 1)
           (map (lower_pattern k) (remove_first_pattern k ps))); try done; try lia.
  - by rewrite Ht'.
  - rewrite Hlen'. case_bool_decide; lia.
  - rewrite Hk'. unfold ports2.
    by rewrite (lower_remove_seqZ (Z.to_nat n)) by lia.
Qed.

Lemma ensurePatterns_synced s :
  RouterInv s → RouterInv (reconcile s) ∧ RouterSynced (reconcile s).
Proof.
  intros (sel & c & n & ps & Hs & Ht & Hc & Hn & Hp & Hge & Hlen & Hord & Hdom)%RouterInv_elim.
  unfold reconcile, ensurePatternsMatchOutputPorts. rewrite Hs, Hc, Hp.
  rewrite (truthy_outputPorts_ge2 c n Hn Hge).
  rewrite bool_decide_eq_true_2 by done. simpl.
  rewrite Z.max_r by lia.
  case_bool_decide as Hne.
  - rewrite bool_decide_eq_true_2 by lia.
    assert (Hord' : rules_in_order
              (ps ++ map placeholder (seqZ (Z.of_nat (length ps)) (n - Z.of_nat (length ps))))).
    { unfold rules_in_order. rewrite map_app, map_map. simpl.
      rewrite map_id, Hord, length_app, length_map, length_seqZ.
      replace (Z.of_nat (length ps + Z.to_nat (n - Z.of_nat (length ps)))) with
        (Z.of_nat (length ps) + (n - Z.of_nat (length ps))) by lia.
      rewrite (seqZ_app 0) by lia. done. }
    assert (Hlen' : Z.of_nat (length
              (ps ++ map placeholder (seqZ (Z.of_nat (length ps)) (n - Z.of_nat (length ps))))) = n).
    { rewrite length_app, length_map, length_seqZ. lia. }
    split.
    + eapply RouterInv_intro; simpl; try done; try lia.
    + unfold RouterSynced, outputPorts_of, keywordPatterns_of. simpl. done.
  - split.
    + eapply RouterInv_intro; simpl; try done; try lia.
    + unfold RouterSynced, outputPorts_of, keywordPatterns_of. simpl.
      rewrite Hn, Hp. done.
Qed.

Lemma runRouterOps_inv ops : ∀ s,
  RouterInv s → ∃ s', runRouterOps ops s = Some s' ∧ RouterInv s'.
Proof.
  induction ops as [|op ops IH]; intros s Hinv; simpl; [eauto|].
  destruct op as [|k|]; simpl.
  - destruct (addNewOutputPort_inv s Hinv) as (s' & n & -> & _ & _ & _ & Hinv').
    simpl. auto.
  - apply IH, removeOutputPort_inv, Hinv.
  - apply IH, ensurePatterns_synced, Hinv.
Qed.

Lemma runRouterOps_app ops1 ops2 s :
  runRouterOps (ops1 ++ ops2) s
  = match runRouterOps ops1 s with
    | Some s' => runRouterOps ops2 s'
    | None => None
    end.
Proof.
  revert s. induction ops1 as [|op ops1 IH]; intros s; simpl; [done|].
  destruct (runRouterOp op s); [apply IH | done].
Qed.

End Router.

(** C3 (as amended). For a router that satisfies [RouterInv] (as every
    router fresh from [createNode] does): [addNewOutputPort] returns the
    old port count, increments [outputPorts] and leaves the rule list as
    it is; every sequence of [addNewOutputPort], [removeOutputPort] and
    [ensurePatternsMatchOutputPorts] calls runs without error and keeps
    [outputPorts >= 2], at most [outputPorts] rules, and the rule at
    position [i] on port [i]; and when the sequence ends with the
    reconciliation there is exactly one rule per port. *)
Theorem router_ports_invariant (s : Editor) :
  RouterInv s →
  (∃ s' n, addNewOutputPort s = Some (s', n)
           ∧ selectedOutputPorts s = Some n
           ∧ selectedOutputPorts s' = Some (n + 1)
           ∧ selectedPatterns s' = selectedPatterns s)
  ∧ (∀ ops, ∃ s', runRouterOps ops s = Some s' ∧ RouterInv s')
  ∧ (∀ ops, ∃ s', runRouterOps (ops ++ [OpReconcile]) s = Some s'
                  ∧ RouterSynced s').
Proof.
  intros Hinv. split; [|split].
  - destruct (addNewOutputPort_inv s Hinv) as (s' & n & H1 & H2 & H3 & H4 & _).
    eauto 10.
  - intros ops. by apply runRouterOps_inv.
  - intros ops. rewrite runRouterOps_app.
    destruct (runRouterOps_inv ops s Hinv) as (s' & -> & Hinv').
    simpl. eexists. split; [reflexivity|]. by apply ensurePatterns_synced.
Qed.

Lemma router_ports_invariant_witness :
  RouterInv routerEditor
  ∧ (∃ s', runRouterOps [OpAdd; OpRemove 0; OpAdd; OpReconcile] routerEditor = Some s'
           ∧ RouterSynced s').
Proof.
  assert (Hinv : RouterInv routerEditor).
  { unfold RouterInv, routerEditor. simpl.
    split; [reflexivity|]. repeat split; try lia; reflexivity. }
  split; [exact Hinv|].
  exact (proj2 (proj2 (router_ports_invariant routerEditor Hinv))
               [OpAdd; OpRemove 0; OpAdd]).
Defined.

(** C3, counterexample: on a fresh router one call of
    [addNewOutputPort] leaves 3 output ports and 2 rules, so the rule
    list length is not the port count and no rule was appended. *)
Lemma addNewOutputPort_appends_no_rule :
  ∃ s', runRouterOps [OpAdd] routerEditor = Some s'
        ∧ selectedOutputPorts s' = Some 3
        ∧ length <$> selectedPatterns s' = Some 2%nat
        ∧ selectedPatterns s' = selectedPatterns routerEditor
        ∧ ¬ RouterSynced s'.
Proof.
  eexists. split; [reflexivity|]. split; [reflexivity|].
  split; [reflexivity|]. split; [reflexivity|].
  unfold RouterSynced. simpl. intros (_ & H & _). discriminate H.
Qed.

(** C8. With 2 output ports or fewer (or no port count at all),
    [removeOutputPort] returns [false] and the editor state is the one
    before the call: the node's configuration, its port elements and
    the connection array are unchanged. *)
Theorem removeOutputPort_rejected_at_minimum (k : Z) (s : Editor) (sel : NodeData) :
  selectedNode s = Some sel →
  (∀ n, outputPorts_of sel = Some n → n ≤ 2) →
  removeOutputPort k s = (s, false).
Proof.
  intros Hs Hle. unfold removeOutputPort. rewrite Hs.
  case_bool_decide as Ht; simpl; [|done].
  destruct (config sel) as [c|] eqn:Ec; [|done].
  assert (Hn : match truthy_outputPorts (Some c) with
               | Some n => n
               | None => 2
               end ≤ 2).
  { unfold truthy_outputPorts. destruct (outputPorts c) as [n|] eqn:En; [|lia].
    case_bool_decide; [lia|]. apply Hle. unfold outputPorts_of. by rewrite Ec. }
  by rewrite bool_decide_eq_true_2.
Qed.

Lemma removeOutputPort_rejected_witness :
  removeOutputPort 1 routerEditor = (routerEditor, false).
Proof.
  refine (removeOutputPort_rejected_at_minimum 1 routerEditor _ eq_refl _).
  intros n H. injection H as <-. lia.
Defined.

Lemma leaves_port_none sel k cs :
  Forall (λ c, sourceNode c = None) cs →
  List.filter (leaves_port sel k) cs = [].
Proof.
  induction 1 as [|c cs Hc _ IH]; simpl; [done|].
  unfold leaves_port at 1. rewrite Hc. simpl. exact IH.
Qed.

Lemma lower_sourcePort_none sel k cs :
  Forall (λ c, sourceNode c = None) cs →
  map (lower_sourcePort sel k) cs = cs.
Proof.
  induction 1 as [|c cs Hc _ IH]; simpl; [done|].
  rewrite IH. f_equal. unfold lower_sourcePort. rewrite Hc. by case_match.
Qed.

(** [removeOutputPort] reads [sourceNode] and [sourcePort] of the
    stored connections; the connections that [createConnection] stores
    have neither, and the call leaves the array as it is. *)
Lemma removeOutputPort_connections_untouched (k : Z) (s : Editor) :
  Forall (λ c, sourceNode c = None) (connections s) →
  connections (fst (removeOutputPort k s)) = connections s.
Proof.
  intros Hall. unfold removeOutputPort.
  destruct (selectedNode s) as [sel|]; [|done].
  destruct (negb _); [done|].
  destruct (config sel) as [c|]; [|done].
  destruct (bool_decide _); [done|].
  destruct (container_of sel) as [ports|]; [|done].
  destruct (negb _); [done|]. simpl.
  rewrite (leaves_port_none sel k _ Hall). simpl.
  by apply lower_sourcePort_none.
Qed.

(** C9, at the failing input: the router has 3 output ports and a
    connection leaves its third port (port number 2).
    [removeOutputPort(2)] succeeds, the router has 2 ports and 2 rules
    left, and the connection from the removed port is still stored. *)
Theorem removeOutputPort_keeps_connection_of_removed_port :
  selectedOutputPorts wiredEditor = Some 3
  ∧ map (λ c, (nodeId (start c), portNumber (start c))) (connections wiredEditor)
    = [("node-1", Some "2")]
  ∧ snd (removeOutputPort 2 wiredEditor) = true
  ∧ selectedOutputPorts (fst (removeOutputPort 2 wiredEditor)) = Some 2
  ∧ map pat_port <$> selectedPatterns (fst (removeOutputPort 2 wiredEditor))
    = Some [0; 1]
  ∧ connections (fst (removeOutputPort 2 wiredEditor)) = connections wiredEditor.
Proof. repeat split; reflexivity. Qed.

(** ** Validation *)

Section Validation.

Implicit Types (node : NodeData) (ns : list NodeData) (cs : list Connection).

Lemma elem_of_connectedNodeIds i cs :
  i ∈ connectedNodeIds cs ↔
  ∃ c, c ∈ cs ∧ (nodeId (start c) = i ∨ nodeId (end_ c) = i).
Proof.
  unfold connectedNodeIds.
  assert (H : ∀ (acc : gset string),
    i ∈ foldl (λ s conn, (s ∪ {[ nodeId (start conn) ]}) ∪ {[ nodeId (end_ conn) ]}) acc cs
    ↔ i ∈ acc ∨ ∃ c, c ∈ cs ∧ (nodeId (start c) = i ∨ nodeId (end_ c) = i)).
  { induction cs as [|c cs IH]; intros acc; simpl.
    - split; [auto | intros [H | (c & Hc & _)]; [done | by apply elem_of_nil in Hc]].
    - rewrite IH. rewrite !elem_of_union, !elem_of_singleton. split.
      + intros [[[H | H] | H] | (c' & Hc' & H)].
        * by left.
        * right. exists c. split; [left | by left].
        * right. exists c. split; [left | by right].
        * right. exists c'. split; [by right | done].
      + intros [H | (c' & Hc' & H)]; [by do 3 left |].
        apply elem_of_cons in Hc' as [-> | Hc'].
        * destruct H as [H | H]; [left; left; by right | left; by right].
        * right. eauto. }
  rewrite H. split; [intros [Hi | Hi]; [set_solver | done] | auto].
Qed.

Lemma foldl_accumulate {A} (f : A → list string) (l : list A) (init : list string) :
  foldl (λ errs x, errs ++ f x) init l = init ++ flat_map f l.
Proof.
  revert init. induction l as [|x l IH]; intros init; simpl.
  - by rewrite app_nil_r.
  - by rewrite IH, app_assoc.
Qed.

Lemma loop_all_forallb ok ns : loop_all ok ns = forallb ok ns.
Proof. induction ns as [|n ns IH]; simpl; [done|]. rewrite IH. by destruct (ok n). Qed.

Lemma loop_all_true ok ns : loop_all ok ns = true ↔ ∀ node, node ∈ ns → ok node = true.
Proof.
  rewrite loop_all_forallb, forallb_forall.
  by setoid_rewrite list_elem_of_In.
Qed.

Lemma filter_alike t ns ns' :
  Forall2 alike ns ns' →
  Forall2 alike (List.filter (is_type t) ns) (List.filter (is_type t) ns').
Proof.
  induction 1 as [|n n' ns ns' (Hi & Ht & Hc) _ IH]; simpl; [constructor|].
  assert (E : is_type t n = is_type t n') by (unfold is_type; by rewrite Ht).
  rewrite E. destruct (is_type t n'); [constructor; [done | exact IH] | exact IH].
Qed.

Lemma existsb_alike ids ns ns' :
  Forall2 alike ns ns' → existsb (has_id ids) ns = existsb (has_id ids) ns'.
Proof.
  induction 1 as [|n n' ns ns' (Hi & Ht & Hc) _ IH]; simpl; [done|].
  assert (E : has_id ids n = has_id ids n') by (unfold has_id; by rewrite Hi).
  by rewrite E, IH.
Qed.

Lemma loop_all_alike ok ns ns' :
  (∀ n n', alike n n' → ok n = ok n') →
  Forall2 alike ns ns' → loop_all ok ns = loop_all ok ns'.
Proof.
  intros Hok. induction 1 as [|n n' ns ns' Hn _ IH]; simpl; [done|].
  by rewrite (Hok n n' Hn), IH.
Qed.

(** The sub-network validator reads of a node its id, its type and the
    verdict of the configuration check, and nothing else. *)
Lemma validateNetworkSubset_alike ns ns' cs :
  Forall2 alike ns ns' →
  validateNetworkSubset ns cs = validateNetworkSubset ns' cs.
Proof.
  intros H. unfold validateNetworkSubset.
  rewrite (Forall2_length _ _ _ (filter_alike "input" ns ns' H)).
  rewrite (Forall2_length _ _ _ (filter_alike "output" ns ns' H)).
  rewrite (existsb_alike _ _ _ (filter_alike "input" ns ns' H)).
  rewrite (existsb_alike _ _ _ (filter_alike "output" ns ns' H)).
  rewrite (loop_all_alike (has_id (connectedNodeIds cs)) ns ns').
  - rewrite (loop_all_alike agentConfigured ns ns'); [done | | done].
    by intros n n' (_ & _ & Hc).
  - intros n n' (Hi & _ & _). unfold has_id. by rewrite Hi.
  - done.
Qed.

Lemma alike_refl node : alike node node.
Proof. by repeat split. Qed.

Lemma unknownAgent_configured node co :
  unknownAgent node → agentConfigured (replace_config co node) = true.
Proof.
  intros [Ht Hs]. unfold agentConfigured, is_type, subType_is. simpl.
  rewrite (bool_decide_eq_true_2 _ Ht).
  rewrite !bool_decide_eq_false_2; [done | ..];
    apply Hs; unfold knownAgentTypes; set_solver.
Qed.

Lemma replace_config_same node : replace_config (config node) node = node.
Proof. by destruct node. Qed.

End Validation.

(** C10. An agent node whose sub-type is none of [openai], [ollama],
    [anthropic], [bedrock], [custom] passes the configuration check of
    [validateNetworkSubset] with any configuration, also an empty or an
    absent one, and the validator's answer for a node list does not
    depend on the configuration of such a node. *)
Theorem unknown_agent_needs_no_config (node : NodeData) (co : option Config)
    (before after : list NodeData) (cs : list Connection) :
  unknownAgent node →
  agentConfigured (replace_config co node) = true
  ∧ agentConfigured (replace_config (Some emptyConfig) node) = true
  ∧ agentConfigured (replace_config None node) = true
  ∧ validateNetworkSubset (before ++ replace_config co node :: after) cs
    = validateNetworkSubset (before ++ node :: after) cs.
Proof.
  intros Hu. repeat split; try by apply unknownAgent_configured.
  apply validateNetworkSubset_alike.
  apply Forall2_app; [apply Forall_Forall2_diag, Forall_forall; intros; apply alike_refl|].
  constructor; [|apply Forall_Forall2_diag, Forall_forall; intros; apply alike_refl].
  repeat split; simpl; try done.
  rewrite (unknownAgent_configured node co Hu).
  rewrite <- (replace_config_same node) at 1.
  by rewrite (unknownAgent_configured node (config node) Hu).
Qed.

Lemma unknown_agent_needs_no_config_witness :
  validateNetworkSubset
    ([] ++ replace_config (Some blankKeyConfig) geminiAgent :: []) []
  = validateNetworkSubset ([] ++ geminiAgent :: []) [].
Proof.
  refine (proj2 (proj2 (proj2
    (unknown_agent_needs_no_config geminiAgent (Some blankKeyConfig) [] [] [] _)))).
  split; [reflexivity|].
  intros t Ht. unfold knownAgentTypes in Ht.
  repeat (apply elem_of_cons in Ht as [-> | Ht]; [discriminate|]).
  by apply elem_of_nil in Ht.
Defined.

Section Accumulation.

Implicit Types (node : NodeData) (ns : list NodeData) (cs : list Connection).

(** The error list of [validateNetwork], check by check. *)
Lemma validateNetwork_errors ns cs :
  errors (validateNetwork ns cs) =
  (if bool_decide (length (List.filter (is_type "input") ns) = 0%nat)
   then ["Please add an input node to your network"] else [])
  ++ (if bool_decide (length (List.filter (is_type "output") ns) = 0%nat)
      then ["Please add an output node to your network"] else [])
  ++ (if bool_decide (length cs = 0%nat)
      then ["Please connect nodes in your network"] else [])
  ++ flat_map agentErrors ns
  ++ flat_map (isolatedErrors (connectedNodeIds cs)) ns
  ++ (if negb (existsb (λ i, bool_decide (i ∈ connectedNodeIds cs))
                       (map node_id (List.filter (is_type "input") ns)))
         && bool_decide (0 < length (map node_id (List.filter (is_type "input") ns)))%nat
      then ["Input node is not connected to the network"] else [])
  ++ (if negb (existsb (λ i, bool_decide (i ∈ connectedNodeIds cs))
                       (map node_id (List.filter (is_type "output") ns)))
         && bool_decide (0 < length (map node_id (List.filter (is_type "output") ns)))%nat
      then ["Output node is not connected to the network"] else []).
Proof.
  unfold validateNetwork. cbn [errors].
  rewrite !foldl_accumulate.
  destruct (bool_decide (length (List.filter (is_type "input") ns) = 0%nat));
    destruct (bool_decide (length (List.filter (is_type "output") ns) = 0%nat));
    destruct (bool_decide (length cs = 0%nat));
    destruct (negb _ && _); destruct (negb _ && _);
    cbn [app]; rewrite <- ?app_assoc; cbn [app]; rewrite ?app_nil_r; reflexivity.
Qed.

Lemma valid_iff_no_errors ns cs :
  valid (validateNetwork ns cs) = true ↔ errors (validateNetwork ns cs) = [].
Proof.
  unfold validateNetwork. cbn [valid errors].
  rewrite bool_decide_eq_true. apply length_zero_iff_nil.
Qed.

Lemma filter_type_nonempty t ns :
  List.filter (is_type t) ns ≠ [] ↔ ∃ node, node ∈ ns ∧ type node = t.
Proof.
  split.
  - destruct (List.filter (is_type t) ns) as [|n l] eqn:E; [done|]. intros _.
    assert (Hn : n ∈ List.filter (is_type t) ns) by (rewrite E; left).
    apply elem_of_List_filter in Hn as [Ht Hn].
    exists n. split; [done|]. by apply bool_decide_eq_true in Ht.
  - intros (n & Hn & Ht) E.
    assert (H : n ∈ List.filter (is_type t) ns).
    { apply elem_of_List_filter. split; [by apply bool_decide_eq_true | done]. }
    rewrite E in H. by apply elem_of_nil in H.
Qed.

Lemma flat_map_nil {A B} (f : A → list B) (l : list A) :
  flat_map f l = [] ↔ ∀ x, x ∈ l → f x = [].
Proof.
  induction l as [|x l IH]; simpl.
  - split; [intros _ x Hx; by apply elem_of_nil in Hx | done].
  - split.
    + intros [Hx Hl]%app_eq_nil y [-> | Hy]%elem_of_cons; [done|]. by apply IH.
    + intros H. rewrite (H x) by left. simpl. apply IH. intros y Hy. apply H. by right.
Qed.

Lemma elem_of_flat_map {A B} (f : A → list B) (l : list A) (y : B) :
  y ∈ flat_map f l ↔ ∃ x, x ∈ l ∧ y ∈ f x.
Proof.
  rewrite list_elem_of_In, in_flat_map.
  by setoid_rewrite list_elem_of_In.
Qed.

Lemma truthy_false_blank v : truthy v = false → blank v = true.
Proof.
  destruct v as [x|]; simpl; [|done].
  intros H%negb_false_iff. by rewrite H.
Qed.

(** A node that fails the configuration check of
    [validateNetworkSubset] gets at least one error from
    [validateNetwork]. *)
Lemma agentConfigured_false_errors node :
  agentConfigured node = false → agentErrors node ≠ [].
Proof.
  unfold agentConfigured, agentErrors, subType_is.
  destruct (is_type "agent" node); [|done].
  set (c := config_or_empty node).
  destruct (blank (name c)); [done|]. simpl.
  destruct (subType node) as [t|]; [|by rewrite !bool_decide_eq_false_2 by done].
  destruct (decide (t = "openai")) as [->|];
    [rewrite !(bool_decide_eq_true_2 (Some "openai" = Some "openai")) by done
    |rewrite !(bool_decide_eq_false_2 (Some t = Some "openai")) by congruence].
  { rewrite !bool_decide_eq_false_2 by discriminate. simpl.
    destruct (truthy (apiKey c)) eqn:E1; simpl.
    - destruct (truthy (model c)); simpl; [done|]. by destruct (blank _).
    - by rewrite (truthy_false_blank _ E1). }
  simpl.
  destruct (decide (t = "ollama")) as [->|];
    [rewrite !(bool_decide_eq_true_2 (Some "ollama" = Some "ollama")) by done
    |rewrite !(bool_decide_eq_false_2 (Some t = Some "ollama")) by congruence].
  { rewrite !bool_decide_eq_false_2 by discriminate. simpl.
    destruct (truthy (apiUrl c)) eqn:E1; simpl.
    - destruct (truthy (apiKey c)) eqn:E2; simpl.
      + destruct (truthy (model c)); simpl; [done|].
        destruct (blank _); [done|]. by destruct (blank _).
      + rewrite (truthy_false_blank _ E2). by destruct (blank _).
    - by rewrite (truthy_false_blank _ E1). }
  simpl.
  destruct (decide (t = "anthropic")) as [->|];
    [rewrite !(bool_decide_eq_true_2 (Some "anthropic" = Some "anthropic")) by done
    |rewrite !(bool_decide_eq_false_2 (Some t = Some "anthropic")) by congruence].
  { rewrite !bool_decide_eq_false_2 by discriminate. simpl.
    destruct (truthy (apiKey c)) eqn:E1; simpl.
    - destruct (truthy (model c)); simpl; [done|]. by destruct (blank _).
    - by rewrite (truthy_false_blank _ E1). }
  simpl.
  destruct (decide (t = "bedrock")) as [->|];
    [rewrite !(bool_decide_eq_true_2 (Some "bedrock" = Some "bedrock")) by done
    |rewrite !(bool_decide_eq_false_2 (Some t = Some "bedrock")) by congruence].
  { rewrite !bool_decide_eq_false_2 by discriminate. simpl.
    destruct (truthy (accessKey c)) eqn:E1; simpl.
    - destruct (truthy (secretKey c)) eqn:E2; simpl.
      + destruct (truthy (region c)); simpl.
        * destruct (truthy (model c)); simpl; [done|].
          by destruct (blank _ || blank _).
        * by destruct (blank _ || blank _).
      + rewrite (truthy_false_blank _ E2), orb_true_r. done.
    - by rewrite (truthy_false_blank _ E1). }
  simpl.
  destruct (decide (t = "custom")) as [->|];
    [rewrite !(bool_decide_eq_true_2 (Some "custom" = Some "custom")) by done
    |rewrite !(bool_decide_eq_false_2 (Some t = Some "custom")) by congruence].
  { simpl. destruct (truthy (cfg_port c)); simpl; [done|].
    destruct (truthy (endpoint c)) eqn:E1; simpl; [done|].
    by rewrite (truthy_false_blank _ E1). }
  done.
Qed.

End Accumulation.

Section Checks.

Implicit Types (node : NodeData) (ns : list NodeData) (cs : list Connection).

Lemma elem_of_if_singleton (b : bool) (m e : string) :
  e ∈ (if b then [m] else []) ↔ b = true ∧ e = m.
Proof.
  destruct b; [rewrite list_elem_of_singleton | rewrite elem_of_nil]; naive_solver.
Qed.

Lemma not_has field node :
  negb (truthy (field (config_or_empty node))) = true ↔ ¬ has field node.
Proof. unfold has. destruct (truthy _); simpl; naive_solver. Qed.

Lemma incident_connected cs i : i ∈ connectedNodeIds cs ↔ incident cs i.
Proof.
  unfold incident. rewrite elem_of_connectedNodeIds, Exists_exists. naive_solver.
Qed.

Ltac sub_type t :=
  first [ rewrite !(bool_decide_eq_true_2 (Some t = Some t)) by done
        | idtac ];
  repeat match goal with
         | |- context [bool_decide (Some ?a = Some ?b)] =>
             rewrite (bool_decide_eq_false_2 (Some a = Some b)) by congruence
         end.

(** The errors of one agent are the messages of its failing checks. *)
Lemma elem_of_agentErrors node e : e ∈ agentErrors node ↔ failingCheck node e.
Proof.
  unfold agentErrors, is_type, subType_is.
  destruct (decide (type node = "agent")) as [Ht|Ht].
  2:{ rewrite bool_decide_eq_false_2 by done.
      split; [by intros ?%elem_of_nil | intros H; by destruct H]. }
  rewrite bool_decide_eq_true_2 by done.
  destruct (subType node) as [t|] eqn:Es.
  2:{ rewrite !bool_decide_eq_false_2 by done.
      rewrite app_nil_r, elem_of_if_singleton. split.
      - intros [Hb ->]. by apply agent_needs_name.
      - intros H. destruct H; try congruence. done. }
  destruct (decide (t = "openai")) as [->|N1].
  { sub_type "openai".
    rewrite !elem_of_app, !elem_of_if_singleton, !not_has. split.
    - intros [[Hb ->] | [[Hb ->] | [Hb ->]]];
        [by apply agent_needs_name | by apply openai_missing_key
        | by apply openai_missing_model].
    - intros H. destruct H; try congruence; naive_solver. }
  destruct (decide (t = "ollama")) as [->|N2].
  { sub_type "ollama".
    rewrite !elem_of_app, !elem_of_if_singleton, !not_has. split.
    - intros [[Hb ->] | [[Hb ->] | [[Hb ->] | [Hb ->]]]];
        [by apply agent_needs_name | by apply ollama_missing_url
        | by apply ollama_missing_key | by apply ollama_missing_model].
    - intros H. destruct H; try congruence; naive_solver. }
  destruct (decide (t = "anthropic")) as [->|N3].
  { sub_type "anthropic".
    rewrite !elem_of_app, !elem_of_if_singleton, !not_has. split.
    - intros [[Hb ->] | [[Hb ->] | [Hb ->]]];
        [by apply agent_needs_name | by apply claude_missing_key
        | by apply claude_missing_model].
    - intros H. destruct H; try congruence; naive_solver. }
  destruct (decide (t = "bedrock")) as [->|N4].
  { sub_type "bedrock".
    rewrite !elem_of_app, !elem_of_if_singleton, !not_has, orb_true_iff. split.
    - intros [[Hb ->] | [[Hb ->] | [[Hb ->] | [Hb ->]]]];
        [by apply agent_needs_name | by apply bedrock_missing_credentials
        | by apply bedrock_missing_region | by apply bedrock_missing_model].
    - intros H. destruct H; try congruence; naive_solver. }
  destruct (decide (t = "custom")) as [->|N5].
  { sub_type "custom".
    rewrite !elem_of_app, !elem_of_if_singleton, andb_true_iff, !not_has. split.
    - intros [[Hb ->] | [[Hp Hb] ->]];
        [by apply agent_needs_name | by apply custom_missing_address].
    - intros H. destruct H; try congruence; naive_solver. }
  sub_type t.
  rewrite app_nil_r, elem_of_if_singleton. split.
  - intros [Hb ->]. by apply agent_needs_name.
  - intros H. destruct H; try congruence. done.
Qed.

(** The configuration check of [validateNetworkSubset], field by field. *)
Lemma agentConfigured_complete node : agentConfigured node = true ↔ completeFor node.
Proof.
  unfold agentConfigured, completeFor, has, is_type, subType_is.
  destruct (decide (type node = "agent")) as [Ht|Ht].
  2:{ rewrite bool_decide_eq_false_2 by done. split; [by intros _ ? | done]. }
  rewrite bool_decide_eq_true_2 by done.
  set (c := config_or_empty node).
  destruct (subType node) as [t|] eqn:Es.
  2:{ rewrite !bool_decide_eq_false_2 by done. simpl.
      split; [|done]. intros _ _. repeat split; intros; congruence. }
  destruct (decide (t = "openai")) as [->|N1].
  { sub_type "openai".
    destruct (truthy (apiKey c)), (truthy (model c)); simpl;
      (split; [try done; intros _ _; repeat split; (done || congruence)
              | intros H; try done; destruct (H Ht) as (H1 & _);
                destruct (H1 eq_refl); congruence]). }
  destruct (decide (t = "ollama")) as [->|N2].
  { sub_type "ollama".
    destruct (truthy (apiUrl c)), (truthy (apiKey c)), (truthy (model c)); simpl;
      (split; [try done; intros _ _; repeat split; (done || congruence)
              | intros H; try done; destruct (H Ht) as (_ & H1 & _);
                destruct (H1 eq_refl) as (? & ? & ?); congruence]). }
  destruct (decide (t = "anthropic")) as [->|N3].
  { sub_type "anthropic".
    destruct (truthy (apiKey c)), (truthy (model c)); simpl;
      (split; [try done; intros _ _; repeat split; (done || congruence)
              | intros H; try done; destruct (H Ht) as (_ & _ & H1 & _);
                destruct (H1 eq_refl); congruence]). }
  destruct (decide (t = "bedrock")) as [->|N4].
  { sub_type "bedrock".
    destruct (truthy (accessKey c)), (truthy (secretKey c)), (truthy (region c)),
      (truthy (model c)); simpl;
      (split; [try done; intros _ _; repeat split; (done || congruence)
              | intros H; try done; destruct (H Ht) as (_ & _ & _ & H1 & _);
                destruct (H1 eq_refl) as (? & ? & ? & ?); congruence]). }
  destruct (decide (t = "custom")) as [->|N5].
  { sub_type "custom".
    destruct (truthy (cfg_port c)), (truthy (endpoint c)); simpl;
      (split; [try done; intros _ _; repeat split; try (done || congruence);
               intros _; (by left) || (by right)
              | intros H; try done; destruct (H Ht) as (_ & _ & _ & _ & H1);
                destruct (H1 eq_refl); congruence]). }
  sub_type t. simpl. split; [|done].
  intros _ _. repeat split; intros; congruence.
Qed.

End Checks.

Section Verdicts.

Implicit Types (node : NodeData) (ns : list NodeData) (cs : list Connection).

Lemma length_filter_zero t ns :
  length (List.filter (is_type t) ns) = 0%nat ↔ ¬ ∃ node, node ∈ ns ∧ type node = t.
Proof.
  rewrite <- filter_type_nonempty, length_zero_iff_nil.
  destruct (List.filter (is_type t) ns); naive_solver.
Qed.

Lemma existsb_has_id ids ns :
  existsb (has_id ids) ns = true ↔ ∃ node, node ∈ ns ∧ node_id node ∈ ids.
Proof.
  rewrite existsb_exists. unfold has_id.
  setoid_rewrite bool_decide_eq_true. by setoid_rewrite list_elem_of_In.
Qed.

Lemma existsb_ids ids ns :
  existsb (λ i, bool_decide (i ∈ ids)) (map node_id ns) = existsb (has_id ids) ns.
Proof. induction ns as [|n ns IH]; simpl; [done|]. by rewrite IH. Qed.

(** [validateNetworkSubset] answers [true] exactly when every one of
    its checks passes. *)
Lemma validateNetworkSubset_true ns cs :
  validateNetworkSubset ns cs = true ↔
  hasInput ns ∧ hasOutput ns ∧ cs ≠ [] ∧ noneIsolated ns cs
  ∧ ∀ node, node ∈ ns → agentConfigured node = true.
Proof.
  unfold validateNetworkSubset, hasInput, hasOutput, noneIsolated.
  set (ids := connectedNodeIds cs).
  destruct (bool_decide (length (List.filter (is_type "input") ns) = 0%nat)) eqn:Ei.
  { apply bool_decide_eq_true, length_filter_zero in Ei. simpl. naive_solver. }
  destruct (bool_decide (length (List.filter (is_type "output") ns) = 0%nat)) eqn:Eo.
  { apply bool_decide_eq_true, length_filter_zero in Eo. simpl. naive_solver. }
  apply bool_decide_eq_false in Ei, Eo.
  assert (Hi : ∃ node, node ∈ ns ∧ type node = "input").
  { apply filter_type_nonempty. intros E. by rewrite E in Ei. }
  assert (Ho : ∃ node, node ∈ ns ∧ type node = "output").
  { apply filter_type_nonempty. intros E. by rewrite E in Eo. }
  cbn [orb].
  case_bool_decide as Ec.
  { apply length_zero_iff_nil in Ec. naive_solver. }
  assert (Hc : cs ≠ []) by (intros ->; done).
  destruct (loop_all (has_id ids) ns) eqn:El.
  - pose proof (proj1 (loop_all_true _ _) El) as Hall.
    assert (Hn : ∀ node, node ∈ ns → node_id node ∈ ids).
    { intros node Hnode. specialize (Hall node Hnode).
      unfold has_id in Hall. by apply bool_decide_eq_true in Hall. }
    assert (E1 : existsb (has_id ids) (List.filter (is_type "input") ns) = true).
    { destruct Hi as (n & Hn1 & Hn2). apply existsb_has_id. exists n. split; [|auto].
      apply elem_of_List_filter. split; [by apply bool_decide_eq_true | done]. }
    assert (E2 : existsb (has_id ids) (List.filter (is_type "output") ns) = true).
    { destruct Ho as (n & Hn1 & Hn2). apply existsb_has_id. exists n. split; [|auto].
      apply elem_of_List_filter. split; [by apply bool_decide_eq_true | done]. }
    rewrite E1, E2. cbn [negb orb].
    destruct (loop_all agentConfigured ns) eqn:Ea; cbn [negb].
    + pose proof (proj1 (loop_all_true _ _) Ea). naive_solver.
    + split; [done|]. intros (_ & _ & _ & _ & H).
      apply loop_all_true in H. congruence.
  - cbn [negb]. rewrite !Tauto.if_same.
    split; [done|]. intros (_ & _ & _ & H & _).
    assert (loop_all (has_id ids) ns = true); [|congruence].
    apply loop_all_true. intros node Hnode. unfold has_id.
    apply bool_decide_eq_true_2. by apply H.
Qed.

(** [validateNetwork] has no error exactly when every one of its checks
    passes. *)
Lemma validateNetwork_no_errors ns cs :
  errors (validateNetwork ns cs) = [] ↔
  hasInput ns ∧ hasOutput ns ∧ cs ≠ [] ∧ noneIsolated ns cs
  ∧ ∀ node, node ∈ ns → agentErrors node = [].
Proof.
  rewrite validateNetwork_errors.
  unfold hasInput, hasOutput, noneIsolated.
  set (ids := connectedNodeIds cs).
  rewrite !app_nil, !flat_map_nil, !existsb_ids, !length_map.
  assert (Hiso : (∀ x, x ∈ ns → isolatedErrors ids x = [])
                 ↔ ∀ node, node ∈ ns → node_id node ∈ ids).
  { unfold isolatedErrors, has_id.
    split; intros H node Hnode; specialize (H node Hnode).
    - by case_bool_decide.
    - by rewrite bool_decide_eq_true_2. }
  rewrite Hiso. clear Hiso.
  split.
  - intros (H1 & H2 & H3 & H4 & H5 & _ & _).
    destruct (bool_decide (length (List.filter (is_type "input") ns) = 0%nat)) eqn:Ei;
      [done|].
    destruct (bool_decide (length (List.filter (is_type "output") ns) = 0%nat)) eqn:Eo;
      [done|].
    destruct (bool_decide (length cs = 0%nat)) eqn:Ec; [done|].
    apply bool_decide_eq_false in Ei, Eo, Ec.
    split; [|split; [|split; [|split]]]; try done.
    + apply filter_type_nonempty. intros E. by rewrite E in Ei.
    + apply filter_type_nonempty. intros E. by rewrite E in Eo.
    + intros ->. done.
  - intros (Hi & Ho & Hc & Hn & Ha).
    rewrite (bool_decide_eq_false_2 (length (List.filter (is_type "input") ns) = 0%nat)).
    2:{ rewrite length_filter_zero. naive_solver. }
    rewrite (bool_decide_eq_false_2 (length (List.filter (is_type "output") ns) = 0%nat)).
    2:{ rewrite length_filter_zero. naive_solver. }
    rewrite (bool_decide_eq_false_2 (length cs = 0%nat)).
    2:{ rewrite length_zero_iff_nil. done. }
    assert (E1 : existsb (has_id ids) (List.filter (is_type "input") ns) = true).
    { destruct Hi as (n & Hn1 & Hn2). apply existsb_has_id. exists n. split; [|auto].
      apply elem_of_List_filter. split; [by apply bool_decide_eq_true | done]. }
    assert (E2 : existsb (has_id ids) (List.filter (is_type "output") ns) = true).
    { destruct Ho as (n & Hn1 & Hn2). apply existsb_has_id. exists n. split; [|auto].
      apply elem_of_List_filter. split; [by apply bool_decide_eq_true | done]. }
    rewrite E1, E2. done.
Qed.

(** [validateNetworkSubset] answers [true] exactly on the sub-networks
    that pass the validation, check by check. *)
Lemma validateNetworkSubset_passes ns cs :
  validateNetworkSubset ns cs = true ↔ passesSubgraphValidation ns cs.
Proof.
  rewrite validateNetworkSubset_true.
  unfold passesSubgraphValidation, hasInput, hasOutput, noneIsolated.
  rewrite !Exists_exists, !Forall_forall.
  setoid_rewrite incident_connected.
  setoid_rewrite agentConfigured_complete.
  done.
Qed.

End Verdicts.

(** C2 (as amended). [validateNetwork], run on the node and connection
    arrays, returns [{valid, errors}]: every check is evaluated, every
    failing check leaves its message in [errors], and [valid] is true
    exactly when [errors] is empty, which is exactly when all checks
    pass.  The checks of one agent are independent of each other: each
    of them that fails ([failingCheck]) leaves its own message, whatever
    the other checks of that agent found, and [errors] holds no message
    but those of failing checks.  [validateNetworkSubset], the validator
    that the component detector runs on a candidate sub-network, returns
    a bare boolean: [true] exactly when all of its own checks pass, the
    per-agent one being [completeFor]; it accepts every sub-network that
    [validateNetwork] finds valid.  A field is lacking when it is absent
    or holds white space only ([whiteOnly]: the code points that
    [String.prototype.trim] removes, Unicode spaces included). *)
Theorem validators_accumulate_or_stop (ns : list NodeData) (cs : list Connection) :
  let r := validateNetwork ns cs in
  (valid r = true ↔ errors r = [])
  ∧ (¬ hasInput ns → "Please add an input node to your network" ∈ errors r)
  ∧ (¬ hasOutput ns → "Please add an output node to your network" ∈ errors r)
  ∧ (cs = [] → "Please connect nodes in your network" ∈ errors r)
  ∧ (∀ node, node ∈ ns → node_id node ∉ connectedNodeIds cs →
       "Node " +:+ display_name node +:+ " is not connected to any other node"
       ∈ errors r)
  ∧ (hasInput ns →
     (∀ node, node ∈ ns → type node = "input" → node_id node ∉ connectedNodeIds cs) →
     "Input node is not connected to the network" ∈ errors r)
  ∧ (hasOutput ns →
     (∀ node, node ∈ ns → type node = "output" → node_id node ∉ connectedNodeIds cs) →
     "Output node is not connected to the network" ∈ errors r)
  ∧ (∀ node e, node ∈ ns → e ∈ agentErrors node → e ∈ errors r)
  ∧ (∀ node, node ∈ ns → agentConfigured node = false →
       ∃ e, e ∈ agentErrors node ∧ e ∈ errors r)
  ∧ (errors r = [] ↔
     hasInput ns ∧ hasOutput ns ∧ cs ≠ [] ∧ noneIsolated ns cs
     ∧ ∀ node, node ∈ ns → agentErrors node = [])
  ∧ (validateNetworkSubset ns cs = true ↔
     hasInput ns ∧ hasOutput ns ∧ cs ≠ [] ∧ noneIsolated ns cs
     ∧ ∀ node, node ∈ ns → agentConfigured node = true)
  ∧ (valid r = true → validateNetworkSubset ns cs = true)
  ∧ (∀ node e, e ∈ agentErrors node ↔ failingCheck node e)
  ∧ (∀ node e, node ∈ ns → failingCheck node e → e ∈ errors r)
  ∧ (∀ node, agentConfigured node = true ↔ completeFor node)
  ∧ (∀ i, i ∈ connectedNodeIds cs ↔ incident cs i)
  ∧ (∀ e, e ∈ errors r ↔
       (¬ hasInput ns ∧ e = "Please add an input node to your network")
       ∨ (¬ hasOutput ns ∧ e = "Please add an output node to your network")
       ∨ (cs = [] ∧ e = "Please connect nodes in your network")
       ∨ (∃ node, node ∈ ns ∧ failingCheck node e)
       ∨ (∃ node, node ∈ ns ∧ ¬ incident cs (node_id node)
            ∧ e = "Node " +:+ display_name node
                  +:+ " is not connected to any other node")
       ∨ (hasInput ns
          ∧ (∀ node, node ∈ ns → type node = "input" →
                     ¬ incident cs (node_id node))
          ∧ e = "Input node is not connected to the network")
       ∨ (hasOutput ns
          ∧ (∀ node, node ∈ ns → type node = "output" →
                     ¬ incident cs (node_id node))
          ∧ e = "Output node is not connected to the network"))
  ∧ (errors r = [] ↔
     hasInput ns ∧ hasOutput ns ∧ cs ≠ []
     ∧ (∀ node, node ∈ ns → incident cs (node_id node))
     ∧ ∀ node e, node ∈ ns → ¬ failingCheck node e)
  ∧ (validateNetworkSubset ns cs = true ↔ passesSubgraphValidation ns cs)
  ∧ (∀ field node,
       lacks field node ↔
       match field (config_or_empty node) with
       | Some v => whiteOnly v
       | None => True
       end)
  ∧ (∀ field node,
       has field node ↔ ∃ v, field (config_or_empty node) = Some v ∧ v ≠ "").
Proof.
  cbv zeta.
  assert (Hagent : ∀ node e, node ∈ ns → e ∈ agentErrors node →
                   e ∈ errors (validateNetwork ns cs)).
  { intros node e Hn He. rewrite validateNetwork_errors.
    do 3 (apply elem_of_app; right). apply elem_of_app; left.
    apply elem_of_flat_map. eauto. }
  assert (Hin : ∀ t,
    existsb (has_id (connectedNodeIds cs)) (List.filter (is_type t) ns) = false
    ↔ ∀ node, node ∈ ns → type node = t → ¬ incident cs (node_id node)).
  { intros t. rewrite <- not_true_iff_false, existsb_has_id. split.
    - intros H node Hn Ht Hi. apply H. exists node. split; [|by apply incident_connected].
      apply elem_of_List_filter. split; [by apply bool_decide_eq_true | done].
    - intros H (node & [Ht Hn]%elem_of_List_filter & Hid).
      apply bool_decide_eq_true in Ht. apply (H node Hn Ht).
      by apply incident_connected. }
  assert (Hlen : ∀ t, (0 < length (List.filter (is_type t) ns))%nat
                      ↔ ∃ node, node ∈ ns ∧ type node = t).
  { intros t. rewrite <- filter_type_nonempty.
    destruct (List.filter (is_type t) ns); simpl; [split; [lia | done]|].
    split; [done | lia]. }
  split; [apply valid_iff_no_errors|].
  split.
  { intros Hi. rewrite validateNetwork_errors.
    rewrite bool_decide_eq_true_2 by (by apply length_filter_zero).
    apply elem_of_app; left. apply list_elem_of_singleton. reflexivity. }
  split.
  { intros Ho. rewrite validateNetwork_errors.
    rewrite (bool_decide_eq_true_2 (length (List.filter (is_type "output") ns) = 0%nat))
      by (by apply length_filter_zero).
    apply elem_of_app; right. apply elem_of_app; left.
    apply list_elem_of_singleton. reflexivity. }
  split.
  { intros ->. rewrite validateNetwork_errors.
    do 2 (apply elem_of_app; right). apply elem_of_app; left.
    apply list_elem_of_singleton. reflexivity. }
  split.
  { intros node Hn Hiso. rewrite validateNetwork_errors.
    do 4 (apply elem_of_app; right). apply elem_of_app; left.
    apply elem_of_flat_map. exists node. split; [done|].
    unfold isolatedErrors, has_id. rewrite bool_decide_eq_false_2 by done.
    apply list_elem_of_singleton. reflexivity. }
  split.
  { intros Hi Hnone. rewrite validateNetwork_errors.
    do 5 (apply elem_of_app; right). apply elem_of_app; left.
    rewrite existsb_ids, length_map.
    assert (E : existsb (has_id (connectedNodeIds cs)) (List.filter (is_type "input") ns)
                = false).
    { apply not_true_iff_false. intros (n & [Ht Hn]%elem_of_List_filter & Hid)%existsb_has_id.
      apply bool_decide_eq_true in Ht. by apply (Hnone n). }
    rewrite E. rewrite bool_decide_eq_true_2.
    - apply list_elem_of_singleton. reflexivity.
    - apply filter_type_nonempty in Hi.
      destruct (List.filter (is_type "input") ns); [done | simpl; lia]. }
  split.
  { intros Ho Hnone. rewrite validateNetwork_errors.
    do 6 (apply elem_of_app; right).
    rewrite existsb_ids, length_map.
    assert (E : existsb (has_id (connectedNodeIds cs)) (List.filter (is_type "output") ns)
                = false).
    { apply not_true_iff_false. intros (n & [Ht Hn]%elem_of_List_filter & Hid)%existsb_has_id.
      apply bool_decide_eq_true in Ht. by apply (Hnone n). }
    rewrite E. rewrite bool_decide_eq_true_2.
    - apply list_elem_of_singleton. reflexivity.
    - apply filter_type_nonempty in Ho.
      destruct (List.filter (is_type "output") ns); [done | simpl; lia]. }
  split; [exact Hagent|].
  split.
  { intros node Hn Hc. apply agentConfigured_false_errors in Hc.
    destruct (agentErrors node) as [|e l] eqn:E; [done|].
    exists e. split; [left|]. apply (Hagent node); [done|]. rewrite E. left. }
  split; [apply validateNetwork_no_errors|].
  split; [apply validateNetworkSubset_true|].
  split.
  { intros Hv. apply valid_iff_no_errors, validateNetwork_no_errors in Hv.
    destruct Hv as (Hi & Ho & Hc & Hn & Ha).
    apply validateNetworkSubset_true. repeat split; try done.
    intros node Hnode. destruct (agentConfigured node) eqn:E; [done|].
    apply agentConfigured_false_errors in E. by rewrite (Ha node Hnode) in E. }
  split; [apply elem_of_agentErrors|].
  split.
  { intros node e Hn He. apply (Hagent node); [done|]. by apply elem_of_agentErrors. }
  split; [apply agentConfigured_complete|].
  split; [intros i; apply incident_connected|].
  split.
  { intros e. rewrite validateNetwork_errors.
    rewrite !elem_of_app, !elem_of_if_singleton, !elem_of_flat_map.
    rewrite !existsb_ids, !length_map, !andb_true_iff, !negb_true_iff.
    rewrite !bool_decide_eq_true, !length_filter_zero, !Hin, !Hlen.
    rewrite length_zero_iff_nil.
    fold (hasInput ns). fold (hasOutput ns).
    setoid_rewrite elem_of_agentErrors.
    assert (Hiso : (∃ x, x ∈ ns ∧ e ∈ isolatedErrors (connectedNodeIds cs) x)
      ↔ ∃ node, node ∈ ns ∧ ¬ incident cs (node_id node)
          ∧ e = "Node " +:+ display_name node
                +:+ " is not connected to any other node").
    { unfold isolatedErrors, has_id. split.
      - intros (node & Hn & He). exists node. split; [done|].
        case_bool_decide as Hc; [by apply elem_of_nil in He|].
        apply list_elem_of_singleton in He. split; [|done].
        by rewrite <- incident_connected.
      - intros (node & Hn & Hc & ->). exists node. split; [done|].
        rewrite bool_decide_eq_false_2 by (by rewrite incident_connected).
        apply list_elem_of_singleton. reflexivity. }
    rewrite Hiso. tauto. }
  split.
  { rewrite validateNetwork_no_errors. unfold noneIsolated.
    setoid_rewrite incident_connected.
    assert (Hnone : (∀ node, node ∈ ns → agentErrors node = [])
                    ↔ ∀ node e, node ∈ ns → ¬ failingCheck node e).
    { split.
      - intros H node e Hn He. apply elem_of_agentErrors in He.
        rewrite (H node Hn) in He. by apply elem_of_nil in He.
      - intros H node Hn. destruct (agentErrors node) as [|e l] eqn:E; [done|].
        exfalso. apply (H node e Hn). apply elem_of_agentErrors. rewrite E. left. }
    rewrite Hnone. done. }
  split; [apply validateNetworkSubset_passes|].
  split.
  - intros field node. apply blank_spec.
  - intros field node. unfold has, truthy.
    destruct (field (config_or_empty node)) as [v|].
    + rewrite negb_true_iff, bool_decide_eq_false. split; [eauto|].
      intros (v' & [= <-] & Hv). done.
    + split; [done | by intros (v & Hv & _)].
Qed.

(** C2, counterexample: a sub-network whose OpenAI agent has a single
    space as API key.  The sub-network validator answers [true], with no
    error list, while the accumulating validator reports an error for
    the same nodes and connections: on a candidate sub-network the
    verdict is not "true exactly when no check left an error". *)
Lemma subset_validator_is_not_the_accumulating_one :
  validateNetworkSubset blankKeyNodes blankKeyConnections = true
  ∧ validateNetwork blankKeyNodes blankKeyConnections
    = {| valid := false; errors := ["OpenAI agent helper is missing API key"] |}
  ∧ ¬ (validateNetworkSubset blankKeyNodes blankKeyConnections = true
       ↔ errors (validateNetwork blankKeyNodes blankKeyConnections) = []).
Proof.
  assert (H1 : validateNetworkSubset blankKeyNodes blankKeyConnections = true)
    by reflexivity.
  assert (H2 : validateNetwork blankKeyNodes blankKeyConnections
    = {| valid := false; errors := ["OpenAI agent helper is missing API key"] |})
    by reflexivity.
  split; [exact H1|]. split; [exact H2|].
  intros [H _]. specialize (H H1). rewrite H2 in H. discriminate H.
Qed.

(** An agent without a name, a key or a model gets the three messages
    at once, next to those of the other checks. *)
Example validateNetwork_reports_every_failing_check :
  validateNetwork [bareAgent] []
  = {| valid := false;
       errors := [ "Please add an input node to your network";
                   "Please add an output node to your network";
                   "Please connect nodes in your network";
                   "Agent node #7 needs a name";
                   "OpenAI agent Unnamed is missing API key";
                   "OpenAI agent Unnamed is missing model selection";
                   "Node agent is not connected to any other node" ] |}.
Proof. vm_compute. reflexivity. Qed.

(** White space is what [trim] removes, beyond ASCII as well: a key
    that is a no-break space is a missing key. *)
Example validateNetwork_blank_is_unicode_white_space :
  trim (nbsp +:+ " a b" +:+ emsp) = "a b"
  ∧ blank (Some (nbsp +:+ emsp)) = true
  ∧ agentErrors nbspKeyAgent = ["OpenAI agent helper is missing API key"]
  ∧ agentConfigured nbspKeyAgent = true.
Proof. repeat split; vm_compute; reflexivity. Qed.

(** ** Polling *)

Section Polling.

Variable interval : Z.
Variable endpoint : nat → FetchOutcome.
Hypothesis Hnever : neverTerminal endpoint.

(** Before the cap, one call of [checkStatus] makes one request and
    arms the timer again, whatever the request came back with. *)
Lemma checkStatus_continues pollCount :
  (S pollCount < maxPolls)%nat →
  ∃ events,
    checkStatus interval endpoint pollCount = (S pollCount, events, true)
    ∧ List.filter is_fetch events = [EvFetchStatus (S pollCount)]
    ∧ List.filter is_timer events = [EvSetTimeout interval]
    ∧ List.filter is_failed_badge events = [].
Proof.
  intros Hlt. unfold checkStatus.
  destruct (Hnever (S pollCount)) as [Hc Hf].
  destruct (endpoint (S pollCount)) as [status|message].
  - rewrite (bool_decide_eq_false_2 (status = "COMPLETED")) by congruence.
    rewrite (bool_decide_eq_false_2 (status = "FAILED")) by congruence.
    rewrite bool_decide_eq_false_2 by lia. eauto.
  - rewrite bool_decide_eq_true_2 by lia. eauto.
Qed.

(** At the cap, [checkStatus] makes its request and does not arm the
    timer. *)
Lemma checkStatus_stops :
  ∃ events,
    checkStatus interval endpoint 59 = (60%nat, events, false)
    ∧ List.filter is_fetch events = [EvFetchStatus 60]
    ∧ List.filter is_timer events = []
    ∧ List.filter is_failed_badge events = []
    ∧ (∀ status, endpoint 60%nat = Status status →
       EvBadge "status-badge warning" "Timeout" ∈ events).
Proof.
  unfold checkStatus.
  destruct (Hnever 60%nat) as [Hc Hf].
  destruct (endpoint 60%nat) as [status|message].
  - rewrite (bool_decide_eq_false_2 (status = "COMPLETED")) by congruence.
    rewrite (bool_decide_eq_false_2 (status = "FAILED")) by congruence.
    rewrite bool_decide_eq_true_2 by (unfold maxPolls; lia).
    eexists. split; [reflexivity|]. repeat split; try done.
    intros _ _. apply elem_of_cons. right. left.
  - rewrite bool_decide_eq_false_2 by (unfold maxPolls; lia).
    eexists. split; [reflexivity|]. repeat split; try done.
Qed.

Lemma pollChain_runs_to_cap (d : nat) : ∀ pollCount,
  (pollCount + d = 59)%nat →
  ∃ events,
    (∀ fuel, (d < fuel)%nat → pollChain fuel interval endpoint pollCount = Some events)
    ∧ List.filter is_fetch events = map EvFetchStatus (seq (S pollCount) (S d))
    ∧ List.filter is_timer events = repeat (EvSetTimeout interval) d
    ∧ List.filter is_failed_badge events = []
    ∧ (∀ status, endpoint 60%nat = Status status →
       EvBadge "status-badge warning" "Timeout" ∈ events).
Proof.
  induction d as [|d IH]; intros pollCount Hd.
  - assert (pollCount = 59%nat) as -> by lia.
    destruct checkStatus_stops as (events & Hcs & Hf & Ht & Hb & Hto).
    exists events. split; [|done].
    intros [|fuel] Hfuel; [lia|]. simpl. by rewrite Hcs.
  - destruct (checkStatus_continues pollCount) as (ev1 & Hcs & Hf1 & Ht1 & Hb1);
      [unfold maxPolls; lia|].
    destruct (IH (S pollCount)) as (ev2 & Hrun & Hf2 & Ht2 & Hb2 & Hto); [lia|].
    exists (ev1 ++ ev2). split; [|split; [|split; [|split]]].
    + intros [|fuel] Hfuel; [lia|]. simpl. rewrite Hcs.
      rewrite (Hrun fuel) by lia. done.
    + rewrite List.filter_app, Hf1, Hf2. done.
    + rewrite List.filter_app, Ht1, Ht2. done.
    + rewrite List.filter_app, Hb1, Hb2. done.
    + intros status Hs. apply elem_of_app. right. by apply (Hto status).
Qed.

End Polling.

Lemma pollChain_running interval (d : nat) : ∀ pollCount fuel,
  (pollCount + d = 59)%nat → (d < fuel)%nat →
  pollChain fuel interval alwaysRunning pollCount
  = Some (flat_map (λ k, [EvFetchStatus k; EvSetTimeout interval]) (seq (S pollCount) d)
          ++ [EvFetchStatus 60;
              EvBadge "status-badge warning" "Timeout";
              EvLog "Execution polling timed out" "warning";
              EvLog "The execution may still be running in the background" "info";
              EvRunAgain]).
Proof.
  induction d as [|d IH]; intros pollCount [|fuel] Hd Hfuel; try lia.
  - assert (pollCount = 59%nat) as -> by lia. reflexivity.
  - cbn [pollChain]. unfold checkStatus, alwaysRunning.
    rewrite (bool_decide_eq_false_2 ("RUNNING" = "COMPLETED")) by discriminate.
    rewrite (bool_decide_eq_false_2 ("RUNNING" = "FAILED")) by discriminate.
    rewrite bool_decide_eq_false_2 by (unfold maxPolls; lia).
    fold alwaysRunning. rewrite (IH (S pollCount) fuel) by lia. reflexivity.
Qed.

(** C4. When the status endpoint never answers [COMPLETED] or [FAILED],
    the poll chain ends by itself (any bound of 60 calls or more is
    enough to see it end, with the same trace), after exactly 60 status
    requests, numbered 1 to 60, and no other request.  Between two
    requests the timer is armed once, with the given interval; a
    request that fails before the cap arms the timer like any other.
    The chain never shows the [Failed] badge.  When the 60th request
    comes back with a status, it shows the [Timeout] badge; and against
    an endpoint that always answers [RUNNING] the trace is exactly
    [runningTrace]. *)
Theorem poll_stops_after_sixty (interval : Z) (endpoint : nat → FetchOutcome) :
  neverTerminal endpoint →
  ∃ events,
    (∀ fuel, (60 ≤ fuel)%nat →
       pollExecutionStatus fuel interval endpoint = Some events)
    ∧ List.filter is_fetch events = map EvFetchStatus (seq 1 60)
    ∧ requests events = 60%nat
    ∧ List.filter is_timer events = repeat (EvSetTimeout interval) 59
    ∧ List.filter is_failed_badge events = []
    ∧ (∀ status, endpoint 60%nat = Status status →
       EvBadge "status-badge warning" "Timeout" ∈ events)
    ∧ ((∀ k, endpoint k = Status "RUNNING") → events = runningTrace interval).
Proof.
  intros Hnever.
  destruct (pollChain_runs_to_cap interval endpoint Hnever 59 0)
    as (events & Hrun & Hf & Ht & Hb & Hto); [done|].
  exists events. split; [|split; [|split; [|split; [|split; [|split]]]]].
  - intros fuel Hfuel. apply Hrun. lia.
  - exact Hf.
  - unfold requests. by rewrite Hf.
  - exact Ht.
  - exact Hb.
  - exact Hto.
  - intros Hr.
    assert (Some events = Some (runningTrace interval)) as [= ->]; [|done].
    rewrite <- (Hrun 60%nat) by lia.
    assert (Hext : ∀ fuel pollCount,
      pollChain fuel interval endpoint pollCount
      = pollChain fuel interval alwaysRunning pollCount).
    { induction fuel as [|fuel IH]; intros pollCount; simpl; [done|].
      unfold checkStatus. rewrite Hr. unfold alwaysRunning at 1.
      rewrite !(bool_decide_eq_false_2 ("RUNNING" = "COMPLETED")) by discriminate.
      rewrite !(bool_decide_eq_false_2 ("RUNNING" = "FAILED")) by discriminate.
      destruct (bool_decide (maxPolls ≤ S pollCount)%nat); [done|]. by rewrite IH. }
    rewrite Hext. rewrite (pollChain_running interval 59 0 60) by lia.
    reflexivity.
Qed.

Lemma poll_stops_after_sixty_witness :
  pollExecutionStatus 60 defaultInterval alwaysRunning
  = Some (runningTrace defaultInterval)
  ∧ requests (runningTrace defaultInterval) = 60%nat.
Proof.
  assert (Hnever : neverTerminal alwaysRunning).
  { intros k. split; discriminate. }
  destruct (poll_stops_after_sixty defaultInterval alwaysRunning Hnever)
    as (events & Hrun & _ & Hreq & _ & _ & _ & Htrace).
  rewrite <- (Htrace (λ _, eq_refl)).
  split; [apply Hrun; lia | exact Hreq].
Defined.

(** ** Detecting networks *)

Section Adjacency.

Implicit Types (ns : list NodeData) (cs : list Connection)
  (m : gmap string (list string)).

Lemma adjacent_sym cs u v : adjacent cs u v → adjacent cs v u.
Proof. intros (c & Hc & H). exists c. split; [done|]. tauto. Qed.

Lemma adjacent_app cs1 cs2 u v :
  adjacent (cs1 ++ cs2) u v ↔ adjacent cs1 u v ∨ adjacent cs2 u v.
Proof.
  unfold adjacent. setoid_rewrite elem_of_app. naive_solver.
Qed.

Lemma adjacent_singleton c u v :
  adjacent [c] u v ↔
  (nodeId (start c) = u ∧ nodeId (end_ c) = v)
  ∨ (nodeId (start c) = v ∧ nodeId (end_ c) = u).
Proof.
  unfold adjacent. setoid_rewrite list_elem_of_singleton. naive_solver.
Qed.

Lemma adjacent_nil u v : ¬ adjacent [] u v.
Proof. intros (c & Hc & _). by apply elem_of_nil in Hc. Qed.

Lemma init_adjacency ns k (m : gmap string (list string)) :
  foldl (λ m node, <[node_id node := []]> m) m ns !! k
  = if decide (k ∈ map node_id ns) then Some [] else m !! k.
Proof.
  revert m. induction ns as [|n ns IH]; intros m; cbn [foldl map].
  - case_decide as H; [by apply elem_of_nil in H | done].
  - rewrite IH. destruct (decide (k ∈ map node_id ns)) as [Hin|Hnin].
    + rewrite decide_True; [done|]. by right.
    + destruct (decide (k = node_id n)) as [->|Hne].
      * rewrite lookup_insert_eq. rewrite decide_True; [done|]. left.
      * rewrite lookup_insert_ne by done.
        rewrite decide_False; [done|]. intros [?|?]%elem_of_cons; done.
Qed.

Lemma init_visited ns k (vm : gmap string bool) :
  foldl (λ vm node, <[node_id node := false]> vm) vm ns !! k
  = if decide (k ∈ map node_id ns) then Some false else vm !! k.
Proof.
  revert vm. induction ns as [|n ns IH]; intros vm; cbn [foldl map].
  - case_decide as H; [by apply elem_of_nil in H | done].
  - rewrite IH. destruct (decide (k ∈ map node_id ns)) as [Hin|Hnin].
    + rewrite decide_True; [done|]. by right.
    + destruct (decide (k = node_id n)) as [->|Hne].
      * rewrite lookup_insert_eq. rewrite decide_True; [done|]. left.
      * rewrite lookup_insert_ne by done.
        rewrite decide_False; [done|]. intros [?|?]%elem_of_cons; done.
Qed.

Lemma records_push ids seen m c :
  records ids seen m →
  nodeId (start c) ∈ ids → nodeId (end_ c) ∈ ids →
  ∃ m', (do! m1 := adjacency_push m (nodeId (start c)) (nodeId (end_ c)) in
         adjacency_push m1 (nodeId (end_ c)) (nodeId (start c))) = Ok m'
        ∧ records ids (seen ++ [c]) m'.
Proof.
  intros [Hdom Hadj] Hs He.
  set (a := nodeId (start c)) in *. set (b := nodeId (end_ c)) in *.
  destruct (proj2 (Hdom a) Hs) as [la Hla].
  unfold adjacency_push at 1. rewrite Hla. simpl.
  assert (Hb : ∃ lb, <[a := la ++ [b]]> m !! b = Some lb
                     ∧ ∀ v, v ∈ lb ↔ adjacent seen b v ∨ (a = b ∧ v = b)).
  { destruct (decide (a = b)) as [Hab|Hab].
    - rewrite <- Hab, lookup_insert_eq. eexists. split; [done|].
      intros v. rewrite elem_of_app, list_elem_of_singleton, (Hadj a la Hla).
      naive_solver.
    - rewrite lookup_insert_ne by done.
      destruct (proj2 (Hdom b) He) as [lb Hlb]. exists lb. split; [done|].
      intros v. rewrite (Hadj b lb Hlb). naive_solver. }
  destruct Hb as (lb & Hlb & Hlb').
  unfold adjacency_push. rewrite Hlb. simpl.
  eexists. split; [reflexivity|]. split.
  - intros k. rewrite <- Hdom.
    destruct (decide (k = b)) as [->|Hkb].
    + rewrite lookup_insert_eq. split; [intros _; by apply Hdom | eauto].
    + rewrite lookup_insert_ne by done.
      destruct (decide (k = a)) as [->|Hka].
      * rewrite lookup_insert_eq. split; [intros _; by apply Hdom | eauto].
      * by rewrite lookup_insert_ne.
  - intros u l Hu v.
    rewrite adjacent_app, adjacent_singleton. fold a b.
    destruct (decide (u = b)) as [->|Hub].
    + rewrite lookup_insert_eq in Hu. injection Hu as <-.
      rewrite elem_of_app, list_elem_of_singleton, Hlb'. naive_solver.
    + rewrite lookup_insert_ne in Hu by done.
      destruct (decide (u = a)) as [->|Hua].
      * rewrite lookup_insert_eq in Hu. injection Hu as <-.
        rewrite elem_of_app, list_elem_of_singleton, (Hadj a la Hla). naive_solver.
      * rewrite lookup_insert_ne in Hu by done.
        rewrite (Hadj u l Hu). naive_solver.
Qed.

Lemma buildAdjacency_fold ids cs : ∀ seen m,
  records ids seen m →
  (∀ c, c ∈ cs → nodeId (start c) ∈ ids ∧ nodeId (end_ c) ∈ ids) →
  ∃ m',
    foldl (λ acc conn,
             do! m := acc in
             let sourceId := nodeId (start conn) in
             let targetId := nodeId (end_ conn) in
             do! m1 := adjacency_push m sourceId targetId in
             adjacency_push m1 targetId sourceId)
          (Ok m) cs = Ok m'
    ∧ records ids (seen ++ cs) m'.
Proof.
  induction cs as [|c cs IH]; intros seen m Hrec Hends.
  - exists m. by rewrite app_nil_r.
  - destruct (Hends c) as [Hs He]; [left|].
    destruct (records_push ids seen m c Hrec Hs He) as (m1 & Hm1 & Hrec1).
    destruct (IH (seen ++ [c]) m1 Hrec1) as (m' & Hm' & Hrec').
    { intros c' Hc'. apply Hends. by right. }
    exists m'. split.
    + cbn [foldl bind]. cbn [bind] in Hm1. rewrite Hm1. exact Hm'.
    + by rewrite <- app_assoc in Hrec'.
Qed.

(** With every connection between nodes of the store,
    [adjacencyList] is built without error and lists, for every node,
    its neighbours in the undirected graph of the connections. *)
Lemma buildAdjacency_records ns cs :
  (∀ c, c ∈ cs → nodeId (start c) ∈ map node_id ns
                 ∧ nodeId (end_ c) ∈ map node_id ns) →
  ∃ m, buildAdjacency ns cs = Ok m ∧ records (map node_id ns) cs m.
Proof.
  intros Hends. unfold buildAdjacency.
  apply (buildAdjacency_fold (map node_id ns) cs []); [|done].
  split.
  - intros k. rewrite init_adjacency. case_decide as Hk.
    + split; [done | eauto].
    + rewrite lookup_empty. split; [by intros [? ?] | done].
  - intros u l. rewrite init_adjacency. case_decide.
    + intros [= <-] v. split; [by intros ?%elem_of_nil | by intros ?%adjacent_nil].
    + by rewrite lookup_empty.
Qed.

End Adjacency.

Section Traversal.

Variable adj : gmap string (list string).
Hypothesis adj_closed : ∀ u v, listed adj u v → is_Some (adj !! v).

Implicit Types (vm : gmap string bool) (st : gmap string bool * list string).

Lemma visited_get_insert vm x k :
  visited_get (<[x := true]> vm) k = true ↔ k = x ∨ visited_get vm k = true.
Proof.
  unfold visited_get. destruct (decide (k = x)) as [->|Hne].
  - rewrite lookup_insert_eq. naive_solver.
  - rewrite lookup_insert_ne by done. naive_solver.
Qed.

Lemma elem_of_unvisited vm k :
  k ∈ unvisited adj vm ↔ is_Some (adj !! k) ∧ visited_get vm k = false.
Proof. unfold unvisited. rewrite elem_of_filter, elem_of_dom. tauto. Qed.

Lemma unvisited_mono vm vm' :
  (∀ k, visited_get vm k = true → visited_get vm' k = true) →
  (size (unvisited adj vm') ≤ size (unvisited adj vm))%nat.
Proof.
  intros Hmono. apply subseteq_size.
  intros k [Hk Hv]%elem_of_unvisited. apply elem_of_unvisited. split; [done|].
  destruct (visited_get vm k) eqn:E; [|done].
  rewrite (Hmono k E) in Hv. done.
Qed.

Lemma unvisited_mark vm x :
  is_Some (adj !! x) → visited_get vm x = false →
  (size (unvisited adj (<[x := true]> vm)) < size (unvisited adj vm))%nat.
Proof.
  intros Hx Hv. apply subset_size. split.
  - intros k [Hk Hk']%elem_of_unvisited. apply elem_of_unvisited. split; [done|].
    destruct (visited_get vm k) eqn:E; [|done].
    assert (visited_get (<[x := true]> vm) k = true) by (apply visited_get_insert; auto).
    congruence.
  - intros Hsub. assert (Hin : x ∈ unvisited adj (<[x := true]> vm)).
    { apply Hsub, elem_of_unvisited. done. }
    apply elem_of_unvisited in Hin as [_ Hin].
    assert (visited_get (<[x := true]> vm) x = true) by (apply visited_get_insert; auto).
    congruence.
Qed.

Lemma extends_refl roots st : extends adj roots st st.
Proof.
  exists []. rewrite app_nil_r. repeat split; try done.
  - constructor.
  - auto.
  - intros [H | H]; [done | by apply elem_of_nil in H].
  - intros k H. by apply elem_of_nil in H.
  - intros k H. by apply elem_of_nil in H.
  - intros k v H. by apply elem_of_nil in H.
Qed.

Lemma extends_mono roots st st' k :
  extends adj roots st st' →
  visited_get (fst st) k = true → visited_get (fst st') k = true.
Proof. intros (new & _ & _ & Hv & _) H. apply Hv. by left. Qed.

Lemma extends_trans roots1 roots2 roots st st1 st2 :
  extends adj roots1 st st1 → extends adj roots2 st1 st2 →
  (∀ r, r ∈ roots1 → r ∈ roots) → (∀ r, r ∈ roots2 → r ∈ roots) →
  extends adj roots st st2.
Proof.
  intros (new1 & Hl1 & Hnd1 & Hv1 & Hf1 & Hr1 & Hc1)
         (new2 & Hl2 & Hnd2 & Hv2 & Hf2 & Hr2 & Hc2) Hin1 Hin2.
  exists (new1 ++ new2). split; [|split; [|split; [|split; [|split]]]].
  - by rewrite Hl2, Hl1, app_assoc.
  - apply NoDup_app. split; [done|]. split; [|done].
    intros k Hk1 Hk2. specialize (Hf2 k Hk2).
    assert (visited_get (fst st1) k = true) by (apply Hv1; auto). congruence.
  - intros k. rewrite Hv2, Hv1, elem_of_app. tauto.
  - intros k [Hk|Hk]%elem_of_app; [by apply Hf1|].
    specialize (Hf2 k Hk). destruct (visited_get (fst st) k) eqn:E; [|done].
    assert (visited_get (fst st1) k = true) by (apply Hv1; auto). congruence.
  - intros k [Hk|Hk]%elem_of_app.
    + destruct (Hr1 k Hk) as (r & Hr & Hp). eauto.
    + destruct (Hr2 k Hk) as (r & Hr & Hp). eauto.
  - intros k v [Hk|Hk]%elem_of_app Hkv.
    + apply Hv2. left. by apply (Hc1 k).
    + by apply (Hc2 k).
Qed.

(** The [forEach] over the neighbours of a node, given that the
    recursive calls of [dfs] with [fuel] behave. *)
Lemma dfs_neighbours fuel :
  (∀ x st, is_Some (adj !! x) → visited_get (fst st) x = false →
           (size (unvisited adj (fst st)) ≤ fuel)%nat →
           ∃ st', dfs fuel adj x st = Ok st' ∧ extends adj [x] st st'
                  ∧ ∃ rest, snd st' = snd st ++ x :: rest) →
  ∀ l st,
    (∀ v, v ∈ l → is_Some (adj !! v)) →
    (size (unvisited adj (fst st)) ≤ fuel)%nat →
    ∃ st',
      foldl (λ acc adjacentId,
               do! st' := acc in
               if negb (visited_get (fst st') adjacentId)
               then dfs fuel adj adjacentId st'
               else Ok st')
            (Ok st) l = Ok st'
      ∧ extends adj l st st'
      ∧ ∀ v, v ∈ l → visited_get (fst st') v = true.
Proof.
  intros Hdfs. induction l as [|v l IH]; intros st Hl Hsize.
  - exists st. split; [done|]. split; [apply extends_refl|].
    intros v Hv. by apply elem_of_nil in Hv.
  - cbn [foldl bind].
    destruct (visited_get (fst st) v) eqn:Ev; cbn [negb].
    + destruct (IH st) as (st' & Hrun & Hext & Hvis); [|done|].
      { intros w Hw. apply Hl. by right. }
      exists st'. split; [done|]. split.
      * eapply (extends_trans [] l); [apply extends_refl | exact Hext | |].
        -- intros r Hr. by apply elem_of_nil in Hr.
        -- intros r Hr. by right.
      * intros w [->|Hw]%elem_of_cons; [|by apply Hvis].
        by apply (extends_mono l st).
    + destruct (Hdfs v st) as (st1 & Hrun1 & Hext1 & rest & Hrest);
        [apply Hl; left|done|done|].
      rewrite Hrun1.
      destruct (IH st1) as (st' & Hrun & Hext & Hvis).
      { intros w Hw. apply Hl. by right. }
      { etrans; [|exact Hsize].
        apply unvisited_mono. intros k. by apply (extends_mono [v]). }
      exists st'. split; [done|]. split.
      * eapply (extends_trans [v] l); [exact Hext1 | exact Hext | |].
        -- intros r ->%list_elem_of_singleton. left.
        -- intros r Hr. by right.
      * intros w [->|Hw]%elem_of_cons; [|by apply Hvis].
        apply (extends_mono l st1); [done|].
        destruct Hext1 as (new & Hl1 & _ & Hv1 & _).
        apply Hv1. right. rewrite Hl1 in Hrest.
        apply app_inv_head in Hrest as ->. left.
Qed.

(** [dfs] started on an unmarked node, with at least as much fuel as
    there are unmarked nodes, returns; it has appended the node, then
    what it reached from it. *)
Lemma dfs_explores fuel : ∀ x st,
  is_Some (adj !! x) → visited_get (fst st) x = false →
  (size (unvisited adj (fst st)) ≤ fuel)%nat →
  ∃ st', dfs fuel adj x st = Ok st' ∧ extends adj [x] st st'
         ∧ ∃ rest, snd st' = snd st ++ x :: rest.
Proof.
  induction fuel as [|fuel IH]; intros x st Hx Hv Hsize.
  - exfalso.
    assert (Hin : x ∈ unvisited adj (fst st)) by (by apply elem_of_unvisited).
    assert (Hzero : size (unvisited adj (fst st)) = 0%nat) by lia.
    apply size_empty_iff in Hzero. rewrite Hzero in Hin.
    by apply elem_of_empty in Hin.
  - destruct Hx as [l Hl]. cbn [dfs]. rewrite Hl. cbn [defined bind].
    set (st1 := (<[x := true]> (fst st), snd st ++ [x])).
    destruct (dfs_neighbours fuel IH l st1) as (st' & Hrun & Hext & Hvis).
    { intros v Hv'. apply (adj_closed x v). exists l. done. }
    { pose proof (unvisited_mark (fst st) x (mk_is_Some _ _ Hl) Hv). simpl. lia. }
    exists st'. split; [exact Hrun|].
    destruct Hext as (new & Hl' & Hnd & Hv' & Hf & Hr & Hc).
    assert (Hxnew : x ∉ new).
    { intros Hin. specialize (Hf x Hin). simpl in Hf.
      assert (visited_get (<[x := true]> (fst st)) x = true)
        by (apply visited_get_insert; auto).
      congruence. }
    split.
    + exists (x :: new). split; [|split; [|split; [|split; [|split]]]].
      * rewrite Hl'. simpl. by rewrite <- app_assoc.
      * by constructor.
      * intros k. rewrite Hv'. simpl. rewrite visited_get_insert, elem_of_cons. tauto.
      * intros k [->|Hk]%elem_of_cons; [done|].
        specialize (Hf k Hk). simpl in Hf.
        destruct (visited_get (fst st) k) eqn:E; [|done].
        assert (visited_get (<[x := true]> (fst st)) k = true)
          by (apply visited_get_insert; auto).
        congruence.
      * intros k [->|Hk]%elem_of_cons.
        -- exists x. split; [left | done].
        -- destruct (Hr k Hk) as (r & Hrl & Hp). exists x. split; [left|].
           eapply rtc_l; [|exact Hp]. exists l. done.
      * intros k v [->|Hk]%elem_of_cons Hkv.
        -- destruct Hkv as (l' & Hl'' & Hin). rewrite Hl in Hl''.
           injection Hl'' as <-. by apply Hvis.
        -- by apply (Hc k).
    + exists new. rewrite Hl'. simpl. by rewrite <- app_assoc.
Qed.

End Traversal.

Lemma elem_of_concat {A} (x : A) (ls : list (list A)) :
  x ∈ concat ls ↔ ∃ l, x ∈ l ∧ l ∈ ls.
Proof.
  rewrite list_elem_of_In, in_concat.
  setoid_rewrite list_elem_of_In. naive_solver.
Qed.

Section Components.

Variable ns : list NodeData.
Variable cs : list Connection.
Variable adj : gmap string (list string).

Hypothesis ids_NoDup : NoDup (map node_id ns).
Hypothesis ends_in_ns :
  ∀ c, c ∈ cs → nodeId (start c) ∈ map node_id ns ∧ nodeId (end_ c) ∈ map node_id ns.
Hypothesis adj_records : records (map node_id ns) cs adj.

Implicit Types (vm : gmap string bool) (comps : list (list string)).

Lemma adjacent_in_ns u v : adjacent cs u v → u ∈ map node_id ns ∧ v ∈ map node_id ns.
Proof.
  intros (c & Hc & [[<- <-] | [<- <-]]); destruct (ends_in_ns c Hc); done.
Qed.

Lemma listed_adjacent u v : listed adj u v ↔ adjacent cs u v.
Proof.
  destruct adj_records as [Hdom Hadj]. split.
  - intros (l & Hl & Hv). by apply (Hadj u l Hl).
  - intros Huv. destruct (adjacent_in_ns u v Huv) as [Hu _].
    apply Hdom in Hu as [l Hl]. exists l. split; [done|]. by apply (Hadj u l Hl).
Qed.

Lemma adj_is_closed u v : listed adj u v → is_Some (adj !! v).
Proof.
  intros Huv%listed_adjacent. apply adj_records. by apply (adjacent_in_ns u v).
Qed.

Lemma rtc_listed_connected u v : rtc (listed adj) u v ↔ connected cs u v.
Proof.
  unfold connected. split; induction 1 as [|a b c Hab _ IH]; try done.
  - eapply rtc_l; [|exact IH]. by apply listed_adjacent.
  - eapply rtc_l; [|exact IH]. by apply listed_adjacent.
Qed.

Lemma connected_sym u v : connected cs u v → connected cs v u.
Proof.
  unfold connected. induction 1 as [|a b c Hab _ IH]; [done|].
  eapply rtc_r; [exact IH|]. by apply adjacent_sym.
Qed.

Lemma connected_in_ns u v : u ∈ map node_id ns → connected cs u v → v ∈ map node_id ns.
Proof.
  intros Hu. unfold connected. induction 1 as [|a b c Hab _ IH]; [done|].
  apply IH. by apply (adjacent_in_ns a b).
Qed.

Lemma unvisited_bound vm : (size (unvisited adj vm) ≤ length ns)%nat.
Proof.
  assert (Hsub : unvisited adj vm ⊆ list_to_set (map node_id ns)).
  { intros k [Hk _]%elem_of_unvisited. apply elem_of_list_to_set.
    by apply adj_records. }
  apply subseteq_size in Hsub.
  rewrite size_list_to_set in Hsub by done.
  by rewrite length_map in Hsub.
Qed.

Lemma nodeObjects_found (l : list string) :
  (∀ i, i ∈ l → i ∈ map node_id ns) →
  nodeObjects ns l = Ok (objectsOf ns l).
Proof.
  induction l as [|i l IH]; intros Hl; [done|].
  unfold nodeObjects. cbn [foldr].
  assert (Hi : is_Some (List.find (λ n, bool_decide (node_id n = i)) ns)).
  { apply find_is_Some.
    assert (Hin : i ∈ map node_id ns) by (apply Hl; left).
    apply list_elem_of_fmap in Hin as (n & -> & Hn).
    exists n. split; [done|]. by apply bool_decide_eq_true. }
  destruct Hi as [o Ho].
  assert (Hobj : objectsOf ns (i :: l) = o :: objectsOf ns l).
  { unfold objectsOf. cbn [omap list_omap]. by rewrite Ho. }
  rewrite Hobj, Ho. cbn [defined bind].
  fold (nodeObjects ns l). rewrite IH by (intros j Hj; apply Hl; by right).
  done.
Qed.

Lemma surfaced_qualifies (c : list string) :
  surfaced c (objectsOf ns c) (inducedConnections cs c) = qualifies ns cs c.
Proof.
  unfold surfaced, qualifies.
  destruct (existsb (is_type "input") _), (existsb (is_type "output") _),
    (bool_decide _), (validateNetworkSubset _ _); done.
Qed.

Lemma networksOf_snoc comps (c : list string) :
  networksOf ns cs (comps ++ [c])
  = networksOf ns cs comps
    ++ (if qualifies ns cs c
        then [networkOf (length (networksOf ns cs comps)) c
                        (objectsOf ns c) (inducedConnections cs c)]
        else []).
Proof.
  unfold networksOf. rewrite List.filter_app. cbn [List.filter].
  rewrite length_imap.
  destruct (qualifies ns cs c).
  - rewrite imap_app. cbn [imap]. by rewrite Nat.add_0_r.
  - by rewrite !app_nil_r.
Qed.

Lemma explored_skip processed vm comps x :
  explored cs (map node_id ns) processed vm comps →
  visited_get vm x = true →
  explored cs (map node_id ns) (processed ++ [x]) vm comps.
Proof.
  intros (I1 & I2 & I3 & I4 & I5 & I6) Hx.
  split; [done|]. split; [done|]. split; [done|]. split; [done|].
  split; [|done].
  intros k [Hk | ->%list_elem_of_singleton]%elem_of_app; [by apply I5 | by apply I1].
Qed.

Lemma firstUnvisited_here (processed rest seen : list string) x :
  (∀ k, k ∈ processed → k ∈ seen) → x ∉ seen →
  firstUnvisited (processed ++ x :: rest) seen = Some x.
Proof.
  intros Hp Hx. unfold firstUnvisited, includes.
  induction processed as [|p processed IH]; simpl.
  - by rewrite bool_decide_eq_false_2.
  - rewrite bool_decide_eq_true_2 by (apply Hp; left). simpl.
    apply IH. intros k Hk. apply Hp. by right.
Qed.

(** What one traversal from an unmarked node adds is a component. *)
Lemma explored_new_component processed rest vm comps x st' :
  map node_id ns = processed ++ x :: rest →
  explored cs (map node_id ns) processed vm comps →
  visited_get vm x = false →
  extends adj [x] (vm, []) st' →
  (∃ tl, snd st' = x :: tl) →
  explored cs (map node_id ns) (processed ++ [x]) (fst st') (comps ++ [snd st'])
  ∧ ∀ i, i ∈ snd st' → i ∈ map node_id ns.
Proof.
  intros Hids (I1 & I2 & I3 & I4 & I5 & I6) Hx
         (new & Hnew & Hnd & Hv & Hfresh & Hreach & Hclosed) [tl Htl].
  simpl in Hnew, Hv, Hfresh. subst new.
  set (new := snd st') in *.
  assert (Hxin : x ∈ map node_id ns).
  { rewrite Hids. apply elem_of_app. right. left. }
  assert (Hxnew : x ∈ new) by (rewrite Htl; left).
  assert (Hconn : ∀ k, k ∈ new → connected cs x k).
  { intros k Hk. destruct (Hreach k Hk) as (r & ->%list_elem_of_singleton & Hp).
    by apply rtc_listed_connected. }
  assert (Hin : ∀ k, k ∈ new → k ∈ map node_id ns).
  { intros k Hk. by apply (connected_in_ns x), Hconn. }
  assert (Hstep : ∀ k v, k ∈ new → adjacent cs k v → v ∈ new).
  { intros k v Hk Hkv.
    assert (Hvis : visited_get (fst st') v = true).
    { apply (Hclosed k v Hk). by apply listed_adjacent. }
    apply Hv in Hvis as [Hold | Hvnew]; [|done].
    exfalso. apply I1 in Hold.
    apply elem_of_concat in Hold as (c & Hvc & Hc).
    rewrite Forall_forall in I3. destruct (I3 c Hc) as [_ Hcomp].
    assert (Hkc : k ∈ c).
    { apply (Hcomp v k Hvc). apply rtc_once. by apply adjacent_sym. }
    assert (Hkold : visited_get vm k = true).
    { apply I1. apply elem_of_concat. eauto. }
    rewrite (Hfresh k Hk) in Hkold. done. }
  assert (Hall : ∀ k v, k ∈ new → connected cs k v → v ∈ new).
  { intros k v Hk Hp. unfold connected in Hp.
    induction Hp as [|a b c Hab _ IH]; [done|]. apply IH. by apply (Hstep a). }
  split; [|exact Hin].
  split; [|split; [|split; [|split; [|split]]]].
  - intros k. rewrite Hv, I1, concat_app, elem_of_app. simpl.
    by rewrite app_nil_r.
  - rewrite concat_app. simpl. rewrite app_nil_r.
    apply NoDup_app. split; [done|]. split; [|done].
    intros k Hk Hk'. apply I1 in Hk. rewrite (Hfresh k Hk') in Hk. done.
  - apply Forall_app. split; [done|]. apply Forall_singleton. split.
    + fold new. rewrite Htl. done.
    + intros u v Hu. split.
      * intros Hvn. eapply (rtc_trans (R:=adjacent cs)); [|by apply Hconn].
        by apply connected_sym, Hconn.
      * by apply Hall.
  - intros k. rewrite concat_app, elem_of_app. simpl. rewrite app_nil_r.
    intros [Hk | Hk]; [by apply I4 | by apply Hin].
  - intros k. rewrite concat_app. simpl. rewrite app_nil_r.
    intros [Hk | ->%list_elem_of_singleton]%elem_of_app; apply elem_of_app; auto.
  - intros j c Hj.
    destruct (decide (j < length comps)%nat) as [Hlt|Hge].
    + rewrite lookup_app_l in Hj by done.
      rewrite take_app_le by lia. by apply I6.
    + rewrite lookup_app_r in Hj by lia.
      apply list_lookup_singleton_Some in Hj as [Hj <-].
      assert (j = length comps) as -> by lia.
      rewrite take_app_length. fold new. rewrite Htl. simpl.
      rewrite Hids. symmetry. apply firstUnvisited_here; [done|].
      intros Hk. apply I1 in Hk. congruence.
Qed.

(** The loop over the nodes, from any of its states: it ends without
    error, with the networks of the components found. *)
Lemma detectLoop_explores : ∀ todo processed vm comps,
  map node_id ns = processed ++ map node_id todo →
  explored cs (map node_id ns) processed vm comps →
  ∃ vm' comps',
    detectLoop (length ns) ns cs adj todo vm (networksOf ns cs comps)
    = Ok (networksOf ns cs comps')
    ∧ explored cs (map node_id ns) (map node_id ns) vm' comps'.
Proof.
  induction todo as [|node todo IH]; intros processed vm comps Hids Hexp.
  - simpl in Hids. rewrite app_nil_r in Hids. subst processed.
    exists vm, comps. done.
  - cbn [detectLoop]. cbn [map] in Hids.
    assert (Hids' : map node_id ns = (processed ++ [node_id node]) ++ map node_id todo)
      by (by rewrite <- app_assoc).
    destruct (visited_get vm (node_id node)) eqn:Ev; cbn [negb].
    + apply (IH (processed ++ [node_id node])); [done|].
      by apply explored_skip.
    + destruct (dfs_explores adj adj_is_closed (length ns) (node_id node) (vm, []))
        as (st' & Hrun & Hext & tl & Htl).
      { apply adj_records. rewrite Hids. apply elem_of_app. right. left. }
      { done. }
      { apply unvisited_bound. }
      rewrite Hrun. cbn [bind]. simpl in Htl.
      destruct (explored_new_component processed (map node_id todo) vm comps
                  (node_id node) st' Hids Hexp Ev Hext) as [Hexp' Hin]; [eauto|].
      rewrite (nodeObjects_found (snd st') Hin). cbn [bind].
      rewrite surfaced_qualifies.
      destruct (IH (processed ++ [node_id node]) (fst st') (comps ++ [snd st']) Hids' Hexp')
        as (vm' & comps' & Hloop & Hfinal).
      exists vm', comps'. split; [|done].
      rewrite networksOf_snoc in Hloop.
      destruct (qualifies ns cs (snd st')); [done|].
      by rewrite app_nil_r in Hloop.
Qed.

End Components.

Section Singletons.

Lemma concat_singletons (l : list string) : concat (map (λ i, [i]) l) = l.
Proof. induction l as [|i l IH]; simpl; [done|]. by rewrite IH. Qed.

Lemma take_singletons (l : list string) j :
  take j (map (λ i, [i]) l) = map (λ i, [i]) (take j l).
Proof. by rewrite <- fmap_take. Qed.

Lemma connected_nil u v : connected [] u v ↔ u = v.
Proof.
  split; [|intros ->; apply rtc_refl].
  intros H. destruct H as [|a b c Hab _]; [done|]. by apply adjacent_nil in Hab.
Qed.

Lemma networksOf_singletons ns cs (l : list string) :
  networksOf ns cs (map (λ i, [i]) l) = [].
Proof.
  unfold networksOf.
  assert (H : List.filter (qualifies ns cs) (map (λ i, [i]) l) = []); [|by rewrite H].
  induction l as [|i l IH]; simpl; [done|].
  unfold qualifies at 1. simpl. exact IH.
Qed.

End Singletons.

Lemma elem_of_inducedConnections (cs : list Connection) (comp : list string)
    (c : Connection) :
  c ∈ inducedConnections cs comp ↔
  c ∈ cs ∧ nodeId (start c) ∈ comp ∧ nodeId (end_ c) ∈ comp.
Proof.
  unfold inducedConnections, includes.
  rewrite elem_of_List_filter, andb_true_iff, !bool_decide_eq_true. tauto.
Qed.

Section Expected.

Implicit Types (ns : list NodeData) (cs : list Connection) (c : list string).

Lemma List_filter_filter {A} (f : A → bool) (P : A → Prop) `{!∀ x, Decision (P x)}
    (l : list A) :
  (∀ x, f x = true ↔ P x) → List.filter f l = filter P l.
Proof.
  intros Hf. induction l as [|x l IH]; [done|].
  cbn [List.filter]. rewrite filter_cons, IH.
  destruct (f x) eqn:E, (decide (P x)) as [Hp|Hp]; try done.
  - exfalso. by apply Hp, Hf.
  - apply Hf in Hp. congruence.
Qed.

Lemma existsb_type t ns :
  existsb (is_type t) ns = true ↔ Exists (λ node, type node = t) ns.
Proof.
  rewrite existsb_exists, Exists_exists. unfold is_type.
  setoid_rewrite bool_decide_eq_true. by setoid_rewrite list_elem_of_In.
Qed.

(** The connections that the code selects for a component are those
    with both ends in it. *)
Lemma inducedConnections_subset cs c : inducedConnections cs c = inducedSubset cs c.
Proof.
  unfold inducedConnections, inducedSubset, includes.
  apply List_filter_filter. intros conn.
  by rewrite andb_true_iff, !bool_decide_eq_true.
Qed.

(** The test of the loop is that of a returned component. *)
Lemma qualifies_surfaced ns cs c :
  qualifies ns cs c = true ↔ surfacedComponent ns cs c.
Proof.
  unfold qualifies, surfacedComponent.
  rewrite !andb_true_iff, bool_decide_eq_true, !existsb_type.
  rewrite validateNetworkSubset_passes, inducedConnections_subset. tauto.
Qed.

(** The object that the loop pushes for a component. *)
Lemma networkOf_expected k ns cs c :
  networkOf k c (objectsOf ns c) (inducedConnections cs c) = expectedNetwork k ns cs c.
Proof.
  unfold networkOf, expectedNetwork. by rewrite inducedConnections_subset.
Qed.

Lemma networksOf_expected ns cs comps :
  networksOf ns cs comps = expectedNetworks ns cs comps.
Proof.
  unfold networksOf, expectedNetworks.
  rewrite (List_filter_filter _ (surfacedComponent ns cs))
    by (intros c; apply qualifies_surfaced).
  apply imap_ext. intros k c _. apply networkOf_expected.
Qed.

End Expected.

(** C1. In a store whose node ids are distinct and whose connections
    join nodes of the store, [detectMultipleNetworks] returns without
    error.  There is a list of components of the undirected graph of
    the connections such that: the components partition the node ids;
    each of them is a maximal connected set; each starts at the first
    node, in insertion order, that the components before it had left
    out; and the returned list is [expectedNetworks]: one network for
    each component that has at least 3 nodes, an input and an output
    node among them, and passes the validation of a sub-network, in the
    order of the components and named [Network 1], [Network 2], ...;
    the network of a component holds the component's nodes, in the order
    of the traversal, and the connections of the store whose two ends
    lie in the component, in the order of the store, with the two
    counts.  The last two conjuncts say the same of each returned
    network and of each component directly. *)
Theorem detectMultipleNetworks_components (s : Editor) :
  wellFormed s →
  ∃ (comps : list (list string)) (networks : list Network),
    concat comps ≡ₚ map node_id (nodes s)
    ∧ Forall (isComponent (connections s)) comps
    ∧ (∀ j c, comps !! j = Some c →
              head c = firstUnvisited (map node_id (nodes s)) (concat (take j comps)))
    ∧ detectMultipleNetworks s = Ok networks
    ∧ networks = expectedNetworks (nodes s) (connections s) comps
    ∧ (∀ k network, networks !! k = Some network →
         ∃ c, c ∈ comps
           ∧ surfacedComponent (nodes s) (connections s) c
           ∧ net_name network = "Network " +:+ pretty (k + 1)%nat
           ∧ map nn_id (net_nodes network) = c
           ∧ nodeCount network = length c
           ∧ connectionCount network = length (net_connections network)
           ∧ (∀ node, node ∈ net_nodes network ↔
                ∃ n, n ∈ nodes s ∧ node_id n ∈ c
                  ∧ node = {| nn_id := node_id n; nn_type := type n;
                              nn_subType := subType n; nn_config := config n |})
           ∧ (∀ link, link ∈ net_connections network ↔
                ∃ conn, conn ∈ connections s
                  ∧ nodeId (start conn) ∈ c ∧ nodeId (end_ conn) ∈ c
                  ∧ link = {| nc_sourceNode := nodeId (start conn);
                              nc_sourcePort := port (start conn);
                              nc_targetNode := nodeId (end_ conn);
                              nc_targetPort := port (end_ conn) |}))
    ∧ (∀ c, c ∈ comps → surfacedComponent (nodes s) (connections s) c →
         ∃ network, network ∈ networks ∧ map nn_id (net_nodes network) = c).
Proof.
  intros [Hnd Hends].
  assert (Hobjs : ∀ c, (∀ i, i ∈ c → i ∈ map node_id (nodes s)) →
                  map node_id (objectsOf (nodes s) c) = c
                  ∧ ∀ n, n ∈ objectsOf (nodes s) c ↔ n ∈ nodes s ∧ node_id n ∈ c).
  { intros c. induction c as [|i c IH]; intros Hc.
    { split; [done|]. intros n. cbn.
      split; [by intros ?%elem_of_nil | by intros [_ ?%elem_of_nil]]. }
    assert (Hc' : ∀ j, j ∈ c → j ∈ map node_id (nodes s))
      by (intros j Hj; apply Hc; by right).
    destruct (IH Hc') as [IH1 IH2].
    assert (Hi : i ∈ map node_id (nodes s)) by (apply Hc; left).
    apply list_elem_of_fmap in Hi as (n0 & -> & Hn0).
    assert (Hfind : List.find (λ n, bool_decide (node_id n = node_id n0)) (nodes s)
                    = Some n0).
    { clear -Hnd Hn0. induction (nodes s) as [|m l IHl]; [by apply elem_of_nil in Hn0|].
      apply NoDup_cons in Hnd as [Hm Hl]. cbn [List.find].
      case_bool_decide as E.
      - apply elem_of_cons in Hn0 as [-> | Hn0]; [done|].
        exfalso. apply Hm. rewrite E. apply list_elem_of_fmap. eauto.
      - apply elem_of_cons in Hn0 as [-> | Hn0]; [done|]. by apply IHl. }
    assert (Hobj : objectsOf (nodes s) (node_id n0 :: c)
                   = n0 :: objectsOf (nodes s) c).
    { unfold objectsOf. cbn [omap list_omap]. by rewrite Hfind. }
    rewrite Hobj. split; [cbn [map]; by rewrite IH1|].
    intros n. rewrite !elem_of_cons, IH2. split.
    - intros [-> | [Hn Hin]]; [split; [done | by left] | split; [done | by right]].
    - intros [Hn [Hid | Hin]]; [left | by right].
      assert (Hl : ∀ (l : list NodeData) a b, NoDup (map node_id l) →
                a ∈ l → b ∈ l → node_id a = node_id b → a = b).
      { clear. intros l. induction l as [|m l IHl]; intros a b Hd Ha Hb Hab.
        { by apply elem_of_nil in Ha. }
        cbn [map] in Hd. apply NoDup_cons in Hd as [Hm Hd].
        apply elem_of_cons in Ha as [-> | Ha], Hb as [-> | Hb]; try done.
        - exfalso. apply Hm. rewrite Hab. apply list_elem_of_fmap. eauto.
        - exfalso. apply Hm. rewrite <- Hab. apply list_elem_of_fmap. eauto.
        - by apply IHl. }
      by apply (Hl (nodes s)). }
  assert (Hmain : ∃ comps : list (list string),
    concat comps ≡ₚ map node_id (nodes s)
    ∧ Forall (isComponent (connections s)) comps
    ∧ (∀ j c, comps !! j = Some c →
              head c = firstUnvisited (map node_id (nodes s)) (concat (take j comps)))
    ∧ detectMultipleNetworks s
      = Ok (networksOf (nodes s) (connections s) comps)).
  { unfold detectMultipleNetworks.
    destruct (bool_decide (length (nodes s) = 0%nat)) eqn:En.
    { apply bool_decide_eq_true, length_zero_iff_nil in En.
      exists []. rewrite En. simpl. repeat split; done. }
    destruct (bool_decide (length (connections s) = 0%nat)) eqn:Ec.
    { apply bool_decide_eq_true, length_zero_iff_nil in Ec. rewrite Ec. cbn [orb].
      exists (map (λ i, [i]) (map node_id (nodes s))).
      split; [by rewrite concat_singletons|]. split; [|split].
      - apply Forall_forall. intros c (i & -> & Hi)%list_elem_of_fmap. split; [done|].
        intros u v ->%list_elem_of_singleton.
        rewrite list_elem_of_singleton, connected_nil. naive_solver.
      - intros j c Hj. rewrite take_singletons, concat_singletons.
        apply list_lookup_fmap_Some in Hj as (i & -> & Hi). simpl.
        rewrite <- (take_drop_middle _ _ _ Hi) at 1.
        symmetry. apply firstUnvisited_here; [done|].
        intros Hin. rewrite <- (take_drop_middle _ _ _ Hi) in Hnd.
        apply NoDup_app in Hnd as (_ & Hnd & _). apply (Hnd i Hin). left.
      - by rewrite networksOf_singletons. }
    cbn [orb].
    destruct (buildAdjacency_records (nodes s) (connections s) Hends)
      as (adj & Hadj & Hrec).
    rewrite Hadj. cbn [bind].
    set (vm0 := foldl (λ m node, <[node_id node := false]> m) ∅ (nodes s)).
    assert (Hvm0 : ∀ k, visited_get vm0 k = false).
    { intros k. unfold visited_get, vm0. rewrite init_visited.
      destruct (decide (k ∈ map node_id (nodes s))); [done|]. by rewrite lookup_empty. }
    assert (Hstart : explored (connections s) (map node_id (nodes s)) [] vm0 []).
    { split; [|split; [|split; [|split; [|split]]]]; simpl.
      - intros k. rewrite Hvm0. split; [done | by intros ?%elem_of_nil].
      - constructor.
      - constructor.
      - by intros k ?%elem_of_nil.
      - by intros k ?%elem_of_nil.
      - intros j c Hj. by rewrite lookup_nil in Hj. }
    destruct (detectLoop_explores (nodes s) (connections s) adj Hnd Hends Hrec
                (nodes s) [] vm0 [] eq_refl Hstart)
      as (vm' & comps & Hloop & I1 & I2 & I3 & I4 & I5 & I6).
    exists comps. split; [|done].
    apply NoDup_Permutation; [done | done |].
    intros k. split; [apply I4 | apply I5]. }
  destruct Hmain as (comps & Hperm & Hcomp & Hfirst & Hrun).
  rewrite networksOf_expected in Hrun.
  exists comps, (expectedNetworks (nodes s) (connections s) comps).
  split; [done|]. split; [done|]. split; [done|]. split; [done|]. split; [done|].
  assert (Hin : ∀ c, c ∈ comps → ∀ i, i ∈ c → i ∈ map node_id (nodes s)).
  { intros c Hc i Hi. rewrite <- Hperm. apply elem_of_concat. eauto. }
  split.
  - intros k network Hk. unfold expectedNetworks in Hk.
    rewrite list_lookup_imap in Hk.
    destruct (filter (surfacedComponent (nodes s) (connections s)) comps !! k)
      as [c|] eqn:Ek; [|done].
    cbn in Hk. injection Hk as <-.
    apply list_elem_of_lookup_2, list_elem_of_filter in Ek as [Hq Hc].
    destruct (Hobjs c (Hin c Hc)) as [Hids Hmem].
    exists c. split; [done|]. split; [done|]. cbn.
    split; [done|]. split; [by rewrite map_map|]. split; [done|].
    split; [by rewrite length_map|]. split.
    + intros node. rewrite list_elem_of_fmap. split.
      * intros (n & -> & Hn). apply Hmem in Hn as [Hn Hi]. eauto.
      * intros (n & Hn & Hi & ->). exists n. split; [done|]. by apply Hmem.
    + intros l. rewrite list_elem_of_fmap. unfold inducedSubset. split.
      * intros (conn & -> & [[Hs He] Hconn]%list_elem_of_filter). eauto 6.
      * intros (conn & Hconn & Hs & He & ->). exists conn. split; [done|].
        by apply list_elem_of_filter.
  - intros c Hc Hq.
    assert (Hqc : c ∈ filter (surfacedComponent (nodes s) (connections s)) comps)
      by (by apply list_elem_of_filter).
    apply list_elem_of_lookup_1 in Hqc as [k Hk].
    exists (expectedNetwork k (nodes s) (connections s) c). split.
    + apply (list_elem_of_lookup_2 _ k). unfold expectedNetworks.
      rewrite list_lookup_imap, Hk. done.
    + cbn. rewrite map_map. apply (Hobjs c (Hin c Hc)).
Qed.

Lemma detectMultipleNetworks_components_witness :
  ∃ (comps : list (list string)) (networks : list Network),
    concat comps ≡ₚ map node_id (nodes twoChainsEditor)
    ∧ Forall (isComponent (connections twoChainsEditor)) comps
    ∧ detectMultipleNetworks twoChainsEditor = Ok networks
    ∧ networks
      = expectedNetworks (nodes twoChainsEditor) (connections twoChainsEditor) comps.
Proof.
  assert (Hwf : wellFormed twoChainsEditor).
  { split.
    - apply (bool_decide_unpack _). vm_compute. reflexivity.
    - intros c Hc. simpl in Hc.
      repeat (apply elem_of_cons in Hc as [-> | Hc]);
        [.. | by apply elem_of_nil in Hc];
        split; apply (bool_decide_unpack _); vm_compute; reflexivity. }
  destruct (detectMultipleNetworks_components twoChainsEditor Hwf)
    as (comps & networks & H1 & H2 & _ & H4 & H5 & _).
  exists comps, networks.
  split; [exact H1 | split; [exact H2 | split; [exact H4 | exact H5]]].
Defined.

(** The two chains are found in the order of their first nodes, each
    with its own nodes and connections. *)
Example detectMultipleNetworks_two_chains :
  (λ r, match r with
        | Ok nets => Some (map (λ n, (net_name n, map nn_id (net_nodes n),
                                      connectionCount n)) nets)
        | _ => None
        end) (detectMultipleNetworks twoChainsEditor)
  = Some [ ("Network 1", ["node-1"; "node-3"; "node-5"], 2%nat);
           ("Network 2", ["node-2"; "node-4"; "node-6"], 2%nat) ].
Proof. vm_compute. reflexivity. Qed.

(** The same result, as the networks of the two components. *)
Example detectMultipleNetworks_two_chains_expected :
  detectMultipleNetworks twoChainsEditor
  = Ok (expectedNetworks (nodes twoChainsEditor) (connections twoChainsEditor)
          [ ["node-1"; "node-3"; "node-5"]; ["node-2"; "node-4"; "node-6"] ])
  ∧ (λ r, match r with
          | Ok nets => Some (map (λ n, map nc_sourceNode (net_connections n)) nets)
          | _ => None
          end) (detectMultipleNetworks twoChainsEditor)
    = Some [ ["node-1"; "node-3"]; ["node-2"; "node-4"] ].
Proof. split; vm_compute; reflexivity. Qed.

(** ** Reachable stores are well formed *)

Section Reachable.

Implicit Types (s : Editor) (c : Connection).

Lemma node_prefix_inj (a b : string) : "node-" +:+ a = "node-" +:+ b → a = b.
Proof. intros H. cbn [String.append] in H. by injection H. Qed.

Lemma counted_add_node nd s :
  node_id nd = "node-" +:+ pretty (S (nodeCounter s)) →
  counted s → counted (with_node nd s).
Proof.
  intros Hid [[Hnd Hends] Hcount]. split; [split|]; simpl.
  - rewrite map_app. simpl. apply NoDup_app. split; [done|]. split; [|apply NoDup_singleton].
    intros i Hi ->%list_elem_of_singleton.
    destruct (Hcount _ Hi) as (k & Hk & Heq). rewrite Hid in Heq.
    apply node_prefix_inj, (inj pretty) in Heq. lia.
  - intros c Hc. destruct (Hends c Hc) as [H1 H2].
    rewrite map_app. split; apply elem_of_app; by left.
  - intros i. rewrite map_app.
    intros [Hi | ->%list_elem_of_singleton]%elem_of_app.
    + destruct (Hcount i Hi) as (k & Hk & ->). exists k. split; [lia | done].
    + exists (S (nodeCounter s)). split; [lia | done].
Qed.

Lemma counted_connections s cs :
  counted s →
  (∀ c, c ∈ cs → nodeId (start c) ∈ map node_id (nodes s)
                 ∧ nodeId (end_ c) ∈ map node_id (nodes s)) →
  counted (set_connections cs s).
Proof. intros [[Hnd Hends] Hcount] Hcs. split; [split|]; done. Qed.

Lemma counted_with_selected s o :
  counted s →
  counted {| nodes := nodes s; connections := connections s; selectedNode := o;
             connectionStart := connectionStart s; nodeCounter := nodeCounter s |}.
Proof. intros [[Hnd Hends] Hcount]. split; [split|]; done. Qed.

Lemma nodeOnCanvas_Some i s nd :
  nodeOnCanvas i s = Some nd → i ∈ map node_id (nodes s) ∧ node_id nd = i.
Proof.
  unfold nodeOnCanvas. intros H.
  apply find_some in H as [Hin Heq]. apply bool_decide_eq_true in Heq.
  split; [|done]. apply list_elem_of_fmap. exists nd. split; [done|].
  by apply list_elem_of_In.
Qed.

Lemma counted_connect u a b s :
  counted s →
  nodeId a ∈ map node_id (nodes s) → nodeId b ∈ map node_id (nodes s) →
  counted (connectGesture u a b s).
Proof.
  intros Hc Ha Hb.
  assert (Hcreate : ∀ x y, nodeId x ∈ map node_id (nodes s) →
                           nodeId y ∈ map node_id (nodes s) →
                           counted (set_connectionStart None
                                      (createConnection u x y (portMouseDown a s)))).
  { intros x y Hx Hy. unfold createConnection, portMouseDown.
    destruct Hc as [[Hnd Hends] Hcount].
    destruct (List.find _ _); (split; [split|]; simpl; try done).
    intros c [Hc | ->%list_elem_of_singleton]%elem_of_app; [by apply Hends | done]. }
  unfold connectGesture, portMouseUp. cbn [portMouseDown connectionStart set_connectionStart].
  destruct (bool_decide (nodeId a ≠ nodeId b) && _).
  - destruct (bool_decide (port a = "input")); by apply Hcreate.
  - destruct Hc as [[Hnd Hends] Hcount]. split; [split|]; done.
Qed.

Lemma counted_cascade i s :
  counted s →
  counted (set_connections
             (remove_related (List.filter (touches i) (connections s)) (connections s)) s).
Proof.
  intros Hc. apply counted_connections; [done|].
  intros c [Hin _]%elem_of_remove_related. by apply Hc.
Qed.

Lemma counted_delete_node i s :
  counted s →
  counted (set_nodes
             (List.filter (λ n, negb (bool_decide (node_id n = i)))
                          (nodes s))
             (set_connections
                (remove_related (List.filter (touches i) (connections s)) (connections s))
                s)).
Proof.
  intros [[Hnd Hends] Hcount].
  assert (Hin : ∀ k, k ∈ map node_id (List.filter (λ n, negb (bool_decide (node_id n = i)))
                                                  (nodes s))
                     ↔ k ∈ map node_id (nodes s) ∧ k ≠ i).
  { intros k. rewrite !list_elem_of_fmap. split.
    - intros (n & -> & [Hn Hin]%elem_of_List_filter).
      apply negb_true_iff, bool_decide_eq_false in Hn. eauto.
    - intros [(n & -> & Hn) Hne]. exists n. split; [done|].
      apply elem_of_List_filter. split; [|done].
      by apply negb_true_iff, bool_decide_eq_false. }
  split; [split|]; simpl.
  - clear Hin Hends Hcount. induction (nodes s) as [|n ns IH]; simpl; [constructor|].
    apply NoDup_cons in Hnd as [Hn Hnd].
    destruct (negb _); simpl; [|by apply IH].
    constructor; [|by apply IH].
    intros (n' & Heq & [_ Hin']%elem_of_List_filter)%list_elem_of_fmap.
    apply Hn. apply list_elem_of_fmap. eauto.
  - intros c Hc. pose proof (cascade_leaves_none i c _ Hc) as [H1 H2].
    apply elem_of_remove_related in Hc as [Hc _].
    destruct (Hends c Hc). split; apply Hin; done.
  - intros k Hk. apply Hin in Hk as [Hk _]. by apply Hcount.
Qed.

Lemma map_node_id_write_back nd ns :
  map node_id (write_back nd ns) = map node_id ns.
Proof.
  unfold write_back. induction ns as [|n ns IH]; simpl; [done|].
  rewrite IH. f_equal. by case_bool_decide.
Qed.

Lemma counted_set_selected nd s : counted s → counted (set_selected nd s).
Proof.
  intros [[Hnd Hends] Hcount]. unfold counted, wellFormed. simpl.
  rewrite map_node_id_write_back. done.
Qed.

Lemma elem_of_remove_first_conn x c cs :
  c ∈ remove_first_conn x cs → c ∈ cs.
Proof.
  induction cs as [|c' cs IH]; simpl; [done|].
  case_bool_decide as Hx; [by right|].
  intros [->|Hin]%elem_of_cons; [left | right; auto].
Qed.

Lemma counted_router op s s' :
  counted s → runRouterOp op s = Some s' → counted s'.
Proof.
  intros Hc. destruct op as [|k|]; simpl.
  - unfold addNewOutputPort.
    destruct (selectedNode s) as [sel|]; [|by intros [= <-]].
    destruct (negb _); [by intros [= <-]|].
    destruct (config sel); [|done]. simpl. intros [= <-].
    by apply counted_set_selected.
  - intros [= <-]. unfold removeOutputPort.
    destruct (selectedNode s) as [sel|]; [|done].
    destruct (negb _); [done|].
    destruct (config sel) as [cfg|]; [|done].
    destruct (bool_decide _); [done|].
    destruct (container_of sel) as [ports|]; [|done].
    destruct (negb _); [done|]. cbn [fst].
    apply counted_connections; [by apply counted_set_selected|].
    intros c1 (c0 & -> & Hc0)%list_elem_of_fmap. simpl.
    rewrite map_node_id_write_back.
    assert (Hin : c0 ∈ connections s).
    { clear -Hc0. revert Hc0.
      generalize (List.filter (leaves_port sel k) (connections s)).
      generalize (connections s).
      intros cs l. revert cs. induction l as [|x l IH]; intros cs; simpl; [done|].
      intros H. apply IH in H. by apply elem_of_remove_first_conn in H. }
    assert (Hsame : start (lower_sourcePort sel k c0) = start c0
                    ∧ end_ (lower_sourcePort sel k c0) = end_ c0).
    { unfold lower_sourcePort. destruct (sourcePort c0); [|done].
      by destruct (_ && _). }
    destruct Hsame as [-> ->]. by apply Hc.
  - intros [= <-]. unfold reconcile.
    destruct (selectedNode s); [|done]. by apply counted_set_selected.
Qed.

Lemma counted_step op s : counted s → counted (runStoreOp op s).
Proof.
  intros Hc. destruct op as [card | | | i | u a b | i | isSel | cid | rop]; simpl.
  - by apply counted_add_node.
  - by apply counted_add_node.
  - by apply counted_add_node.
  - destruct (nodeOnCanvas i s); [|done]. by apply counted_with_selected.
  - destruct (nodeOnCanvas (nodeId a) s) as [na|] eqn:Ea; [|done].
    destruct (nodeOnCanvas (nodeId b) s) as [nb|] eqn:Eb; [|done].
    apply nodeOnCanvas_Some in Ea as [Ha _], Eb as [Hb _].
    by apply counted_connect.
  - destruct (nodeOnCanvas i s) as [nd|]; [|done]. unfold deleteNodeClick.
    destruct (removable nd); [|by apply counted_cascade].
    pose proof (counted_delete_node (node_id nd) s Hc) as Hd.
    unfold detach_selected.
    destruct (selectedNode _) as [sel|]; [|done].
    case_bool_decide; [|done]. by apply counted_with_selected.
  - unfold deleteSelected. destruct (selectedNode s) as [sel|].
    + destruct (removable sel).
      * apply (counted_with_selected _ None).
        exact (counted_delete_node (node_id sel) s Hc).
      * by apply counted_cascade.
    + destruct (List.find isSel (connections s)) as [selectedConn|]; [|done].
      apply counted_connections; [done|].
      intros c [_ Hin]%elem_of_List_filter. by apply Hc.
  - unfold deleteConnectionClick. apply counted_connections; [done|].
    intros c [_ Hin]%elem_of_List_filter. by apply Hc.
  - destruct (runRouterOp rop s) as [s'|] eqn:E; [|done].
    by apply (counted_router rop s).
Qed.

(** Whatever the user did since the page was loaded, node ids are
    distinct and every connection joins two nodes of the store: the
    stores that [detectMultipleNetworks] is run on are well formed. *)
Lemma reachable_wellFormed (ops : list StoreOp) :
  wellFormed (runStoreOps ops emptyEditor).
Proof.
  assert (H : ∀ s, counted s → counted (runStoreOps ops s)).
  { induction ops as [|op ops IH]; intros s Hs; [done|].
    simpl. apply IH. by apply counted_step. }
  apply H. split; [split|]; simpl.
  - constructor.
  - by intros c ?%elem_of_nil.
  - by intros i ?%elem_of_nil.
Qed.

Lemma remove_related_sub related cs c : c ∈ remove_related related cs → c ∈ cs.
Proof. by intros [H _]%elem_of_remove_related. Qed.

Lemma removeOutputPort_ends k s c :
  c ∈ connections (fst (removeOutputPort k s)) →
  ∃ c0, c0 ∈ connections s ∧ start c = start c0 ∧ end_ c = end_ c0.
Proof.
  unfold removeOutputPort.
  destruct (selectedNode s) as [sel|]; [|by eauto].
  destruct (negb _); [by eauto|].
  destruct (config sel) as [cfg|]; [|by eauto].
  destruct (bool_decide _); [by eauto|].
  destruct (container_of sel) as [ports|]; [|by eauto].
  destruct (negb _); [by eauto|]. cbn [fst set_connections connections].
  intros (c0 & -> & Hc0)%list_elem_of_fmap. exists c0. split.
  - revert Hc0.
    generalize (List.filter (leaves_port sel k) (connections s)).
    generalize (connections s).
    intros cs l. revert cs. induction l as [|x l IH]; intros cs; simpl; [done|].
    intros H. apply IH in H. by apply elem_of_remove_first_conn in H.
  - unfold lower_sourcePort. destruct (sourcePort c0); [|done].
    by destruct (_ && _).
Qed.

(** One operation keeps the connections well directed. *)
Lemma runStoreOp_well_directed op s :
  Forall wellDirected (connections s) →
  Forall wellDirected (connections (runStoreOp op s)).
Proof.
  intros Hall.
  assert (Hsub : ∀ cs, (∀ c, c ∈ cs → c ∈ connections s) → Forall wellDirected cs).
  { intros cs Hcs. apply Forall_forall. intros c Hc.
    rewrite Forall_forall in Hall. by apply Hall, Hcs. }
  destruct op as [card | | | i | u a b | i | isSel | cid | rop]; simpl; try done.
  - by destruct (nodeOnCanvas i s).
  - destruct (nodeOnCanvas (nodeId a) s); [|done].
    destruct (nodeOnCanvas (nodeId b) s); [|done].
    by apply connectGesture_keeps_well_directed.
  - destruct (nodeOnCanvas i s) as [nd|]; [|done].
    destruct (deleteNodeClick_store nd s) as (-> & _).
    apply Hsub; intros c; apply remove_related_sub.
  - unfold deleteSelected. destruct (selectedNode s) as [sel|].
    + destruct (removable sel); simpl; apply Hsub; intros c; apply remove_related_sub.
    + destruct (List.find isSel (connections s)) as [selectedConn|]; [|done].
      simpl. apply Hsub. by intros c [_ Hin]%elem_of_List_filter.
  - apply Hsub. by intros c [_ Hin]%elem_of_List_filter.
  - destruct rop as [|k|]; simpl.
    + unfold addNewOutputPort.
      destruct (selectedNode s) as [sel|]; [|done].
      destruct (negb _); [done|]. by destruct (config sel).
    + apply Forall_forall. intros c Hc.
      destruct (removeOutputPort_ends k s c Hc) as (c0 & Hc0 & Hs & He).
      rewrite Forall_forall in Hall. specialize (Hall c0 Hc0).
      unfold wellDirected in *. by rewrite Hs, He.
    + unfold reconcile. by destruct (selectedNode s).
Qed.

(** Whatever the user did since the page was loaded, every stored
    connection leaves an output port of one node and enters an input
    port of another node. *)
Lemma reachable_well_directed (ops : list StoreOp) :
  Forall wellDirected (connections (runStoreOps ops emptyEditor)).
Proof.
  assert (H : ∀ s, Forall wellDirected (connections s) →
                   Forall wellDirected (connections (runStoreOps ops s))).
  { induction ops as [|op ops IH]; intros s Hs; [done|].
    simpl. apply IH. by apply runStoreOp_well_directed. }
  apply H. constructor.
Qed.

End Reachable.
(** ** Connections and deletion, continued *)

(** X1. The duplicate test of [createConnection] reads the node ids and
    the port types of the two ends, not their port numbers: once two
    nodes are joined, a request to join them again from another output
    port of the same node (another [portNumber]) stores nothing. *)
Theorem createConnection_ignores_port_number (u1 u2 : string) (a b : PortRef)
    (pa pb : option string) (s : Editor) :
  let a' := {| nodeId := nodeId a; port := port a; portNumber := pa |} in
  let b' := {| nodeId := nodeId b; port := port b; portNumber := pb |} in
  let s1 := createConnection u1 a b s in
  createConnection u2 a' b' s1 = s1 ∧ createConnection u2 b' a' s1 = s1.
Proof.
  cbv zeta.
  destruct (createConnection_links u1 a b s) as [x Hx].
  apply mk_is_Some, find_is_Some in Hx as (y & Hy & Hf).
  split; apply createConnection_existing, find_is_Some; exists y; (split; [done|]).
  - exact Hf.
  - rewrite same_link_swap. exact Hf.
Qed.

(** X2. Creating a connection and then deleting it by its id gives the
    editor back as it was, provided the new id is not the id of a
    connection already stored. *)
Theorem connect_then_delete_restores (u : string) (a b : PortRef) (s : Editor) :
  Forall (λ c, conn_id c
               ≠ "connection-" +:+ nodeId a +:+ "-" +:+ nodeId b +:+ "-" +:+ u)
         (connections s) →
  deleteConnectionClick
    ("connection-" +:+ nodeId a +:+ "-" +:+ nodeId b +:+ "-" +:+ u)
    (createConnection u a b s) = s.
Proof.
  intros Hfresh.
  assert (Hkeep : List.filter
            (λ c, negb (bool_decide
               (conn_id c
                = "connection-" +:+ nodeId a +:+ "-" +:+ nodeId b +:+ "-" +:+ u)))
            (connections s) = connections s).
  { induction Hfresh as [|c cs Hc _ IH]; [done|].
    cbn [List.filter]. rewrite bool_decide_eq_false_2 by done.
    cbn [negb]. by rewrite IH. }
  unfold deleteConnectionClick, createConnection.
  destruct (List.find (same_link a b) (connections s)).
  - rewrite Hkeep. by destruct s.
  - cbn [connections set_connections].
    rewrite List.filter_app, Hkeep. cbn [List.filter conn_id].
    rewrite bool_decide_eq_true_2 by done. cbn [negb].
    rewrite app_nil_r. by destruct s.
Qed.

Lemma connect_then_delete_restores_witness :
  deleteConnectionClick "connection-node-1-node-2-k3x8a1b2"
    (createConnection "k3x8a1b2"
       {| nodeId := "node-1"; port := "output"; portNumber := None |}
       {| nodeId := "node-2"; port := "input"; portNumber := None |}
       routerEditor)
  = routerEditor.
Proof.
  refine (connect_then_delete_restores "k3x8a1b2"
            {| nodeId := "node-1"; port := "output"; portNumber := None |}
            {| nodeId := "node-2"; port := "input"; portNumber := None |}
            routerEditor _).
  simpl. constructor.
Defined.

(** X3. The element of a node made by [addInputNode] or [addOutputNode]
    is appended to the canvas, not to [nodeContainer], while the node
    made by [createNode] is a child of [nodeContainer].  When the
    selected node's element is not a child of [nodeContainer],
    [deleteSelected] removes the connections of the node and then stops
    at [nodeContainer.removeChild]: the node stays in [nodes] and stays
    selected. *)
Theorem deleteSelected_keeps_input_and_output_nodes :
  (∀ s0, removable (snd (addInputNode s0)) = false
         ∧ removable (snd (addOutputNode s0)) = false)
  ∧ (∀ cardData s0, removable (snd (createNode cardData s0)) = true)
  ∧ (∀ (isSelected : Connection → bool) (s : Editor) (sel : NodeData),
       selectedNode s = Some sel →
       removable sel = false →
       let s' := deleteSelected isSelected s in
       nodes s' = nodes s
       ∧ selectedNode s' = Some sel
       ∧ Forall (λ c, touches (node_id sel) c = false) (connections s')
       ∧ (∀ c, c ∈ connections s' → c ∈ connections s)).
Proof.
  split; [done|]. split; [done|].
  intros isSelected s sel Hsel Hrem. cbv zeta.
  unfold deleteSelected. rewrite Hsel, Hrem.
  cbn [nodes selectedNode connections set_connections].
  split; [done|]. split; [done|]. split.
  - apply Forall_forall. intros c Hc.
    apply cascade_leaves_none in Hc as [H1 H2].
    unfold touches. by rewrite !bool_decide_eq_false_2.
  - intros c Hc. by apply remove_related_sub in Hc.
Qed.

Lemma deleteSelected_keeps_input_and_output_nodes_witness :
  length (connections inputSelectedEditor) = 1%nat
  ∧ nodes (deleteSelected (λ _, false) inputSelectedEditor) = nodes inputSelectedEditor
  ∧ selectedNode (deleteSelected (λ _, false) inputSelectedEditor)
    = selectedNode inputSelectedEditor
  ∧ connections (deleteSelected (λ _, false) inputSelectedEditor) = [].
Proof.
  split; [reflexivity|].
  destruct deleteSelected_keeps_input_and_output_nodes as (_ & _ & H).
  destruct (H (λ _, false) inputSelectedEditor
              (snd (addInputNode emptyEditor)) eq_refl eq_refl) as (H1 & H2 & _).
  split; [exact H1|]. split; [exact H2|]. reflexivity.
Defined.
(** ** Detection, continued *)

Section Detection.

Implicit Types (s : Editor) (ns : list NodeData) (cs : list Connection).

(** Once [adjacencyList.get(...).push] has thrown, or as soon as a
    connection with an unknown end is met, the loop over the
    connections ends with the error. *)
Lemma buildAdjacency_fold_throws ns : ∀ cs (acc : Result (gmap string (list string))),
  (acc = Throw ∨ ∃ seen m, acc = Ok m ∧ records (map node_id ns) seen m) →
  (acc = Throw ∨ Exists (dangling ns) cs) →
  foldl (λ acc conn,
           do! m := acc in
           let sourceId := nodeId (start conn) in
           let targetId := nodeId (end_ conn) in
           do! m1 := adjacency_push m sourceId targetId in
           adjacency_push m1 targetId sourceId)
        acc cs = Throw.
Proof.
  induction cs as [|c cs IH]; intros acc Hacc Hex.
  - destruct Hex as [-> | Hex]; [done | by apply Exists_nil in Hex].
  - cbn [foldl]. destruct Hacc as [-> | (seen & m & -> & Hrec)].
    { apply IH; by left. }
    cbn [bind].
    destruct (decide (nodeId (start c) ∈ map node_id ns)) as [Hs|Hs];
      [destruct (decide (nodeId (end_ c) ∈ map node_id ns)) as [He|He]|].
    + destruct (records_push _ seen m c Hrec Hs He) as (m' & Hm' & Hrec').
      cbv zeta. rewrite Hm'. apply IH; [right; eauto|].
      destruct Hex as [[=] | Hex]. apply Exists_cons in Hex as [[?|?] | Hex]; [done..|].
      by right.
    + assert (Hstep : (do! m1 := adjacency_push m (nodeId (start c)) (nodeId (end_ c)) in
                       adjacency_push m1 (nodeId (end_ c)) (nodeId (start c))) = Throw).
      { destruct Hrec as [Hdom _].
        destruct (proj2 (Hdom (nodeId (start c))) Hs) as [l Hl].
        unfold adjacency_push at 1. rewrite Hl. cbn [defined bind].
        unfold adjacency_push. rewrite lookup_insert_ne by (intros E; by rewrite E in Hs).
        destruct (m !! nodeId (end_ c)) as [l'|] eqn:El; [|done].
        exfalso. apply He, Hdom. eauto. }
      cbv zeta. rewrite Hstep. apply IH; by left.
    + assert (Hstep : (do! m1 := adjacency_push m (nodeId (start c)) (nodeId (end_ c)) in
                       adjacency_push m1 (nodeId (end_ c)) (nodeId (start c))) = Throw).
      { destruct Hrec as [Hdom _].
        unfold adjacency_push at 1.
        destruct (m !! nodeId (start c)) as [l'|] eqn:El; [|done].
        exfalso. apply Hs, Hdom. eauto. }
      cbv zeta. rewrite Hstep. apply IH; by left.
Qed.

Lemma buildAdjacency_throws ns cs :
  Exists (dangling ns) cs → buildAdjacency ns cs = Throw.
Proof.
  intros Hex. unfold buildAdjacency.
  apply (buildAdjacency_fold_throws ns); [|by right].
  right. exists [], (foldl (λ m node, <[node_id node := []]> m) ∅ ns).
  split; [done|].
  destruct (buildAdjacency_records ns []) as (m & Hm & Hrec).
  { by intros c ?%elem_of_nil. }
  unfold buildAdjacency in Hm. cbn [foldl] in Hm. by injection Hm as <-.
Qed.

(** In a well-formed store the detection returns the networks of a
    list of disjoint sets of node ids of the store. *)
Lemma detectMultipleNetworks_disjoint_components s :
  wellFormed s →
  ∃ comps : list (list string),
    NoDup (concat comps)
    ∧ (∀ k, k ∈ concat comps → k ∈ map node_id (nodes s))
    ∧ detectMultipleNetworks s = Ok (networksOf (nodes s) (connections s) comps).
Proof.
  intros [Hnd Hends]. unfold detectMultipleNetworks.
  destruct (bool_decide (length (nodes s) = 0%nat)) eqn:En.
  { exists []. simpl. split; [constructor|]. split; [|done]. by intros k ?%elem_of_nil. }
  destruct (bool_decide (length (connections s) = 0%nat)) eqn:Ec.
  { cbn [orb]. exists (map (λ i, [i]) (map node_id (nodes s))).
    rewrite concat_singletons, networksOf_singletons. done. }
  cbn [orb].
  destruct (buildAdjacency_records (nodes s) (connections s) Hends) as (adj & Hadj & Hrec).
  rewrite Hadj. cbn [bind].
  set (vm0 := foldl (λ m node, <[node_id node := false]> m) ∅ (nodes s)).
  assert (Hvm0 : ∀ k, visited_get vm0 k = false).
  { intros k. unfold visited_get, vm0. rewrite init_visited.
    destruct (decide (k ∈ map node_id (nodes s))); [done|]. by rewrite lookup_empty. }
  assert (Hstart : explored (connections s) (map node_id (nodes s)) [] vm0 []).
  { split; [|split; [|split; [|split; [|split]]]]; simpl.
    - intros k. rewrite Hvm0. split; [done | by intros ?%elem_of_nil].
    - constructor.
    - constructor.
    - by intros k ?%elem_of_nil.
    - by intros k ?%elem_of_nil.
    - intros j c Hj. by rewrite lookup_nil in Hj. }
  destruct (detectLoop_explores (nodes s) (connections s) adj Hnd Hends Hrec
              (nodes s) [] vm0 [] eq_refl Hstart)
    as (vm' & comps & Hloop & I1 & I2 & I3 & I4 & I5 & I6).
  exists comps. done.
Qed.

End Detection.

(** X4. [detectMultipleNetworks] ends with a [TypeError] exactly when
    the store has a node and a connection one of whose ends is not the
    id of a node (the lookup in [adjacencyList] is [undefined] there);
    node ids being distinct, it returns a list of networks in every
    other case. *)
Theorem detectMultipleNetworks_throws_iff_dangling (s : Editor) :
  NoDup (map node_id (nodes s)) →
  (detectMultipleNetworks s = Throw
   ↔ nodes s ≠ [] ∧ Exists (dangling (nodes s)) (connections s))
  ∧ (detectMultipleNetworks s ≠ Throw → ∃ networks, detectMultipleNetworks s = Ok networks).
Proof.
  intros Hnd.
  assert (Hthrow : nodes s ≠ [] → Exists (dangling (nodes s)) (connections s) →
                   detectMultipleNetworks s = Throw).
  { intros Hne Hex. unfold detectMultipleNetworks.
    rewrite (bool_decide_eq_false_2 (length (nodes s) = 0%nat))
      by (by intros ?%length_zero_iff_nil).
    rewrite (bool_decide_eq_false_2 (length (connections s) = 0%nat)).
    - cbn [orb]. by rewrite buildAdjacency_throws.
    - intros E%length_zero_iff_nil. rewrite E in Hex. by apply Exists_nil in Hex. }
  assert (Hok : ¬ Exists (dangling (nodes s)) (connections s) →
                ∃ networks, detectMultipleNetworks s = Ok networks).
  { intros Hno.
    destruct (detectMultipleNetworks_disjoint_components s) as (comps & _ & _ & ->);
      [|eauto].
    split; [done|]. intros c Hc.
    destruct (decide (nodeId (start c) ∈ map node_id (nodes s))) as [Hs|Hs];
      [destruct (decide (nodeId (end_ c) ∈ map node_id (nodes s))) as [He|He]; [done|]|];
      exfalso; apply Hno, Exists_exists; exists c; (split; [done|]);
      [by right | by left]. }
  assert (Hempty : nodes s = [] → detectMultipleNetworks s = Ok []).
  { intros E. unfold detectMultipleNetworks. by rewrite E. }
  split; [split|].
  - intros Ht. destruct (decide (nodes s = [])) as [E|Hne].
    { rewrite Hempty in Ht; done. }
    split; [done|].
    destruct (decide (Exists (dangling (nodes s)) (connections s))) as [|Hno]; [done|].
    destruct (Hok Hno) as [nets Hn]. congruence.
  - intros [Hne Hex]. by apply Hthrow.
  - intros Hnt.
    destruct (decide (Exists (dangling (nodes s)) (connections s))) as [Hex|Hno];
      [|by apply Hok].
    destruct (decide (nodes s = [])) as [E|Hne].
    + exists []. by apply Hempty.
    + exfalso. by apply Hnt, Hthrow.
Qed.

Lemma detectMultipleNetworks_throws_iff_dangling_witness :
  detectMultipleNetworks danglingEditor = Throw.
Proof.
  assert (Hnd : NoDup (map node_id (nodes danglingEditor))).
  { simpl. apply NoDup_singleton. }
  apply (proj1 (detectMultipleNetworks_throws_iff_dangling danglingEditor Hnd)).
  split; [done|].
  apply Exists_cons_hd. right. simpl.
  intros H. apply list_elem_of_singleton in H. discriminate H.
Defined.

Section Networks.

Implicit Types (ns : list NodeData) (cs : list Connection)
  (comps : list (list string)).

Lemma objectsOf_ids ns (c : list string) :
  (∀ k, k ∈ c → k ∈ map node_id ns) →
  map node_id (objectsOf ns c) = c.
Proof.
  induction c as [|i c IH]; intros Hc; [done|].
  unfold objectsOf. cbn [omap list_omap].
  assert (Hi : is_Some (List.find (λ n, bool_decide (node_id n = i)) ns)).
  { apply find_is_Some.
    assert (Hin : i ∈ map node_id ns) by (apply Hc; left).
    apply list_elem_of_fmap in Hin as (n & -> & Hn).
    exists n. split; [done|]. by apply bool_decide_eq_true. }
  destruct Hi as [n Hn]. rewrite Hn. cbn [map].
  apply find_some in Hn as [_ Hid]. apply bool_decide_eq_true in Hid.
  rewrite Hid. f_equal. apply IH. intros k Hk. apply Hc. by right.
Qed.

Lemma NoDup_concat_filter {A} (f : list A → bool) (l : list (list A)) :
  NoDup (concat l) → NoDup (concat (List.filter f l)).
Proof.
  induction l as [|x l IH]; [done|]. cbn [concat List.filter].
  intros (Hx & Hd & Hl)%NoDup_app.
  destruct (f x); [|by apply IH].
  cbn [concat]. apply NoDup_app. split; [done|]. split; [|by apply IH].
  intros k Hk Hin. apply (Hd k Hk).
  apply elem_of_concat in Hin as (y & Hy & Hyl).
  apply elem_of_concat. exists y. split; [done|].
  by apply elem_of_List_filter in Hyl as [_ ?].
Qed.

Lemma concat_parts_disjoint {A} (l : list (list A)) (i j : nat) (a b : list A) :
  NoDup (concat l) → i ≠ j → l !! i = Some a → l !! j = Some b →
  ∀ k, k ∈ a → k ∉ b.
Proof.
  revert i j. induction l as [|x l IH]; intros i j Hnd Hij Hi Hj k Ha Hb; [done|].
  cbn [concat] in Hnd. apply NoDup_app in Hnd as (Hx & Hd & Hl).
  destruct i as [|i], j as [|j]; simpl in Hi, Hj.
  - done.
  - injection Hi as ->. apply (Hd k Ha). apply elem_of_concat.
    exists b. split; [done|]. by apply list_elem_of_lookup_2 in Hj.
  - injection Hj as ->. apply (Hd k Hb). apply elem_of_concat.
    exists a. split; [done|]. by apply list_elem_of_lookup_2 in Hi.
  - apply (IH i j Hl ltac:(congruence) Hi Hj k Ha Hb).
Qed.

Lemma NoDup_concat_part {A} (l : list (list A)) (a : list A) :
  NoDup (concat l) → a ∈ l → NoDup a.
Proof.
  induction l as [|x l IH]; intros Hnd Ha; [by apply elem_of_nil in Ha|].
  cbn [concat] in Hnd. apply NoDup_app in Hnd as (Hx & _ & Hl).
  apply elem_of_cons in Ha as [-> | Ha]; [done | by apply IH].
Qed.

Lemma existsb_is_type t ns :
  existsb (is_type t) ns = true → ∃ x, x ∈ map networkNodeOf ns ∧ nn_type x = t.
Proof.
  intros (n & Hn & Ht)%existsb_exists.
  exists (networkNodeOf n). split.
  - apply list_elem_of_fmap. exists n. split; [done|]. by apply list_elem_of_In.
  - simpl. by apply bool_decide_eq_true in Ht.
Qed.

End Networks.

(** X5. In a store whose node ids are distinct and whose connections
    join nodes of the store, [detectMultipleNetworks] returns networks
    that are self-contained and apart: the network at index [i] is named
    [Network i+1]; it has at least 3 nodes, an input and an output node
    among them; its counters are the lengths of its node and connection
    lists; its nodes are distinct nodes of the store; each of its
    connections joins two of its own nodes; and two different networks
    share no node. *)
Theorem detected_networks_self_contained (s : Editor) :
  wellFormed s →
  ∃ networks,
    detectMultipleNetworks s = Ok networks
    ∧ (∀ i n, networks !! i = Some n →
         net_name n = "Network " +:+ pretty (i + 1)%nat
         ∧ (3 ≤ nodeCount n)%nat
         ∧ nodeCount n = length (net_nodes n)
         ∧ connectionCount n = length (net_connections n)
         ∧ NoDup (networkNodeIds n)
         ∧ (∀ k, k ∈ networkNodeIds n → k ∈ map node_id (nodes s))
         ∧ (∃ x, x ∈ net_nodes n ∧ nn_type x = "input")
         ∧ (∃ x, x ∈ net_nodes n ∧ nn_type x = "output")
         ∧ (∀ nc, nc ∈ net_connections n →
                  nc_sourceNode nc ∈ networkNodeIds n
                  ∧ nc_targetNode nc ∈ networkNodeIds n))
    ∧ (∀ i j n m, i ≠ j → networks !! i = Some n → networks !! j = Some m →
                  ∀ k, k ∈ networkNodeIds n → k ∉ networkNodeIds m).
Proof.
  intros Hwf.
  destruct (detectMultipleNetworks_disjoint_components s Hwf) as (comps & Hnd & Hin & Hrun).
  exists (networksOf (nodes s) (connections s) comps). split; [done|].
  set (qs := List.filter (qualifies (nodes s) (connections s)) comps).
  assert (Hqnd : NoDup (concat qs)) by (by apply NoDup_concat_filter).
  assert (Hq : ∀ c, c ∈ qs → c ∈ comps ∧ qualifies (nodes s) (connections s) c = true).
  { intros c Hc. apply elem_of_List_filter in Hc. tauto. }
  assert (Hids : ∀ c, c ∈ comps →
            map nn_id (map networkNodeOf (objectsOf (nodes s) c)) = c).
  { intros c Hc. rewrite map_map. cbn [networkNodeOf nn_id].
    apply objectsOf_ids. intros k Hk. apply Hin, elem_of_concat. eauto. }
  assert (Hlook : ∀ i n, networksOf (nodes s) (connections s) comps !! i = Some n →
            ∃ c, qs !! i = Some c
                 ∧ n = networkOf i c (objectsOf (nodes s) c)
                                 (inducedConnections (connections s) c)).
  { intros i n Hn. unfold networksOf in Hn. rewrite list_lookup_imap in Hn.
    fold qs in Hn. destruct (qs !! i) as [c|]; [|done].
    injection Hn as <-. eauto. }
  split.
  - intros i n (c & Hc & ->)%Hlook.
    assert (Hcq : c ∈ qs) by (by apply list_elem_of_lookup_2 in Hc).
    destruct (Hq c Hcq) as [Hcc Hqual].
    unfold qualifies in Hqual.
    apply andb_true_iff in Hqual as [Hqual _].
    apply andb_true_iff in Hqual as [Hqual Hout].
    apply andb_true_iff in Hqual as [Hlen Hinp].
    apply bool_decide_eq_true in Hlen.
    unfold networkNodeIds. cbn [networkOf net_name nodeCount connectionCount
                                net_nodes net_connections].
    rewrite (Hids c Hcc).
    split; [done|]. split; [done|].
    split. { by rewrite <- (Hids c Hcc) at 1; rewrite !length_map. }
    split. { by rewrite length_map. }
    split. { by apply (NoDup_concat_part comps). }
    split. { intros k Hk. apply Hin, elem_of_concat. eauto. }
    split. { by apply existsb_is_type. }
    split. { by apply existsb_is_type. }
    intros nc (conn & -> & Hconn)%list_elem_of_fmap.
    apply elem_of_inducedConnections in Hconn as (_ & Hs & He). done.
  - intros i j n m Hij (c & Hc & ->)%Hlook (d & Hd & ->)%Hlook.
    unfold networkNodeIds. cbn [networkOf net_nodes].
    rewrite !Hids by (apply Hq; by eapply list_elem_of_lookup_2).
    by apply (concat_parts_disjoint qs i j).
Qed.

Lemma detected_networks_self_contained_witness :
  ∃ networks,
    detectMultipleNetworks twoChainsEditor = Ok networks
    ∧ (∀ i j n m, i ≠ j → networks !! i = Some n → networks !! j = Some m →
                  ∀ k, k ∈ networkNodeIds n → k ∉ networkNodeIds m).
Proof.
  assert (Hwf : wellFormed twoChainsEditor).
  { split.
    - apply (bool_decide_unpack _). vm_compute. reflexivity.
    - intros c Hc. apply (bool_decide_unpack _).
      revert c Hc. apply Forall_forall. apply (bool_decide_unpack _).
      vm_compute. reflexivity. }
  destruct (detected_networks_self_contained twoChainsEditor Hwf)
    as (networks & Hrun & _ & Hdis).
  exists networks. split; [exact Hrun | exact Hdis].
Defined.
(** ** Polling, continued *)

Section PollingAnyEndpoint.

Variable interval : Z.
Variable endpoint : nat → FetchOutcome.

(** One call of [checkStatus], whatever the endpoint answers: one status
    request; the timer is armed only below the cap; and a call that
    does not arm the timer ends by fetching the result or by enabling
    the run button again. *)
Lemma checkStatus_any pollCount :
  ∃ events again,
    checkStatus interval endpoint pollCount = (S pollCount, events, again)
    ∧ List.filter is_status_request events = [EvFetchStatus (S pollCount)]
    ∧ (again = true →
       (S pollCount < maxPolls)%nat
       ∧ List.filter is_timer events = [EvSetTimeout interval])
    ∧ (again = false →
       List.filter is_timer events = []
       ∧ (last events = Some EvFetchResult ∨ last events = Some EvRunAgain)).
Proof.
  unfold checkStatus.
  destruct (endpoint (S pollCount)) as [status|message].
  - destruct (bool_decide (status = "COMPLETED")).
    { eexists _, _. split; [reflexivity|]. split; [done|]. split; [done|].
      intros _. split; [done|]. by left. }
    destruct (bool_decide (status = "FAILED")).
    { eexists _, _. split; [reflexivity|]. split; [done|]. split; [done|].
      intros _. split; [done|]. by left. }
    case_bool_decide as Hcap.
    + eexists _, _. split; [reflexivity|]. split; [done|]. split; [done|].
      intros _. split; [done|]. by right.
    + eexists _, _. split; [reflexivity|]. split; [done|]. split; [|done].
      intros _. split; [lia | done].
  - case_bool_decide as Hcap.
    + eexists _, _. split; [reflexivity|]. split; [done|]. split; [|done].
      intros _. split; [lia | done].
    + eexists _, _. split; [reflexivity|]. split; [done|]. split; [done|].
      intros _. split; [done|]. by right.
Qed.

Lemma pollChain_ends (d : nat) : ∀ pollCount,
  (pollCount + S d = maxPolls)%nat →
  ∃ events n,
    (1 ≤ n ≤ S d)%nat
    ∧ (∀ fuel, (d < fuel)%nat → pollChain fuel interval endpoint pollCount = Some events)
    ∧ List.filter is_status_request events = map EvFetchStatus (seq (S pollCount) n)
    ∧ List.filter is_timer events = repeat (EvSetTimeout interval) (n - 1)
    ∧ (last events = Some EvFetchResult ∨ last events = Some EvRunAgain).
Proof.
  induction d as [|d IH]; intros pollCount Hd;
    destruct (checkStatus_any pollCount) as (ev1 & again & Hcs & Hf1 & Hgo & Hstop).
  - destruct again.
    { destruct (Hgo eq_refl) as [Hlt _]. lia. }
    destruct (Hstop eq_refl) as [Ht1 Hlast].
    exists ev1, 1%nat. split; [lia|]. split; [|done].
    intros [|fuel] Hfuel; [lia|]. simpl. by rewrite Hcs.
  - destruct again.
    + destruct (Hgo eq_refl) as [_ Ht1].
      destruct (IH (S pollCount)) as (ev2 & n & Hn & Hrun & Hf2 & Ht2 & Hlast); [lia|].
      exists (ev1 ++ ev2), (S n). split; [lia|]. split; [|split; [|split]].
      * intros [|fuel] Hfuel; [lia|]. simpl. rewrite Hcs.
        rewrite (Hrun fuel) by lia. done.
      * rewrite List.filter_app, Hf1, Hf2. done.
      * rewrite List.filter_app, Ht1, Ht2.
        destruct n as [|n]; [lia|]. simpl. by rewrite Nat.sub_0_r.
      * rewrite last_app. by destruct Hlast as [-> | ->]; [left | right].
    + destruct (Hstop eq_refl) as [Ht1 Hlast].
      exists ev1, 1%nat. split; [lia|]. split; [|done].
      intros [|fuel] Hfuel; [lia|]. simpl. by rewrite Hcs.
Qed.

End PollingAnyEndpoint.

(** X6. Whatever the status endpoint answers, the poll chain ends: it
    makes between 1 and 60 status requests, numbered from 1 without a
    gap, arms the timer once between two requests, and its last action
    is to fetch the result or to enable the run button again.  A bound
    of 60 calls is always enough to see it end. *)
Theorem poll_always_ends (interval : Z) (endpoint : nat → FetchOutcome) :
  ∃ events n,
    (1 ≤ n ≤ 60)%nat
    ∧ (∀ fuel, (60 ≤ fuel)%nat →
         pollExecutionStatus fuel interval endpoint = Some events)
    ∧ List.filter is_status_request events = map EvFetchStatus (seq 1 n)
    ∧ List.filter is_timer events = repeat (EvSetTimeout interval) (n - 1)
    ∧ (last events = Some EvFetchResult ∨ last events = Some EvRunAgain).
Proof.
  destruct (pollChain_ends interval endpoint 59 0 eq_refl)
    as (events & n & Hn & Hrun & Hf & Ht & Hlast).
  exists events, n. split; [done|]. split; [|done].
  intros fuel Hfuel. apply Hrun. lia.
Qed.

Section PollingTerminal.

Variable interval : Z.
Variable endpoint : nat → FetchOutcome.
Variable k : nat.
Variable status : string.
Hypothesis k_le : (k ≤ maxPolls)%nat.
Hypothesis before_k : ∀ j, (1 ≤ j < k)%nat → ¬ terminal (endpoint j).
Hypothesis at_k : endpoint k = Status status.
Hypothesis status_terminal : status = "COMPLETED" ∨ status = "FAILED".

Lemma checkStatus_before pollCount :
  (S pollCount < k)%nat →
  ∃ events,
    checkStatus interval endpoint pollCount = (S pollCount, events, true)
    ∧ List.filter is_fetch events = [EvFetchStatus (S pollCount)]
    ∧ List.filter is_timer events = [EvSetTimeout interval]
    ∧ List.filter is_timeout_badge events = [].
Proof.
  intros Hlt. unfold checkStatus.
  assert (Hnt : ¬ terminal (endpoint (S pollCount))) by (apply before_k; lia).
  unfold terminal in Hnt.
  destruct (endpoint (S pollCount)) as [st|message].
  - rewrite (bool_decide_eq_false_2 (st = "COMPLETED")) by (intros ->; tauto).
    rewrite (bool_decide_eq_false_2 (st = "FAILED")) by (intros ->; tauto).
    rewrite bool_decide_eq_false_2 by lia. eauto.
  - rewrite bool_decide_eq_true_2 by lia. eauto.
Qed.

Lemma checkStatus_at pollCount :
  S pollCount = k →
  ∃ events,
    checkStatus interval endpoint pollCount = (k, events, false)
    ∧ List.filter is_fetch events = [EvFetchStatus k; EvFetchResult]
    ∧ List.filter is_timer events = []
    ∧ List.filter is_timeout_badge events = []
    ∧ terminalBadge status ∈ events
    ∧ last events = Some EvFetchResult.
Proof.
  intros Hk. unfold checkStatus. rewrite Hk, at_k. unfold terminalBadge.
  destruct status_terminal as [-> | ->].
  - rewrite !bool_decide_eq_true_2 by done.
    eexists. split; [reflexivity|]. repeat split; try done.
    apply elem_of_cons. right. left.
  - rewrite (bool_decide_eq_false_2 ("FAILED" = "COMPLETED")) by done.
    rewrite bool_decide_eq_true_2 by done.
    eexists. split; [reflexivity|]. repeat split; try done.
    apply elem_of_cons. right. left.
Qed.

Lemma pollChain_reaches_terminal (d : nat) : ∀ pollCount,
  (pollCount + S d = k)%nat →
  ∃ events,
    (∀ fuel, (d < fuel)%nat → pollChain fuel interval endpoint pollCount = Some events)
    ∧ List.filter is_fetch events
      = map EvFetchStatus (seq (S pollCount) (S d)) ++ [EvFetchResult]
    ∧ List.filter is_timer events = repeat (EvSetTimeout interval) d
    ∧ List.filter is_timeout_badge events = []
    ∧ terminalBadge status ∈ events
    ∧ last events = Some EvFetchResult.
Proof.
  induction d as [|d IH]; intros pollCount Hd.
  - destruct (checkStatus_at pollCount) as (events & Hcs & Hf & Ht & Hb & Hin & Hlast);
      [lia|].
    exists events. split; [|split; [|done]].
    + intros [|fuel] Hfuel; [lia|]. simpl. by rewrite Hcs.
    + rewrite Hf. simpl. repeat f_equal. lia.
  - destruct (checkStatus_before pollCount) as (ev1 & Hcs & Hf1 & Ht1 & Hb1); [lia|].
    destruct (IH (S pollCount)) as (ev2 & Hrun & Hf2 & Ht2 & Hb2 & Hin & Hlast); [lia|].
    exists (ev1 ++ ev2). split; [|split; [|split; [|split; [|split]]]].
    + intros [|fuel] Hfuel; [lia|]. simpl. rewrite Hcs.
      rewrite (Hrun fuel) by lia. done.
    + rewrite List.filter_app, Hf1, Hf2. done.
    + rewrite List.filter_app, Ht1, Ht2. done.
    + rewrite List.filter_app, Hb1, Hb2. done.
    + apply elem_of_app. by right.
    + rewrite last_app, Hlast. done.
Qed.

End PollingTerminal.

(** X7. When the [k]-th status request, [k] at most 60, is the first to
    come back with [COMPLETED] or [FAILED], the poll chain ends there:
    it has made exactly the status requests 1 to [k], then the request
    for the result, which is its last action; it has armed the timer
    [k - 1] times, shown the badge of that status and never the
    [Timeout] badge.  Failed requests before the [k]-th do not stop
    it. *)
Theorem poll_stops_at_first_terminal_status (interval : Z)
    (endpoint : nat → FetchOutcome) (k : nat) (status : string) :
  (1 ≤ k ≤ 60)%nat →
  (∀ j, (1 ≤ j < k)%nat → ¬ terminal (endpoint j)) →
  endpoint k = Status status →
  status = "COMPLETED" ∨ status = "FAILED" →
  ∃ events,
    (∀ fuel, (k ≤ fuel)%nat →
       pollExecutionStatus fuel interval endpoint = Some events)
    ∧ List.filter is_fetch events = map EvFetchStatus (seq 1 k) ++ [EvFetchResult]
    ∧ requests events = S k
    ∧ List.filter is_timer events = repeat (EvSetTimeout interval) (k - 1)
    ∧ List.filter is_timeout_badge events = []
    ∧ terminalBadge status ∈ events
    ∧ last events = Some EvFetchResult.
Proof.
  intros [Hk1 Hk60] Hbefore Hat Hterm.
  destruct k as [|d]; [lia|].
  destruct (pollChain_reaches_terminal interval endpoint (S d) status Hk60 Hbefore Hat Hterm
              d 0 eq_refl)
    as (events & Hrun & Hf & Ht & Hb & Hin & Hlast).
  exists events. split; [|split; [done|split; [|split; [|done]]]].
  - intros fuel Hfuel. apply Hrun. lia.
  - unfold requests. rewrite Hf, length_app, length_map, length_seq. simpl. lia.
  - rewrite Ht. by rewrite Nat.sub_1_r.
Qed.

Lemma poll_stops_at_first_terminal_status_witness :
  ∃ events,
    pollExecutionStatus 4 defaultInterval completesAtFour = Some events
    ∧ requests events = 5%nat
    ∧ last events = Some EvFetchResult.
Proof.
  destruct (poll_stops_at_first_terminal_status defaultInterval completesAtFour 4
              "COMPLETED") as (events & Hrun & _ & Hreq & _ & _ & _ & Hlast).
  - lia.
  - intros j Hj [H | H];
      (destruct j as [|[|[|[|j]]]]; [lia | discriminate H | discriminate H
                                     | discriminate H | lia]).
  - reflexivity.
  - left. reflexivity.
  - exists events. split; [apply Hrun; lia|]. split; [exact Hreq | exact Hlast].
Defined.
(** ** Router ports, continued *)

Section RouterMore.

Implicit Types (s : Editor) (sel node : NodeData) (c : Config) (ps : list Pattern).

Lemma with_config_twice c c' node :
  with_config c (with_config c' node) = with_config c node.
Proof. done. Qed.

Lemma with_outputPorts_same c n :
  outputPorts c = Some n → with_outputPorts n c = c.
Proof. intros H. destruct c. simpl in *. by rewrite H. Qed.

Lemma with_keywordPatterns_same c ps :
  keywordPatterns c = Some ps → with_keywordPatterns ps c = c.
Proof. intros H. destruct c. simpl in *. by rewrite H. Qed.

Lemma with_config_same c node : config node = Some c → with_config c node = node.
Proof. intros H. destruct node. simpl in *. by rewrite H. Qed.

Lemma with_container_same node ports :
  container_of node = Some ports → with_container ports node = node.
Proof.
  unfold container_of, with_container. destruct node as [i [el|] t st co]; simpl; [|done].
  intros H. destruct el. simpl in *. by rewrite H.
Qed.

(** The port count that the reconciliation aims at:
    [Math.max(2, config.outputPorts || 2)]. *)
Lemma reconciled_count c :
  let n := Z.max 2 (match truthy_outputPorts (Some c) with
                    | Some n => n
                    | None => 2
                    end) in
  2 ≤ n
  ∧ (∀ k, outputPorts c = Some k → 2 ≤ k → n = k)
  ∧ ((∀ k, outputPorts c = Some k → k < 2) → n = 2).
Proof.
  cbv zeta. unfold truthy_outputPorts.
  destruct (outputPorts c) as [k|]; [|split; [lia|]; split; [done | intros _; lia]].
  case_bool_decide as Hk.
  - subst k. split; [lia|]. split; [intros k [= <-]; lia | intros _; lia].
  - split; [lia|]. split.
    + intros k' [= <-] Hge. lia.
    + intros Hlt. specialize (Hlt k eq_refl). lia.
Qed.

Lemma lower_patterns_below n ps :
  Forall (λ p, pat_port p < n) ps →
  map (lower_pattern n) (remove_first_pattern n ps) = ps.
Proof.
  induction 1 as [|p l Hpl _ IH]; [done|].
  cbn [remove_first_pattern]. rewrite bool_decide_eq_false_2 by lia.
  cbn [map]. rewrite IH. f_equal.
  unfold lower_pattern. by rewrite bool_decide_eq_false_2 by lia.
Qed.

End RouterMore.

(** X8. [ensurePatternsMatchOutputPorts] on a router with a
    configuration leaves a rule list of [max(2, outputPorts || 2)]
    entries, at least 2.  It does not touch a rule that was there: the
    rules it keeps are the old ones, in place and with the port numbers
    they had (it cuts the list at the port count, and never renumbers);
    every entry beyond the old list is the placeholder of its
    position.  Id, element, type and sub-type of the node stay. *)
Theorem ensurePatterns_keeps_old_rules (node : NodeData) (c : Config) :
  type node = "router" →
  config node = Some c →
  let ps := default [] (keywordPatterns c) in
  let node' := ensurePatternsMatchOutputPorts node in
  ∃ ps',
    keywordPatterns_of node' = Some ps'
    ∧ (2 ≤ length ps')%nat
    ∧ (∀ n, outputPorts c = Some n → 2 ≤ n → Z.of_nat (length ps') = n)
    ∧ ((∀ n, outputPorts c = Some n → n < 2) → length ps' = 2%nat)
    ∧ (∀ i p, (i < length ps)%nat → ps' !! i = Some p → ps !! i = Some p)
    ∧ (∀ i p, (length ps ≤ i)%nat → ps' !! i = Some p → p = placeholder (Z.of_nat i))
    ∧ node_id node' = node_id node ∧ element node' = element node
    ∧ type node' = type node ∧ subType node' = subType node.
Proof.
  intros Ht Hc. cbv zeta.
  unfold ensurePatternsMatchOutputPorts. rewrite Ht, Hc.
  rewrite bool_decide_eq_true_2 by done. cbn [negb].
  pose proof (reconciled_count c) as Hcount. cbv zeta in Hcount.
  set (n := Z.max 2 _) in *.
  destruct Hcount as (Hn2 & Hnk & Hn0).
  set (ps := default [] (keywordPatterns c)).
  assert (Hsplit : ∃ c1, (match keywordPatterns c with
                          | Some ps0 => (c, ps0)
                          | None => (with_keywordPatterns [] c, [])
                          end) = (c1, ps)
                         ∧ keywordPatterns c1 = Some ps).
  { unfold ps. destruct (keywordPatterns c) as [ps0|] eqn:Ep; simpl; eauto. }
  destruct Hsplit as (c1 & -> & Hc1).
  case_bool_decide as Hne.
  - case_bool_decide as Hlt.
    + eexists. split; [reflexivity|].
      rewrite length_app, length_map, length_seqZ.
      split; [lia|]. split; [intros k Hk Hge; rewrite <- (Hnk k Hk Hge); lia|].
      split; [intros Hall; rewrite (Hn0 Hall) in *; lia|].
      split; [|split; [|done]].
      * intros i p Hi Hp. by rewrite lookup_app_l in Hp.
      * intros i p Hi Hp. rewrite lookup_app_r in Hp by done.
        apply list_lookup_fmap_Some in Hp as (z & -> & Hz).
        apply lookup_seqZ in Hz as [-> _]. f_equal. lia.
    + rewrite bool_decide_eq_true_2 by lia.
      eexists. split; [reflexivity|].
      rewrite length_take.
      split; [lia|]. split; [intros k Hk Hge; rewrite <- (Hnk k Hk Hge); lia|].
      split; [intros Hall; rewrite (Hn0 Hall) in *; lia|].
      split; [|split; [|done]].
      * intros i p Hi Hp. apply lookup_take_Some in Hp as [Hp _]. done.
      * intros i p Hi Hp. apply lookup_take_Some in Hp as [Hp _].
        apply lookup_lt_Some in Hp. lia.
  - exists ps. unfold keywordPatterns_of. cbn [config with_config].
    split; [done|]. split; [lia|].
    split; [intros k Hk Hge; rewrite <- (Hnk k Hk Hge); lia|].
    split; [intros Hall; rewrite (Hn0 Hall) in *; lia|].
    split; [done|]. split; [|done].
    intros i p Hi Hp. apply lookup_lt_Some in Hp. lia.
Qed.

Lemma ensurePatterns_keeps_old_rules_witness :
  ∃ ps',
    keywordPatterns_of
      (ensurePatternsMatchOutputPorts
         (with_config (with_outputPorts 4 defaultRouterConfig)
                      (snd (createNode routerCard emptyEditor)))) = Some ps'
    ∧ Z.of_nat (length ps') = 4
    ∧ ps' !! 3%nat = Some (placeholder 3).
Proof.
  destruct (ensurePatterns_keeps_old_rules
              (with_config (with_outputPorts 4 defaultRouterConfig)
                           (snd (createNode routerCard emptyEditor)))
              (with_outputPorts 4 defaultRouterConfig) eq_refl eq_refl)
    as (ps' & Hps & _ & Hlen & _).
  exists ps'. split; [exact Hps|]. split.
  - apply Hlen; [reflexivity | lia].
  - vm_compute in Hps. injection Hps as <-. reflexivity.
Defined.

(** X9. The reconciliation is idempotent: a second call of
    [ensurePatternsMatchOutputPorts] changes nothing, on any node. *)
Theorem ensurePatterns_idempotent (node : NodeData) :
  ensurePatternsMatchOutputPorts (ensurePatternsMatchOutputPorts node)
  = ensurePatternsMatchOutputPorts node.
Proof.
  assert (Hshape :
    ensurePatternsMatchOutputPorts node = node
    ∧ (type node ≠ "router" ∨ config node = None)
    ∨ type node = "router"
      ∧ ∃ c2 ps2,
          ensurePatternsMatchOutputPorts node = with_config c2 node
          ∧ keywordPatterns c2 = Some ps2
          ∧ Z.of_nat (length ps2)
            = Z.max 2 (match truthy_outputPorts (Some c2) with
                       | Some k => k
                       | None => 2
                       end)).
  { unfold ensurePatternsMatchOutputPorts.
    destruct (decide (type node = "router")) as [Et|Et].
    2:{ left. rewrite bool_decide_eq_false_2 by done. auto. }
    rewrite bool_decide_eq_true_2 by done. cbn [negb].
    destruct (config node) as [c|] eqn:Ec; [|left; auto].
    right. split; [done|].
    pose proof (reconciled_count c) as Hcount. cbv zeta in Hcount.
    set (n := Z.max 2 _) in *.
    destruct Hcount as (Hn2 & _ & _).
    assert (Hset : ∀ c2, Z.max 2 (match truthy_outputPorts (Some (with_outputPorts n c2)) with
                                  | Some k => k
                                  | None => 2
                                  end) = n).
    { intros c2. unfold truthy_outputPorts. cbn [outputPorts with_outputPorts].
      rewrite bool_decide_eq_false_2 by lia. lia. }
    destruct (keywordPatterns c) as [ps|] eqn:Ep.
    - destruct (decide (Z.of_nat (length ps) = n)) as [Heq|Hne].
      + rewrite bool_decide_eq_false_2 by (intros H; by apply H).
        exists c, ps. done.
      + rewrite bool_decide_eq_true_2 by done.
        destruct (decide (Z.of_nat (length ps) < n)) as [Hlt|Hge].
        * rewrite bool_decide_eq_true_2 by done.
          eexists _, _. split; [reflexivity|]. split; [reflexivity|].
          rewrite Hset, length_app, length_map, length_seqZ. lia.
        * rewrite bool_decide_eq_false_2 by done.
          rewrite bool_decide_eq_true_2 by lia.
          eexists _, _. split; [reflexivity|]. split; [reflexivity|].
          rewrite Hset, length_take. lia.
    - cbn [length]. rewrite bool_decide_eq_true_2 by (cbn; lia).
      rewrite bool_decide_eq_true_2 by (cbn; lia).
      eexists _, _. split; [reflexivity|]. split; [reflexivity|].
      rewrite Hset, length_app, length_map, length_seqZ. cbn. lia. }
  destruct Hshape as [[Hsame _] | (Et & c2 & ps2 & Hrun & Hp2 & Hlen)].
  - by rewrite Hsame.
  - rewrite Hrun. unfold ensurePatternsMatchOutputPorts.
    cbn [type config with_config]. rewrite bool_decide_eq_true_2 by done.
    cbn [negb]. rewrite Hp2.
    rewrite bool_decide_eq_false_2 by (intros H; apply H; exact Hlen).
    done.
Qed.

(** X10. Adding an output port and removing it again gives the router
    back: on a router in the state [RouterInv] whose element has its
    port container, in a store whose connections are those that
    [createConnection] makes, [addNewOutputPort] returns the number [n]
    of the new port, [removeOutputPort(n)] then succeeds, and the
    selected node (configuration, rules and port elements) and the
    connections are what they were. *)
Theorem add_then_remove_port_restores (s : Editor) (sel : NodeData) :
  RouterInv s →
  selectedNode s = Some sel →
  is_Some (container_of sel) →
  Forall (λ c, sourceNode c = None) (connections s) →
  ∃ s1 n s2,
    addNewOutputPort s = Some (s1, n)
    ∧ outputPorts_of sel = Some n
    ∧ removeOutputPort n s1 = (s2, true)
    ∧ selectedNode s2 = Some sel
    ∧ connections s2 = connections s.
Proof.
  intros Hinv Hs0 [ports Ec] Hconn.
  pose proof Hinv as (sel' & c & n & ps & Hs & Ht & Hc & Hn & Hp & Hge & Hlen & Hord
                      & Hdom)%RouterInv_elim.
  assert (sel' = sel) as -> by congruence.
  rewrite Ec in Hdom. subst ports.
  assert (Hports : map (lower_pattern n) (remove_first_pattern n ps) = ps).
  { apply lower_patterns_below, Forall_forall. intros p Hp'.
    assert (Hin : pat_port p ∈ seqZ 0 (Z.of_nat (length ps))).
    { rewrite <- Hord. apply list_elem_of_fmap. eauto. }
    apply elem_of_seqZ in Hin. lia. }
  set (sel1 := with_config (with_outputPorts (n + 1) c) sel).
  assert (Hc1 : container_of sel1 = Some (seqZ 0 n)) by exact Ec.
  destruct (with_container_spec sel1 _ (seqZ 0 n ++ [n]) Hc1) as (Hid2 & Ht2 & Hc2 & Hcont2).
  set (sel2 := with_container (seqZ 0 n ++ [n]) sel1) in *.
  assert (Hadd : addNewOutputPort s = Some (set_selected sel2 s, n)).
  { unfold addNewOutputPort. rewrite Hs, Hc, Ht.
    rewrite bool_decide_eq_true_2 by done. cbn [negb].
    rewrite (truthy_outputPorts_ge2 c n Hn Hge).
    fold sel1. rewrite Hc1. done. }
  exists (set_selected sel2 s), n. eexists.
  split; [exact Hadd|]. split; [unfold outputPorts_of; by rewrite Hc|].
  unfold removeOutputPort.
  cbn [selectedNode set_selected connections].
  rewrite Ht2, Hc2. cbn [type config with_config sel1]. rewrite Ht.
  rewrite bool_decide_eq_true_2 by done. cbn [negb].
  rewrite (truthy_outputPorts_ge2 _ (n + 1)) by (done || lia).
  rewrite bool_decide_eq_false_2 by lia.
  rewrite Hcont2.
  rewrite bool_decide_eq_true_2 by (apply elem_of_app; right; left).
  cbn [negb].
  split; [reflexivity|].
  cbn [selectedNode set_selected set_connections connections].
  split.
  - f_equal.
    replace (n + 1 - 1) with n by lia.
    cbn [keywordPatterns with_outputPorts]. rewrite Hp, Hports.
    assert (Hseq : seqZ 0 n ++ [n] = seqZ 0 (n + 1)).
    { rewrite seqZ_app by lia. f_equal. }
    rewrite Hseq, (lower_remove_seqZ (Z.to_nat (n + 1)) 0 (n + 1) n) by (done || lia).
    replace (n + 1 - 1) with n by lia.
    assert (Hcfg : with_keywordPatterns ps (with_outputPorts n (with_outputPorts (n + 1) c))
                   = c).
    { destruct c. simpl in *. by rewrite Hn, Hp. }
    rewrite Hcfg. unfold sel2, sel1.
    clear -Ec Hc. unfold container_of in Ec.
    destruct sel as [i [el|] t st co]; [|done]. destruct el as [inc opc].
    simpl in *. by rewrite Ec, Hc.
  - rewrite leaves_port_none by done. cbn [foldl].
    by rewrite lower_sourcePort_none.
Qed.

Lemma add_then_remove_port_restores_witness :
  ∃ s1 s2,
    addNewOutputPort routerEditor = Some (s1, 2)
    ∧ removeOutputPort 2 s1 = (s2, true)
    ∧ selectedNode s2 = selectedNode routerEditor
    ∧ connections s2 = connections routerEditor.
Proof.
  assert (Hinv : RouterInv routerEditor).
  { unfold RouterInv, routerEditor. simpl.
    split; [reflexivity|]. repeat split; try lia; reflexivity. }
  destruct (add_then_remove_port_restores routerEditor
              (snd (createNode routerCard emptyEditor)) Hinv eq_refl)
    as (s1 & n & s2 & Hadd & Hn & Hrem & Hsel & Hcs).
  - eexists. reflexivity.
  - simpl. constructor.
  - injection Hn as <-. exists s1, s2. done.
Defined.

Section RouterSync.

Implicit Types (s : Editor) (sel : NodeData) (c : Config) (ps : list Pattern).

(** With the rules numbered by position from [a], the rule that
    [removeOutputPort] splices out for port [n] is the one at position
    [n - a]. *)
Lemma remove_first_pattern_delete ps : ∀ a n,
  map pat_port ps = seqZ a (Z.of_nat (length ps)) →
  a ≤ n →
  remove_first_pattern n ps = delete (Z.to_nat (n - a)) ps.
Proof.
  induction ps as [|p ps IH]; intros a n Hports Han; [done|].
  cbn [length] in Hports. rewrite Nat2Z.inj_succ, seqZ_cons in Hports by lia.
  cbn [map] in Hports. injection Hports as Hp Hrest.
  replace (Z.pred (Z.succ (Z.of_nat (length ps)))) with (Z.of_nat (length ps))
    in Hrest by lia.
  cbn [remove_first_pattern]. case_bool_decide as Hn.
  - replace (n - a) with 0 by lia. done.
  - rewrite (IH (Z.succ a) n Hrest) by lia.
    replace (Z.to_nat (n - a)) with (S (Z.to_nat (n - Z.succ a))) by lia. done.
Qed.

Lemma lower_pattern_text n ps :
  map originalValue (map (lower_pattern n) ps) = map originalValue ps
  ∧ map keyword (map (lower_pattern n) ps) = map keyword ps
  ∧ map originalType (map (lower_pattern n) ps) = map originalType ps.
Proof.
  rewrite !map_map. repeat split; apply map_ext; intros p;
    unfold lower_pattern; by case_bool_decide.
Qed.

Lemma map_delete {A B} (f : A → B) (i : nat) (l : list A) :
  map f (delete i l) = delete i (map f l).
Proof.
  revert i. induction l as [|x l IH]; intros [|i]; cbn; try done.
  f_equal. apply IH.
Qed.

End RouterSync.

(** X24. On a router that has exactly one rule per port and more than
    two ports, [removeOutputPort(n)] for a port [n] that is there
    succeeds and leaves one rule per port again: the port count is one
    less, the rule that was at position [n] is gone, and the other
    rules keep their order and their text (those after it move one port
    down). *)
Theorem removeOutputPort_keeps_one_rule_per_port (n k : Z) (s : Editor)
    (sel : NodeData) (ps : list Pattern) :
  RouterInv s →
  RouterSynced s →
  selectedNode s = Some sel →
  is_Some (container_of sel) →
  outputPorts_of sel = Some k →
  keywordPatterns_of sel = Some ps →
  2 < k →
  0 ≤ n < k →
  ∃ s' ps',
    removeOutputPort n s = (s', true)
    ∧ RouterInv s' ∧ RouterSynced s'
    ∧ selectedOutputPorts s' = Some (k - 1)
    ∧ selectedPatterns s' = Some ps'
    ∧ map originalValue ps' = delete (Z.to_nat n) (map originalValue ps)
    ∧ map originalType ps' = delete (Z.to_nat n) (map originalType ps)
    ∧ map keyword ps' = delete (Z.to_nat n) (map keyword ps).
Proof.
  intros Hinv Hsync Hsel [ports Ec] Hk Hps Hk2 Hn.
  pose proof Hinv as (sel' & c & k' & ps0 & Hs & Ht & Hc & Hn' & Hp & Hge & Hlen & Hord
                      & Hdom)%RouterInv_elim.
  assert (sel' = sel) as -> by congruence.
  unfold outputPorts_of in Hk. unfold keywordPatterns_of in Hps. rewrite Hc in Hk, Hps.
  assert (k' = k) as -> by congruence. assert (ps0 = ps) as -> by congruence.
  rewrite Ec in Hdom. subst ports.
  assert (Hfull : Z.of_nat (length ps) = k).
  { unfold RouterSynced in Hsync. rewrite Hs in Hsync.
    unfold outputPorts_of, keywordPatterns_of in Hsync. rewrite Hc, Hn', Hp in Hsync.
    by destruct Hsync as (_ & ? & _). }
  pose proof (removeOutputPort_inv n s Hinv) as Hinv'.
  destruct (rules_in_order_remove n ps ltac:(lia) Hord) as [Hord' Hlen'].
  rewrite bool_decide_eq_true_2 in Hlen' by lia.
  unfold removeOutputPort in *. rewrite Hs, Hc, Ht in *.
  rewrite (bool_decide_eq_true_2 ("router" = "router")) in * by done.
  cbn [negb] in *.
  rewrite (truthy_outputPorts_ge2 c k Hn' Hge) in *.
  rewrite bool_decide_eq_false_2 in * by lia.
  rewrite Ec in *.
  rewrite (bool_decide_eq_true_2 (n ∈ seqZ 0 k)) in * by (apply elem_of_seqZ; lia).
  cbn [negb fst] in *.
  cbn [keywordPatterns with_outputPorts] in *. rewrite Hp in *.
  eexists _, _. split; [reflexivity|]. split; [exact Hinv'|].
  destruct (with_container_spec
              (with_config (with_keywordPatterns
                              (map (lower_pattern n) (remove_first_pattern n ps))
                              (with_outputPorts (k - 1) c)) sel)
              (seqZ 0 k) (map (lower_port n) (remove_first_port n (seqZ 0 k))) Ec)
    as (Hid & Htt & Hcc & Hcont).
  assert (Hdel : remove_first_pattern n ps = delete (Z.to_nat n) ps).
  { rewrite (remove_first_pattern_delete ps 0 n) by (done || lia).
    by rewrite Z.sub_0_r. }
  destruct (lower_pattern_text n (remove_first_pattern n ps)) as (Hv & Hkw & Hty).
  unfold RouterSynced, selectedOutputPorts, selectedPatterns,
    outputPorts_of, keywordPatterns_of.
  cbn [selectedNode set_selected set_connections]. rewrite Hcc.
  cbn [config with_config outputPorts keywordPatterns with_keywordPatterns
       with_outputPorts].
  split; [split; [lia|]; split; [|done]|].
  { rewrite Hlen'. lia. }
  split; [done|]. split; [done|].
  rewrite Hv, Hkw, Hty, Hdel.
  rewrite !map_delete. done.
Qed.

Lemma removeOutputPort_keeps_one_rule_per_port_witness :
  ∃ s' ps',
    removeOutputPort 0 threePortEditor = (s', true)
    ∧ RouterSynced s'
    ∧ selectedPatterns s' = Some ps'
    ∧ map originalValue ps' = [".*question.*"; "start2"].
Proof.
  assert (Hinv : RouterInv threePortEditor).
  { unfold RouterInv. vm_compute. split; [reflexivity|].
    split; [discriminate|]. split; [discriminate|]. split; reflexivity. }
  assert (Hsync : RouterSynced threePortEditor).
  { unfold RouterSynced. vm_compute. split; [discriminate|]. split; reflexivity. }
  destruct (removeOutputPort_keeps_one_rule_per_port 0 3 threePortEditor _ _
              Hinv Hsync eq_refl (mk_is_Some _ _ eq_refl) eq_refl eq_refl)
    as (s' & ps' & Hrun & _ & Hs' & _ & Hps & Hv & _).
  - lia.
  - lia.
  - exists s', ps'. split; [exact Hrun|]. split; [exact Hs'|]. split; [exact Hps|].
    rewrite Hv. reflexivity.
Defined.

(** X25. On a router that has exactly one rule per port,
    [addNewOutputPort] followed by [ensurePatternsMatchOutputPorts]
    gives the new port [n] the placeholder rule of its number, after the
    old rules, which are unchanged; the router has one rule per port
    again. *)
Theorem add_then_reconcile_appends_placeholder (s : Editor) (ps : list Pattern) :
  RouterInv s →
  RouterSynced s →
  selectedPatterns s = Some ps →
  ∃ s1 n,
    addNewOutputPort s = Some (s1, n)
    ∧ selectedOutputPorts s = Some n
    ∧ selectedPatterns (reconcile s1) = Some (ps ++ [placeholder n])
    ∧ selectedOutputPorts (reconcile s1) = Some (n + 1)
    ∧ RouterSynced (reconcile s1).
Proof.
  intros Hinv Hsync Hps.
  pose proof Hinv as (sel & c & k & ps0 & Hs & Ht & Hc & Hn & Hp & Hge & Hlen & Hord
                      & Hdom)%RouterInv_elim.
  assert (ps0 = ps) as ->.
  { unfold selectedPatterns, keywordPatterns_of in Hps. rewrite Hs, Hc, Hp in Hps.
    congruence. }
  assert (Hfull : Z.of_nat (length ps) = k).
  { unfold RouterSynced in Hsync. rewrite Hs in Hsync.
    unfold outputPorts_of, keywordPatterns_of in Hsync. rewrite Hc, Hn, Hp in Hsync.
    by destruct Hsync as (_ & ? & _). }
  destruct (addNewOutputPort_inv s Hinv) as (s1 & n & Hadd & Hn0 & Hn1 & Hp1 & Hinv1).
  assert (n = k) as ->.
  { unfold selectedOutputPorts, outputPorts_of in Hn0. rewrite Hs, Hc, Hn in Hn0.
    congruence. }
  exists s1, k. split; [done|]. split; [done|].
  destruct (ensurePatterns_synced s1 Hinv1) as [_ Hsync1].
  pose proof Hinv1 as (sel1 & c1 & k1 & ps1 & Hs1 & Ht1 & Hc1 & Hk1 & Hps1 & Hge1 & _)
                      %RouterInv_elim.
  assert (ps1 = ps) as ->.
  { rewrite Hps in Hp1.
    unfold selectedPatterns, keywordPatterns_of in Hp1. rewrite Hs1, Hc1, Hps1 in Hp1.
    congruence. }
  assert (k1 = k + 1) as ->.
  { unfold selectedOutputPorts, outputPorts_of in Hn1. rewrite Hs1, Hc1, Hk1 in Hn1.
    congruence. }
  split; [|split; [|done]].
  - unfold reconcile, selectedPatterns, keywordPatterns_of. rewrite Hs1.
    cbn [selectedNode set_selected].
    unfold ensurePatternsMatchOutputPorts. rewrite Ht1, Hc1, Hps1.
    rewrite (bool_decide_eq_true_2 ("router" = "router")) by done. cbn [negb].
    rewrite (truthy_outputPorts_ge2 c1 (k + 1) Hk1 Hge1).
    rewrite Z.max_r by lia.
    rewrite bool_decide_eq_true_2 by lia. rewrite bool_decide_eq_true_2 by lia.
    cbn [config with_config keywordPatterns with_outputPorts with_keywordPatterns].
    rewrite Hfull. replace (k + 1 - k) with 1 by lia. done.
  - unfold reconcile, selectedOutputPorts, outputPorts_of. rewrite Hs1.
    cbn [selectedNode set_selected].
    unfold ensurePatternsMatchOutputPorts. rewrite Ht1, Hc1, Hps1.
    rewrite (bool_decide_eq_true_2 ("router" = "router")) by done. cbn [negb].
    rewrite (truthy_outputPorts_ge2 c1 (k + 1) Hk1 Hge1).
    rewrite Z.max_r by lia.
    rewrite bool_decide_eq_true_2 by lia.
    cbn [config with_config outputPorts with_outputPorts]. done.
Qed.

Lemma add_then_reconcile_appends_placeholder_witness :
  ∃ s1,
    addNewOutputPort routerEditor = Some (s1, 2)
    ∧ map originalValue <$> selectedPatterns (reconcile s1)
      = Some [".*"; ".*question.*"; "start2"].
Proof.
  assert (Hinv : RouterInv routerEditor).
  { unfold RouterInv, routerEditor. simpl.
    split; [reflexivity|]. repeat split; try lia; reflexivity. }
  assert (Hsync : RouterSynced routerEditor).
  { unfold RouterSynced, routerEditor. simpl. repeat split; try lia; reflexivity. }
  destruct (add_then_reconcile_appends_placeholder routerEditor _ Hinv Hsync eq_refl)
    as (s1 & n & Hadd & Hn & Hps & _).
  injection Hn as <-.
  exists s1. split; [exact Hadd|]. rewrite Hps. reflexivity.
Defined.
(** ** Running the network *)

Section Running.

Implicit Types (s : Editor) (node agent : NodeData) (ns : list NodeData).

Lemma unconfigured_false agent :
  unconfigured agent = Ok false ↔
  (subType agent = Some "openai" ∨ subType agent = Some "ollama" → keyAndModel agent).
Proof.
  unfold unconfigured, subType_is, keyAndModel.
  destruct (bool_decide (subType agent = Some "openai")) eqn:Eo;
    destruct (bool_decide (subType agent = Some "ollama")) eqn:El; cbn [orb].
  4:{ apply bool_decide_eq_false in Eo, El. split; [by intros _ [?|?] | done]. }
  all: assert (Hsub : subType agent = Some "openai" ∨ subType agent = Some "ollama")
         by (first [left; by apply bool_decide_eq_true in Eo
                   |right; by apply bool_decide_eq_true in El]).
  all: destruct (config agent) as [c|];
         [destruct (truthy (apiKey c)) eqn:Ek, (truthy (model c)) eqn:Em; cbn [negb orb]|].
  all: split;
         [intros Hu; try discriminate Hu; intros _; exists c; done
         |intros H; try done; exfalso; destruct (H Hsub) as (c' & Hc' & Hk' & Hm');
          congruence].
Qed.

Lemma unconfiguredAgents_fold ns : ∀ (acc : Result (list NodeData)),
  foldl (λ acc agent,
           do! pushed := acc in
           do! u := unconfigured agent in
           Ok (if u then pushed ++ [agent] else pushed))
        acc ns = Ok []
  ↔ acc = Ok [] ∧ ∀ agent, agent ∈ ns → unconfigured agent = Ok false.
Proof.
  induction ns as [|a ns IH]; intros acc; cbn [foldl].
  - split; [intros ->; split; [done|]; by intros ? ?%elem_of_nil | by intros [-> _]].
  - rewrite IH. split.
    + intros [Hstep Hall].
      destruct acc as [pushed| |]; try done. cbn [bind] in Hstep.
      destruct (unconfigured a) as [u| |] eqn:Eu; try done. cbn [bind] in Hstep.
      destruct u.
      * injection Hstep as Hstep. by apply app_nil in Hstep as [_ ?].
      * injection Hstep as ->. split; [done|].
        intros agent [-> | Hin]%elem_of_cons; [done | by apply Hall].
    + intros [-> Hall]. split.
      * cbn [bind]. rewrite (Hall a) by left. done.
      * intros agent Hin. apply Hall. by right.
Qed.

Lemma unconfiguredAgents_nil ns :
  unconfiguredAgents ns = Ok [] ↔ ∀ agent, agent ∈ ns → unconfigured agent = Ok false.
Proof.
  unfold unconfiguredAgents. rewrite unconfiguredAgents_fold. naive_solver.
Qed.

(** The configuration check of [validateNetworkSubset] is at least as
    strict as the check of [runNetwork]. *)
Lemma agentConfigured_unconfigured agent :
  type agent = "agent" → agentConfigured agent = true → unconfigured agent = Ok false.
Proof.
  intros Ht Hc. apply unconfigured_false. intros Hsub.
  unfold agentConfigured, is_type, subType_is, config_or_empty in Hc.
  rewrite (bool_decide_eq_true_2 _ Ht) in Hc.
  unfold keyAndModel.
  destruct Hsub as [Hs|Hs]; rewrite Hs in Hc.
  - rewrite (bool_decide_eq_true_2 (Some "openai" = Some "openai")) in Hc by done.
    cbn [andb] in Hc.
    destruct (config agent) as [c|]; [|done].
    exists c. destruct (truthy (apiKey c)), (truthy (model c)); done.
  - rewrite (bool_decide_eq_false_2 (Some "ollama" = Some "openai")) in Hc by done.
    rewrite (bool_decide_eq_true_2 (Some "ollama" = Some "ollama")) in Hc by done.
    cbn [andb] in Hc.
    destruct (config agent) as [c|]; [|done].
    exists c. destruct (truthy (apiUrl c)), (truthy (apiKey c)), (truthy (model c)); done.
Qed.

Lemma runNetwork_dialog name s :
  wellFormed s →
  (∃ agent, agent ∈ nodes s ∧ type agent = "agent") →
  (∀ node, node ∈ nodes s → type node = "agent" → unconfigured node = Ok false) →
  ∃ detected,
    detectMultipleNetworks s = Ok detected
    ∧ runNetwork name s = Ok (RunDialog (currentNetworkDataOf name s) detected).
Proof.
  intros Hwf (agent & Hin & Ht) Hall.
  destruct (detectMultipleNetworks_disjoint_components s Hwf) as (comps & _ & _ & Hdet).
  eexists. split; [exact Hdet|].
  unfold runNetwork.
  rewrite bool_decide_eq_false_2.
  2:{ intros E%length_zero_iff_nil. rewrite E in Hin. by apply elem_of_nil in Hin. }
  rewrite bool_decide_eq_false_2.
  2:{ intros E%length_zero_iff_nil. apply (filter_type_nonempty "agent" (nodes s)); eauto. }
  assert (Hu : unconfiguredAgents (List.filter (is_type "agent") (nodes s)) = Ok []).
  { apply unconfiguredAgents_nil. intros a [Hta Ha]%elem_of_List_filter.
    apply Hall; [done|]. by apply bool_decide_eq_true in Hta. }
  rewrite Hu. cbn [bind length]. rewrite bool_decide_eq_false_2 by lia.
  rewrite Hdet. done.
Qed.

End Running.

(** X11. In a store whose node ids are distinct and whose connections
    join nodes of the store, [runNetwork] opens the execution dialog
    exactly when the store has an agent node and every [openai] and
    [ollama] agent has a configuration with an API key and a model.
    Nothing else is looked at: not the API url of an Ollama agent, not
    the configuration of agents of other types, not the connections.
    The dialog gets the serialised store and what
    [detectMultipleNetworks] returns. *)
Theorem runNetwork_opens_dialog_iff (networkName : string) (s : Editor) :
  wellFormed s →
  ((∃ d detected, runNetwork networkName s = Ok (RunDialog d detected))
   ↔ (∃ agent, agent ∈ nodes s ∧ type agent = "agent")
     ∧ ∀ node, node ∈ nodes s → gated node → keyAndModel node)
  ∧ (∀ d detected,
       runNetwork networkName s = Ok (RunDialog d detected) →
       d = currentNetworkDataOf networkName s
       ∧ detectMultipleNetworks s = Ok detected).
Proof.
  intros Hwf. split; [split|].
  - intros (d & detected & Hrun). unfold runNetwork in Hrun.
    destruct (bool_decide (length (nodes s) = 0%nat)); [done|].
    destruct (bool_decide (length (List.filter (is_type "agent") (nodes s)) = 0%nat))
      eqn:Ea; [done|].
    apply bool_decide_eq_false in Ea.
    destruct (unconfiguredAgents _) as [us| |] eqn:Eu; try done. cbn [bind] in Hrun.
    destruct us as [|u us]; [|done].
    split.
    + apply (filter_type_nonempty "agent"). intros E. by rewrite E in Ea.
    + intros node Hin [Ht Hsub].
      apply unconfigured_false; [|done].
      apply (proj1 (unconfiguredAgents_nil _) Eu).
      apply elem_of_List_filter. split; [by apply bool_decide_eq_true | done].
  - intros [Hagent Hall].
    destruct (runNetwork_dialog networkName s Hwf Hagent) as (detected & _ & Hrun); [|eauto].
    intros node Hin Ht. apply unconfigured_false. intros Hsub.
    by apply Hall.
  - intros d detected Hrun. unfold runNetwork in Hrun.
    destruct (bool_decide (length (nodes s) = 0%nat)); [done|].
    destruct (bool_decide (length (List.filter (is_type "agent") (nodes s)) = 0%nat));
      [done|].
    destruct (unconfiguredAgents _) as [us| |]; try done. cbn [bind] in Hrun.
    destruct (bool_decide (0 < length us)%nat); [done|].
    destruct (detectMultipleNetworks s) as [nets| |]; try done. cbn [bind] in Hrun.
    by injection Hrun as <- <-.
Qed.

Lemma runNetwork_opens_dialog_iff_witness :
  ∃ d detected, runNetwork "My network" ollamaEditor = Ok (RunDialog d detected).
Proof.
  assert (Hwf : wellFormed ollamaEditor).
  { split.
    - apply (bool_decide_unpack _). vm_compute. reflexivity.
    - intros c Hc. apply (bool_decide_unpack _).
      revert c Hc. apply Forall_forall. apply (bool_decide_unpack _).
      vm_compute. reflexivity. }
  apply (proj2 (proj1 (runNetwork_opens_dialog_iff "My network" ollamaEditor Hwf))).
  split.
  - exists ollamaWithoutUrl. split; [|reflexivity]. right. left.
  - intros node Hin [Ht Hsub].
    apply elem_of_cons in Hin as [-> | Hin]; [discriminate Ht|].
    apply elem_of_cons in Hin as [-> | Hin].
    + eexists. split; [reflexivity|]. split; reflexivity.
    + apply list_elem_of_singleton in Hin as ->. discriminate Ht.
Defined.

(** X12. The three checks of an agent's configuration are ordered by
    strictness.  What [validateNetwork] accepts (no error message for
    the agent), [validateNetworkSubset] accepts; and what
    [validateNetworkSubset] accepts, [runNetwork] accepts.  Hence a
    well-formed store that passes either validator and has an agent
    always gets the execution dialog.  The converse fails: an Ollama
    agent with key and model and no API url passes the check of
    [runNetwork] and fails both validators. *)
Theorem runNetwork_accepts_validated_networks (networkName : string) (s : Editor) :
  wellFormed s →
  valid (validateNetwork (nodes s) (connections s)) = true
  ∨ validateNetworkSubset (nodes s) (connections s) = true →
  (∃ agent, agent ∈ nodes s ∧ type agent = "agent") →
  (∀ agent, agent ∈ nodes s → type agent = "agent" →
     agentConfigured agent = true ∧ unconfigured agent = Ok false)
  ∧ (∃ detected,
       runNetwork networkName s = Ok (RunDialog (currentNetworkDataOf networkName s) detected))
  ∧ (∀ agent c,
       type agent = "agent" → subType agent = Some "ollama" →
       config agent = Some c →
       truthy (apiKey c) = true → truthy (model c) = true →
       truthy (apiUrl c) = false →
       unconfigured agent = Ok false
       ∧ agentConfigured agent = false
       ∧ agentErrors agent ≠ []).
Proof.
  intros Hwf Hvalid Hagent.
  assert (Hconf : ∀ agent, agent ∈ nodes s → agentConfigured agent = true).
  { destruct Hvalid as [Hv|Hv].
    - apply valid_iff_no_errors, validateNetwork_no_errors in Hv
        as (_ & _ & _ & _ & Herr).
      intros agent Hin. destruct (agentConfigured agent) eqn:E; [done|].
      apply agentConfigured_false_errors in E. by destruct E; apply Herr.
    - by apply validateNetworkSubset_true in Hv as (_ & _ & _ & _ & ?). }
  split; [|split].
  - intros agent Hin Ht. split; [by apply Hconf|].
    apply agentConfigured_unconfigured; [done | by apply Hconf].
  - destruct (runNetwork_dialog networkName s Hwf Hagent) as (detected & _ & Hrun); [|eauto].
    intros node Hin Ht. apply agentConfigured_unconfigured; [done | by apply Hconf].
  - intros agent c Ht Hsub Hc Hk Hm Hurl.
    assert (Hfail : agentConfigured agent = false).
    { unfold agentConfigured, is_type, subType_is, config_or_empty.
      rewrite (bool_decide_eq_true_2 _ Ht), Hsub, Hc.
      rewrite (bool_decide_eq_false_2 (Some "ollama" = Some "openai")) by done.
      rewrite (bool_decide_eq_true_2 (Some "ollama" = Some "ollama")) by done.
      by rewrite Hurl. }
    split; [|split; [done | by apply agentConfigured_false_errors]].
    apply unconfigured_false. intros _. exists c. done.
Qed.

Lemma runNetwork_accepts_validated_networks_witness :
  (∃ detected,
     runNetwork "Two chains" twoChainsEditor
     = Ok (RunDialog (currentNetworkDataOf "Two chains" twoChainsEditor) detected))
  ∧ unconfigured ollamaWithoutUrl = Ok false
  ∧ agentConfigured ollamaWithoutUrl = false.
Proof.
  assert (Hwf : wellFormed twoChainsEditor).
  { split.
    - apply (bool_decide_unpack _). vm_compute. reflexivity.
    - intros c Hc. apply (bool_decide_unpack _).
      revert c Hc. apply Forall_forall. apply (bool_decide_unpack _).
      vm_compute. reflexivity. }
  assert (Hvalid : validateNetworkSubset (nodes twoChainsEditor)
                     (connections twoChainsEditor) = true).
  { vm_compute. reflexivity. }
  assert (Hagent : ∃ agent, agent ∈ nodes twoChainsEditor ∧ type agent = "agent").
  { exists (agentNode "node-3" "first"). split; [|reflexivity].
    right. right. left. }
  destruct (runNetwork_accepts_validated_networks "Two chains" twoChainsEditor
              Hwf (or_intror Hvalid) Hagent) as (_ & Hrun & Hgap).
  split; [exact Hrun|].
  destruct (Hgap ollamaWithoutUrl (readyConfig "local")
              eq_refl eq_refl eq_refl eq_refl eq_refl eq_refl) as (H1 & H2 & _).
  split; [exact H1 | exact H2].
Defined.
(** ** Creating an agent from the modal *)

Section NewAgent.

Implicit Types (form : NewAgentForm) (s : Editor) (c : Config).

Lemma truthy_value_or_empty (v : option string) :
  truthy (Some (value_or v "")) = truthy v.
Proof.
  unfold truthy, value_or. destruct v as [x|]; [|done].
  destruct (bool_decide (x = "")) eqn:E; [done|]. by rewrite E.
Qed.

Lemma truthy_value_or_default (v : option string) (d : string) :
  d ≠ "" → truthy (Some (value_or v d)) = true.
Proof.
  intros Hd. unfold truthy, value_or. destruct v as [x|].
  - destruct (bool_decide (x = "")) eqn:E.
    + by rewrite bool_decide_eq_false_2.
    + by rewrite E.
  - by rewrite bool_decide_eq_false_2.
Qed.

Lemma subType_is_Some (t x : string) (node : NodeData) :
  subType node = Some t → subType_is x node = bool_decide (t = x).
Proof.
  intros H. unfold subType_is. rewrite H.
  destruct (decide (t = x)) as [->|Hne].
  - by rewrite !bool_decide_eq_true_2.
  - rewrite !bool_decide_eq_false_2; [done..|congruence].
Qed.

End NewAgent.

(** X13. [createNewAgent] does nothing when the name field is empty.
    Otherwise it appends one node: an agent of the chosen type, with the
    next id of the counter, in [nodeContainer], named as typed.  The
    defaults fill in what was left empty of model and region, so that
    the new agent passes the configuration check of
    [validateNetworkSubset] exactly when its credentials were typed in,
    and the check of [runNetwork] whenever it passes that one.  A store
    with distinct, counted node ids stays so. *)
Theorem createNewAgent_defaults (form : NewAgentForm) (s : Editor) :
  (new_agent_name form = "" → createNewAgent form s = s)
  ∧ (new_agent_name form ≠ "" →
     ∃ nd c,
       createNewAgent form s = with_node nd s
       ∧ node_id nd = "node-" +:+ pretty (S (nodeCounter s))
       ∧ type nd = "agent"
       ∧ subType nd = Some (new_agent_type form)
       ∧ removable nd = true
       ∧ config nd = Some c
       ∧ name c = Some (new_agent_name form)
       ∧ (new_agent_type form ∈ ["openai"; "ollama"; "anthropic"; "bedrock"] →
          truthy (model c) = true)
       ∧ (new_agent_type form = "bedrock" → truthy (region c) = true)
       ∧ agentConfigured nd = credentialsGiven form
       ∧ (credentialsGiven form = true → unconfigured nd = Ok false)
       ∧ (counted s → counted (createNewAgent form s))).
Proof.
  split.
  { intros Hname. unfold createNewAgent. by rewrite bool_decide_eq_true_2. }
  intros Hname. unfold createNewAgent. rewrite bool_decide_eq_false_2 by done.
  cbn [createNode card_type agentType toolType].
  rewrite (bool_decide_eq_false_2 ("agent" = "router")) by done.
  rewrite (bool_decide_eq_true_2 ("agent" = "agent")) by done.
  set (nd0 := {| node_id := "node-" +:+ pretty (S (nodeCounter s));
                 element := Some {| inNodeContainer := true;
                                    outputPortsContainer := None |};
                 type := "agent"; subType := Some (new_agent_type form);
                 config := Some emptyConfig |}).
  set (c := newAgentConfig form (config_or_empty nd0)).
  exists (with_config c nd0), c.
  assert (Hconf : agentConfigured (with_config c nd0) = credentialsGiven form).
  { unfold agentConfigured, is_type, credentialsGiven.
    cbn [type with_config nd0]. rewrite (bool_decide_eq_true_2 ("agent" = "agent")) by done.
    rewrite !(subType_is_Some (new_agent_type form)) by done.
    unfold config_or_empty. cbn [config with_config].
    unfold c, newAgentConfig. cbn [config_or_empty config nd0].
    destruct (decide (new_agent_type form = "openai")) as [Et|Ho].
    { rewrite Et. rewrite !(bool_decide_eq_true_2 ("openai" = "openai")) by done.
      cbn [andb apiKey model with_model with_apiKey with_name].
      rewrite truthy_value_or_empty, truthy_value_or_default by done.
      by destruct (truthy _). }
    rewrite !(bool_decide_eq_false_2 _ Ho). cbn [andb].
    destruct (decide (new_agent_type form = "ollama")) as [Et|Hl].
    { rewrite Et. rewrite !(bool_decide_eq_true_2 ("ollama" = "ollama")) by done.
      cbn [andb apiKey apiUrl model with_model with_apiKey with_apiUrl with_name].
      rewrite !truthy_value_or_empty, truthy_value_or_default by done.
      by destruct (truthy _), (truthy _). }
    rewrite !(bool_decide_eq_false_2 _ Hl). cbn [andb].
    destruct (decide (new_agent_type form = "anthropic")) as [Et|Ha].
    { rewrite Et. rewrite !(bool_decide_eq_true_2 ("anthropic" = "anthropic")) by done.
      cbn [andb apiKey model with_model with_apiKey with_name].
      rewrite truthy_value_or_empty, truthy_value_or_default by done.
      by destruct (truthy _). }
    rewrite !(bool_decide_eq_false_2 _ Ha). cbn [andb].
    destruct (decide (new_agent_type form = "bedrock")) as [Et|Hb].
    { rewrite Et. rewrite !(bool_decide_eq_true_2 ("bedrock" = "bedrock")) by done.
      cbn [andb accessKey secretKey region model with_model with_region
           with_secretKey with_accessKey with_name].
      rewrite !truthy_value_or_empty, !truthy_value_or_default by done.
      by destruct (truthy _), (truthy _). }
    rewrite !(bool_decide_eq_false_2 _ Hb). cbn [andb].
    destruct (decide (new_agent_type form = "custom")) as [Et|Hc].
    { rewrite Et. rewrite !(bool_decide_eq_true_2 ("custom" = "custom")) by done.
      cbn [andb cfg_port endpoint with_endpoint with_cfg_port with_name].
      rewrite !truthy_value_or_empty.
      by destruct (truthy _), (truthy _). }
    by rewrite !(bool_decide_eq_false_2 _ Hc). }
  split; [done|]. split; [done|]. split; [done|]. split; [done|]. split; [done|].
  split; [done|].
  split.
  { unfold c, newAgentConfig. repeat case_bool_decide; done. }
  split.
  { intros Hin. unfold c, newAgentConfig.
    repeat (apply elem_of_cons in Hin as [-> | Hin];
            [rewrite ?bool_decide_eq_true_2, ?bool_decide_eq_false_2 by done;
             cbn [model with_model]; by apply truthy_value_or_default|]).
    by apply elem_of_nil in Hin. }
  split.
  { intros Et. unfold c, newAgentConfig. rewrite Et.
    rewrite !bool_decide_eq_false_2, bool_decide_eq_true_2 by done.
    cbn [region with_model with_region]. by apply truthy_value_or_default. }
  split; [done|]. split.
  { intros Hcred. apply agentConfigured_unconfigured; [done|]. by rewrite Hconf. }
  intros Hcount. by apply (counted_add_node (with_config c nd0) s).
Qed.

Lemma createNewAgent_defaults_witness :
  ∃ nd c,
    createNewAgent openaiForm emptyEditor = with_node nd emptyEditor
    ∧ node_id nd = "node-1"
    ∧ config nd = Some c
    ∧ model c = Some "gpt-4o"
    ∧ agentConfigured nd = true.
Proof.
  destruct (createNewAgent_defaults openaiForm emptyEditor) as [_ H].
  destruct H as (nd & c & Hrun & Hid & _ & _ & _ & Hc & _ & _ & _ & Hconf & _).
  { discriminate. }
  exists nd, c. split; [exact Hrun|]. split; [exact Hid|]. split; [exact Hc|].
  split; [|exact Hconf].
  assert (E : with_node nd emptyEditor
              = createNewAgent openaiForm emptyEditor) by (symmetry; exact Hrun).
  vm_compute in E. injection E as E. rewrite E in Hc.
  injection Hc as <-. reflexivity.
Defined.
(** ** Selecting and posting networks *)

Section Selecting.

Variable executionMode0 : string.
Variable boxes : NetworkBoxes.

Lemma detected_prefix_inj (a b : string) : "detected-" +:+ a = "detected-" +:+ b → a = b.
Proof. intros H. cbn [String.append] in H. by injection H. Qed.

(** What the loop over the detected networks selects, from any index. *)
Lemma elem_of_selectDetected (detectedNetworks : list Network) : ∀ index x,
  x ∈ selectDetected executionMode0 boxes index detectedNetworks ↔
  ∃ i network,
    detectedNetworks !! i = Some network
    ∧ checked (network_index boxes (index + i)) = true
    ∧ x = {| selected_id := "detected-" +:+ pretty (index + i)%nat;
             selected_data := DetectedData network;
             selected_mode := executionMode0 |}.
Proof.
  induction detectedNetworks as [|network rest IH]; intros index x;
    cbn [selectDetected].
  - split; [by intros ?%elem_of_nil | by intros (i & n & ? & _)].
  - rewrite elem_of_app, IH. split.
    + intros [Hx | (i & n & Hi & Hc & ->)].
      * destruct (checked (network_index boxes index)) eqn:Ec;
          [|by apply elem_of_nil in Hx].
        apply list_elem_of_singleton in Hx as ->.
        exists 0%nat, network. rewrite Nat.add_0_r. done.
      * exists (S i), n. rewrite <- Nat.add_succ_comm. done.
    + intros (i & n & Hi & Hc & ->). destruct i as [|i].
      * left. rewrite Nat.add_0_r in *. injection Hi as ->. rewrite Hc.
        apply list_elem_of_singleton. done.
      * right. exists i, n. rewrite <- Nat.add_succ_comm in *. done.
Qed.

Lemma selectDetected_ids (detectedNetworks : list Network) : ∀ index,
  NoDup (map selected_id (selectDetected executionMode0 boxes index detectedNetworks))
  ∧ (length (selectDetected executionMode0 boxes index detectedNetworks)
     ≤ length detectedNetworks)%nat.
Proof.
  induction detectedNetworks as [|network rest IH]; intros index;
    cbn [selectDetected].
  - split; [constructor | done].
  - destruct (IH (S index)) as [Hnd Hlen].
    destruct (checked (network_index boxes index)); cbn [app map length].
    + split; [|lia]. constructor; [|done].
      intros (x & Hid & Hx)%list_elem_of_fmap.
      apply elem_of_selectDetected in Hx as (i & n & _ & _ & ->).
      cbn [selected_id] in Hid.
      apply detected_prefix_inj, (inj pretty) in Hid. lia.
    + split; [done | lia].
Qed.

End Selecting.

(** Where the entries that [getSelectedNetworks] returns come from. *)
Lemma getSelectedNetworks_members (mode : string) (boxes : NetworkBoxes) (s : Editor)
    (currentNetworkData : NetworkData) (detectedNetworks : list Network) :
  ∃ networks,
    getSelectedNetworks (Some mode) boxes s currentNetworkData detectedNetworks
    = Ok networks
    ∧ ∀ x, x ∈ networks →
        (selected_data x = CurrentData currentNetworkData
         ∧ valid (validateNetwork (nodes s) (connections s)) = true)
        ∨ (∃ i network,
             detectedNetworks !! i = Some network
             ∧ selected_data x = DetectedData network
             ∧ checked (network_index boxes i) = true).
Proof.
  unfold getSelectedNetworks. cbn [defined bind].
  eexists. split; [reflexivity|].
  intros x [Hx | Hx]%elem_of_app.
  - destruct (checked (network_current boxes)); [|by apply elem_of_nil in Hx].
    destruct (valid (validateNetwork (nodes s) (connections s))) eqn:Ev;
      [|by apply elem_of_nil in Hx].
    apply list_elem_of_singleton in Hx as ->. by left.
  - apply elem_of_selectDetected in Hx as (i & n & Hi & Hc & ->).
    right. exists i, n. done.
Qed.

(** X14. [getSelectedNetworks] throws when no execution mode is
    checked.  Otherwise it returns, in this order, the current network
    (when its box is ticked and [validateNetwork] finds the store valid)
    and the detected networks whose boxes are ticked: the entry
    [detected-i] carries the [i]-th detected network, every entry
    carries the execution mode, no two entries have the same id, and
    every ticked detected network is returned. *)
Theorem getSelectedNetworks_selection (boxes : NetworkBoxes) (s : Editor)
    (currentNetworkData : NetworkData) (detectedNetworks : list Network) :
  getSelectedNetworks None boxes s currentNetworkData detectedNetworks = Throw
  ∧ ∀ mode, ∃ networks,
      getSelectedNetworks (Some mode) boxes s currentNetworkData detectedNetworks
      = Ok networks
      ∧ NoDup (map selected_id networks)
      ∧ (length networks ≤ 1 + length detectedNetworks)%nat
      ∧ (∀ x, x ∈ networks →
           selected_mode x = mode
           ∧ ((selected_id x = "current"
               ∧ selected_data x = CurrentData currentNetworkData
               ∧ head networks = Some x
               ∧ checked (network_current boxes) = true
               ∧ valid (validateNetwork (nodes s) (connections s)) = true)
              ∨ (∃ i network,
                   selected_id x = "detected-" +:+ pretty i
                   ∧ detectedNetworks !! i = Some network
                   ∧ selected_data x = DetectedData network
                   ∧ checked (network_index boxes i) = true)))
      ∧ (∀ i network,
           detectedNetworks !! i = Some network →
           checked (network_index boxes i) = true →
           {| selected_id := "detected-" +:+ pretty i;
              selected_data := DetectedData network;
              selected_mode := mode |} ∈ networks)
      ∧ (checked (network_current boxes) = true →
         valid (validateNetwork (nodes s) (connections s)) = true →
         head networks = Some {| selected_id := "current";
                                 selected_data := CurrentData currentNetworkData;
                                 selected_mode := mode |}).
Proof.
  split; [done|]. intros mode. unfold getSelectedNetworks. cbn [defined bind].
  eexists. split; [reflexivity|].
  destruct (selectDetected_ids mode boxes detectedNetworks 0) as [Hnd Hlen].
  set (rest := selectDetected mode boxes 0 detectedNetworks) in *.
  assert (Hrest : ∀ x, x ∈ rest →
            selected_mode x = mode
            ∧ ∃ i network,
                selected_id x = "detected-" +:+ pretty i
                ∧ detectedNetworks !! i = Some network
                ∧ selected_data x = DetectedData network
                ∧ checked (network_index boxes i) = true).
  { intros x (i & n & Hi & Hc & ->)%elem_of_selectDetected. split; [done|].
    exists i, n. done. }
  assert (Hall : ∀ i network,
            detectedNetworks !! i = Some network →
            checked (network_index boxes i) = true →
            {| selected_id := "detected-" +:+ pretty i;
               selected_data := DetectedData network;
               selected_mode := mode |} ∈ rest).
  { intros i n Hi Hc. apply elem_of_selectDetected. exists i, n. done. }
  destruct (checked (network_current boxes)) eqn:Ec;
    [destruct (valid (validateNetwork (nodes s) (connections s))) eqn:Ev|].
  - cbn [app map length head].
    split. { constructor; [|done]. intros (x & Hid & Hx)%list_elem_of_fmap.
             destruct (Hrest x Hx) as (_ & i & n & Hid' & _). rewrite Hid' in Hid.
             discriminate Hid. }
    split; [lia|]. split; [|split; [|done]].
    + intros x [-> | Hx]%elem_of_cons; [split; [done|]; by left|].
      destruct (Hrest x Hx) as [Hm Hd]. split; [done | by right].
    + intros i n Hi Hc. right. by apply Hall.
  - cbn [app]. split; [done|]. split; [lia|]. split; [|split; [done|done]].
    intros x Hx. destruct (Hrest x Hx) as [Hm Hd]. split; [done | by right].
  - cbn [app]. split; [done|]. split; [lia|]. split; [|split; [done|done]].
    intros x Hx. destruct (Hrest x Hx) as [Hm Hd]. split; [done | by right].
Qed.

(** X15. [executeNetworkWithInput] sends a request only when the input
    is not blank and at least one network is selected.  The input is
    blank when [trim] leaves nothing of it, that is, when it is made of
    white space only ([whiteOnly]: the code points that
    [String.prototype.trim] removes, no-break and other Unicode spaces
    included); then the user is warned and nothing else happens.  The
    request carries the input as typed and the selected networks: the
    data of the only one, or the whole selection with the execution mode
    when there are several.  The current network is among them only
    when [validateNetwork] finds the store valid; with the current
    network invalid and no detected network ticked, nothing is sent. *)
Theorem executeNetworkWithInput_posts_valid_selection (userInput mode : string)
    (boxes : NetworkBoxes) (s : Editor) (networkData : NetworkData)
    (detectedNetworks : list Network) :
  ∃ outcome networks,
    executeNetworkWithInput userInput (Some mode) boxes s networkData detectedNetworks
    = Ok outcome
    ∧ getSelectedNetworks (Some mode) boxes s networkData detectedNetworks = Ok networks
    ∧ (outcome = ExecNoInput ↔ trim userInput = "")
    ∧ (outcome = ExecNothingSelected ↔ trim userInput ≠ "" ∧ networks = [])
    ∧ (∀ body, outcome = ExecPosted body →
         trim userInput ≠ ""
         ∧ inputOf body = userInput
         ∧ carried body = map selected_data networks
         ∧ ((∃ data, body = SingleNetwork data userInput) ↔ length networks = 1%nat)
         ∧ (body = MultiNetwork networks mode userInput ↔ (2 ≤ length networks)%nat)
         ∧ (CurrentData networkData ∈ carried body →
            valid (validateNetwork (nodes s) (connections s)) = true))
    ∧ (valid (validateNetwork (nodes s) (connections s)) = false →
       (∀ i, (i < length detectedNetworks)%nat →
             checked (network_index boxes i) = false) →
       outcome = ExecNoInput ∨ outcome = ExecNothingSelected)
    ∧ (outcome = ExecNoInput ↔ whiteOnly userInput)
    ∧ (∀ body, outcome = ExecPosted body → ¬ whiteOnly userInput).
Proof.
  assert (Hmain :
    ∃ outcome networks,
      executeNetworkWithInput userInput (Some mode) boxes s networkData detectedNetworks
      = Ok outcome
      ∧ getSelectedNetworks (Some mode) boxes s networkData detectedNetworks = Ok networks
      ∧ (outcome = ExecNoInput ↔ trim userInput = "")
      ∧ (outcome = ExecNothingSelected ↔ trim userInput ≠ "" ∧ networks = [])
      ∧ (∀ body, outcome = ExecPosted body →
           trim userInput ≠ ""
           ∧ inputOf body = userInput
           ∧ carried body = map selected_data networks
           ∧ ((∃ data, body = SingleNetwork data userInput) ↔ length networks = 1%nat)
           ∧ (body = MultiNetwork networks mode userInput ↔ (2 ≤ length networks)%nat)
           ∧ (CurrentData networkData ∈ carried body →
              valid (validateNetwork (nodes s) (connections s)) = true))
      ∧ (valid (validateNetwork (nodes s) (connections s)) = false →
         (∀ i, (i < length detectedNetworks)%nat →
               checked (network_index boxes i) = false) →
         outcome = ExecNoInput ∨ outcome = ExecNothingSelected)).
  {
    destruct (getSelectedNetworks_members mode boxes s networkData detectedNetworks)
      as (networks & Hget & Hin).
    unfold executeNetworkWithInput. rewrite Hget. cbn [bind defined].
    assert (Hvalid : CurrentData networkData ∈ map selected_data networks →
                     valid (validateNetwork (nodes s) (connections s)) = true).
    { intros (x & Hx & Hxin)%list_elem_of_fmap.
      destruct (Hin x Hxin) as [(_ & Hv) | (i & n & _ & Hd & _)];
        [done|]. rewrite Hd in Hx. discriminate Hx. }
    assert (Hnone : valid (validateNetwork (nodes s) (connections s)) = false →
                    (∀ i, (i < length detectedNetworks)%nat →
                          checked (network_index boxes i) = false) →
                    networks = []).
    { intros Hv Hno. destruct networks as [|x l]; [done|]. exfalso.
      destruct (Hin x) as [(_ & Hv') | (i & n & Hi & _ & Hc)];
        [left | congruence |].
      apply lookup_lt_Some in Hi. rewrite (Hno i Hi) in Hc. done. }
    destruct (decide (trim userInput = "")) as [Hblank|Hinput].
    { rewrite bool_decide_eq_true_2 by done.
      exists ExecNoInput, networks. split; [done|]. split; [done|].
      split; [done|]. split; [split; [done | by intros [? _]]|].
      split; [done|]. by left. }
    rewrite bool_decide_eq_false_2 by done.
    destruct networks as [|x [|y l]].
    - exists ExecNothingSelected, []. cbn [length].
      rewrite bool_decide_eq_true_2 by done.
      split; [done|]. split; [done|]. split; [done|]. split; [done|].
      split; [done|]. by right.
    - eexists _, [x]. cbn [length]. rewrite bool_decide_eq_false_2 by done.
      split; [reflexivity|]. split; [done|]. split; [done|].
      split; [split; [done | by intros [_ ?]]|].
      split.
      + intros body [= <-]. cbn [inputOf carried map length].
        split; [done|]. split; [done|]. split; [done|].
        split; [split; [done | eauto]|]. split; [split; [done | lia]|]. done.
      + intros Hv Hno. by specialize (Hnone Hv Hno).
    - eexists _, (x :: y :: l). cbn [length]. rewrite bool_decide_eq_false_2 by done.
      split; [reflexivity|]. split; [done|]. split; [done|].
      split; [split; [done | by intros [_ ?]]|].
      split.
      + intros body [= <-]. cbn [inputOf carried length].
        split; [done|]. split; [done|]. split; [done|].
        split; [split; [by intros [? ?] | lia]|]. split; [split; [lia | done]|]. done.
      + intros Hv Hno. by specialize (Hnone Hv Hno).
  }
  destruct Hmain as (outcome & networks & Hrun & Hget & Hno & Hnothing & Hposted & Hnone).
  exists outcome, networks.
  split; [done|]. split; [done|]. split; [done|]. split; [done|].
  split; [done|]. split; [done|]. split.
  - by rewrite <- trim_blank.
  - intros body Hbody. rewrite <- trim_blank. by destruct (Hposted body Hbody).
Qed.

(** An input of a no-break space and an em space is blank: nothing is
    sent, whatever is selected. *)
Example executeNetworkWithInput_unicode_blank (mode : option string)
    (boxes : NetworkBoxes) (s : Editor) (networkData : NetworkData)
    (detectedNetworks : list Network) :
  executeNetworkWithInput (nbsp +:+ emsp) mode boxes s networkData detectedNetworks
  = Ok ExecNoInput.
Proof. reflexivity. Qed.
(** ** The configuration panel *)

Section Panel.

Implicit Types (s : Editor) (sel : NodeData) (panel : ConfigPanel).

Lemma blank_truthy (v : string) : blank (Some v) = false → truthy (Some v) = true.
Proof.
  unfold blank, truthy. destruct (bool_decide (v = "")); [done|]. done.
Qed.

Lemma not_empty_truthy (v : string) : bool_decide (v = "") = false → truthy (Some v) = true.
Proof. unfold truthy. by intros ->. Qed.

Lemma subType_is_eq (t : string) (node node' : NodeData) :
  subType node = subType node' → subType_is t node = subType_is t node'.
Proof. unfold subType_is. by intros ->. Qed.

(** What the agent branch leaves: the errors so far and maybe more; no
    write together with an error; and writes after which the checks of
    the two validators pass, once the name is stored as well. *)
Lemma agentBranch_spec panel sel (errors0 errors : list string)
    (writes : option (Config → Config)) :
  agentBranch panel sel errors0 = (errors, writes) →
  (∃ more, errors = errors0 ++ more)
  ∧ match writes with
    | Some w =>
        errors = []
        ∧ ∀ c nm node,
            blank (Some nm) = false →
            type node = "agent" → subType node = subType sel →
            config node = Some (with_name nm (w c)) →
            agentErrors node = [] ∧ agentConfigured node = true
    | None =>
        errors ≠ []
        ∨ (errors = errors0 ∧ ∀ t, t ∈ knownAgentTypes → subType sel ≠ Some t)
    end.
Proof.
  unfold agentBranch.
  destruct (subType_is "openai" sel) eqn:E1.
  { apply bool_decide_eq_true in E1.
    destruct (blank (Some (openai_api_key panel))) eqn:B1,
             (bool_decide (openai_model panel = "")) eqn:B2,
             errors0 as [|e0 l0]; cbn [app length];
      (first [rewrite bool_decide_eq_true_2 by done
             |rewrite bool_decide_eq_false_2 by done]);
      intros [= <- <-]; (split; [eexists; reflexivity|]);
      try (left; done).
    split; [done|]. intros c nm node Hnm Ht Hsub Hc.
    unfold agentErrors, agentConfigured, is_type, config_or_empty, name_or_unnamed,
      subType_is.
    rewrite (bool_decide_eq_true_2 _ Ht), Hc, Hsub, E1.
    cbn [name apiKey model with_name with_model with_apiKey].
    rewrite Hnm, B1, (not_empty_truthy _ B2), (blank_truthy _ B1). done. }
  destruct (subType_is "ollama" sel) eqn:E2.
  { apply bool_decide_eq_true in E2.
    destruct (blank (Some (ollama_api_url panel))) eqn:B0,
             (blank (Some (ollama_api_key panel))) eqn:B1,
             (bool_decide (ollama_model panel = "")) eqn:B2,
             errors0 as [|e0 l0]; cbn [app length];
      (first [rewrite bool_decide_eq_true_2 by done
             |rewrite bool_decide_eq_false_2 by done]);
      intros [= <- <-]; (split; [eexists; reflexivity|]);
      try (left; done).
    split; [done|]. intros c nm node Hnm Ht Hsub Hc.
    unfold agentErrors, agentConfigured, is_type, config_or_empty, name_or_unnamed,
      subType_is.
    rewrite (bool_decide_eq_true_2 _ Ht), Hc, Hsub, E2.
    cbn [name apiKey apiUrl model with_name with_model with_apiKey with_apiUrl].
    rewrite Hnm, B0, B1, (not_empty_truthy _ B2), (blank_truthy _ B0), (blank_truthy _ B1).
    done. }
  destruct (subType_is "anthropic" sel) eqn:E3.
  { apply bool_decide_eq_true in E3.
    destruct (blank (Some (anthropic_api_key panel))) eqn:B1,
             (bool_decide (anthropic_model panel = "")) eqn:B2,
             errors0 as [|e0 l0]; cbn [app length];
      (first [rewrite bool_decide_eq_true_2 by done
             |rewrite bool_decide_eq_false_2 by done]);
      intros [= <- <-]; (split; [eexists; reflexivity|]);
      try (left; done).
    split; [done|]. intros c nm node Hnm Ht Hsub Hc.
    unfold agentErrors, agentConfigured, is_type, config_or_empty, name_or_unnamed,
      subType_is.
    rewrite (bool_decide_eq_true_2 _ Ht), Hc, Hsub, E3.
    cbn [name apiKey model with_name with_model with_apiKey].
    rewrite Hnm, B1, (not_empty_truthy _ B2), (blank_truthy _ B1). done. }
  destruct (subType_is "bedrock" sel) eqn:E4.
  { apply bool_decide_eq_true in E4.
    destruct (blank (Some (aws_access_key panel))) eqn:B0,
             (blank (Some (aws_secret_key panel))) eqn:B1,
             (bool_decide (aws_region panel = "")) eqn:B2,
             (bool_decide (bedrock_model panel = "")) eqn:B3,
             errors0 as [|e0 l0]; cbn [app length];
      (first [rewrite bool_decide_eq_true_2 by done
             |rewrite bool_decide_eq_false_2 by done]);
      intros [= <- <-]; (split; [eexists; reflexivity|]);
      try (left; done).
    split; [done|]. intros c nm node Hnm Ht Hsub Hc.
    unfold agentErrors, agentConfigured, is_type, config_or_empty, name_or_unnamed,
      subType_is.
    rewrite (bool_decide_eq_true_2 _ Ht), Hc, Hsub, E4.
    cbn [name accessKey secretKey region model with_name with_model with_region
         with_secretKey with_accessKey].
    rewrite Hnm, B0, B1, (not_empty_truthy _ B2), (not_empty_truthy _ B3),
      (blank_truthy _ B0), (blank_truthy _ B1).
    done. }
  destruct (subType_is "custom" sel) eqn:E5.
  { apply bool_decide_eq_true in E5.
    destruct (bool_decide (agent_port panel = "")) eqn:B0,
             (blank (Some (agent_endpoint panel))) eqn:B1,
             errors0 as [|e0 l0]; cbn [app length andb];
      (first [rewrite bool_decide_eq_true_2 by done
             |rewrite bool_decide_eq_false_2 by done]);
      intros [= <- <-]; (split; [eexists; reflexivity|]);
      try (left; done).
    all: split; [done|]; intros c nm node Hnm Ht Hsub Hc;
      unfold agentErrors, agentConfigured, is_type, config_or_empty, name_or_unnamed,
        subType_is;
      rewrite (bool_decide_eq_true_2 _ Ht), Hc, Hsub, E5;
      cbn [name cfg_port endpoint with_name with_endpoint with_cfg_port];
      rewrite Hnm, ?B1, ?(not_empty_truthy _ B0), ?(blank_truthy _ B1);
      cbn [negb andb orb]; rewrite ?andb_false_r; done. }
  intros [= <- <-]. split; [exists []; by rewrite app_nil_r|].
  right. split; [done|].
  intros t Ht. unfold knownAgentTypes in Ht.
  unfold subType_is in *.
  repeat (apply elem_of_cons in Ht as [-> | Ht];
          [by apply bool_decide_eq_false in E1, E2, E3, E4, E5|]).
  by apply elem_of_nil in Ht.
Qed.

End Panel.

(** X16. When [applyNodeConfig] accepts the panel of an agent node, the
    node it leaves selected passes every configuration check of the
    editor: [validateNetwork] has no error message for it,
    [validateNetworkSubset] and [runNetwork] find it configured.  The
    node keeps its id, type, sub-type and element, carries the name
    typed into the panel, and the node ids and the connections of the
    store are untouched. *)
Theorem applyNodeConfig_stored_passes_validators (panel : ConfigPanel)
    (routerBlock : NodeData → option (NodeData * list string))
    (s s' : Editor) (sel : NodeData) :
  selectedNode s = Some sel →
  type sel = "agent" →
  applyNodeConfig panel routerBlock s = ApplyStored s' →
  ∃ sel' c',
    selectedNode s' = Some sel'
    ∧ map node_id (nodes s') = map node_id (nodes s)
    ∧ connections s' = connections s
    ∧ node_id sel' = node_id sel ∧ type sel' = "agent"
    ∧ subType sel' = subType sel ∧ element sel' = element sel
    ∧ config sel' = Some c' ∧ name c' = Some (node_name panel)
    ∧ agentErrors sel' = []
    ∧ agentConfigured sel' = true
    ∧ unconfigured sel' = Ok false.
Proof.
  intros Hsel Ht Hrun. unfold applyNodeConfig in Hrun. rewrite Hsel in Hrun.
  rewrite (bool_decide_eq_true_2 _ Ht) in Hrun.
  destruct (agentBranch panel sel _) as [errors writes] eqn:Eb.
  apply agentBranch_spec in Eb as [[more Hmore] Hw].
  assert (Hfinish : ∀ c0 (s1 : Editor) sel1,
            errors = [] →
            type sel1 = "agent" → config sel1 = Some c0 →
            node_id sel1 = node_id sel → subType sel1 = subType sel →
            element sel1 = element sel →
            map node_id (nodes s1) = map node_id (nodes s) →
            connections s1 = connections s →
            (∀ node, type node = "agent" → subType node = subType sel →
                     config node = Some (with_name (node_name panel) c0) →
                     agentErrors node = [] ∧ agentConfigured node = true) →
            (if bool_decide (0 < length errors)%nat
             then ApplyRejected s1 errors
             else
               match config sel1 with
               | None => ApplyTypeError s1
               | Some c =>
                   let sel3 := with_config (with_name (node_name panel) c) sel1 in
                   let s3 := set_selected sel3 s1 in
                   if bool_decide (type sel3 = "agent")
                      && negb (bool_decide (is_Some (element sel3)))
                   then ApplyTypeError s3
                   else ApplyStored s3
               end) = ApplyStored s' →
            ∃ sel' c',
              selectedNode s' = Some sel'
              ∧ map node_id (nodes s') = map node_id (nodes s)
              ∧ connections s' = connections s
              ∧ node_id sel' = node_id sel ∧ type sel' = "agent"
              ∧ subType sel' = subType sel ∧ element sel' = element sel
              ∧ config sel' = Some c' ∧ name c' = Some (node_name panel)
              ∧ agentErrors sel' = []
              ∧ agentConfigured sel' = true
              ∧ unconfigured sel' = Ok false).
  { intros c0 s1 sel1 -> Ht1 Hc1 Hid1 Hsub1 Hel1 Hn1 Hcs1 Hok Hend.
    cbn [length] in Hend. rewrite bool_decide_eq_false_2 in Hend by lia.
    rewrite Hc1 in Hend. cbv zeta in Hend.
    destruct (_ && _); [done|]. injection Hend as <-.
    destruct (Hok (with_config (with_name (node_name panel) c0) sel1)) as [He Hconf];
      [done..|].
    eexists _, _. split; [reflexivity|].
    cbn [nodes set_selected connections]. rewrite map_node_id_write_back.
    split; [done|]. split; [done|]. split; [done|]. split; [done|]. split; [done|].
    split; [done|]. split; [reflexivity|]. split; [done|]. split; [done|].
    split; [done|]. by apply agentConfigured_unconfigured. }
  destruct writes as [w|].
  - destruct Hw as [-> Hok].
    destruct (config sel) as [c|] eqn:Ec; [|done].
    rewrite (bool_decide_eq_false_2 (type (with_config (w c) sel) = "router")) in Hrun
      by (cbn; by rewrite Ht).
    assert (Hname : blank (Some (node_name panel)) = false).
    { destruct (blank (Some (node_name panel))); [|done].
      symmetry in Hmore. by apply app_nil in Hmore as [? _]. }
    apply (Hfinish (w c) (set_selected (with_config (w c) sel) s)
                   (with_config (w c) sel)); try done.
    + cbn [nodes set_selected]. by rewrite map_node_id_write_back.
    + intros node Htn Hsn Hcn. by apply (Hok c (node_name panel)).
  - rewrite (bool_decide_eq_false_2 (type sel = "router")) in Hrun by (by rewrite Ht).
    destruct Hw as [Herr | [-> Hunk]].
    { destruct errors; [done|]. cbn [length] in Hrun.
      by rewrite bool_decide_eq_true_2 in Hrun by lia. }
    destruct (blank (Some (node_name panel))) eqn:Hname.
    { cbn [length] in Hrun. by rewrite bool_decide_eq_true_2 in Hrun by lia. }
    destruct (config sel) as [c|] eqn:Ec.
    2:{ cbn [length] in Hrun. by rewrite bool_decide_eq_false_2 in Hrun by lia. }
    apply (Hfinish c s sel); try done; [|by rewrite Ec].
    intros node Htn Hsn Hcn.
    assert (Hsubs : ∀ t, t ∈ knownAgentTypes → subType_is t node = false).
    { intros t Hin. apply bool_decide_eq_false. rewrite Hsn. by apply Hunk. }
    unfold agentErrors, agentConfigured, is_type, config_or_empty.
    rewrite (bool_decide_eq_true_2 _ Htn), Hcn.
    rewrite !Hsubs by (unfold knownAgentTypes; set_solver).
    cbn [name with_name andb]. rewrite Hname. done.
Qed.

Lemma applyNodeConfig_stored_passes_validators_witness :
  ∃ s' sel',
    applyNodeConfig openaiPanel (λ node, Some (node, [])) agentEditor = ApplyStored s'
    ∧ selectedNode s' = Some sel'
    ∧ agentErrors sel' = []
    ∧ agentConfigured sel' = true.
Proof.
  eexists.
  destruct (applyNodeConfig_stored_passes_validators openaiPanel
              (λ node, Some (node, [])) agentEditor _
              (snd (createNode {| card_type := "agent"; agentType := Some "openai";
                                  toolType := None |} emptyEditor))
              eq_refl eq_refl eq_refl)
    as (sel' & c' & Hs & _ & _ & _ & _ & _ & _ & _ & _ & He & Hc & _).
  exists sel'. split; [reflexivity|]. split; [exact Hs|]. split; [exact He | exact Hc].
Defined.

(** X17. For a selected node that is not a router and has its
    configuration and its element, [applyNodeConfig] is all or nothing:
    either it shows at least one validation error and the editor is
    exactly as before, or it stores the panel and the node carries the
    new name.  A blank name is always an error, and a stored name is
    never blank; blank is empty or white space only ([whiteOnly]: the
    code points that [String.prototype.trim] removes, Unicode spaces
    included). *)
Theorem applyNodeConfig_all_or_nothing (panel : ConfigPanel)
    (routerBlock : NodeData → option (NodeData * list string))
    (s : Editor) (sel : NodeData) :
  selectedNode s = Some sel →
  type sel ≠ "router" →
  is_Some (config sel) →
  is_Some (element sel) →
  ((∃ errors, applyNodeConfig panel routerBlock s = ApplyRejected s errors
              ∧ errors ≠ [])
   ∨ (∃ s' sel' c',
        applyNodeConfig panel routerBlock s = ApplyStored s'
        ∧ blank (Some (node_name panel)) = false
        ∧ selectedNode s' = Some sel'
        ∧ config sel' = Some c'
        ∧ name c' = Some (node_name panel)))
  ∧ (blank (Some (node_name panel)) = true →
     ∃ errors, applyNodeConfig panel routerBlock s = ApplyRejected s errors
               ∧ "Node name is required" ∈ errors)
  ∧ (whiteOnly (node_name panel) →
     ∃ errors, applyNodeConfig panel routerBlock s = ApplyRejected s errors
               ∧ "Node name is required" ∈ errors)
  ∧ (∀ s', applyNodeConfig panel routerBlock s = ApplyStored s' →
           ¬ whiteOnly (node_name panel)).
Proof.
  intros Hsel Hnr Hcfg Helem.
  assert (Hmain :
    ((∃ errors, applyNodeConfig panel routerBlock s = ApplyRejected s errors
                ∧ errors ≠ [])
     ∨ (∃ s' sel' c',
          applyNodeConfig panel routerBlock s = ApplyStored s'
          ∧ blank (Some (node_name panel)) = false
          ∧ selectedNode s' = Some sel'
          ∧ config sel' = Some c'
          ∧ name c' = Some (node_name panel)))
    ∧ (blank (Some (node_name panel)) = true →
       ∃ errors, applyNodeConfig panel routerBlock s = ApplyRejected s errors
                 ∧ "Node name is required" ∈ errors)).
  { revert Hsel Hnr Hcfg Helem.
    intros Hsel Hnr [c Hc] [el Hel].
    unfold applyNodeConfig. rewrite Hsel.
    set (errors0 := if blank (Some (node_name panel))
                    then ["Node name is required"] else []).
    assert (Hbranch : ∃ errors writes,
              (if bool_decide (type sel = "agent")
               then agentBranch panel sel errors0
               else (errors0, None)) = (errors, writes)
              ∧ (∃ more, errors = errors0 ++ more)
              ∧ (is_Some writes → errors = [])).
    { case_bool_decide as Ht.
      - destruct (agentBranch panel sel errors0) as [errors writes] eqn:Eb.
        exists errors, writes. split; [done|].
        apply agentBranch_spec in Eb as [Hmore Hw]. split; [done|].
        intros [w ->]. by destruct Hw.
      - exists errors0, None. split; [done|].
        split; [exists []; by rewrite app_nil_r | by intros [? ?]]. }
    destruct Hbranch as (errors & writes & -> & [more Hmore] & Hw).
    assert (Hrejected :
      errors ≠ [] →
      match (match writes with
             | Some w =>
                 match config sel with
                 | Some c => Some (set_selected (with_config (w c) sel) s,
                                   with_config (w c) sel)
                 | None => None
                 end
             | None => Some (s, sel)
             end) with
      | None => ApplyTypeError s
      | Some (s1, sel1) =>
          match (if bool_decide (type sel1 = "router")
                 then match routerBlock sel1 with
                      | Some (sel2, errors') =>
                          Some (set_selected sel2 s1, sel2, errors ++ errors')
                      | None => None
                      end
                 else Some (s1, sel1, errors)) with
          | None => ApplyTypeError s1
          | Some (s2, sel2, validationErrors) =>
              if bool_decide (0 < length validationErrors)%nat
              then ApplyRejected s2 validationErrors
              else
                match config sel2 with
                | None => ApplyTypeError s2
                | Some c =>
                    let sel3 := with_config (with_name (node_name panel) c) sel2 in
                    let s3 := set_selected sel3 s2 in
                    if bool_decide (type sel3 = "agent")
                       && negb (bool_decide (is_Some (element sel3)))
                    then ApplyTypeError s3
                    else ApplyStored s3
                end
          end
      end = ApplyRejected s errors).
    { intros Hne. destruct writes as [w|]; [by destruct Hne; apply Hw|].
      rewrite (bool_decide_eq_false_2 _ Hnr).
      destruct errors; [done|]. cbn [length]. by rewrite bool_decide_eq_true_2 by lia. }
    split.
    - destruct errors as [|e errors'] eqn:Ee.
      + right.
        assert (Hname : blank (Some (node_name panel)) = false).
        { unfold errors0 in Hmore. destruct (blank (Some (node_name panel))); [|done].
          symmetry in Hmore. by apply app_nil in Hmore as [? _]. }
        destruct writes as [w|].
        * rewrite Hc.
          rewrite (bool_decide_eq_false_2 (type (with_config (w c) sel) = "router"))
            by done.
          cbn [length]. rewrite bool_decide_eq_false_2 by lia.
          cbn [config with_config]. cbv zeta.
          cbn [element with_config]. rewrite Hel.
          rewrite (bool_decide_eq_true_2 (is_Some (Some el))) by eauto.
          rewrite andb_false_r.
          eexists _, _, _. split; [reflexivity|]. split; [done|].
          split; [reflexivity|]. split; [reflexivity|]. done.
        * rewrite (bool_decide_eq_false_2 _ Hnr).
          cbn [length]. rewrite bool_decide_eq_false_2 by lia.
          rewrite Hc. cbv zeta. cbn [element with_config]. rewrite Hel.
          rewrite (bool_decide_eq_true_2 (is_Some (Some el))) by eauto.
          rewrite andb_false_r.
          eexists _, _, _. split; [reflexivity|]. split; [done|].
          split; [reflexivity|]. split; [reflexivity|]. done.
      + left. exists (e :: errors'). split; [by apply Hrejected | done].
    - intros Hname. exists errors.
      assert (Hin : "Node name is required" ∈ errors).
      { rewrite Hmore. unfold errors0. rewrite Hname. left. }
      split; [|done]. apply Hrejected. intros E. rewrite E in Hin.
      by apply elem_of_nil in Hin.
  }
  destruct Hmain as [Hcases Hblank].
  split; [done|]. split; [done|]. split.
  - intros Hw. apply Hblank. by apply (blank_spec (Some (node_name panel))).
  - intros s' Hst Hw.
    destruct Hblank as (errors & Hrej & _);
      [by apply (blank_spec (Some (node_name panel)))|].
    rewrite Hst in Hrej. discriminate Hrej.
Qed.

Lemma applyNodeConfig_all_or_nothing_witness :
  (∃ s', applyNodeConfig openaiPanel (λ node, Some (node, [])) agentEditor
         = ApplyStored s')
  ∧ ∃ errors,
      applyNodeConfig unicodeBlankNamePanel (λ node, Some (node, [])) agentEditor
      = ApplyRejected agentEditor errors
      ∧ "Node name is required" ∈ errors.
Proof.
  split.
  - destruct (applyNodeConfig_all_or_nothing openaiPanel (λ node, Some (node, []))
                agentEditor
                (snd (createNode {| card_type := "agent"; agentType := Some "openai";
                                    toolType := None |} emptyEditor))
                eq_refl) as [[(errors & Hrej & _) | (s' & _ & _ & Hst & _)] _].
    + discriminate.
    + eexists. reflexivity.
    + eexists. reflexivity.
    + discriminate Hrej.
    + exists s'. exact Hst.
  - destruct (applyNodeConfig_all_or_nothing unicodeBlankNamePanel
                (λ node, Some (node, [])) agentEditor
                (snd (createNode {| card_type := "agent"; agentType := Some "openai";
                                    toolType := None |} emptyEditor))
                eq_refl) as (_ & Hblank & _).
    + discriminate.
    + eexists. reflexivity.
    + eexists. reflexivity.
    + apply Hblank. reflexivity.
Defined.

(** A name of a no-break space and an em space is blank: the panel is
    rejected and the editor is as before. *)
Example applyNodeConfig_unicode_blank_name :
  applyNodeConfig unicodeBlankNamePanel (λ node, Some (node, [])) agentEditor
  = ApplyRejected agentEditor ["Node name is required"].
Proof. vm_compute. reflexivity. Qed.
(** ** The router block of the panel *)

Section RouterBlock.

Implicit Types (s : Editor) (sel node : NodeData) (c : Config) (ports : list Z).

Lemma remove_first_port_snoc x ports :
  x ∉ ports → remove_first_port x (ports ++ [x]) = ports.
Proof.
  induction ports as [|p ports IH]; intros Hx; cbn [app remove_first_port].
  - by rewrite bool_decide_eq_true_2.
  - rewrite bool_decide_eq_false_2 by (intros ->; apply Hx; left).
    rewrite IH; [done|]. intros H. apply Hx. by right.
Qed.

Lemma seqZ_snoc (m n : Z) : 0 ≤ n → seqZ m (n + 1) = seqZ m n ++ [m + n].
Proof. intros Hn. by rewrite seqZ_app by lia. Qed.

(** Removing the ports [count + d - 1], ..., [count], in this order,
    from the ports [0 .. count + d - 1]. *)
Lemma remove_excess_ports (d : nat) (count : Z) :
  0 ≤ count →
  foldl (λ acc i, remove_first_port i acc) (seqZ 0 (count + Z.of_nat d))
        (reverse (seqZ count (Z.of_nat d)))
  = seqZ 0 count.
Proof.
  intros Hc. induction d as [|d IH].
  - cbn. by rewrite Z.add_0_r.
  - replace (Z.of_nat (S d)) with (Z.of_nat d + 1) by lia.
    rewrite (seqZ_snoc count) by lia. rewrite reverse_snoc. cbn [foldl].
    replace (count + (Z.of_nat d + 1)) with ((count + Z.of_nat d) + 1) by lia.
    rewrite (seqZ_snoc 0) by lia. rewrite Z.add_0_l.
    rewrite remove_first_port_snoc; [exact IH|].
    intros Hin%elem_of_seqZ. lia.
Qed.

Lemma container_of_with_config c node :
  container_of (with_config c node) = container_of node.
Proof. done. Qed.

(** With a configuration whose port count is already the wanted one,
    [updateRouterOutputPorts] returns, and leaves the configuration and
    the identity of the node alone. *)
Lemma updateRouterOutputPorts_config node c count :
  config node = Some c →
  outputPorts c = Some (Z.max 2 count) →
  ∃ node',
    updateRouterOutputPorts node count = Some node'
    ∧ config node' = Some c
    ∧ node_id node' = node_id node ∧ type node' = type node
    ∧ subType node' = subType node
    ∧ (is_Some (element node') ↔ is_Some (element node)).
Proof.
  intros Hc Hn. unfold updateRouterOutputPorts.
  destruct (negb _); [by eexists|].
  destruct (container_of node) as [ports|] eqn:Ep; [|by eexists].
  destruct (bool_decide (_ = _)); [by eexists|].
  rewrite Hc. eexists. split; [reflexivity|].
  unfold container_of in Ep. destruct (element node) as [el|] eqn:Ee; [|done].
  unfold with_container. rewrite Ee. cbn [config with_config node_id type subType element].
  rewrite (with_outputPorts_same c _ Hn). repeat split; eauto.
Qed.

(** What [updateRouterOutputPorts] does to port elements numbered
    [0 .. k - 1]: nothing when there are as many as wanted, and
    otherwise the node it returns. *)
Lemma updateRouterOutputPorts_ports (node : NodeData) (c : Config) (k count : Z) :
  type node = "router" →
  config node = Some c →
  container_of node = Some (seqZ 0 k) →
  0 ≤ k →
  ∃ node',
    updateRouterOutputPorts node count = Some node'
    ∧ container_of node' = Some (seqZ 0 (Z.max 2 count))
    ∧ (k = Z.max 2 count → node' = node)
    ∧ (k ≠ Z.max 2 count →
       node' = with_config (with_outputPorts (Z.max 2 count) c)
                           (with_container (seqZ 0 (Z.max 2 count)) node)).
Proof.
  intros Ht Hc Hp Hk.
  destruct (decide (k = Z.max 2 count)) as [->|Hne].
  { exists node. unfold updateRouterOutputPorts.
    rewrite Ht, Hp. rewrite (bool_decide_eq_true_2 ("router" = "router")) by done.
    cbn [negb]. rewrite length_seqZ. by rewrite bool_decide_eq_true_2 by lia. }
  unfold updateRouterOutputPorts.
  rewrite Ht, Hp. rewrite (bool_decide_eq_true_2 ("router" = "router")) by done.
  cbn [negb]. rewrite length_seqZ.
  rewrite bool_decide_eq_false_2 by lia. rewrite Hc.
  set (n := Z.max 2 count) in *.
  set (ports' := if bool_decide (Z.of_nat (Z.to_nat k) < n) then _ else _).
  assert (Hports : ports' = seqZ 0 n).
  { unfold ports'. rewrite Z2Nat.id by lia. case_bool_decide as Hlt.
    - replace n with (k + (n - k)) at 2 by lia.
      rewrite (seqZ_app 0 k (n - k)) by lia. done.
    - assert (Hd : k - n = Z.of_nat (Z.to_nat (k - n))) by lia.
      rewrite Hd.
      replace (seqZ 0 k) with (seqZ 0 (n + Z.of_nat (Z.to_nat (k - n))))
        by (f_equal; lia).
      apply remove_excess_ports. lia. }
  rewrite Hports.
  destruct (with_container_spec node _ (seqZ 0 n) Hp) as (Hid & Htt & Hcc & Hcont).
  eexists. split; [reflexivity|].
  split; [by rewrite container_of_with_config|]. done.
Qed.

End RouterBlock.

(** X18. [updateRouterOutputPorts] on a router whose port elements are
    numbered [0 .. k - 1] leaves the port elements [0 .. n - 1], where
    [n] is the wanted count, at least 2: it appends the missing
    elements, or removes the excess ones from the highest number down.
    It writes [n] into [config.outputPorts] unless there were [n]
    elements already, in which case it returns at once and the node is
    untouched; the rules are never touched.  A second call with the
    same count changes nothing. *)
Theorem updateRouterOutputPorts_renumbers (node : NodeData) (c : Config) (k count : Z) :
  type node = "router" →
  config node = Some c →
  container_of node = Some (seqZ 0 k) →
  0 ≤ k →
  ∃ node',
    updateRouterOutputPorts node count = Some node'
    ∧ container_of node' = Some (seqZ 0 (Z.max 2 count))
    ∧ (k ≠ Z.max 2 count → outputPorts_of node' = Some (Z.max 2 count))
    ∧ (k = Z.max 2 count → node' = node)
    ∧ keywordPatterns_of node' = keywordPatterns_of node
    ∧ node_id node' = node_id node ∧ type node' = type node
    ∧ updateRouterOutputPorts node' count = Some node'.
Proof.
  intros Ht Hc Hp Hk.
  destruct (updateRouterOutputPorts_ports node c k count Ht Hc Hp Hk)
    as (node' & Hrun & Hcont & Hsame & Hnew).
  exists node'. split; [exact Hrun|]. split; [exact Hcont|].
  destruct (with_container_spec node _ (seqZ 0 (Z.max 2 count)) Hp)
    as (Hid & Htt & Hcc & _).
  assert (Hkeep : keywordPatterns_of node' = keywordPatterns_of node
                  ∧ node_id node' = node_id node ∧ type node' = type node
                  ∧ ∃ c', config node' = Some c').
  { destruct (decide (k = Z.max 2 count)) as [Heq|Hne].
    - rewrite (Hsame Heq). eauto.
    - rewrite (Hnew Hne). unfold keywordPatterns_of.
      cbn [config with_config node_id type keywordPatterns with_outputPorts].
      rewrite Hc. eauto. }
  destruct Hkeep as (Hps & Hid' & Ht' & c' & Hc').
  split.
  { intros Hne. rewrite (Hnew Hne). unfold outputPorts_of. done. }
  split; [exact Hsame|]. split; [exact Hps|]. split; [exact Hid'|].
  split; [exact Ht'|].
  (* the second call finds the wanted number of port elements *)
  destruct (updateRouterOutputPorts_ports node' c' (Z.max 2 count) count)
    as (node'' & Hrun' & _ & Hsame' & _); [by rewrite Ht' | done | done | lia |].
  by rewrite Hrun', Hsame'.
Qed.

Lemma updateRouterOutputPorts_renumbers_witness :
  ∃ node',
    updateRouterOutputPorts (snd (createNode routerCard emptyEditor)) 4 = Some node'
    ∧ container_of node' = Some [0; 1; 2; 3]
    ∧ outputPorts_of node' = Some 4.
Proof.
  destruct (updateRouterOutputPorts_renumbers
              (snd (createNode routerCard emptyEditor)) defaultRouterConfig 2 4
              eq_refl eq_refl eq_refl) as (node' & Hrun & Hcont & Hout & _).
  - lia.
  - exists node'. split; [exact Hrun|]. split; [exact Hcont|]. apply Hout. lia.
Defined.

Section KeywordBlock.

Implicit Types (s : Editor) (sel node : NodeData) (c : Config).

(** The keyword branch of the router block, on a node with a
    configuration and with at least one qualifying row. *)
Lemma routerBlock_keyword (rp : RouterPanel) node c :
  config node = Some c →
  router_strategy rp = "keyword" →
  omap rowPattern (keyword_rows rp) ≠ [] →
  let patterns := omap rowPattern (keyword_rows rp) in
  let n := Z.max 2 (Z.of_nat (length patterns)) in
  let c2 := with_outputPorts n
              (with_keywordPatterns patterns (with_routingStrategy "keyword" c)) in
  ∃ node',
    routerBlock rp node = Some (node', [])
    ∧ updateRouterOutputPorts (with_config c2 node) (Z.of_nat (length patterns))
      = Some node'
    ∧ config node' = Some c2
    ∧ node_id node' = node_id node ∧ type node' = type node
    ∧ subType node' = subType node
    ∧ (is_Some (element node') ↔ is_Some (element node)).
Proof.
  intros Hc Hst Hne. cbv zeta.
  unfold routerBlock. rewrite Hc, Hst.
  rewrite (bool_decide_eq_false_2 ("keyword" = "ai")) by done.
  rewrite (bool_decide_eq_true_2 ("keyword" = "keyword")) by done.
  rewrite bool_decide_eq_false_2 by (by intros ?%length_zero_iff_nil).
  set (patterns := omap rowPattern (keyword_rows rp)) in *.
  set (c2 := with_outputPorts _ _).
  destruct (updateRouterOutputPorts_config (with_config c2 node) c2
              (Z.of_nat (length patterns)) eq_refl eq_refl)
    as (node' & Hrun & Hc' & Hid & Ht & Hsub & Hel).
  exists node'. rewrite Hrun. done.
Qed.

End KeywordBlock.

(** The rules that the keyword block builds, row by row: a row gives a
    rule when it has a pattern field and a port selector and its text
    is not blank; the rule holds the trimmed text, converted by the
    pattern type of the row. *)
Lemma elem_of_rowPatterns (rows : list KeywordRow) (p : Pattern) :
  p ∈ omap rowPattern rows ↔
  ∃ row value port0,
    row ∈ rows
    ∧ pattern_input row = Some value
    ∧ port_select row = Some port0
    ∧ ¬ whiteOnly value
    ∧ trimmedOf value (trim value)
    ∧ p = {| keyword :=
               patternFor (value_or (data_pattern_type row) "contains") (trim value);
             pat_port := port0;
             originalType := value_or (data_pattern_type row) "contains";
             originalValue := trim value |}.
Proof.
  rewrite list_elem_of_omap. split.
  - intros (row & Hrow & Hp). unfold rowPattern in Hp.
    destruct (pattern_input row) as [value|] eqn:Ev; [|done].
    destruct (port_select row) as [port0|] eqn:Ep; [|done].
    case_bool_decide as Ht; [|done]. injection Hp as <-.
    exists row, value, port0. rewrite <- trim_blank.
    split; [done|]. split; [done|]. split; [done|]. split; [done|].
    split; [apply trim_spec | done].
  - intros (row & value & port0 & Hrow & Hv & Hp & Ht & _ & ->). exists row.
    split; [done|]. unfold rowPattern. rewrite Hv, Hp.
    rewrite <- trim_blank in Ht. by rewrite bool_decide_eq_true_2.
Qed.

(** X19. When [applyNodeConfig] is run on a selected router with the
    keyword strategy, a name and at least one row with a keyword, it
    stores the panel: the router gets one rule per row that has a
    keyword (rows whose text is white space only, Unicode spaces
    included, are skipped), in the order of the rows, each with the text
    of its row without the white space at its two ends ([trimmedOf]) and
    the port chosen in its row; [outputPorts] becomes
    the number of rules, or 2 when there is one rule only; and, the port
    elements being numbered from 0, they are brought to that count.
    When the ports chosen in the rows are 0, 1, 2, ... in this order,
    the router is in the state [RouterInv], and with two rules or more
    it has exactly one rule per port. *)
Theorem applyNodeConfig_keyword_router (panel : ConfigPanel) (rp : RouterPanel)
    (s : Editor) (sel : NodeData) (c : Config) (k : Z) :
  selectedNode s = Some sel →
  type sel = "router" →
  config sel = Some c →
  container_of sel = Some (seqZ 0 k) →
  0 ≤ k →
  router_strategy rp = "keyword" →
  blank (Some (node_name panel)) = false →
  omap rowPattern (keyword_rows rp) ≠ [] →
  let patterns := omap rowPattern (keyword_rows rp) in
  let n := Z.max 2 (Z.of_nat (length patterns)) in
  ∃ s' sel' c',
    applyNodeConfig panel (routerBlock rp) s = ApplyStored s'
    ∧ selectedNode s' = Some sel'
    ∧ node_id sel' = node_id sel
    ∧ config sel' = Some c'
    ∧ name c' = Some (node_name panel)
    ∧ routingStrategy c' = Some "keyword"
    ∧ keywordPatterns c' = Some patterns
    ∧ outputPorts c' = Some n
    ∧ container_of sel' = Some (seqZ 0 n)
    ∧ connections s' = connections s
    ∧ (rules_in_order patterns → RouterInv s')
    ∧ (rules_in_order patterns → (2 ≤ length patterns)%nat → RouterSynced s')
    ∧ ¬ whiteOnly (node_name panel)
    ∧ (∀ p, p ∈ omap rowPattern (keyword_rows rp) ↔
         ∃ row value port0,
           row ∈ keyword_rows rp
           ∧ pattern_input row = Some value
           ∧ port_select row = Some port0
           ∧ ¬ whiteOnly value
           ∧ trimmedOf value (trim value)
           ∧ p = {| keyword :=
                      patternFor (value_or (data_pattern_type row) "contains")
                                 (trim value);
                    pat_port := port0;
                    originalType := value_or (data_pattern_type row) "contains";
                    originalValue := trim value |}).
Proof.
  intros Hsel Ht Hc Hp Hk Hst Hname Hne. cbv zeta.
  set (patterns := omap rowPattern (keyword_rows rp)) in *.
  set (n := Z.max 2 (Z.of_nat (length patterns))).
  destruct (routerBlock_keyword rp sel c Hc Hst Hne)
    as (node' & Hblock & Hupd & Hc' & Hid & Ht' & Hsub & Hel).
  fold patterns in Hupd, Hc'. fold n in Hupd, Hc'.
  set (c2 := with_outputPorts n
               (with_keywordPatterns patterns (with_routingStrategy "keyword" c))) in *.
  destruct (updateRouterOutputPorts_ports (with_config c2 sel) c2 k
              (Z.of_nat (length patterns)) Ht eq_refl Hp Hk)
    as (node'' & Hupd' & Hcont & _ & _).
  assert (node'' = node') as -> by congruence.
  fold n in Hcont.
  unfold applyNodeConfig. rewrite Hsel, Hname.
  rewrite (bool_decide_eq_false_2 (type sel = "agent")) by (by rewrite Ht).
  rewrite (bool_decide_eq_true_2 _ Ht), Hblock.
  cbn [app length]. rewrite bool_decide_eq_false_2 by lia.
  rewrite Hc'. cbv zeta.
  rewrite (bool_decide_eq_false_2 (type (with_config _ node') = "agent"))
    by (cbn [type with_config]; by rewrite Ht', Ht).
  cbn [andb].
  eexists _, _, _. split; [reflexivity|].
  cbn [selectedNode set_selected connections].
  split; [reflexivity|]. split; [exact Hid|]. split; [reflexivity|].
  split; [done|]. split; [done|]. split; [done|]. split; [done|].
  split; [by rewrite container_of_with_config|]. split; [done|].
  assert (Hinv : rules_in_order patterns →
            RouterInv (set_selected (with_config (with_name (node_name panel) c2) node')
                         (set_selected node' s))).
  { intros Hord.
    apply (RouterInv_intro _ (with_config (with_name (node_name panel) c2) node')
             (with_name (node_name panel) c2) n patterns); try done.
    - cbn [type with_config]. by rewrite Ht'.
    - unfold n. lia.
    - unfold n. lia.
    - by rewrite container_of_with_config, Hcont. }
  split; [exact Hinv|].
  split; [|split; [|intros p; apply elem_of_rowPatterns]].
  - intros Hord Hlen. unfold RouterSynced.
    cbn [selectedNode set_selected]. unfold outputPorts_of, keywordPatterns_of.
    cbn [config with_config outputPorts keywordPatterns with_name c2
         with_outputPorts with_keywordPatterns].
    split; [unfold n; lia|]. split; [unfold n; lia | done].
  - intros Hw. apply (blank_spec (Some (node_name panel))) in Hw.
    rewrite Hw in Hname. discriminate Hname.
Qed.

Lemma applyNodeConfig_keyword_router_witness :
  ∃ s' sel' c',
    applyNodeConfig (routerNamePanel "Dispatcher") (routerBlock unicodeKeywordPanel)
                    routerEditor = ApplyStored s'
    ∧ selectedNode s' = Some sel'
    ∧ config sel' = Some c'
    ∧ map originalValue <$> keywordPatterns c' = Some ["weather"; "help me"]
    ∧ map keyword <$> keywordPatterns c' = Some ["weather"; "^help me$"]
    ∧ outputPorts c' = Some 2.
Proof.
  destruct (applyNodeConfig_keyword_router (routerNamePanel "Dispatcher") unicodeKeywordPanel
              routerEditor (snd (createNode routerCard emptyEditor))
              defaultRouterConfig 2 eq_refl eq_refl eq_refl eq_refl)
    as (s' & sel' & c' & Hrun & Hs & _ & Hc & _ & _ & Hp & Ho & _).
  - lia.
  - reflexivity.
  - reflexivity.
  - vm_compute. discriminate.
  - exists s', sel', c'. split; [exact Hrun|]. split; [exact Hs|]. split; [exact Hc|].
    rewrite Hp, Ho. split; [|split]; vm_compute; reflexivity.
Defined.

(** X20. [applyNodeConfig] on a router is not all or nothing.  When the
    name field is blank the panel is rejected with the error
    [Node name is required] and the name is not stored, but the router
    block has run: the selected router carries the strategy of the
    panel, and with the keyword strategy and at least one row with a
    keyword also the rules and the port count of the panel.  With the
    keyword strategy and no row with a keyword (rows whose text is
    blank, Unicode white space included, are skipped) the rules and the
    port count are left as they were, and a second error asks for a
    pattern. *)
Theorem applyNodeConfig_router_rejected_but_written (panel : ConfigPanel)
    (rp : RouterPanel) (s : Editor) (sel : NodeData) (c : Config) :
  selectedNode s = Some sel →
  type sel = "router" →
  config sel = Some c →
  blank (Some (node_name panel)) = true →
  ∃ s' errors sel' c',
    applyNodeConfig panel (routerBlock rp) s = ApplyRejected s' errors
    ∧ "Node name is required" ∈ errors
    ∧ selectedNode s' = Some sel'
    ∧ node_id sel' = node_id sel
    ∧ config sel' = Some c'
    ∧ name c' = name c
    ∧ routingStrategy c' = Some (router_strategy rp)
    ∧ (router_strategy rp = "keyword" →
       omap rowPattern (keyword_rows rp) ≠ [] →
       keywordPatterns c' = Some (omap rowPattern (keyword_rows rp))
       ∧ outputPorts c'
         = Some (Z.max 2 (Z.of_nat (length (omap rowPattern (keyword_rows rp))))))
    ∧ (router_strategy rp = "keyword" →
       omap rowPattern (keyword_rows rp) = [] →
       keywordPatterns c' = keywordPatterns c
       ∧ outputPorts c' = outputPorts c
       ∧ "At least one keyword pattern is required" ∈ errors)
    ∧ (∀ p, p ∈ omap rowPattern (keyword_rows rp) ↔
         ∃ row value port0,
           row ∈ keyword_rows rp
           ∧ pattern_input row = Some value
           ∧ port_select row = Some port0
           ∧ ¬ whiteOnly value
           ∧ trimmedOf value (trim value)
           ∧ p = {| keyword :=
                      patternFor (value_or (data_pattern_type row) "contains")
                                 (trim value);
                    pat_port := port0;
                    originalType := value_or (data_pattern_type row) "contains";
                    originalValue := trim value |})
    ∧ whiteOnly (node_name panel).
Proof.
  intros Hsel Ht Hc Hname.
  assert (Hblock : ∃ node' c' errors,
            routerBlock rp sel = Some (node', errors)
            ∧ node_id node' = node_id sel
            ∧ config node' = Some c'
            ∧ name c' = name c
            ∧ routingStrategy c' = Some (router_strategy rp)
            ∧ (router_strategy rp = "keyword" →
               omap rowPattern (keyword_rows rp) ≠ [] →
               keywordPatterns c' = Some (omap rowPattern (keyword_rows rp))
               ∧ outputPorts c'
                 = Some (Z.max 2 (Z.of_nat (length (omap rowPattern (keyword_rows rp))))))
            ∧ (router_strategy rp = "keyword" →
               omap rowPattern (keyword_rows rp) = [] →
               keywordPatterns c' = keywordPatterns c
               ∧ outputPorts c' = outputPorts c
               ∧ "At least one keyword pattern is required" ∈ errors)).
  { destruct (decide (router_strategy rp = "keyword")) as [Hk|Hk].
    - destruct (decide (omap rowPattern (keyword_rows rp) = [])) as [He|He].
      + unfold routerBlock. rewrite Hc, Hk.
        rewrite (bool_decide_eq_false_2 ("keyword" = "ai")) by done.
        rewrite (bool_decide_eq_true_2 ("keyword" = "keyword")) by done.
        rewrite He. cbn [length]. rewrite bool_decide_eq_true_2 by done.
        eexists _, _, _. split; [reflexivity|]. split; [done|].
        split; [reflexivity|]. split; [done|]. split; [done|]. split; [done|].
        intros _ _. split; [done|]. split; [done|].
        apply list_elem_of_singleton. reflexivity.
      + destruct (routerBlock_keyword rp sel c Hc Hk He)
          as (node' & Hrun & _ & Hc' & Hid & _).
        eexists _, _, _. split; [exact Hrun|]. split; [done|].
        split; [exact Hc'|]. split; [done|]. split; [by rewrite Hk|].
        split; [done | done].
    - unfold routerBlock. rewrite Hc.
      rewrite (bool_decide_eq_false_2 _ Hk).
      repeat case_bool_decide;
        (eexists _, _, _; split; [reflexivity|]; split; [done|];
         split; [reflexivity|]; split; [done|]; split; [done|];
         split; done). }
  destruct Hblock as (node' & c' & errors & Hrun & Hid & Hc' & Hn & Hs & Hkw & Hnone).
  unfold applyNodeConfig. rewrite Hsel, Hname.
  rewrite (bool_decide_eq_false_2 (type sel = "agent")) by (by rewrite Ht).
  rewrite (bool_decide_eq_true_2 _ Ht), Hrun.
  cbn [app length]. rewrite bool_decide_eq_true_2 by lia.
  eexists _, _, node', c'. split; [reflexivity|].
  split; [left|].
  split; [done|]. split; [done|]. split; [done|]. split; [done|]. split; [done|].
  split; [done|]. split.
  - intros Hk He. destruct (Hnone Hk He) as (Hp & Ho & Herr).
    split; [done|]. split; [done|]. by right.
  - split; [intros p; apply elem_of_rowPatterns|].
    by apply (blank_spec (Some (node_name panel))).
Qed.

Lemma applyNodeConfig_router_rejected_but_written_witness :
  ∃ s' errors sel' c',
    applyNodeConfig (routerNamePanel nbsp) (routerBlock keywordPanel) routerEditor
    = ApplyRejected s' errors
    ∧ selectedNode s' = Some sel'
    ∧ config sel' = Some c'
    ∧ name c' = Some "Router"
    ∧ length <$> keywordPatterns c' = Some 2%nat.
Proof.
  destruct (applyNodeConfig_router_rejected_but_written (routerNamePanel nbsp)
              keywordPanel routerEditor (snd (createNode routerCard emptyEditor))
              defaultRouterConfig eq_refl eq_refl eq_refl)
    as (s' & errors & sel' & c' & Hrun & _ & Hs & _ & Hc & Hn & _ & Hkw & _).
  - reflexivity.
  - exists s', errors, sel', c'. split; [exact Hrun|]. split; [exact Hs|].
    split; [exact Hc|]. split; [exact Hn|].
    destruct Hkw as [Hp _]; [reflexivity | vm_compute; discriminate |].
    rewrite Hp. vm_compute. reflexivity.
Defined.

(** Unicode white space in the panel: a no-break space after a keyword
    is trimmed away, a row of spaces only is skipped, and so the rows of
    [unicodeKeywordPanel] give the rules of [keywordPanel]; a name that
    is a no-break space is a missing name, and a panel whose only row is
    a no-break space leaves the rules of the router as they were. *)
Example applyNodeConfig_router_unicode_blank :
  omap rowPattern (keyword_rows unicodeKeywordPanel)
  = omap rowPattern (keyword_rows keywordPanel)
  ∧ map originalValue (omap rowPattern (keyword_rows unicodeKeywordPanel))
    = ["weather"; "help me"]
  ∧ omap rowPattern (keyword_rows blankRowsPanel) = []
  ∧ (λ r, match r with
          | ApplyRejected s' errors =>
              Some (errors, selectedPatterns s')
          | _ => None
          end)
      (applyNodeConfig (routerNamePanel nbsp) (routerBlock blankRowsPanel) routerEditor)
    = Some ([ "Node name is required"; "At least one keyword pattern is required" ],
            selectedPatterns routerEditor).
Proof. repeat split; vm_compute; reflexivity. Qed.
(** ** Keyword patterns *)

Section Patterns.

Implicit Types (s v : string) (c a : ascii).

Lemma backslash_special : is_special backslash = true.
Proof. apply bool_decide_eq_true. unfold regexSpecial. set_solver. Qed.

Lemma unescape_escapeRegex v : unescape (escapeRegex v) = v.
Proof.
  induction v as [|a v IH]; [done|]. cbn [escapeRegex].
  destruct (is_special a) eqn:Ea.
  - cbn [unescape]. rewrite bool_decide_eq_true_2 by done. by rewrite IH.
  - cbn [unescape]. rewrite bool_decide_eq_false_2.
    + by rewrite IH.
    + intros ->. by rewrite backslash_special in Ea.
Qed.

Lemma escapeRegex_inj v v' : escapeRegex v = escapeRegex v' → v = v'.
Proof.
  intros H. rewrite <- (unescape_escapeRegex v), <- (unescape_escapeRegex v').
  by rewrite H.
Qed.

Lemma escapeRegex_plain v : plain v = true → escapeRegex v = v.
Proof.
  induction v as [|a v IH]; [done|]. cbn [plain escapeRegex].
  intros [Ha Hv]%andb_true_iff. apply negb_true_iff in Ha. rewrite Ha.
  by rewrite IH.
Qed.

Lemma append_snoc_inj s s' c :
  s +:+ String c EmptyString = s' +:+ String c EmptyString → s = s'.
Proof.
  revert s'. induction s as [|a s IH]; intros [|a' s'] H; cbn [String.append] in H.
  - done.
  - injection H as _ H. by destruct s'.
  - injection H as _ H. by destruct s.
  - injection H as -> H. f_equal. by apply IH.
Qed.

Lemma endsWith_snoc c s : endsWith c (s +:+ String c EmptyString) = true.
Proof.
  induction s as [|a s IH].
  - cbn. by apply bool_decide_eq_true.
  - change (String a s +:+ String c EmptyString)
      with (String a (s +:+ String c EmptyString)).
    destruct (s +:+ String c EmptyString) eqn:E; [by destruct s|].
    cbn [endsWith]. exact IH.
Qed.

Lemma endsWith_includes c s : endsWith c s = true → includesChar c s = true.
Proof.
  induction s as [|a s IH]; [done|]. cbn [endsWith includesChar].
  destruct s as [|b s].
  - intros ->. done.
  - intros H. rewrite (IH H). by rewrite orb_true_r.
Qed.

Lemma plain_includes c v :
  is_special c = true → plain v = true → includesChar c v = false.
Proof.
  intros Hc. induction v as [|a v IH]; [done|]. cbn [plain includesChar].
  intros [Ha Hv]%andb_true_iff. apply negb_true_iff in Ha.
  rewrite (IH Hv), orb_false_r. apply bool_decide_eq_false. intros ->. congruence.
Qed.

Lemma plain_endsWith c v : is_special c = true → plain v = true → endsWith c v = false.
Proof.
  intros Hc Hv. destruct (endsWith c v) eqn:E; [|done].
  apply endsWith_includes in E. by rewrite (plain_includes c v) in E.
Qed.

Lemma plain_startsWith c v : is_special c = true → plain v = true → startsWith c v = false.
Proof.
  intros Hc. destruct v as [|a v]; [done|]. cbn [plain startsWith].
  intros [Ha _]%andb_true_iff. apply negb_true_iff in Ha.
  apply bool_decide_eq_false. intros ->. congruence.
Qed.

End Patterns.

(** X21. The conversion of a keyword into a regular expression by
    [applyNodeConfig] loses nothing: for each of the types [contains],
    [startsWith], [endsWith] and [exactMatch], two different keywords
    give two different patterns.  The type that
    [showRoutingStrategyConfig] guesses for a stored pattern without
    [originalType] is [exactMatch] for every pattern of that type; and
    for a keyword without regular-expression characters, the pattern of
    type [contains] is the keyword itself and the guess is the type the
    pattern was made with. *)
Theorem pattern_conversion_round_trip (patternType v v' : string) :
  patternType ∈ convertedTypes →
  (patternFor patternType v = patternFor patternType v' → v = v')
  ∧ guessPatternType (patternFor "exactMatch" v) = "exactMatch"
  ∧ (plain v = true →
     patternFor "contains" v = v
     ∧ guessPatternType (patternFor patternType v) = patternType).
Proof.
  intros Hin.
  assert (Hspecial : ∀ c : ascii, c ∈ regexSpecial → is_special c = true).
  { intros c Hc. by apply bool_decide_eq_true. }
  assert (Hcaret : is_special "^" = true) by (apply Hspecial; set_solver).
  assert (Hdollar : is_special "$" = true) by (apply Hspecial; set_solver).
  assert (Hstar : is_special "*" = true) by (apply Hspecial; set_solver).
  assert (Hquest : is_special "?" = true) by (apply Hspecial; set_solver).
  assert (Hbrack : is_special "[" = true) by (apply Hspecial; set_solver).
  assert (Hexact : ∀ x, guessPatternType ("^" +:+ x +:+ "$") = "exactMatch").
  { intros x. unfold guessPatternType.
    change ("^" +:+ x +:+ "$") with (String "^" (x +:+ "$")).
    assert (He : endsWith "$" (String "^" (x +:+ "$")) = true).
    { cbn [endsWith]. destruct (x +:+ "$") eqn:E; [by destruct x|].
      rewrite <- E. apply endsWith_snoc. }
    rewrite He. done. }
  split; [|split; [apply Hexact|]].
  - unfold convertedTypes in Hin. unfold patternFor.
    repeat (apply elem_of_cons in Hin as [-> | Hin];
            [repeat (first [rewrite bool_decide_eq_true_2 by done
                           |rewrite bool_decide_eq_false_2 by done])|]).
    + apply escapeRegex_inj.
    + intros H. cbn [String.append] in H. injection H as H. by apply escapeRegex_inj.
    + intros H%append_snoc_inj. by apply escapeRegex_inj.
    + intros H. cbn [String.append] in H. injection H as H.
      apply append_snoc_inj in H. by apply escapeRegex_inj.
    + by apply elem_of_nil in Hin.
  - intros Hplain.
    assert (Hcontains : patternFor "contains" v = v).
    { unfold patternFor. rewrite !bool_decide_eq_true_2 by done.
      by apply escapeRegex_plain. }
    split; [done|].
    unfold convertedTypes in Hin. unfold patternFor.
    repeat (apply elem_of_cons in Hin as [-> | Hin];
            [repeat (first [rewrite bool_decide_eq_true_2 by done
                           |rewrite bool_decide_eq_false_2 by done])|]).
    + rewrite escapeRegex_plain by done. unfold guessPatternType.
      rewrite plain_startsWith, plain_endsWith, !plain_includes by done. done.
    + rewrite escapeRegex_plain by done.
      change ("^" +:+ v) with (String "^" v).
      assert (He : endsWith "$" (String "^" v) = false).
      { cbn [endsWith]. destruct v as [|b v0]; [done|]. by apply plain_endsWith. }
      unfold guessPatternType. rewrite He. done.
    + rewrite escapeRegex_plain by done. unfold guessPatternType.
      rewrite endsWith_snoc.
      assert (Hs : startsWith "^" (v +:+ "$") = false).
      { destruct v as [|b v0]; [done|]. cbn [String.append].
        by apply (plain_startsWith "^" (String b v0)). }
      rewrite Hs. done.
    + rewrite escapeRegex_plain by done. apply Hexact.
    + by apply elem_of_nil in Hin.
Qed.

Lemma pattern_conversion_round_trip_witness :
  patternFor "startsWith" "flight" = "^flight"
  ∧ guessPatternType (patternFor "startsWith" "flight") = "startsWith".
Proof.
  split; [reflexivity|].
  assert (Hin : "startsWith" ∈ convertedTypes).
  { right. left. }
  destruct (pattern_conversion_round_trip "startsWith" "flight" "flight" Hin)
    as (_ & _ & Hguess).
  apply Hguess. reflexivity.
Defined.
(** ** Invariants of the editor *)

Section EditorInvariants.

Implicit Types (s : Editor) (node : NodeData).

Lemma counted_createNewAgent form s : counted s → counted (createNewAgent form s).
Proof.
  intros Hc. unfold createNewAgent. case_bool_decide; [done|].
  cbn [createNode]. by apply (counted_add_node _ s).
Qed.

(** [applyNodeConfig] writes into the selected node only: the node ids
    and the connections of the store are the same afterwards, whatever
    the router block does to the node. *)
Lemma applyNodeConfig_frame panel
    (routerBlock0 : NodeData → option (NodeData * list string)) s :
  let s' := stateAfter (applyNodeConfig panel routerBlock0 s) s in
  map node_id (nodes s') = map node_id (nodes s)
  ∧ connections s' = connections s
  ∧ nodeCounter s' = nodeCounter s.
Proof.
  cbv zeta. unfold applyNodeConfig.
  destruct (selectedNode s) as [sel|]; [|done].
  destruct (if bool_decide (type sel = "agent") then _ else _) as [errors writes].
  assert (Hsel : ∀ s1 x,
            map node_id (nodes s1) = map node_id (nodes s)
            ∧ connections s1 = connections s ∧ nodeCounter s1 = nodeCounter s →
            map node_id (nodes (set_selected x s1)) = map node_id (nodes s)
            ∧ connections (set_selected x s1) = connections s
            ∧ nodeCounter (set_selected x s1) = nodeCounter s).
  { intros s1 x (H1 & H2 & H3). cbn [nodes set_selected connections nodeCounter].
    by rewrite map_node_id_write_back. }
  assert (Htail : ∀ s1 sel1,
            map node_id (nodes s1) = map node_id (nodes s)
            ∧ connections s1 = connections s ∧ nodeCounter s1 = nodeCounter s →
            let s' := stateAfter
              (match (if bool_decide (type sel1 = "router")
                      then match routerBlock0 sel1 with
                           | Some (sel2, errors') =>
                               Some (set_selected sel2 s1, sel2, errors ++ errors')
                           | None => None
                           end
                      else Some (s1, sel1, errors)) with
               | None => ApplyTypeError s1
               | Some (s2, sel2, validationErrors) =>
                   if bool_decide (0 < length validationErrors)%nat
                   then ApplyRejected s2 validationErrors
                   else
                     match config sel2 with
                     | None => ApplyTypeError s2
                     | Some c =>
                         let sel3 := with_config (with_name (node_name panel) c) sel2 in
                         let s3 := set_selected sel3 s2 in
                         if bool_decide (type sel3 = "agent")
                            && negb (bool_decide (is_Some (element sel3)))
                         then ApplyTypeError s3
                         else ApplyStored s3
                     end
               end) s in
            map node_id (nodes s') = map node_id (nodes s)
            ∧ connections s' = connections s ∧ nodeCounter s' = nodeCounter s).
  { intros s1 sel1 H1. cbv zeta.
    assert (Hend : ∀ s2 sel2 (errs : list string),
              map node_id (nodes s2) = map node_id (nodes s)
              ∧ connections s2 = connections s ∧ nodeCounter s2 = nodeCounter s →
              let s' := stateAfter
                (if bool_decide (0 < length errs)%nat
                 then ApplyRejected s2 errs
                 else
                   match config sel2 with
                   | None => ApplyTypeError s2
                   | Some c =>
                       let sel3 := with_config (with_name (node_name panel) c) sel2 in
                       let s3 := set_selected sel3 s2 in
                       if bool_decide (type sel3 = "agent")
                          && negb (bool_decide (is_Some (element sel3)))
                       then ApplyTypeError s3
                       else ApplyStored s3
                   end) s in
              map node_id (nodes s') = map node_id (nodes s)
              ∧ connections s' = connections s ∧ nodeCounter s' = nodeCounter s).
    { intros s2 sel2 errs H2. cbv zeta.
      destruct (bool_decide (0 < length errs)%nat); [done|].
      destruct (config sel2) as [c|]; [|done]. cbv zeta.
      destruct (_ && _); cbn [stateAfter]; by apply Hsel. }
    destruct (bool_decide (type sel1 = "router")).
    - destruct (routerBlock0 sel1) as [[sel2 errors']|]; [|done].
      apply Hend. by apply Hsel.
    - by apply Hend. }
  destruct writes as [w|].
  - destruct (config sel) as [c|]; [|done]. apply Htail. by apply Hsel.
  - by apply Htail.
Qed.

Lemma counted_frame s s' :
  map node_id (nodes s') = map node_id (nodes s) →
  connections s' = connections s →
  nodeCounter s' = nodeCounter s →
  counted s → counted s'.
Proof.
  intros Hn Hc Hk [[Hnd Hends] Hcount].
  unfold counted, wellFormed. rewrite Hn, Hc, Hk. done.
Qed.

Lemma counted_editor_step op s : counted s → counted (runEditorOp op s).
Proof.
  intros Hc. destruct op as [op|form|panel rp]; cbn [runEditorOp].
  - by apply counted_step.
  - by apply counted_createNewAgent.
  - destruct (applyNodeConfig_frame panel (routerBlock rp) s) as (H1 & H2 & H3).
    by apply (counted_frame s).
Qed.

Lemma well_directed_editor_step op s :
  Forall wellDirected (connections s) →
  Forall wellDirected (connections (runEditorOp op s)).
Proof.
  intros Hc. destruct op as [op|form|panel rp]; cbn [runEditorOp].
  - by apply runStoreOp_well_directed.
  - unfold createNewAgent. by case_bool_decide.
  - destruct (applyNodeConfig_frame panel (routerBlock rp) s) as (_ & H2 & _).
    by rewrite H2.
Qed.

End EditorInvariants.

(** X22. Whatever the user did since the page was loaded (dropping
    cards, adding input and output nodes, creating agents from the
    modal, selecting, connecting, deleting, changing router ports,
    applying the configuration panel), the node ids of the store are
    distinct, every connection joins two nodes that are in the store,
    and so [detectMultipleNetworks] returns a list of networks and
    never throws. *)
Theorem editor_store_stays_well_formed (ops : list EditorOp) :
  let s := runEditorOps ops emptyEditor in
  NoDup (map node_id (nodes s))
  ∧ (∀ c, c ∈ connections s →
          nodeId (start c) ∈ map node_id (nodes s)
          ∧ nodeId (end_ c) ∈ map node_id (nodes s))
  ∧ ∃ networks, detectMultipleNetworks s = Ok networks.
Proof.
  cbv zeta.
  assert (H : ∀ s, counted s → counted (runEditorOps ops s)).
  { induction ops as [|op ops IH]; intros s Hs; [done|].
    cbn [runEditorOps foldl]. apply IH. by apply counted_editor_step. }
  assert (Hc : counted (runEditorOps ops emptyEditor)).
  { apply H. split; [split|]; simpl.
    - constructor.
    - by intros c ?%elem_of_nil.
    - by intros i ?%elem_of_nil. }
  destruct Hc as [Hwf _]. pose proof Hwf as [Hnd Hends].
  split; [done|]. split; [done|].
  destruct (detectMultipleNetworks_disjoint_components _ Hwf) as (comps & _ & _ & Hrun).
  eauto.
Qed.

(** X23. Whatever the user did since the page was loaded, every stored
    connection leaves an output port of one node and enters an input
    port of another node. *)
Theorem editor_connections_stay_well_directed (ops : list EditorOp) :
  Forall wellDirected (connections (runEditorOps ops emptyEditor)).
Proof.
  assert (H : ∀ s, Forall wellDirected (connections s) →
                   Forall wellDirected (connections (runEditorOps ops s))).
  { induction ops as [|op ops IH]; intros s Hs; [done|].
    cbn [runEditorOps foldl]. apply IH. by apply well_directed_editor_step. }
  apply H. constructor.
Qed.
